(** * Duproject: a shallow embedding of the project finder's core

    The development follows the Python sources
      - [config.py]                 (the configured lists),
      - [model/project_model.py]    (class [ProjectModel]),
      - [model/finder_model.py]     (class [FinderModel]),
    and the two standard-library modules the similarity engine and the
    folder hasher call into ([difflib.SequenceMatcher], [fnmatch]).

    Conventions.
      - Python [int] is [Z]; Python [float] is modelled by the exact
        rationals [Q] (no rounding).
      - Python [str] is [string], one [ascii] per character.
      - A Python [dict] is a [gmap] where only lookups matter and an
        association list where the insertion order or the key object
        matters.
      - Code that mutates [self] and emits Qt signals is written in a
        small state-and-exception monad.
      - What the code asks of its environment ([os.path.abspath],
        [os.stat] at import, [datetime.fromtimestamp], [isoformat],
        [fromisoformat], [strftime], [print], [hashlib.sha256]) is a
        parameter of the function that calls it; the calls that can
        raise return a sum. *)

From Stdlib Require Import ZArith QArith Qminmax Qround Lqa Ascii String DecimalString.
From Stdlib Require Import Strings.Byte.
From stdpp Require Import gmap strings list fin_maps sorting.
From stdpp Require Import options.

Local Open Scope Z_scope.

(** ** Python sequences *)

Module Py.

(** [l[i]] for an index that the callers keep within [0 <= i < len(l)]. *)
Definition getitem {A} (l : list A) (i : Z) : option A :=
  if decide (0 <= i) then l !! Z.to_nat i else None.

Definition len {A} (l : list A) : Z := Z.of_nat (length l).

(** [range(lo, hi)] *)
Definition range (lo hi : Z) : list Z := seqZ lo (hi - lo).

(** [sum(...)] over integers *)
Definition sum (l : list Z) : Z := foldr Z.add 0 l.

(** [sorted(l)] / [l.sort()]: Python's sort is stable, so is this
    insertion sort; [le y x] says that [y] may stay in front of [x]. *)
Fixpoint insort {A} (le : A -> A -> bool) (x : A) (l : list A) : list A :=
  match l with
  | [] => [x]
  | y :: l' => if le y x then y :: insort le x l' else x :: l
  end.

Definition sorted {A} (le : A -> A -> bool) (l : list A) : list A :=
  foldl (fun acc x => insort le x acc) [] l.

(** [str] methods *)
Definition lower_char (c : ascii) : ascii :=
  let n := nat_of_ascii c in
  if ((65 <=? n) && (n <=? 90))%nat then ascii_of_nat (n + 32)
  else if ((192 <=? n) && (n <=? 222) && negb (n =? 215))%nat
       then ascii_of_nat (n + 32)
  else c.

Fixpoint lower (s : string) : string :=
  match s with
  | EmptyString => EmptyString
  | String c s' => String (lower_char c) (lower s')
  end.

Definition endswith (s suffix : string) : bool :=
  let n := String.length s in
  let m := String.length suffix in
  (m <=? n)%nat && String.eqb (substring (n - m) m s) suffix.

(** [any(pred(x) for x in l)] *)
Definition any {A} (pred : A -> bool) (l : list A) : bool := existsb pred l.

(** [str(n)] and [f"{n}"] for an [int] *)
Definition str_of_int (n : Z) : string := NilZero.string_of_int (Z.to_int n).

End Py.

(** ** difflib.SequenceMatcher (isjunk=None, autojunk=True) *)

Module difflib.

(** [Match = namedtuple('Match', 'a b size')] *)
Record Match := mkMatch { m_a : Z; m_b : Z; m_size : Z }.

(** Tuples compare lexicographically. *)
Definition Match_leb (x y : Match) : bool :=
  bool_decide (m_a x < m_a y \/
    (m_a x = m_a y /\
      (m_b x < m_b y \/ (m_b x = m_b y /\ m_size x <= m_size y)))).

(** [_calculate_ratio(matches, length)] *)
Definition _calculate_ratio (matches length : Z) : Q :=
  if decide (length = 0) then 1%Q
  else (2 * inject_Z matches / inject_Z length)%Q.

Section SequenceMatcher.
Context {A : Type} `{Countable A}.

(** [__chain_b]: [b2j] maps every element of [b] to the increasing
    list of its positions; with no [isjunk] function the junk set is
    empty, and for [len(b) >= 200] the "popular" elements (more than
    [len(b) // 100 + 1] occurrences) are removed. *)
Definition b2j_setdefault_append (b2j : gmap A (list Z)) (ie : Z * A)
  : gmap A (list Z) :=
  <[ie.2 := default [] (b2j !! ie.2) ++ [ie.1]]> b2j.

Definition enumerate (b : list A) : list (Z * A) :=
  imap (fun i elt => (Z.of_nat i, elt)) b.

Definition __chain_b (b : list A) : gmap A (list Z) :=
  let b2j := foldl b2j_setdefault_append ∅ (enumerate b) in
  let n := Py.len b in
  if decide (200 <= n) then
    let ntest := n / 100 + 1 in
    filter (fun kv => ¬ (ntest < Py.len kv.2)) b2j
  else b2j.

(** The junk set of a matcher built with [isjunk=None]. *)
Definition isbjunk (x : A) : bool := false.

(** Inner [for j in b2j.get(a[i], nothing)] of [find_longest_match];
    [continue] skips one index, [break] leaves the loop. *)
Fixpoint flm_inner (i blo bhi : Z) (j2len : gmap Z Z) (js : list Z)
    (newj2len : gmap Z Z) (best : Match) : gmap Z Z * Match :=
  match js with
  | [] => (newj2len, best)
  | j :: js' =>
      if decide (j < blo) then flm_inner i blo bhi j2len js' newj2len best
      else if decide (j >= bhi) then (newj2len, best)
      else
        let k := default 0 (j2len !! (j - 1)) + 1 in
        let newj2len := <[j := k]> newj2len in
        let best :=
          if decide (k > m_size best) then mkMatch (i - k + 1) (j - k + 1) k
          else best in
        flm_inner i blo bhi j2len js' newj2len best
  end.

(** Outer [for i in range(alo, ahi)]. *)
Fixpoint flm_outer (a : list A) (b2j : gmap A (list Z)) (blo bhi : Z)
    (rng : list Z) (j2len : gmap Z Z) (best : Match) : Match :=
  match rng with
  | [] => best
  | i :: rng' =>
      let js := match Py.getitem a i with
                | Some x => default [] (b2j !! x)
                | None => []
                end in
      let '(newj2len, best) := flm_inner i blo bhi j2len js ∅ best in
      flm_outer a b2j blo bhi rng' newj2len best
  end.

Definition elt_eqb (x y : option A) : bool :=
  match x, y with
  | Some x, Some y => bool_decide (x = y)
  | _, _ => false
  end.

(** First [while]: extend the match to the left.  The guard fails at
    the latest when [besti] reaches [alo], so [besti - alo] rounds
    are all the loop can make. *)
Fixpoint flm_extend_left (fuel : nat) (a b : list A) (alo blo : Z)
    (best : Match) : Match :=
  match fuel with
  | O => best
  | S fuel' =>
      if bool_decide (m_a best > alo) && bool_decide (m_b best > blo)
         && negb (match Py.getitem b (m_b best - 1) with
                  | Some x => isbjunk x | None => false end)
         && elt_eqb (Py.getitem a (m_a best - 1)) (Py.getitem b (m_b best - 1))
      then flm_extend_left fuel' a b alo blo
             (mkMatch (m_a best - 1) (m_b best - 1) (m_size best + 1))
      else best
  end.

(** Second [while]: extend the match to the right. *)
Fixpoint flm_extend_right (fuel : nat) (a b : list A) (ahi bhi : Z)
    (best : Match) : Match :=
  match fuel with
  | O => best
  | S fuel' =>
      if bool_decide (m_a best + m_size best < ahi)
         && bool_decide (m_b best + m_size best < bhi)
         && negb (match Py.getitem b (m_b best + m_size best) with
                  | Some x => isbjunk x | None => false end)
         && elt_eqb (Py.getitem a (m_a best + m_size best))
                    (Py.getitem b (m_b best + m_size best))
      then flm_extend_right fuel' a b ahi bhi
             (mkMatch (m_a best) (m_b best) (m_size best + 1))
      else best
  end.

(** [find_longest_match(alo, ahi, blo, bhi)].  The last two [while]
    loops of the source are guarded by [isbjunk(...)], which is
    constantly false here, so they leave the match as it is. *)
Definition find_longest_match (a b : list A) (b2j : gmap A (list Z))
    (alo ahi blo bhi : Z) : Match :=
  let best := flm_outer a b2j blo bhi (Py.range alo ahi) ∅ (mkMatch alo blo 0) in
  let best := flm_extend_left (Z.to_nat (m_a best - alo)) a b alo blo best in
  let best :=
    flm_extend_right (Z.to_nat (ahi - (m_a best + m_size best))) a b ahi bhi best in
  best.

(** The [while queue:] loop of [get_matching_blocks].  The Python
    list [queue] is used as a stack ([append]/[pop] at its end); here
    the head of the list is that end. *)
Fixpoint gmb_loop (fuel : nat) (a b : list A) (b2j : gmap A (list Z))
    (queue : list (Z * Z * Z * Z)) (matching_blocks : list Match)
  : option (list Match) :=
  match queue with
  | [] => Some matching_blocks
  | (alo, ahi, blo, bhi) :: queue =>
      match fuel with
      | O => None
      | S fuel' =>
          let x := find_longest_match a b b2j alo ahi blo bhi in
          let '(i, j, k) := (m_a x, m_b x, m_size x) in
          if decide (k = 0) then gmb_loop fuel' a b b2j queue matching_blocks
          else
            let matching_blocks := matching_blocks ++ [x] in
            let queue :=
              if bool_decide (alo < i) && bool_decide (blo < j)
              then (alo, i, blo, j) :: queue else queue in
            let queue :=
              if bool_decide (i + k < ahi) && bool_decide (j + k < bhi)
              then (i + k, ahi, j + k, bhi) :: queue else queue in
            gmb_loop fuel' a b b2j queue matching_blocks
      end
  end.

(** Collapsing adjacent equal blocks: the [for i2, j2, k2 in
    matching_blocks] loop, with the running block [(i1, j1, k1)]. *)
Fixpoint gmb_collapse (blocks : list Match) (cur : Match)
    (non_adjacent : list Match) : list Match :=
  match blocks with
  | [] =>
      if decide (m_size cur = 0) then non_adjacent else non_adjacent ++ [cur]
  | x :: blocks' =>
      if bool_decide (m_a cur + m_size cur = m_a x)
         && bool_decide (m_b cur + m_size cur = m_b x)
      then gmb_collapse blocks'
             (mkMatch (m_a cur) (m_b cur) (m_size cur + m_size x)) non_adjacent
      else
        gmb_collapse blocks' x
          (if decide (m_size cur = 0) then non_adjacent else non_adjacent ++ [cur])
  end.

(** Every round of the queue loop retires one range and adds at most
    two disjoint sub-ranges of it that leave out a matched element, so
    [2 * len(a) + 1] rounds empty the queue (see
    [gmb_loop_terminates]). *)
Definition gmb_fuel (a : list A) : nat := S (2 * length a).

Definition raw_matching_blocks (a b : list A) : option (list Match) :=
  gmb_loop (gmb_fuel a) a b (__chain_b b) [(0, Py.len a, 0, Py.len b)] [].

Definition get_matching_blocks (a b : list A) : list Match :=
  let matching_blocks := default [] (raw_matching_blocks a b) in
  let matching_blocks := Py.sorted Match_leb matching_blocks in
  let non_adjacent := gmb_collapse matching_blocks (mkMatch 0 0 0) [] in
  non_adjacent ++ [mkMatch (Py.len a) (Py.len b) 0].

(** [SequenceMatcher(None, a, b).ratio()] *)
Definition ratio (a b : list A) : Q :=
  let matches := Py.sum (m_size <$> get_matching_blocks a b) in
  _calculate_ratio matches (Py.len a + Py.len b).

End SequenceMatcher.

(** A [str] is matched character by character. *)
Definition ratio_str (a b : string) : Q :=
  ratio (list_ascii_of_string a) (list_ascii_of_string b).

End difflib.


(** ** posixpath *)

Module os_path.

Definition sep : string := "/".

(** [os.path.join(a, p)] for a component [p] that is a directory entry
    name (it does not start with the separator). *)
Definition join (a p : string) : string :=
  if String.eqb a "" || Py.endswith a sep then a +:+ p
  else a +:+ sep +:+ p.

(** [os.path.basename(p)]: what follows the last separator. *)
Fixpoint basename_aux (s acc : string) : string :=
  match s with
  | EmptyString => acc
  | String c s' =>
      if Ascii.eqb c "/" then basename_aux s' s' else basename_aux s' acc
  end.

Definition basename (p : string) : string := basename_aux p p.

End os_path.

(** ** config.py *)

Module config.

Definition IGNORED_DIRECTORIES : list string :=
  [ "__pycache__"; "venv"; ".venv"; "env"; ".git"; ".idea"; ".vscode";
    "node_modules"; "build"; "dist"; ".pytest_cache"; ".mypy_cache";
    ".tox"; ".eggs"; "cache"; "thumbnails" ].

Definition PYTHON_EXTENSIONS : list string :=
  [ ".py"; ".pyw"; ".pyx"; ".pyi"; ".pyc" ].

Definition IGNORED_FILE_EXTENSIONS : list string :=
  [ ".jpg"; ".jpeg"; ".png"; ".gif"; ".bmp"; ".tiff"; ".svg"; ".webp";
    ".ico"; ".heic"; ".heif";
    ".psd"; ".ai"; ".eps"; ".raw"; ".cr2"; ".nef"; ".dng";
    ".mp4"; ".avi"; ".mov"; ".wmv"; ".flv"; ".mkv" ].

Definition PROJECT_ROOT_FILES : list string :=
  [ "README.md"; "README.txt"; "readme.md"; "readme.txt"; ".env";
    "requirements.txt"; "setup.py"; "pyproject.toml"; "Pipfile";
    "poetry.lock"; ".gitignore"; "LICENSE"; "setup.cfg"; "tox.ini";
    "manage.py"; "README.rst"; "MANIFEST.in"; "Dockerfile";
    "docker-compose.yml" ].

Definition SIMILARITY_THRESHOLD : Q := 0.7.

Definition IGNORED_DIRS : list string :=
  [ "venv"; ".venv"; "__pycache__"; ".git"; ".idea"; ".vs"; ".vscode";
    "node_modules"; "build"; "dist"; ".pytest_cache"; ".mypy_cache" ].

End config.

(** ** model/project_model.py: the record *)

(** A [datetime] value: only the instant it denotes is kept.
    [datetime.fromtimestamp] builds one from a number of seconds and
    raises when the instant lies outside the years it can express; it
    is a function of the environment, passed to the code that calls
    it. *)
Record datetime := mkDatetime { timestamp : Q }.

(** [self.last_modified] holds a number ([0], or the [st_mtime] read by
    the constructor) until [_analyze_project] or [from_dict] stores a
    [datetime]. *)
Inductive last_modified_t :=
| LM_number (t : Q)
| LM_datetime (d : datetime).

Record ProjectModel := mkProject {
  path : string;
  name : string;
  size : Z;
  last_modified : last_modified_t;
  project_files : list string;
  features : gset string;
  real_size : option Z;
  real_file_count : option Z;
  folder_hash : option string;
  last_file_modified : option Q;
  file_count : Z;
  python_files : list string;
  ignored_file_extensions : list string
}.

(** [ProjectModel.__eq__]: two records are equal when their paths are. *)
Definition project_eq (p q : ProjectModel) : bool :=
  bool_decide (path p = path q).

(** [x in l] for a list of projects. *)
Definition project_in (p : ProjectModel) (l : list ProjectModel) : bool :=
  existsb (project_eq p) l.

(** ** Exceptions, the file system, signals *)

Inductive exn :=
| FileNotFoundError (msg : string)
| PermissionError (msg : string)
| OSError (msg : string)
| KeyError (msg : string)
| TypeError (msg : string)
| AttributeError (msg : string)
| ValueError (msg : string)
| RuntimeError (msg : string).

(** [except (PermissionError, OSError)]: [FileNotFoundError] and
    [PermissionError] are subclasses of [OSError] ([IOError] is an alias). *)
Definition is_OSError (e : exn) : bool :=
  match e with
  | FileNotFoundError _ | PermissionError _ | OSError _ => true
  | _ => false
  end.

(** [str(e)] *)
Definition str_exn (e : exn) : string :=
  match e with
  | FileNotFoundError m | PermissionError m | OSError m | KeyError m
  | TypeError m | AttributeError m | ValueError m | RuntimeError m => m
  end.

Record stat_result := mkStat { st_size : Z; st_mtime : Q }.

(** A directory tree as the operating system presents it.  The entries
    of a directory come in the order [os.listdir] returns them.  A file
    whose [stat] fails (a dangling link, say) is not [os.path.isfile]; a
    directory whose listing fails keeps [os.path.isdir]. *)
#[local] Unset Elimination Schemes.
Inductive node :=
| File (fname : string) (st : exn + stat_result) (content : exn + list byte)
| Dir (dname : string) (st : stat_result) (listdir_error : option exn)
      (entries : list node).
#[local] Set Elimination Schemes.

Definition node_name (n : node) : string :=
  match n with File nm _ _ => nm | Dir nm _ _ _ => nm end.

Definition isfile (n : node) : bool :=
  match n with File _ (inr _) _ => true | _ => false end.

Definition isdir (n : node) : bool :=
  match n with Dir _ _ _ _ => true | _ => false end.

(** The entry of a listing with a given name. *)
Definition lookup_entry (entries : list node) (nm : string) : option node :=
  List.find (fun n => String.eqb (node_name n) nm) entries.

(** Qt signals of [FinderModel], in the order they were emitted. *)
Inductive signal :=
| project_found (p : ProjectModel)
| search_finished (count : Z)
| search_started
| search_error (msg : string)
| directory_scanning (p : string)
| file_scanning (p : string).

(** ** A state-and-exception monad for the methods of [FinderModel] *)

Module M.

(** [self.projects], the signals emitted so far, and how often the
    worker's [running] flag has been read. *)
Record state := mkState {
  projects : list ProjectModel;
  emitted : list signal;
  polls : nat
}.

Inductive outcome (A : Type) :=
| Return (a : A)
| Raise (e : exn).
Arguments Return {A} a.
Arguments Raise {A} e.

Definition t (A : Type) : Type := state -> outcome A * state.

Definition ret {A} (a : A) : t A := fun s => (Return a, s).

Definition raise {A} (e : exn) : t A := fun s => (Raise e, s).

Definition bind {A B} (m : t A) (k : A -> t B) : t B :=
  fun s =>
    match m s with
    | (Return a, s') => k a s'
    | (Raise e, s') => (Raise e, s')
    end.

(** [try: m  except <classes accepted by handles>: h] *)
Definition try_except {A} (m : t A) (handles : exn -> bool) (h : exn -> t A)
  : t A :=
  fun s =>
    match m s with
    | (Raise e, s') => if handles e then h e s' else (Raise e, s')
    | r => r
    end.

Definition emit (sg : signal) : t unit :=
  fun s => (Return tt, mkState (projects s) (emitted s ++ [sg]) (polls s)).

Definition get_projects : t (list ProjectModel) :=
  fun s => (Return (projects s), s).

Definition set_projects (ps : list ProjectModel) : t unit :=
  fun s => (Return tt, mkState ps (emitted s) (polls s)).

(** [worker and not worker.running]: the flag is set by another thread;
    [running k] is what the [k]-th read of it sees. *)
Definition stop_requested (worker : option (nat -> bool)) : t bool :=
  fun s =>
    match worker with
    | None => (Return false, s)
    | Some running =>
        (Return (negb (running (polls s))),
         mkState (projects s) (emitted s) (S (polls s)))
    end.

(** Lifting an operating-system call that may fail. *)
Definition lift {A} (r : exn + A) : t A :=
  match r with inl e => raise e | inr a => ret a end.

End M.

Notation "x <- m ;; k" := (M.bind m (fun x => k))
  (at level 62, m at next level, k at level 200, only parsing).
Notation "m ;;; k" := (M.bind m (fun _ => k))
  (at level 62, k at level 200, only parsing).

(** [os.listdir(path)] on a directory node. *)
Definition listdir (listdir_error : option exn) (entries : list node)
  : exn + list node :=
  match listdir_error with
  | Some e => inl e
  | None => inr entries
  end.

(** ** JSON documents

    The values [json.load] returns and [json.dump] accepts.  A [JDict]
    lists the items of a Python [dict] in insertion order; a lookup takes
    the first item with the key. *)

#[local] Unset Elimination Schemes.
Inductive json :=
| JNull
| JBool (b : bool)
| JInt (n : Z)
| JFloat (q : Q)
| JStr (s : string)
| JList (l : list json)
| JDict (items : list (string * json)).
#[local] Set Elimination Schemes.

Module pydict.

Fixpoint lookup (items : list (string * json)) (key : string) : option json :=
  match items with
  | [] => None
  | (k, v) :: items' => if String.eqb k key then Some v else lookup items' key
  end.

(** [key in d] *)
Definition contains (items : list (string * json)) (key : string) : bool :=
  match lookup items key with Some _ => true | None => false end.

(** [d.get(key, default)] *)
Definition get (items : list (string * json)) (key : string) (dflt : json) : json :=
  match lookup items key with Some v => v | None => dflt end.

End pydict.

(** Truth value of a JSON value in a condition. *)
Definition json_truthy (v : json) : bool :=
  match v with
  | JNull => false
  | JBool b => b
  | JInt n => negb (n =? 0)
  | JFloat q => negb (Qeq_bool q 0)
  | JStr s => negb (String.eqb s "")
  | JList l => match l with [] => false | _ => true end
  | JDict items => match items with [] => false | _ => true end
  end.

(** ** fnmatch

    [fnmatch.fnmatch(name, pat)] for patterns built from ordinary
    characters, [*] and [?] (the configured patterns contain neither a
    wildcard nor a bracket); [os.path.normcase] is the identity of
    [posixpath]. *)

Module fnmatch.

Fixpoint fnmatchcase (pat : string) : string -> bool :=
  match pat with
  | EmptyString => fun name => String.eqb name ""
  | String c pat' =>
      if Ascii.eqb c "*" then
        fix star (name : string) : bool :=
          fnmatchcase pat' name
          || match name with
             | EmptyString => false
             | String _ name' => star name'
             end
      else if Ascii.eqb c "?" then
        fun name =>
          match name with
          | EmptyString => false
          | String _ name' => fnmatchcase pat' name'
          end
      else
        fun name =>
          match name with
          | EmptyString => false
          | String c' name' => Ascii.eqb c c' && fnmatchcase pat' name'
          end
  end.

Definition fnmatch (name pat : string) : bool := fnmatchcase pat name.

End fnmatch.

(** ** model/project_model.py: construction and analysis *)

Module ProjectModel_.

(** [ProjectModel.__init__(path)]; [st] is [os.stat(path)]. *)
Definition __init__ (path : string) (st : exn + stat_result) : M.t ProjectModel :=
  let name := os_path.basename path in
  (* try: os.stat  except (FileNotFoundError, PermissionError): pass *)
  match st with
  | inr st =>
      M.ret (mkProject path name (st_size st) (LM_number (st_mtime st)) [] ∅
               None None None None 0 [] config.IGNORED_FILE_EXTENSIONS)
  | inl (FileNotFoundError _) | inl (PermissionError _) =>
      M.ret (mkProject path name 0 (LM_number 0) [] ∅
               None None None None 0 [] config.IGNORED_FILE_EXTENSIONS)
  | inl e => M.raise e
  end.

Definition ignored (ignored_exts : list string) (file : string) : bool :=
  Py.any (fun ext => Py.endswith (Py.lower file) ext) ignored_exts.

(** The running totals of [_analyze_project]. *)
Record totals := mkTotals {
  total_size : Z;
  last_mod_time : Q;
  t_python_files : list string;
  t_project_files : list string
}.

(** [try: stats = os.stat(file_path); total_size += ...; if ... >
    last_mod_time: ...  except OSError: continue] *)
Definition add_stat (st : exn + stat_result) (t : totals) : M.t totals :=
  match st with
  | inr st =>
      M.ret (mkTotals (total_size t + st_size st)
               (if Qlt_le_dec (last_mod_time t) (st_mtime st)
                then st_mtime st else last_mod_time t)
               (t_python_files t) (t_project_files t))
  | inl e => if is_OSError e then M.ret t else M.raise e
  end.

Definition stat_of (n : node) : exn + stat_result :=
  match n with
  | File _ st _ => st
  | Dir _ st _ _ => inr st
  end.

(** First loop: [for file in os.listdir(self.path)]. *)
Fixpoint root_files_loop (self_path : string) (ignored_exts : list string)
    (callback : string -> M.t unit) (items : list node) (t : totals)
  : M.t totals :=
  match items with
  | [] => M.ret t
  | item :: items' =>
      let file := node_name item in
      if bool_decide (file ∈ config.PROJECT_ROOT_FILES) then
        let file_path := os_path.join self_path file in
        if isfile item then
          if ignored ignored_exts file
          then root_files_loop self_path ignored_exts callback items' t
          else
            callback file_path ;;;
            t <- add_stat (stat_of item)
                   (mkTotals (total_size t) (last_mod_time t) (t_python_files t)
                      (t_project_files t ++ [file_path])) ;;
            root_files_loop self_path ignored_exts callback items' t
        else root_files_loop self_path ignored_exts callback items' t
      else root_files_loop self_path ignored_exts callback items' t
  end.

(** Inner loop of the walk: [for file in files]. *)
Fixpoint py_files_loop (root : string) (callback : string -> M.t unit)
    (files : list node) (t : totals) : M.t totals :=
  match files with
  | [] => M.ret t
  | f :: files' =>
      let file := node_name f in
      if negb (Py.endswith file ".py") then py_files_loop root callback files' t
      else
        let file_path := os_path.join root file in
        callback file_path ;;;
        t <- add_stat (stat_of f)
               (mkTotals (total_size t) (last_mod_time t)
                  (t_python_files t ++ [file_path]) (t_project_files t)) ;;
        py_files_loop root callback files' t
  end.

(** [for root, _, files in os.walk(self.path)], top-down: the files of
    a directory are handled before its sub-directories are entered.  A
    directory that cannot be listed is passed over by [os.walk] when the
    failure is an [OSError]. *)
Fixpoint walk_py (d : node) (root : string) (callback : string -> M.t unit)
    (t : totals) : M.t totals :=
  match d with
  | File _ _ _ => M.ret t
  | Dir _ _ (Some e) _ => if is_OSError e then M.ret t else M.raise e
  | Dir _ _ None entries =>
      t <- py_files_loop root callback (filter (fun n => negb (isdir n)) entries) t ;;
      (fix subdirs (items : list node) (t : totals) : M.t totals :=
         match items with
         | [] => M.ret t
         | item :: items' =>
             match item with
             | Dir nm _ _ _ =>
                 t <- walk_py item (os_path.join root nm) callback t ;;
                 subdirs items' t
             | File _ _ _ => subdirs items' t
             end
         end) entries t
  end.

(** [ProjectModel._analyze_project(file_callback)]; [d] is the node at
    [self.path]. *)
Definition _analyze_project (fromtimestamp : Q -> exn + datetime)
    (self : ProjectModel) (d : node) (callback : string -> M.t unit)
  : M.t ProjectModel :=
  match d with
  | File _ _ _ => M.ret self
  | Dir _ _ listdir_error entries =>
      let t := mkTotals 0 0 [] [] in
      items <- M.lift (listdir listdir_error entries) ;;
      t <- root_files_loop (path self) (ignored_file_extensions self) callback items t ;;
      t <- walk_py d (path self) callback t ;;
      last_modified <-
        (if Qlt_le_dec 0 (last_mod_time t)
         then d <- M.lift (fromtimestamp (last_mod_time t)) ;;
              M.ret (LM_datetime d)
         else M.ret (last_modified self)) ;;
      M.ret (mkProject (path self) (name self) (total_size t)
               last_modified
               (t_project_files t) (features self)
               (real_size self) (real_file_count self) (folder_hash self)
               (last_file_modified self)
               (Py.len (t_python_files t)) (t_python_files t)
               (ignored_file_extensions self))
  end.

(** *** Conversion to and from a dictionary *)

Section Dict.
(** [datetime.isoformat] and [datetime.fromisoformat] ([None] for a
    string the latter rejects with [ValueError]). *)
Variable isoformat : datetime -> string.
Variable fromisoformat : string -> option datetime.

(** [ProjectModel.to_dict].  [self.last_modified.isoformat()] is
    evaluated whenever [self.last_modified] is true; a number has no
    such method. *)
Definition to_dict (self : ProjectModel) : exn + json :=
  match
    match last_modified self with
    | LM_datetime d => inr (JStr (isoformat d))
    | LM_number t =>
        if Qeq_bool t 0 then inr JNull
        else inl (AttributeError "'float' object has no attribute 'isoformat'")
    end
  with
  | inl e => inl e
  | inr lm =>
      let result :=
        [ ("path", JStr (path self));
          ("name", JStr (name self));
          ("file_count", JInt (file_count self));
          ("size", JInt (size self));
          ("last_modified", lm);
          ("python_files", JList (JStr <$> python_files self));
          ("project_files", JList (JStr <$> project_files self)) ] in
      let result :=
        match real_size self with
        | Some n => result ++ [("real_size", JInt n)]
        | None => result
        end in
      let result :=
        match real_file_count self with
        | Some n => result ++ [("real_file_count", JInt n)]
        | None => result
        end in
      let result :=
        match folder_hash self with
        | Some h => result ++ [("folder_hash", JStr h)]
        | None => result
        end in
      inr (JDict result)
  end.

(** What [from_dict] does with one record: it builds a project, it
    raises, or it stores a value of a type the attributes of the record
    [ProjectModel] do not have (Python keeps such a value as it is;
    these documents are outside this model). *)
Inductive decoded (A : Type) :=
| Decoded (a : A)
| Fails (e : exn)
| Untyped.
Arguments Decoded {A} a.
Arguments Fails {A} e.
Arguments Untyped {A}.

Definition as_str (v : json) : decoded string :=
  match v with JStr s => Decoded s | _ => Untyped end.

Definition as_int (v : json) : decoded Z :=
  match v with JInt n => Decoded n | _ => Untyped end.

Fixpoint as_str_list_aux (l : list json) : decoded (list string) :=
  match l with
  | [] => Decoded []
  | JStr s :: l' =>
      match as_str_list_aux l' with
      | Decoded r => Decoded (s :: r)
      | other => other
      end
  | _ :: _ => Untyped
  end.

Definition as_str_list (v : json) : decoded (list string) :=
  match v with JList l => as_str_list_aux l | _ => Untyped end.

Definition as_opt_int (v : json) : decoded (option Z) :=
  match v with
  | JNull => Decoded None
  | JInt n => Decoded (Some n)
  | _ => Untyped
  end.

Definition as_opt_str (v : json) : decoded (option string) :=
  match v with
  | JNull => Decoded None
  | JStr s => Decoded (Some s)
  | _ => Untyped
  end.

Definition dbind {A B} (x : decoded A) (k : A -> decoded B) : decoded B :=
  match x with
  | Decoded a => k a
  | Fails e => Fails e
  | Untyped => Untyped
  end.

(** The constructor call [cls(data["path"])], without the monad:
    [stat] is [os.stat] at the time of the call. *)
Definition construct (stat : string -> exn + stat_result) (p : json)
  : decoded ProjectModel :=
  match p with
  | JStr path =>
      match __init__ path (stat path) (M.mkState [] [] 0) with
      | (M.Return project, _) => Decoded project
      | (M.Raise e, _) => Fails e
      end
  | _ => Fails (TypeError "expected str, bytes or os.PathLike object")
  end.

(** [project.last_modified] after the [if "last_modified" in data and
    data["last_modified"]] statement. *)
Definition decode_last_modified (items : list (string * json))
    (current : last_modified_t) : decoded last_modified_t :=
  match pydict.lookup items "last_modified" with
  | Some v =>
      if json_truthy v then
        match v with
        | JStr s =>
            match fromisoformat s with
            | Some d => Decoded (LM_datetime d)
            | None => Fails (ValueError ("Invalid isoformat string: " +:+ s))
            end
        | _ => Fails (TypeError "fromisoformat: argument must be str")
        end
      else Decoded current
  | None => Decoded current
  end.

(** [ProjectModel.from_dict(data)] *)
Definition from_dict (stat : string -> exn + stat_result) (data : json)
  : decoded ProjectModel :=
  match data with
  | JDict items =>
      match pydict.lookup items "path" with
      | None => Fails (KeyError "'path'")
      | Some p =>
          dbind (construct stat p) (fun project =>
          dbind (as_str (pydict.get items "name"
                           (JStr (os_path.basename (path project))))) (fun nm =>
          dbind (as_int (pydict.get items "file_count" (JInt 0))) (fun fc =>
          dbind (as_int (pydict.get items "size" (JInt 0))) (fun sz =>
          dbind (decode_last_modified items (last_modified project)) (fun lm =>
          dbind (as_str_list (pydict.get items "python_files" (JList []))) (fun pf =>
          dbind (as_str_list (pydict.get items "project_files" (JList []))) (fun prf =>
          dbind (as_opt_int (pydict.get items "real_size" JNull)) (fun rs =>
          dbind (as_opt_int (pydict.get items "real_file_count" JNull)) (fun rfc =>
          dbind (as_opt_str (pydict.get items "folder_hash" JNull)) (fun fh =>
          Decoded (mkProject (path project) nm sz lm prf (features project)
                     rs rfc fh (last_file_modified project) fc pf
                     (ignored_file_extensions project))))))))))))
      end
  | _ => Fails (TypeError "indices must be integers or slices, not str")
  end.

End Dict.

Arguments Decoded {A} a.
Arguments Fails {A} e.
Arguments Untyped {A}.

(** *** The folder hash *)

Section Hash.
(** [hashlib.sha256]: the digest of a byte string.  A hash object that
    is fed piece by piece digests the concatenation of the pieces. *)
Variable sha256 : list byte -> list byte.

Definition hexdigit (n : N) : ascii :=
  ascii_of_N (if (n <? 10)%N then 48 + n else 87 + n).

Fixpoint hex (digest : list byte) : string :=
  match digest with
  | [] => EmptyString
  | b :: digest' =>
      let n := Byte.to_N b in
      String (hexdigit (n / 16)) (String (hexdigit (n mod 16)) (hex digest'))
  end.

(** [s.encode('utf-8')] *)
Definition encode (s : string) : list byte := list_byte_of_string s.

(** [int(x)] for a float: truncation towards zero. *)
Definition int_of_float (x : Q) : Z :=
  if Qle_bool 0 x then Qfloor x else Qceiling x.

(** [os.path.relpath(file_path, start)] for a path that [os.walk]
    built below [start]. *)
Definition relpath (file_path start : string) : string :=
  let n := String.length (os_path.join start "") in
  substring n (String.length file_path - n) file_path.

Definition hash_ignored (ignored_exts : list string) (file : string) : bool :=
  Py.any (fun pattern => fnmatch.fnmatch (Py.lower file) pattern) ignored_exts.

(** The first loop: [for root, _, files in os.walk(self.path)]. *)
Fixpoint collect_files (ignored_exts : list string) (d : node) (root : string)
  : exn + list (string * node) :=
  match d with
  | File _ _ _ => inr []
  | Dir _ _ (Some e) _ => if is_OSError e then inr [] else inl e
  | Dir _ _ None entries =>
      let here :=
        (fun f => (os_path.join root (node_name f), f)) <$>
        filter (fun n => negb (isdir n)
                         && negb (hash_ignored ignored_exts (node_name n)))
               entries in
      match
        (fix subdirs (items : list node) : exn + list (string * node) :=
           match items with
           | [] => inr []
           | item :: items' =>
               match item with
               | Dir nm _ _ _ =>
                   match collect_files ignored_exts item (os_path.join root nm) with
                   | inl e => inl e
                   | inr l =>
                       match subdirs items' with
                       | inl e => inl e
                       | inr l' => inr (l ++ l')
                       end
                   end
               | File _ _ _ => subdirs items'
               end
           end) entries
      with
      | inl e => inl e
      | inr below => inr (here ++ below)
      end
  end.

Definition MiB : Z := 1024 * 1024.

(** The body of [for file_path in all_files]: what [folder_hasher] has
    been fed after the round.  An [OSError] at any point ends the round
    ([continue]) with what was fed before it. *)
Definition hash_one (self_path : string) (folder_hasher : list byte)
    (entry : string * node) : exn + list byte :=
  let '(file_path, f) := entry in
  let rel_path := relpath file_path self_path in
  match stat_of f with
  | inl e => if is_OSError e then inr folder_hasher else inl e
  | inr stats =>
      let file_size := st_size stats in
      let file_mtime := int_of_float (st_mtime stats) in
      let metadata :=
        rel_path +:+ "|" +:+ Py.str_of_int file_size +:+ "|"
        +:+ Py.str_of_int file_mtime in
      let folder_hasher := folder_hasher ++ encode metadata in
      match f with
      | Dir _ _ _ _ => inr folder_hasher
      | File _ _ (inl e) => if is_OSError e then inr folder_hasher else inl e
      | File _ _ (inr data) =>
          if bool_decide (file_size < 10 * 1024 * 1024) then
            inr (folder_hasher ++ sha256 data)
          else if bool_decide (Py.len data < MiB) then
            (* f.seek(-1024 * 1024, 2) raises OSError *)
            inr folder_hasher
          else
            let first := take (Z.to_nat MiB) data in
            let last := drop (length data - Z.to_nat MiB) data in
            inr (folder_hasher ++ sha256 (first ++ last))
      end
  end.

Fixpoint hash_all (self_path : string) (folder_hasher : list byte)
    (all_files : list (string * node)) : exn + list byte :=
  match all_files with
  | [] => inr folder_hasher
  | entry :: all_files' =>
      match hash_one self_path folder_hasher entry with
      | inl e => inl e
      | inr folder_hasher => hash_all self_path folder_hasher all_files'
      end
  end.

Definition by_path (x y : string * node) : bool := String.leb x.1 y.1.

(** Everything [folder_hasher] is fed, in order. *)
Definition folder_hasher_input (self : ProjectModel) (d : node)
  : exn + list byte :=
  match collect_files (ignored_file_extensions self) d (path self) with
  | inl e => inl e
  | inr all_files =>
      let all_files := Py.sorted by_path all_files in
      hash_all (path self) [] all_files
  end.

(** [ProjectModel.calculate_folder_hash()] (no [file_callback]); [d]
    is what [self.path] names on disk.  The result is the returned
    value and the project with [folder_hash] updated. *)
Definition calculate_folder_hash (self : ProjectModel) (d : option node)
  : exn + (option string * ProjectModel) :=
  match d with
  | Some (Dir nm st err entries) =>
      match folder_hasher_input self (Dir nm st err entries) with
      | inl e => inl e
      | inr fed =>
          let h := hex (sha256 fed) in
          inr (Some h,
               mkProject (path self) (name self) (size self) (last_modified self)
                 (project_files self) (features self) (real_size self)
                 (real_file_count self) (Some h) (last_file_modified self)
                 (file_count self) (python_files self)
                 (ignored_file_extensions self))
      end
  | _ => inr (None, self)
  end.

End Hash.

(** *** Sizes and dates of the folder

    The three methods below run [os.walk(self.path)] top-down: the
    entries of a directory that are not directories are its
    [filenames]; they are handled before the sub-directories are
    entered, and a directory that cannot be listed is passed over by
    [os.walk] when the failure is an [OSError]. *)

(** [try: total_size += os.path.getsize(fp)
     except (OSError, FileNotFoundError): pass] *)
Definition add_size (f : node) (total_size : Z) : exn + Z :=
  match stat_of f with
  | inr st => inr (total_size + st_size st)
  | inl e => if is_OSError e then inr total_size else inl e
  end.

(** [for f in filenames] of [get_folder_size] *)
Fixpoint sizes_loop (filenames : list node) (total_size : Z) : exn + Z :=
  match filenames with
  | [] => inr total_size
  | f :: filenames' =>
      match add_size f total_size with
      | inl e => inl e
      | inr total_size => sizes_loop filenames' total_size
      end
  end.

(** [for dirpath, dirnames, filenames in os.walk(self.path)] of
    [get_folder_size] *)
Fixpoint walk_sizes (d : node) (total_size : Z) : exn + Z :=
  match d with
  | File _ _ _ => inr total_size
  | Dir _ _ (Some e) _ => if is_OSError e then inr total_size else inl e
  | Dir _ _ None entries =>
      match sizes_loop (filter (fun n => negb (isdir n)) entries) total_size with
      | inl e => inl e
      | inr total_size =>
          (fix subdirs (items : list node) (total_size : Z) : exn + Z :=
             match items with
             | [] => inr total_size
             | item :: items' =>
                 match item with
                 | Dir _ _ _ _ =>
                     match walk_sizes item total_size with
                     | inl e => inl e
                     | inr total_size => subdirs items' total_size
                     end
                 | File _ _ _ => subdirs items' total_size
                 end
             end) entries total_size
      end
  end.

(** [ProjectModel.get_folder_size()]; [d] is what [self.path] names on
    disk, if anything. *)
Definition get_folder_size (self : ProjectModel) (d : option node) : exn + Z :=
  match
    match d with
    | Some d => walk_sizes d 0
    | None => inr 0
    end
  with
  | inr total_size => inr total_size
  | inl e => if is_OSError e then inr 0 else inl e
  end.

(** [ProjectModel.get_folder_last_modified()]; [st] is
    [os.stat(self.path)]. *)
Definition get_folder_last_modified (self : ProjectModel) (st : exn + stat_result)
  : exn + Q :=
  match st with
  | inr st => inr (st_mtime st)
  | inl e => if is_OSError e then inr 0%Q else inl e
  end.

(** [try: mtime = os.path.getmtime(fp); if mtime > latest_time: ...
     except (OSError, FileNotFoundError): pass] *)
Definition newer (f : node) (latest_time : Q) : exn + Q :=
  match stat_of f with
  | inr st =>
      inr (if Qlt_le_dec latest_time (st_mtime st) then st_mtime st
           else latest_time)
  | inl e => if is_OSError e then inr latest_time else inl e
  end.

(** [for f in filenames] of [get_last_file_modified] *)
Fixpoint mtimes_loop (filenames : list node) (latest_time : Q) : exn + Q :=
  match filenames with
  | [] => inr latest_time
  | f :: filenames' =>
      match newer f latest_time with
      | inl e => inl e
      | inr latest_time => mtimes_loop filenames' latest_time
      end
  end.

(** The walk of [get_last_file_modified]: the loop body removes the
    names in [IGNORED_DIRS] from [dirnames], so the walk does not enter
    them. *)
Fixpoint walk_mtimes (d : node) (latest_time : Q) : exn + Q :=
  match d with
  | File _ _ _ => inr latest_time
  | Dir _ _ (Some e) _ => if is_OSError e then inr latest_time else inl e
  | Dir _ _ None entries =>
      match mtimes_loop (filter (fun n => negb (isdir n)) entries) latest_time with
      | inl e => inl e
      | inr latest_time =>
          (fix subdirs (items : list node) (latest_time : Q) : exn + Q :=
             match items with
             | [] => inr latest_time
             | item :: items' =>
                 match item with
                 | Dir nm _ _ _ =>
                     if bool_decide (nm ∈ config.IGNORED_DIRS)
                     then subdirs items' latest_time
                     else
                       match walk_mtimes item latest_time with
                       | inl e => inl e
                       | inr latest_time => subdirs items' latest_time
                       end
                 | File _ _ _ => subdirs items' latest_time
                 end
             end) entries latest_time
      end
  end.

(** [self.last_file_modified = t] *)
Definition set_last_file_modified (self : ProjectModel) (t : Q) : ProjectModel :=
  mkProject (path self) (name self) (size self) (last_modified self)
    (project_files self) (features self) (real_size self)
    (real_file_count self) (folder_hash self) (Some t)
    (file_count self) (python_files self) (ignored_file_extensions self).

(** [ProjectModel.get_last_file_modified()]: the returned value and
    the project with the value stored. *)
Definition get_last_file_modified (self : ProjectModel) (d : option node)
  : exn + (Q * ProjectModel) :=
  match last_file_modified self with
  | Some t => inr (t, self)
  | None =>
      match
        match d with
        | Some d => walk_mtimes d 0%Q
        | None => inr 0%Q
        end
      with
      | inr latest_time => inr (latest_time, set_last_file_modified self latest_time)
      | inl e =>
          if is_OSError e then inr (0%Q, set_last_file_modified self 0%Q) else inl e
      end
  end.

Section Formatting.
(** [datetime.strftime(format)] *)
Variable strftime : datetime -> string -> string.
(** [datetime.fromtimestamp] *)
Variable fromtimestamp : Q -> exn + datetime.

(** [ProjectModel.get_formatted_last_modified()].  A [datetime] is
    always true; a number has no [strftime]. *)
Definition get_formatted_last_modified (self : ProjectModel) : exn + string :=
  match last_modified self with
  | LM_datetime d => inr (strftime d "%d.%m.%Y %H:%M")
  | LM_number t =>
      if Qeq_bool t 0 then inr "Neznámé"
      else inl (AttributeError "'float' object has no attribute 'strftime'")
  end.

(** [ProjectModel.get_formatted_last_file_modified()] *)
Definition get_formatted_last_file_modified (self : ProjectModel)
    (d : option node) : exn + (string * ProjectModel) :=
  match get_last_file_modified self d with
  | inl e => inl e
  | inr (last_file_time, self) =>
      if Qeq_bool last_file_time 0 then inr ("-", self)
      else
        match fromtimestamp last_file_time with
        | inl e => inl e
        | inr d => inr (strftime d "%d.%m.%Y %H:%M", self)
        end
  end.

End Formatting.

(** [ProjectModel.has_project_files()] *)
Definition has_project_files (self : ProjectModel) : bool :=
  bool_decide (Py.len (project_files self) > 0).

End ProjectModel_.

(** ** model/finder_model.py: similarity and grouping *)

Module FinderModel.

(** The lists [__init__] copies from [config] into the instance; the
    settings dialog may replace the first two. *)
Record settings := mkSettings {
  ignore_dirs : list string;
  python_extensions : list string;
  project_root_files : list string;
  ignored_exts : list string
}.

Definition default_settings : settings :=
  mkSettings config.IGNORED_DIRECTORIES config.PYTHON_EXTENSIONS
    config.PROJECT_ROOT_FILES config.IGNORED_FILE_EXTENSIONS.

Section Scan.
Variable self : settings.
(** [worker]: [None], or the successive values of [worker.running]. *)
Variable worker : option (nat -> bool).
(** [datetime.fromtimestamp], and [print] on the process's standard
    output, which raises when the text cannot be encoded or written. *)
Variable fromtimestamp : Q -> exn + datetime.
Variable print : string -> exn + unit.

(** Loop of [is_python_project]: [for item in os.listdir(...)]. *)
Fixpoint ipp_loop (directory_path : string) (items : list node) : M.t bool :=
  match items with
  | [] => M.ret false
  | item :: items' =>
      let item_path := os_path.join directory_path (node_name item) in
      if isfile item then
        if Py.any (fun ext => Py.endswith (Py.lower (node_name item)) ext)
             (ignored_exts self)
        then ipp_loop directory_path items'
        else if Py.any (fun ext => Py.endswith (node_name item) ext)
                  (python_extensions self)
        then M.emit (file_scanning item_path) ;;; M.ret true
        else ipp_loop directory_path items'
      else ipp_loop directory_path items'
  end.

(** [FinderModel.is_python_project(directory_path)]; [d] is the node
    at that path. *)
Definition is_python_project (directory_path : string) (d : node) : M.t bool :=
  match d with
  | Dir _ _ listdir_error entries =>
      M.try_except
        (items <- M.lift (listdir listdir_error entries) ;;
         ipp_loop directory_path items)
        is_OSError (fun _ => M.ret false)
  | File _ _ _ => M.ret false
  end.

(** Loop of [is_project_root]: [for root_file in self.project_root_files]. *)
Fixpoint ipr_loop (directory_path : string) (files : list node)
    (root_files : list string) : M.t bool :=
  match root_files with
  | [] => M.ret false
  | root_file :: root_files' =>
      match lookup_entry files root_file with
      | Some item =>
          let file_path := os_path.join directory_path root_file in
          if isfile item then
            if Py.any (fun ext => Py.endswith (Py.lower root_file) ext)
                 (ignored_exts self)
            then ipr_loop directory_path files root_files'
            else M.emit (file_scanning file_path) ;;; M.ret true
          else ipr_loop directory_path files root_files'
      | None => ipr_loop directory_path files root_files'
      end
  end.

(** [FinderModel.is_project_root(directory_path)] *)
Definition is_project_root (directory_path : string) (d : node) : M.t bool :=
  match d with
  | Dir _ _ listdir_error entries =>
      M.try_except
        (files <- M.lift (listdir listdir_error entries) ;;
         ipr_loop directory_path files (project_root_files self))
        is_OSError (fun _ => M.ret false)
  | File _ _ _ => M.ret false
  end.

Definition file_scan_callback (file_path : string) : M.t unit :=
  M.emit (file_scanning file_path).

(** The [try] block that builds and records a project; a failure is
    printed and the directory is left out.  What [print] raises leaves
    the handler. *)
Definition add_project (path : string) (d : node) : M.t unit :=
  M.try_except
    (project <- ProjectModel_.__init__ path (ProjectModel_.stat_of d) ;;
     project <- ProjectModel_._analyze_project fromtimestamp project d
                  file_scan_callback ;;
     ps <- M.get_projects ;;
     M.set_projects (ps ++ [project]) ;;;
     M.emit (project_found project))
    (fun _ => true)
    (fun e =>
       M.lift (print ("Chyba při vytváření projektu " +:+ path +:+ ": "
                      +:+ str_exn e))).

(** The nested function [find_projects_recursive]; [d] is the node at
    [path]. *)
Fixpoint find_projects_recursive (d : node) (path : string)
    (is_root_dir parent_has_python parent_is_project_root : bool) {struct d}
  : M.t unit :=
  stop <- M.stop_requested worker ;;
  if stop then M.ret tt else
  M.emit (directory_scanning path) ;;;
  if bool_decide (Z.of_nat (String.length path) > 255) then M.ret tt else
  flags <- M.try_except
             (is_python <- is_python_project path d ;;
              is_project_root <- is_project_root path d ;;
              M.ret (Some (is_python, is_project_root)))
             is_OSError (fun _ => M.ret None) ;;
  match flags with
  | None => M.ret tt
  | Some (is_python, is_project_root) =>
      if negb is_root_dir && (is_python || is_project_root)
         && negb (parent_has_python || parent_is_project_root)
      then add_project path d
      else
        M.try_except
          match d with
          | File _ _ _ => M.ret tt
          | Dir _ _ (Some e) _ => M.raise e
          | Dir _ _ None items =>
              (fix children (items : list node) : M.t unit :=
                 match items with
                 | [] => M.ret tt
                 | item :: items' =>
                     stop <- M.stop_requested worker ;;
                     if stop then M.ret tt else
                     match item with
                     | File _ _ _ => children items'
                     | Dir nm _ _ _ =>
                         if bool_decide (nm ∈ ignore_dirs self)
                         then children items'
                         else
                           find_projects_recursive item (os_path.join path nm)
                             false
                             (parent_has_python || is_python)
                             (parent_is_project_root || is_project_root) ;;;
                           children items'
                     end
                 end) items
          end
          is_OSError
          (fun e =>
             M.lift (print ("Nelze číst adresář " +:+ path +:+ ": "
                            +:+ str_exn e)))
  end.

(** [os.path.exists] *)
Definition exists_ (n : option node) : bool :=
  match n with
  | None | Some (File _ (inl _) _) => false
  | Some _ => true
  end.

(** [FinderModel.find_python_projects(root_path, worker)]; [root] is
    what [root_path] names on disk and [abspath] is [os.path.abspath]. *)
Definition find_python_projects (abspath : string -> string)
    (root_path : string) (root : option node) : M.t (list ProjectModel) :=
  M.set_projects [] ;;;
  M.emit search_started ;;;
  match root with
  | Some d =>
      if negb (exists_ root) then
        M.emit (search_error ("Cesta " +:+ root_path +:+ " neexistuje.")) ;;;
        M.emit (search_finished 0) ;;;
        M.get_projects
      else
        let root_path :=
          if Py.endswith root_path ":" || Py.endswith root_path ":\"
          then abspath root_path else root_path in
        if negb (isdir d) then
          M.emit (search_error ("Cesta " +:+ root_path +:+ " není adresář.")) ;;;
          M.emit (search_finished 0) ;;;
          M.get_projects
        else
          M.try_except
            (find_projects_recursive d root_path true false false ;;;
             ps <- M.get_projects ;;
             M.emit (search_finished (Py.len ps)))
            (fun _ => true)
            (fun e =>
               M.emit (search_error
                         ("Neočekávaná chyba při prohledávání: " +:+ str_exn e)) ;;;
               M.emit (search_finished 0)) ;;;
          M.get_projects
  | None =>
      M.emit (search_error ("Cesta " +:+ root_path +:+ " neexistuje.")) ;;;
      M.emit (search_finished 0) ;;;
      M.get_projects
  end.

End Scan.

(** *** Export and import *)

Section Persistence.
Variable isoformat : datetime -> string.
Variable fromisoformat : string -> option datetime.
(** [os.stat] as the constructor of [ProjectModel] finds it. *)
Variable stat : string -> exn + stat_result.

(** [[project.to_dict() for project in self.projects]] *)
Fixpoint to_dicts (ps : list ProjectModel) : exn + list json :=
  match ps with
  | [] => inr []
  | project :: ps' =>
      match ProjectModel_.to_dict isoformat project with
      | inl e => inl e
      | inr r =>
          match to_dicts ps' with
          | inl e => inl e
          | inr rs => inr (r :: rs)
          end
      end
  end.

(** [FinderModel.save_to_json(output_file)].  [write_error] is what
    [open] and [json.dump] raise, if anything.  The result is the
    returned value and the document now in the file.  The dictionary
    [data] is built before the [try] statement. *)
Definition save_to_json (output_file : string) (write_error : option exn)
  : M.t (bool * option json) :=
  ps <- M.get_projects ;;
  records <- M.lift (to_dicts ps) ;;
  let data := JDict [("python_projects", JList records)] in
  match write_error with
  | None => M.ret (true, Some data)
  | Some e =>
      M.emit (search_error
                ("Chyba při ukládání do souboru " +:+ output_file +:+ ": "
                 +:+ str_exn e)) ;;;
      M.ret (false, None)
  end.

(** What a [for] loop iterates over. *)
Definition py_iter (v : json) : exn + list json :=
  match v with
  | JList l => inr l
  | JDict items => inr ((fun kv => JStr kv.1) <$> items)
  | JStr s => inr ((fun c => JStr (String c EmptyString)) <$> list_ascii_of_string s)
  | _ => inl (TypeError "object is not iterable")
  end.

(** [data.get("python_projects", [])] *)
Definition get_python_projects (data : json) : exn + json :=
  match data with
  | JDict items => inr (pydict.get items "python_projects" (JList []))
  | _ => inl (AttributeError "object has no attribute 'get'")
  end.

(** The loop of [load_from_json]; [None] when a record leaves the
    typed model (see [ProjectModel_.decoded]). *)
Fixpoint load_loop (records : list json) : M.t (option unit) :=
  match records with
  | [] => M.ret (Some tt)
  | project_data :: records' =>
      match ProjectModel_.from_dict fromisoformat stat project_data with
      | ProjectModel_.Untyped => M.ret None
      | ProjectModel_.Fails e => M.raise e
      | ProjectModel_.Decoded project =>
          ps <- M.get_projects ;;
          M.set_projects (ps ++ [project]) ;;;
          M.emit (project_found project) ;;;
          load_loop records'
      end
  end.

(** [FinderModel.load_from_json(input_file)]; [file] is what [open]
    and [json.load] give: an exception or the parsed document. *)
Definition load_from_json (input_file : string) (file : exn + json)
  : M.t (option bool) :=
  M.try_except
    (data <- M.lift file ;;
     M.set_projects [] ;;;
     records <- M.lift (match get_python_projects data with
                        | inl e => inl e
                        | inr v => py_iter v
                        end) ;;
     r <- load_loop records ;;
     match r with
     | None => M.ret None
     | Some _ =>
         ps <- M.get_projects ;;
         M.emit (search_finished (Py.len ps)) ;;;
         M.ret (Some true)
     end)
    (fun _ => true)
    (fun e =>
       M.emit (search_error
                 ("Chyba při načítání souboru " +:+ input_file +:+ ": "
                  +:+ str_exn e)) ;;;
       M.ret (Some false)).

End Persistence.

(** Truth value of an optional string ([None] and [""] are false). *)
Definition truthy_str (s : option string) : bool :=
  match s with
  | Some s => negb (String.eqb s "")
  | None => false
  end.

Definition is_not_None {A} (x : option A) : bool :=
  match x with Some _ => true | None => false end.

Definition sorted_basenames (files : list string) : list string :=
  Py.sorted String.leb (os_path.basename <$> files).

(** [size_similarity] as left by the first [if] on the real sizes. *)
Definition size_similarity (project1 project2 : ProjectModel) : Q :=
  match real_size project1, real_size project2 with
  | Some s1, Some s2 =>
      if bool_decide (s1 > 0) && bool_decide (s2 > 0) then
        let smaller := Z.min s1 s2 in
        let larger := Z.max s1 s2 in
        (inject_Z smaller / inject_Z larger)%Q
      else 0%Q
  | _, _ => 0%Q
  end.

Definition file_similarity (project1 project2 : ProjectModel) : Q :=
  difflib.ratio (sorted_basenames (python_files project1))
                (sorted_basenames (python_files project2)).

Definition name_similarity (project1 project2 : ProjectModel) : Q :=
  difflib.ratio_str (name project1) (name project2).

(** [FinderModel._calculate_similarity] *)
Definition _calculate_similarity (project1 project2 : ProjectModel) : Q :=
  if bool_decide (python_files project1 = [])
     || bool_decide (python_files project2 = []) then 0%Q
  else if truthy_str (folder_hash project1) && truthy_str (folder_hash project2)
          && bool_decide (folder_hash project1 = folder_hash project2) then 1%Q
  else
    let file_similarity := file_similarity project1 project2 in
    let name_similarity := name_similarity project1 project2 in
    let size_similarity := size_similarity project1 project2 in
    let file_weight := 0.6%Q in
    let name_weight := 0.2%Q in
    let size_weight := 0.2%Q in
    if is_not_None (real_size project1) && is_not_None (real_size project2) then
      (file_similarity * file_weight
       + name_similarity * name_weight
       + size_similarity * size_weight)%Q
    else
      let file_weight := 0.7%Q in
      let name_weight := 0.3%Q in
      ((file_similarity * file_weight) + (name_similarity * name_weight))%Q.

(** A dict keyed by pairs of projects: the key of an entry is the pair
    that was stored first; a later store under an equal key (equal
    paths) replaces the value only. *)
Definition pair_dict := list (ProjectModel * ProjectModel * Q).

Definition pair_eq (k1 k2 : ProjectModel * ProjectModel) : bool :=
  project_eq k1.1 k2.1 && project_eq k1.2 k2.2.

Fixpoint pair_dict_set (d : pair_dict) (k : ProjectModel * ProjectModel) (v : Q)
  : pair_dict :=
  match d with
  | [] => [(k, v)]
  | (k', v') :: d' =>
      if pair_eq k k' then (k', v) :: d' else (k', v') :: pair_dict_set d' k v
  end.

Definition duplicate := (ProjectModel * ProjectModel * Q)%type.

Section Grouping.
(** The scoring function ([self._calculate_similarity] in the source)
    and the threshold ([SIMILARITY_THRESHOLD]). *)
Variable similarity_of : ProjectModel -> ProjectModel -> Q.
Variable threshold : Q.

(** Inner loop of [find_duplicates]:
    [for j, project2 in enumerate(self.projects[i+1:], i+1)]. *)
Fixpoint fd_inner (project1 : ProjectModel) (rest : list ProjectModel)
    (acc : list duplicate * pair_dict) : list duplicate * pair_dict :=
  match rest with
  | [] => acc
  | project2 :: rest' =>
      let '(duplicates, similarities) := acc in
      let similarity := similarity_of project1 project2 in
      let similarities := pair_dict_set similarities (project1, project2) similarity in
      let similarities := pair_dict_set similarities (project2, project1) similarity in
      let duplicates :=
        if Qle_bool threshold similarity
        then duplicates ++ [(project1, project2, similarity)]
        else duplicates in
      fd_inner project1 rest' (duplicates, similarities)
  end.

(** Outer loop: [for i, project1 in enumerate(self.projects)]. *)
Fixpoint fd_outer (projects : list ProjectModel)
    (acc : list duplicate * pair_dict) : list duplicate * pair_dict :=
  match projects with
  | [] => acc
  | project1 :: rest => fd_outer rest (fd_inner project1 rest acc)
  end.

Definition find_duplicates_with (projects : list ProjectModel)
  : list duplicate * pair_dict :=
  fd_outer projects ([], []).

(** A group: [{'projects': [...], 'similarities': {...}}] *)
Record group := mkGroup {
  g_projects : list ProjectModel;
  g_similarities : pair_dict
}.

(** [for group in groups: if project1 in ... or project2 in ...: break];
    the result is the position of the group found. *)
Fixpoint find_group (groups : list group) (project1 project2 : ProjectModel)
    (pos : nat) : option nat :=
  match groups with
  | [] => None
  | g :: groups' =>
      if project_in project1 (g_projects g) || project_in project2 (g_projects g)
      then Some pos
      else find_group groups' project1 project2 (S pos)
  end.

(** What the loop body does to the group it found or created. *)
Definition add_pair (g : group) (d : duplicate) (processed : gset string)
  : group * gset string :=
  let '(project1, project2, similarity) := d in
  let group_projects := g_projects g in
  let '(group_projects, processed) :=
    if negb (project_in project1 group_projects)
    then (group_projects ++ [project1], {[ path project1 ]} ∪ processed)
    else (group_projects, processed) in
  let '(group_projects, processed) :=
    if negb (project_in project2 group_projects)
    then (group_projects ++ [project2], {[ path project2 ]} ∪ processed)
    else (group_projects, processed) in
  let sims := pair_dict_set (g_similarities g) (project1, project2) similarity in
  let sims := pair_dict_set sims (project2, project1) similarity in
  (mkGroup group_projects sims, processed).

(** One round of
    [for project1, project2, similarity in sorted(duplicates, ...)].
    [processed_projects] is a set of projects, that is, of paths. *)
Definition gd_step (st : list group * gset string) (d : duplicate)
  : list group * gset string :=
  let '(groups, processed) := st in
  let '(project1, project2, _) := d in
  if bool_decide (path project1 ∈ processed)
     && bool_decide (path project2 ∈ processed) then st
  else
    let '(groups, pos) :=
      match find_group groups project1 project2 0%nat with
      | Some pos => (groups, pos)
      | None => (groups ++ [mkGroup [] []], length groups)
      end in
    match groups !! pos with
    | Some g =>
        let '(g, processed) := add_pair g d processed in
        (<[pos := g]> groups, processed)
    | None => (groups, processed)
    end.

(** [key=lambda x: x[2], reverse=True] *)
Definition by_score_desc (x y : duplicate) : bool := Qle_bool y.2 x.2.

(** [key=lambda x: len(x['projects']), reverse=True] *)
Definition by_size_desc (x y : group) : bool :=
  (length (g_projects y) <=? length (g_projects x))%nat.

Definition group_duplicates_with (projects : list ProjectModel) : list group :=
  let '(duplicates, similarities) := find_duplicates_with projects in
  match duplicates with
  | [] => []
  | _ =>
      let '(groups, _) :=
        foldl gd_step ([], ∅) (Py.sorted by_score_desc duplicates) in
      Py.sorted by_size_desc groups
  end.

End Grouping.

(** [FinderModel.find_duplicates] and [FinderModel.group_duplicates] on
    [self.projects]. *)
Definition find_duplicates (projects : list ProjectModel) :=
  find_duplicates_with _calculate_similarity config.SIMILARITY_THRESHOLD projects.

Definition group_duplicates (projects : list ProjectModel) : list group :=
  group_duplicates_with _calculate_similarity config.SIMILARITY_THRESHOLD projects.

(** [similarities.get(key)]: the value stored under a pair of projects
    ([None] when [key not in similarities]). *)
Fixpoint pair_dict_get (d : pair_dict) (k : ProjectModel * ProjectModel)
  : option Q :=
  match d with
  | [] => None
  | (k', v) :: d' => if pair_eq k k' then Some v else pair_dict_get d' k
  end.

(** A [dict] keyed by [folder_hash], in insertion order. *)
Definition hash_dict := list (option string * list ProjectModel).

(** [if h in hash_groups: hash_groups[h].append(project)
     else: hash_groups[h] = [project]] *)
Fixpoint hash_groups_add (hash_groups : hash_dict) (h : option string)
    (project : ProjectModel) : hash_dict :=
  match hash_groups with
  | [] => [(h, [project])]
  | (h', group) :: hash_groups' =>
      if bool_decide (h' = h) then (h', group ++ [project]) :: hash_groups'
      else (h', group) :: hash_groups_add hash_groups' h project
  end.

(** [FinderModel.find_identical_by_hash] on [self.projects] *)
Definition find_identical_by_hash (projects : list ProjectModel)
  : list (list ProjectModel) :=
  let projects_with_hash :=
    filter (fun p => truthy_str (folder_hash p)) projects in
  match projects_with_hash with
  | [] => []
  | _ =>
      let hash_groups :=
        foldl (fun hash_groups project =>
                 hash_groups_add hash_groups (folder_hash project) project)
              [] projects_with_hash in
      filter (fun group => bool_decide (Py.len group > 1)) (hash_groups.*2)
  end.

End FinderModel.

(** * Sample data *)

Module Examples.

(** An environment: [datetime.fromtimestamp] accepts the instants up to
    the last second of the year 9999, and the standard output takes
    every text. *)
Definition fromtimestamp (t : Q) : exn + datetime :=
  if Qle_bool t 253402300799 then inr (mkDatetime t)
  else inl (ValueError "year 10000 is out of range").

Definition print (_ : string) : exn + unit := inr tt.

(** A project as [from_dict] builds it from a record with these keys. *)
Definition project (path name : string) (python_files : list string)
    (real_size : option Z) (folder_hash : option string) : ProjectModel :=
  mkProject path name 0 (LM_number 0) [] ∅ real_size None folder_hash None
    (Py.len python_files) python_files config.IGNORED_FILE_EXTENSIONS.

Definition tide : ProjectModel :=
  project "/r/tide" "tide" ["/r/tide/a.py"] None None.
Definition diet : ProjectModel :=
  project "/r/diet" "diet" ["/r/diet/a.py"] None None.

(** Same files and name; one of the real sizes is 0. *)
Definition sized_zero : ProjectModel :=
  project "/r/one/app" "app" ["/r/one/app/a.py"] (Some 0) None.
Definition sized_five : ProjectModel :=
  project "/r/two/app" "app" ["/r/two/app/a.py"] (Some 5) None.
Definition sized_ten : ProjectModel :=
  project "/r/three/app" "app" ["/r/three/app/a.py"] (Some 10) None.

(** Equal hashes; the first project has no source file. *)
Definition hashed_empty : ProjectModel :=
  project "/r/docs" "docs" [] None (Some "ab12").
Definition hashed_full : ProjectModel :=
  project "/r/lib" "lib" ["/r/lib/x.py"] None (Some "ab12").
Definition hashed_other : ProjectModel :=
  project "/r/copy" "copy" ["/r/copy/y.py"; "/r/copy/z.py"] (Some 3) (Some "ab12").

(** Two records for one path, as an edited export can hold them. *)
Definition twin : ProjectModel :=
  project "/r/app" "app" ["/r/app/a.py"] None None.
Definition twin_again : ProjectModel :=
  project "/r/app" "app" ["/r/app/a.py"] (Some 12) None.

(** Three projects and a score table in which only (A, B) and (B, C)
    reach the threshold. *)
Definition chain_a : ProjectModel := project "/r/a" "a" ["/r/a/m.py"] None None.
Definition chain_b : ProjectModel := project "/r/b" "b" ["/r/b/m.py"] None None.
Definition chain_c : ProjectModel := project "/r/c" "c" ["/r/c/m.py"] None None.

Definition chain_score (p q : ProjectModel) : Q :=
  let pair x y := String.eqb (path p) x && String.eqb (path q) y in
  if pair "/r/a" "/r/b" || pair "/r/b" "/r/a" then 0.9
  else if pair "/r/b" "/r/c" || pair "/r/c" "/r/b" then 0.75
  else 0.5.

(** A document whose second record has no "path". *)
Definition half_good_document : json :=
  JDict [("python_projects",
          JList [JDict [("path", JStr "/r/a"); ("name", JStr "a")];
                 JDict [("name", JStr "nameless")]])].

(** A project with a date, as an analysis leaves it. *)
Definition dated_tide : ProjectModel :=
  mkProject "/r/tide" "tide" 10 (LM_datetime (mkDatetime 5)) [] ∅ None None None
    None 1 ["/r/tide/a.py"] config.IGNORED_FILE_EXTENSIONS.

(** [os.stat] on a machine where every path is a directory last
    modified at 9. *)
Definition everything_on_disk (p : string) : exn + stat_result :=
  inr (mkStat 4096 9).

(** [os.stat] on a machine where none of the paths exists. *)
Definition nothing_on_disk (p : string) : exn + stat_result :=
  inl (FileNotFoundError "No such file or directory").

(** A project directory with a picture and a script, before and after
    one byte is appended to the picture. *)
Definition album (picture : list byte) : node :=
  Dir "proj" (mkStat 4096 7) None
    [File "photo.jpg" (inr (mkStat (Py.len picture) 100)) (inr picture);
     File "run.py" (inr (mkStat 0 50)) (inr [])].

Definition album_project : ProjectModel :=
  project "/r/proj" "proj" ["/r/proj/run.py"] None None.

Definition a_file (nm : string) : node :=
  File nm (inr (mkStat 10 5)) (inr []).
Definition a_dir (nm : string) (entries : list node) : node :=
  Dir nm (mkStat 4096 7) None entries.



(** The same tree with a script next to [proj]. *)
Definition root_with_script : node :=
  a_dir "R" [a_file "run.py";
             a_dir "proj" [a_file "main.py"; a_dir "sub" [a_file "deep.py"]]].

(** R/a is a project; listing R/b fails with something that is not an
    [OSError]. *)
Definition broken_tree : node :=
  a_dir "R" [a_dir "a" [a_file "a.py"];
             Dir "b" (mkStat 4096 7) (Some (RuntimeError "boom")) []].

(** R/tool holds a [.pyw] script only: it is classified as a project,
    and its analysis finds neither a [.py] file nor a marker file. *)
Definition pyw_tree : node := a_dir "R" [a_dir "tool" [a_file "mod.pyw"]].

(** R/venv holds a script and R/proj is a project. *)
Definition tree_with_venv : node :=
  a_dir "R" [a_dir "venv" [a_file "site.py"]; a_dir "proj" [a_file "main.py"]].

(** R/a and R/b are projects. *)
Definition two_projects_tree : node :=
  a_dir "R" [a_dir "a" [a_file "a.py"]; a_dir "b" [a_file "b.py"]].

(** R/a is a project; R/b cannot be listed. *)
Definition locked_tree : node :=
  a_dir "R" [a_dir "a" [a_file "a.py"];
             Dir "b" (mkStat 4096 7) (Some (PermissionError "denied")) []].

End Examples.

(** * The vocabulary of the properties *)

(** ** The sequence matcher *)

(** A block lies in the window [a[alo:ahi]], [b[blo:bhi]]. *)
Definition within (alo ahi blo bhi : Z) (m : difflib.Match) : Prop :=
  alo <= difflib.m_a m /\ difflib.m_a m + difflib.m_size m <= ahi /\
  blo <= difflib.m_b m /\ difflib.m_b m + difflib.m_size m <= bhi /\
  0 <= difflib.m_size m.

(** [j2len[j]] never exceeds what fits between the window's corner and
    the cell [(i, j)]. *)
Definition j2len_ok (alo blo i : Z) (j2len : gmap Z Z) : Prop :=
  forall j k, j2len !! j = Some k ->
    1 <= k /\ k <= i - alo + 1 /\ k <= j - blo + 1.

(** The entries of the queue of [get_matching_blocks]. *)
Definition valid_range (q : Z * Z * Z * Z) : Prop :=
  let '(alo, ahi, blo, bhi) := q in alo <= ahi /\ blo <= bhi.

Definition span_a (q : Z * Z * Z * Z) : Z :=
  let '(alo, ahi, _, _) := q in ahi - alo.

Definition span_b (q : Z * Z * Z * Z) : Z :=
  let '(_, _, blo, bhi) := q in bhi - blo.

(** The number of elements a list of blocks matches. *)
Definition sizes (l : list difflib.Match) : Z := Py.sum (difflib.m_size <$> l).

(** The work left in a queue: every range counts for twice its length
    in [a], plus one. *)
Definition queue_measure (queue : list (Z * Z * Z * Z)) : nat :=
  foldr (fun q n => (Z.to_nat (2 * span_a q + 1) + n)%nat) 0%nat queue.

(** ** Similarity and grouping *)

(** The hash test of the second rule. *)
Definition hashes_match (a b : ProjectModel) : bool :=
  FinderModel.truthy_str (folder_hash a) && FinderModel.truthy_str (folder_hash b)
  && bool_decide (folder_hash a = folder_hash b).

(** The two projects of a candidate pair are different projects. *)
Definition distinct_pair (d : FinderModel.duplicate) : Prop :=
  path d.1.1 <> path d.1.2.

(** A group has at least two members. *)
Definition has_two (g : FinderModel.group) : Prop :=
  (2 <= length (FinderModel.g_projects g))%nat.

(** ** Runs of the scanner *)

(** A computation respects a relation between states when every run
    takes a state to a related one, whether it returns or raises. *)
Definition respects (R : M.state -> M.state -> Prop) {A} (m : M.t A) : Prop :=
  forall s, R s (m s).2.

(** [self.projects] is left as it is. *)
Definition same_projects (s s' : M.state) : Prop := M.projects s' = M.projects s.

Definition is_file_report (sg : signal) : Prop :=
  match sg with file_scanning _ => True | _ => False end.

(** Nothing but reports of files: [self.projects] stays and only
    [file_scanning] signals are emitted. *)
Definition files_only (s s' : M.state) : Prop :=
  M.projects s' = M.projects s /\
  exists evs, M.emitted s' = M.emitted s ++ evs /\ Forall is_file_report evs.

(** What [is_python_project] answers for a directory that can be
    listed: some regular file has a source extension and no ignored
    extension. *)
Definition source_match (self : FinderModel.settings) (entries : list node) : bool :=
  existsb (fun item =>
             isfile item
             && negb (Py.any (fun ext => Py.endswith (Py.lower (node_name item)) ext)
                        (FinderModel.ignored_exts self))
             && Py.any (fun ext => Py.endswith (node_name item) ext)
                  (FinderModel.python_extensions self))
          entries.

(** What [is_project_root] answers: some configured marker name is a
    regular file of the directory and has no ignored extension. *)
Definition marker_match (self : FinderModel.settings) (entries : list node) : bool :=
  existsb (fun root_file =>
             match lookup_entry entries root_file with
             | Some item =>
                 isfile item
                 && negb (Py.any (fun ext => Py.endswith (Py.lower root_file) ext)
                            (FinderModel.ignored_exts self))
             | None => false
             end)
          (FinderModel.project_root_files self).


(** [datetime.fromtimestamp] yields a value for the instant [t]. *)
Definition dated (fromtimestamp : Q -> exn + datetime) (t : Q) : Prop :=
  exists d, fromtimestamp t = inr d.

(** The directories a run announced, in order. *)
Definition visited (evs : list signal) : list string :=
  omap (fun sg => match sg with directory_scanning p => Some p | _ => None end) evs.

(** ** Import and export *)

(** A record reconstructs to a project. *)
Definition decodes_to (fromisoformat : string -> option datetime)
    (stat : string -> exn + stat_result) (r : json) (p : ProjectModel) : Prop :=
  ProjectModel_.from_dict fromisoformat stat r = ProjectModel_.Decoded p.

(** What the [for] loop of [load_from_json] iterates over. *)
Definition records_of (data : json) : exn + list json :=
  match FinderModel.get_python_projects data with
  | inl e => inl e
  | inr v => FinderModel.py_iter v
  end.

(** The attributes a record of the export carries. *)
Definition same_record (p q : ProjectModel) : Prop :=
  path q = path p /\ name q = name p /\ file_count q = file_count p /\
  size q = size p /\ python_files q = python_files p /\
  project_files q = project_files p /\ real_size q = real_size p /\
  real_file_count q = real_file_count p /\ folder_hash q = folder_hash p.

(** What the constructor leaves in [last_modified]: the [st_mtime] of
    the path, or 0 when [os.stat] fails. *)
Definition constructed_date (stat : string -> exn + stat_result) (p : string)
  : last_modified_t :=
  LM_number (match stat p with inr st => st_mtime st | inl _ => 0 end).

(** What an export that succeeds writes for [last_modified]. *)
Definition exported_date (isoformat : datetime -> string)
    (lm : last_modified_t) (v : json) : Prop :=
  match lm with
  | LM_datetime d => v = JStr (isoformat d)
  | LM_number _ => v = JNull
  end.

(** [last_modified] after an export and an import.  The text of a
    [datetime] is read back by [fromisoformat]; where the export wrote
    null (or a text that counts as false) the import keeps what its
    constructor read from the disk. *)
Definition restored_date (isoformat : datetime -> string)
    (fromisoformat : string -> option datetime)
    (stat : string -> exn + stat_result) (p q : ProjectModel) : Prop :=
  match last_modified p with
  | LM_datetime d =>
      if String.eqb (isoformat d) ""
      then last_modified q = constructed_date stat (path p)
      else exists d', fromisoformat (isoformat d) = Some d' /\
                      last_modified q = LM_datetime d'
  | LM_number _ => last_modified q = constructed_date stat (path p)
  end.

(** [os.stat] succeeds, or fails in one of the two ways the constructor
    catches. *)
Definition stat_tolerated (stat : string -> exn + stat_result) (p : string) : Prop :=
  match stat p with
  | inr _ | inl (FileNotFoundError _) | inl (PermissionError _) => True
  | inl _ => False
  end.

(** ** The folder hash *)

(** Reading a hexadecimal digest back. *)
Definition unhexdigit (c : ascii) : N :=
  let n := N_of_ascii c in
  if (n <? 58)%N then (n - 48)%N else (n - 87)%N.

Definition unhex_byte (hi lo : ascii) : option byte :=
  Byte.of_N (16 * unhexdigit hi + unhexdigit lo).

(** The value [calculate_folder_hash] returns for a project directory. *)
Definition digest_of (sha256 : list byte -> list byte) (self : ProjectModel)
    (d : node) : option string :=
  match ProjectModel_.calculate_folder_hash sha256 self (Some d) with
  | inr (h, _) => h
  | inl _ => None
  end.

Definition with_hash (h : option string) (ps : list ProjectModel) : list ProjectModel :=
  filter (fun p => bool_decide (folder_hash p = h)) ps.

(** What the dictionary holds after the projects of [l] were filed. *)
Definition filed (l : list ProjectModel) (hg : FinderModel.hash_dict) : Prop :=
  NoDup hg.*1 /\
  (forall k g, (k, g) ∈ hg -> g = with_hash k l /\ g <> []) /\
  (forall p, p ∈ l -> folder_hash p ∈ hg.*1).

(** The pairs of [p1] with the projects of [rest] that reach the threshold. *)
Definition pairs_with (sim : ProjectModel -> ProjectModel -> Q) (thr : Q)
    (p1 : ProjectModel) (rest : list ProjectModel) : list FinderModel.duplicate :=
  (fun p2 => (p1, p2, sim p1 p2)) <$> filter (fun p2 => Qle_bool thr (sim p1 p2)) rest.

Fixpoint pairs_above (sim : ProjectModel -> ProjectModel -> Q) (thr : Q)
    (ps : list ProjectModel) : list FinderModel.duplicate :=
  match ps with
  | [] => []
  | p1 :: rest => pairs_with sim thr p1 rest ++ pairs_above sim thr rest
  end.

(** The projects of all the groups, in order. *)
Definition members (groups : list FinderModel.group) : list ProjectModel :=
  groups ≫= FinderModel.g_projects.

(** What [add_pair] appends to the group. *)
Definition appended (g : FinderModel.group) (d : FinderModel.duplicate)
  : list ProjectModel :=
  let '(p1, p2, _) := d in
  let a1 := if project_in p1 (FinderModel.g_projects g) then [] else [p1] in
  a1 ++ (if project_in p2 (FinderModel.g_projects g ++ a1) then [] else [p2]).

(** No project is in two groups or twice in one, and the set
    [processed_projects] holds the projects that are in a group. *)
Definition partitioned (st : list FinderModel.group * gset string) : Prop :=
  NoDup (path <$> members st.1) /\
  forall x, x ∈ st.2 <-> x ∈ path <$> members st.1.

(** Every member of the group has, in the group's own table, a score
    of at least the threshold with another member. *)
Definition linked (thr : Q) (g : FinderModel.group) : Prop :=
  forall p, p ∈ FinderModel.g_projects g ->
    exists q s, q ∈ FinderModel.g_projects g /\ path q <> path p /\
      FinderModel.pair_dict_get (FinderModel.g_similarities g) (p, q) = Some s /\
      Qle_bool thr s = true.

(** A run appends projects that all satisfy [Q]. *)
Definition adds (Q : ProjectModel -> Prop) (s s' : M.state) : Prop :=
  exists added, M.projects s' = M.projects s ++ added /\ Forall Q added.

(** A run emits signals that all satisfy [Q]. *)
Definition emits (Q : signal -> Prop) (s s' : M.state) : Prop :=
  exists evs, M.emitted s' = M.emitted s ++ evs /\ Forall Q evs.

(** What the traversal announces: no start and no end of a search. *)
Definition is_progress (sg : signal) : Prop :=
  match sg with
  | project_found _ | directory_scanning _ | file_scanning _ => True
  | _ => False
  end.

(** The projects a run announced, in order. *)
Definition found (evs : list signal) : list ProjectModel :=
  omap (fun sg => match sg with project_found p => Some p | _ => None end) evs.

(** Every project a run appends is announced, and nothing else is. *)
Definition announces (s s' : M.state) : Prop :=
  exists added, M.projects s' = M.projects s ++ added /\
                found (M.emitted s') = found (M.emitted s) ++ added.

(** [q] starts with [root]. *)
Definition under (root q : string) : Prop := exists rest, q = root +:+ rest.

(** The path [find_python_projects] searches: a drive letter is made
    absolute. *)
Definition searched_root (abspath : string -> string) (root_path : string) : string :=
  if Py.endswith root_path ":" || Py.endswith root_path ":\"
  then abspath root_path else root_path.

(** The names of the directories of a tree, and the errors their
    listings raise. *)
Fixpoint dir_names (d : node) : list string :=
  match d with
  | File _ _ _ => []
  | Dir nm _ _ entries =>
      nm :: (fix go (l : list node) : list string :=
               match l with
               | [] => []
               | x :: l' => dir_names x ++ go l'
               end) entries
  end.

Fixpoint listing_errors (d : node) : list exn :=
  match d with
  | File _ _ _ => []
  | Dir _ _ err entries =>
      match err with Some e => [e] | None => [] end
      ++ (fix go (l : list node) : list exn :=
            match l with
            | [] => []
            | x :: l' => listing_errors x ++ go l'
            end) entries
  end.

(** The name has no path separator in it. *)
Definition no_sep (nm : string) : Prop :=
  Forall (fun c => c <> "/"%char) (list_ascii_of_string nm).

(** A computation that returns from every state. *)
Definition returns {A} (m : M.t A) : Prop :=
  forall s, exists a, (m s).1 = M.Return a.

(** What a run may announce as a directory. *)
Definition announces_only (Q : string -> Prop) (sg : signal) : Prop :=
  match sg with directory_scanning q => Q q | _ => True end.

(** The entries of a directory that [os.walk] hands out as its
    [filenames]. *)
Definition top_files (d : node) : list node :=
  match d with
  | Dir _ _ None entries => filter (fun n => negb (isdir n)) entries
  | _ => []
  end.

(** The files [get_last_file_modified] looks at: those of the tree that
    are not below a directory named in [IGNORED_DIRS]. *)
Fixpoint dated_files (d : node) : list node :=
  match d with
  | File _ _ _ => []
  | Dir _ _ (Some _) _ => []
  | Dir _ _ None entries =>
      filter (fun n => negb (isdir n)) entries
      ++ (fix go (l : list node) : list node :=
            match l with
            | [] => []
            | item :: l' =>
                match item with
                | Dir nm _ _ _ =>
                    if bool_decide (nm ∈ config.IGNORED_DIRS) then go l'
                    else dated_files item ++ go l'
                | File _ _ _ => go l'
                end
            end) entries
  end.

(** The files [get_folder_size] looks at: all those of the tree. *)
Fixpoint sized_files (d : node) : list node :=
  match d with
  | File _ _ _ => []
  | Dir _ _ (Some _) _ => []
  | Dir _ _ None entries =>
      filter (fun n => negb (isdir n)) entries
      ++ (fix go (l : list node) : list node :=
            match l with
            | [] => []
            | item :: l' =>
                match item with
                | Dir _ _ _ _ => sized_files item ++ go l'
                | File _ _ _ => go l'
                end
            end) entries
  end.

(** The size of a file that can be looked at, 0 for one that cannot. *)
Definition readable_size (f : node) : Z :=
  match ProjectModel_.stat_of f with
  | inr st => st_size st
  | inl _ => 0
  end.

(** What a run of the date loops establishes: the result is at least
    the start value and every date met, and it is one of them. *)
Definition latest_of (files : list node) (latest_time latest_time' : Q) : Prop :=
  (latest_time <= latest_time')%Q /\
  (forall f st, f ∈ files -> ProjectModel_.stat_of f = inr st ->
                (st_mtime st <= latest_time')%Q) /\
  (latest_time' = latest_time \/
   exists f st, f ∈ files /\ ProjectModel_.stat_of f = inr st /\
                latest_time' = st_mtime st).

(** [os.path.join(r, "")]: [r] with a separator at its end. *)
Definition with_sep (r : string) : string := os_path.join r "".

Definition prefix_all (front : string) (l : list (string * node))
  : list (string * node) :=
  (fun x => (front +:+ x.1, x.2)) <$> l.

(** Every failure a tree holds: the [os.stat] errors of its files and
    the [os.listdir] errors of its directories. *)
Fixpoint failures (d : node) : list exn :=
  match d with
  | File _ st _ => match st with inl e => [e] | inr _ => [] end
  | Dir _ _ err entries =>
      match err with Some e => [e] | None => [] end
      ++ (fix go (l : list node) : list exn :=
            match l with
            | [] => []
            | x :: l' => failures x ++ go l'
            end) entries
  end.

(** The modification times [os.stat] reports for the files of a tree. *)
Fixpoint mtimes (d : node) : list Q :=
  match d with
  | File _ st _ => match st with inl _ => [] | inr st => [st_mtime st] end
  | Dir _ _ _ entries =>
      (fix go (l : list node) : list Q :=
         match l with
         | [] => []
         | x :: l' => mtimes x ++ go l'
         end) entries
  end.

(** A project [to_dict] accepts: its [last_modified] is a [datetime],
    or a number that counts as false. *)
Definition exportable (p : ProjectModel) : Prop :=
  match last_modified p with
  | LM_datetime _ => True
  | LM_number t => Qeq_bool t 0 = true
  end.

(** A regular file that [is_python_project] takes for a source file. *)
Definition source_file (self : FinderModel.settings) (item : node) : bool :=
  isfile item
  && negb (Py.any (fun ext => Py.endswith (Py.lower (node_name item)) ext)
             (FinderModel.ignored_exts self))
  && Py.any (fun ext => Py.endswith (node_name item) ext)
       (FinderModel.python_extensions self).

(** A marker name that [is_project_root] takes: it names a regular file
    of the listing and has no ignored extension. *)
Definition marker_file (self : FinderModel.settings) (entries : list node)
    (root_file : string) : bool :=
  match lookup_entry entries root_file with
  | Some item =>
      isfile item
      && negb (Py.any (fun ext => Py.endswith (Py.lower root_file) ext)
                 (FinderModel.ignored_exts self))
  | None => false
  end.

(** The state after the signals [evs]. *)
Definition after (s : M.state) (evs : list signal) : M.state :=
  M.mkState (M.projects s) (M.emitted s ++ evs) (M.polls s).

(** The names of the entries of every directory of the tree are not
    empty, have no separator in them and differ from one another, as
    the names of a file system do. *)
Fixpoint well_named (d : node) : Prop :=
  match d with
  | File _ _ _ => True
  | Dir _ _ _ entries =>
      NoDup (node_name <$> entries) /\
      Forall (fun child => node_name child <> "" /\ no_sep (node_name child)) entries /\
      (fix go (l : list node) : Prop :=
         match l with
         | [] => True
         | x :: l' => well_named x /\ go l'
         end) entries
  end.

(** [q] is the directory [c] or a path below it. *)
Definition zone (c q : string) : Prop :=
  q = c \/ exists rest, q = with_sep c +:+ rest.

(** No path of the list is another path of the list, or below it. *)
Definition apart (l : list string) : Prop :=
  forall i j q1 q2, l !! i = Some q1 -> l !! j = Some q2 -> i <> j -> ~ zone q1 q2.

(** A run appends projects whose paths satisfy [Z] and lie apart. *)
Definition grows (Z : string -> Prop) (s s' : M.state) : Prop :=
  exists added,
    M.projects s' = M.projects s ++ added /\
    apart (path <$> added) /\ Forall (fun p => Z (path p)) added.

(** The zones of the directories among [l] below [p]. *)
Definition child_zones (p : string) (l : list node) (q : string) : Prop :=
  exists child, child ∈ l /\ zone (os_path.join p (node_name child)) q.

(** [gather rs]: the lists of [rs] put together, or the first failure
    among them. *)
Fixpoint gather {A} (rs : list (exn + list A)) : exn + list A :=
  match rs with
  | [] => inr []
  | r :: rs' =>
      match r with
      | inl e => inl e
      | inr l =>
          match gather rs' with
          | inl e => inl e
          | inr l' => inr (l ++ l')
          end
      end
  end.

(** What of the content of a file enters the folder hash: all of it
    when the file is recorded as smaller than 10 MiB, else its first and
    its last MiB, or nothing when it is shorter than 1 MiB. *)
Definition sample_content (st : exn + stat_result) (content : exn + list byte)
  : exn + list byte :=
  match st, content with
  | inr stats, inr data =>
      if bool_decide (st_size stats < 10 * 1024 * 1024) then inr data
      else if bool_decide (Py.len data < ProjectModel_.MiB) then inr []
      else inr (take (Z.to_nat ProjectModel_.MiB) data
                ++ drop (length data - Z.to_nat ProjectModel_.MiB) data)
  | _, _ => content
  end.

(** The tree with every file cut down to what enters the hash. *)
Fixpoint sample (d : node) : node :=
  match d with
  | File nm st content => File nm st (sample_content st content)
  | Dir nm st err entries =>
      Dir nm st err
        ((fix go (l : list node) : list node :=
            match l with
            | [] => []
            | x :: l' => sample x :: go l'
            end) entries)
  end.

Definition sample_entry (x : string * node) : string * node := (x.1, sample x.2).

(** The same tree with the entries of its directories listed in
    another order. *)
Inductive reordered : node -> node -> Prop :=
| reordered_file nm st content : reordered (File nm st content) (File nm st content)
| reordered_dir nm st err entries l entries' :
    Forall2 reordered entries l -> l ≡ₚ entries' ->
    reordered (Dir nm st err entries) (Dir nm st err entries').

(** Two walks give the same files, or both fail. *)
Definition agree (r r' : exn + list (string * node)) : Prop :=
  match r, r' with
  | inr l, inr l' => l ≡ₚ l'
  | inl _, inl _ => True
  | _, _ => False
  end.

(** [q] is a path below the directory [nm]. *)
Definition headed (nm q : string) : Prop := exists rel, q = nm +:+ String "/" rel.

(** What [b2j] holds for the elements of [a]: all their positions, in
    increasing order. *)
Definition indexes {A} `{Countable A} (a : list A) (b2j : gmap A (list Z)) : Prop :=
  forall x js, b2j !! x = Some js ->
    (forall j, j ∈ js <-> Py.getitem a j = Some x) /\
    StronglySorted Z.lt js.

(** * Properties *)

(** ** The library models on the examples of the Python documentation *)

Example find_longest_match_doc :
  difflib.find_longest_match (list_ascii_of_string " abcd")
    (list_ascii_of_string "abcd abcd")
    (difflib.__chain_b (list_ascii_of_string "abcd abcd")) 0 5 0 9
  = difflib.mkMatch 0 4 5.
Proof. vm_compute. reflexivity. Qed.

Example get_matching_blocks_doc :
  difflib.get_matching_blocks (list_ascii_of_string "abxcd")
    (list_ascii_of_string "abcd")
  = [difflib.mkMatch 0 0 2; difflib.mkMatch 3 2 2; difflib.mkMatch 5 4 0].
Proof. vm_compute. reflexivity. Qed.

Example ratio_doc : (difflib.ratio_str "abcd" "bcde" == 0.75)%Q.
Proof. vm_compute. reflexivity. Qed.

Example ratio_tide_diet :
  (difflib.ratio_str "tide" "diet" == 0.25)%Q /\
  (difflib.ratio_str "diet" "tide" == 0.5)%Q.
Proof. split; vm_compute; reflexivity. Qed.

Example fnmatch_examples :
  fnmatch.fnmatch "photo.jpg" "*.jpg" = true /\
  fnmatch.fnmatch "photo.jpg" ".jpg" = false /\
  fnmatch.fnmatch ".jpg" ".jpg" = true /\
  fnmatch.fnmatch "a.py" "?.py" = true.
Proof. repeat split. Qed.

Example path_examples :
  os_path.join "/a" "b" = "/a/b" /\ os_path.join "/a/" "b" = "/a/b" /\
  os_path.join "" "b" = "b" /\
  os_path.basename "/a/b/c.py" = "c.py" /\ os_path.basename "/a/b/" = "" /\
  ProjectModel_.relpath "/r/proj/sub/x.py" "/r/proj" = "sub/x.py".
Proof. repeat split. Qed.

Example str_examples :
  Py.str_of_int 0 = "0" /\ Py.str_of_int 1048576 = "1048576" /\
  Py.str_of_int (-5) = "-5" /\ Py.lower "Photo.JPG" = "photo.jpg" /\
  Py.endswith "photo.jpg" ".jpg" = true /\ Py.endswith "jpg" ".jpg" = false /\
  ProjectModel_.hex ["000"%byte; "255"%byte; "026"%byte] = "00ff1a".
Proof. repeat split. Qed.

(** ** Sorting *)

Lemma insort_Permutation {A} (le : A -> A -> bool) (x : A) (l : list A) :
  Py.insort le x l ≡ₚ x :: l.
Proof.
  induction l as [|y l IH]; simpl; [done|].
  destruct (le y x); [|done].
  rewrite IH. apply Permutation_swap.
Qed.

Lemma sorted_Permutation {A} (le : A -> A -> bool) (l : list A) :
  Py.sorted le l ≡ₚ l.
Proof.
  unfold Py.sorted.
  assert (Hgen : forall acc, foldl (fun acc x => Py.insort le x acc) acc l ≡ₚ acc ++ l).
  { induction l as [|x l IH]; intros acc; simpl.
    - by rewrite app_nil_r.
    - rewrite IH, insort_Permutation.
      by rewrite (Permutation_middle acc l x). }
  apply (Hgen []).
Qed.

Lemma sum_Permutation (l k : list Z) : l ≡ₚ k -> Py.sum l = Py.sum k.
Proof.
  unfold Py.sum. induction 1; simpl; lia.
Qed.

Lemma sum_app (l k : list Z) : Py.sum (l ++ k) = Py.sum l + Py.sum k.
Proof. unfold Py.sum. induction l; simpl; lia. Qed.

(** ** The sequence matcher stays inside the two sequences *)

Section difflib_facts.
Context {A : Type} `{Countable A}.
Import difflib.

Lemma flm_inner_within alo ahi blo bhi i j2len js newj2len best :
  alo <= i < ahi ->
  j2len_ok alo blo (i - 1) j2len ->
  j2len_ok alo blo i newj2len ->
  within alo ahi blo bhi best ->
  j2len_ok alo blo i (flm_inner i blo bhi j2len js newj2len best).1 /\
  within alo ahi blo bhi (flm_inner i blo bhi j2len js newj2len best).2.
Proof.
  intros Hi Hold. revert newj2len best.
  induction js as [|j js IH]; intros newj2len best Hnew Hbest; simpl; [done|].
  destruct (decide (j < blo)); [by apply IH|].
  destruct (decide (j >= bhi)); [done|].
  assert (Hk : 1 <= default 0 (j2len !! (j - 1)) + 1 /\
               default 0 (j2len !! (j - 1)) + 1 <= i - alo + 1 /\
               default 0 (j2len !! (j - 1)) + 1 <= j - blo + 1).
  { destruct (j2len !! (j - 1)) as [k'|] eqn:Hlk; simpl.
    - apply Hold in Hlk. lia.
    - lia. }
  apply IH.
  - intros j' k' [[<- <-]|[_ Hlk]]%lookup_insert_Some; [done|by apply Hnew].
  - destruct (decide (_ > m_size best)); [|done].
    unfold within; simpl. lia.
Qed.

Lemma flm_outer_within (a : list A) b2j alo ahi blo bhi n :
  forall i0 j2len best,
    alo <= i0 -> i0 + Z.of_nat n <= ahi ->
    j2len_ok alo blo (i0 - 1) j2len ->
    within alo ahi blo bhi best ->
    within alo ahi blo bhi
      (flm_outer a b2j blo bhi (seqZ i0 (Z.of_nat n)) j2len best).
Proof.
  induction n as [|n IH]; intros i0 j2len best Hlo Hhi Hj Hbest.
  - done.
  - rewrite seqZ_cons by lia. simpl.
    set (js := match Py.getitem a i0 with
               | Some x => default [] (b2j !! x) | None => [] end).
    destruct (flm_inner_within alo ahi blo bhi i0 j2len js ∅ best)
      as [Hnew Hbest']; [lia|done| |done|].
    { intros j k. by rewrite lookup_empty. }
    destruct (flm_inner i0 blo bhi j2len js ∅ best) as [newj2len best'].
    replace (Z.pred (Z.of_nat (S n))) with (Z.of_nat n) by lia.
    apply IH; [lia|lia| |done].
    by replace (Z.succ i0 - 1) with i0 by lia.
Qed.

Lemma flm_extend_left_within fuel (a b : list A) alo ahi blo bhi best :
  within alo ahi blo bhi best ->
  within alo ahi blo bhi (flm_extend_left fuel a b alo blo best).
Proof.
  revert best. induction fuel as [|fuel IH]; intros best Hbest; simpl; [done|].
  destruct (bool_decide (m_a best > alo)) eqn:Ha; simpl; [|done].
  destruct (bool_decide (m_b best > blo)) eqn:Hb; simpl; [|done].
  destruct (negb _ && _); [|done].
  apply bool_decide_eq_true in Ha, Hb.
  apply IH. unfold within in *; simpl. lia.
Qed.

Lemma flm_extend_right_within fuel (a b : list A) alo ahi blo bhi best :
  within alo ahi blo bhi best ->
  within alo ahi blo bhi (flm_extend_right fuel a b ahi bhi best).
Proof.
  revert best. induction fuel as [|fuel IH]; intros best Hbest; simpl; [done|].
  destruct (bool_decide (m_a best + m_size best < ahi)) eqn:Ha; simpl; [|done].
  destruct (bool_decide (m_b best + m_size best < bhi)) eqn:Hb; simpl; [|done].
  destruct (negb _ && _); [|done].
  apply bool_decide_eq_true in Ha, Hb.
  apply IH. unfold within in *; simpl. lia.
Qed.

Lemma find_longest_match_within (a b : list A) b2j alo ahi blo bhi :
  alo <= ahi -> blo <= bhi ->
  within alo ahi blo bhi (find_longest_match a b b2j alo ahi blo bhi).
Proof.
  intros Ha Hb. unfold find_longest_match.
  apply flm_extend_right_within, flm_extend_left_within.
  unfold Py.range.
  replace (ahi - alo) with (Z.of_nat (Z.to_nat (ahi - alo))) by lia.
  apply flm_outer_within; [lia|lia| |].
  - intros j k. by rewrite lookup_empty.
  - unfold within; simpl. lia.
Qed.

(** The left loop stops because its guard fails, not because the
    counter ran out: at the result the guard is false. *)
Lemma flm_extend_left_done fuel (a b : list A) alo blo best :
  (m_a best - alo <= Z.of_nat fuel) ->
  flm_extend_left 1 a b alo blo (flm_extend_left fuel a b alo blo best)
  = flm_extend_left fuel a b alo blo best.
Proof.
  revert best. induction fuel as [|fuel IH]; intros best Hf.
  - simpl. rewrite bool_decide_eq_false_2 by lia. done.
  - cbn [flm_extend_left].
    destruct (bool_decide (m_a best > alo) && bool_decide (m_b best > blo)
              && negb _ && elt_eqb _ _) eqn:Hg.
    + apply IH. simpl. lia.
    + cbn [flm_extend_left]. by rewrite Hg.
Qed.

Lemma flm_extend_right_done fuel (a b : list A) ahi bhi best :
  (ahi - (m_a best + m_size best) <= Z.of_nat fuel) ->
  flm_extend_right 1 a b ahi bhi (flm_extend_right fuel a b ahi bhi best)
  = flm_extend_right fuel a b ahi bhi best.
Proof.
  revert best. induction fuel as [|fuel IH]; intros best Hf.
  - simpl. rewrite bool_decide_eq_false_2 by lia. done.
  - cbn [flm_extend_right].
    destruct (bool_decide (m_a best + m_size best < ahi)
              && bool_decide (m_b best + m_size best < bhi)
              && negb _ && elt_eqb _ _) eqn:Hg.
    + apply IH. simpl. lia.
    + cbn [flm_extend_right]. by rewrite Hg.
Qed.

(** *** The queue loop *)

Lemma sizes_nil : sizes [] = 0.
Proof. done. Qed.

Lemma sizes_cons x l : sizes (x :: l) = m_size x + sizes l.
Proof. done. Qed.

Lemma sizes_app l k : sizes (l ++ k) = sizes l + sizes k.
Proof. unfold sizes. by rewrite fmap_app, sum_app. Qed.

Lemma span_nonneg q : valid_range q -> 0 <= span_a q /\ 0 <= span_b q.
Proof. destruct q as [[[alo ahi] blo] bhi]; simpl. lia. Qed.

Lemma gmb_loop_bound fuel (a b : list A) b2j :
  forall queue blocks res,
    Forall valid_range queue ->
    gmb_loop fuel a b b2j queue blocks = Some res ->
    sizes blocks <= sizes res /\
    sizes res <= sizes blocks + Py.sum (span_a <$> queue) /\
    sizes res <= sizes blocks + Py.sum (span_b <$> queue).
Proof.
  induction fuel as [|fuel IH]; intros queue blocks res Hq Hrun.
  - destruct queue as [|[[[alo ahi] blo] bhi] queue]; simpl in Hrun; [|done].
    injection Hrun as <-. simpl. unfold Py.sum; simpl. lia.
  - destruct queue as [|[[[alo ahi] blo] bhi] queue]; simpl in Hrun.
    { injection Hrun as <-. unfold Py.sum; simpl. lia. }
    apply Forall_cons in Hq as [[Ha Hb] Hq].
    pose proof (find_longest_match_within a b b2j alo ahi blo bhi Ha Hb)
      as (Hx1 & Hx2 & Hx3 & Hx4 & Hx5).
    set (x := find_longest_match a b b2j alo ahi blo bhi) in *.
    destruct (decide (m_size x = 0)) as [Hk|Hk].
    + apply IH in Hrun as (? & ? & ?); [|done].
      cbn [fmap list_fmap Py.sum foldr span_a span_b]. unfold Py.sum in *. lia.
    + apply IH in Hrun as (Hr1 & Hr2 & Hr3).
      * rewrite sizes_app in Hr1, Hr2, Hr3.
        unfold sizes at 2 in Hr1. unfold sizes at 3 in Hr2. unfold sizes at 3 in Hr3.
        cbn [fmap list_fmap Py.sum foldr span_a span_b] in *.
        unfold Py.sum in *.
        destruct (bool_decide (alo < m_a x) && bool_decide (blo < m_b x));
          destruct (bool_decide (m_a x + m_size x < ahi)
                    && bool_decide (m_b x + m_size x < bhi));
          cbn [fmap list_fmap foldr span_a span_b] in *; lia.
      * destruct (bool_decide (alo < m_a x)) eqn:E1;
          destruct (bool_decide (blo < m_b x)) eqn:E2;
          destruct (bool_decide (m_a x + m_size x < ahi)) eqn:E3;
          destruct (bool_decide (m_b x + m_size x < bhi)) eqn:E4;
          cbn [andb];
          repeat match goal with
                 | E : bool_decide _ = true |- _ => apply bool_decide_eq_true in E
                 end;
          repeat (apply Forall_cons; split); try done; simpl; lia.
Qed.

Lemma gmb_loop_terminates fuel (a b : list A) b2j :
  forall queue blocks,
    Forall valid_range queue ->
    (queue_measure queue <= fuel)%nat ->
    is_Some (gmb_loop fuel a b b2j queue blocks).
Proof.
  induction fuel as [|fuel IH]; intros queue blocks Hq Hfuel.
  - destruct queue as [|[[[alo ahi] blo] bhi] queue]; simpl; [done|].
    apply Forall_cons in Hq as [[Ha Hb] Hq].
    cbn [queue_measure foldr span_a] in Hfuel. lia.
  - destruct queue as [|[[[alo ahi] blo] bhi] queue]; simpl; [done|].
    apply Forall_cons in Hq as [[Ha Hb] Hq].
    cbn [queue_measure foldr span_a] in Hfuel.
    fold (queue_measure queue) in Hfuel.
    pose proof (find_longest_match_within a b b2j alo ahi blo bhi Ha Hb)
      as (Hx1 & Hx2 & Hx3 & Hx4 & Hx5).
    set (x := find_longest_match a b b2j alo ahi blo bhi) in *.
    destruct (decide (m_size x = 0)) as [Hk|Hk].
    + apply IH; [done|lia].
    + apply IH.
      * destruct (bool_decide (alo < m_a x)) eqn:E1;
          destruct (bool_decide (blo < m_b x)) eqn:E2;
          destruct (bool_decide (m_a x + m_size x < ahi)) eqn:E3;
          destruct (bool_decide (m_b x + m_size x < bhi)) eqn:E4;
          cbn [andb];
          repeat match goal with
                 | E : bool_decide _ = true |- _ => apply bool_decide_eq_true in E
                 end;
          repeat (apply Forall_cons; split); try done; simpl; lia.
      * destruct (bool_decide (alo < m_a x)) eqn:E1;
          destruct (bool_decide (blo < m_b x)) eqn:E2;
          destruct (bool_decide (m_a x + m_size x < ahi)) eqn:E3;
          destruct (bool_decide (m_b x + m_size x < bhi)) eqn:E4;
          cbn [andb queue_measure foldr span_a];
          fold (queue_measure queue);
          repeat match goal with
                 | E : bool_decide _ = true |- _ => apply bool_decide_eq_true in E
                 end;
          lia.
Qed.

(** With the rounds [get_matching_blocks] allows, the loop runs until
    the queue is empty. *)
Lemma raw_matching_blocks_total (a b : list A) :
  is_Some (raw_matching_blocks a b).
Proof.
  unfold raw_matching_blocks, gmb_fuel.
  apply gmb_loop_terminates.
  - apply Forall_cons; split; [|done]. unfold Py.len; simpl. lia.
  - unfold Py.len; simpl. lia.
Qed.

Lemma gmb_collapse_sizes blocks :
  forall cur non_adjacent,
    sizes (gmb_collapse blocks cur non_adjacent)
    = sizes blocks + m_size cur + sizes non_adjacent.
Proof.
  induction blocks as [|x blocks IH]; intros cur acc; cbn [gmb_collapse].
  - destruct (decide (m_size cur = 0)) as [Hk|Hk].
    + rewrite sizes_nil. lia.
    + rewrite sizes_app, sizes_cons, !sizes_nil. lia.
  - destruct (_ && _).
    + rewrite IH, sizes_cons. simpl. lia.
    + rewrite IH, sizes_cons. destruct (decide (m_size cur = 0)) as [Hk|Hk].
      * lia.
      * rewrite sizes_app, sizes_cons, sizes_nil. lia.
Qed.

(** The number of matched elements is at most the length of either
    sequence. *)
Lemma matches_bound (a b : list A) :
  0 <= sizes (get_matching_blocks a b) /\
  sizes (get_matching_blocks a b) <= Py.len a /\
  sizes (get_matching_blocks a b) <= Py.len b.
Proof.
  unfold get_matching_blocks.
  destruct (raw_matching_blocks_total a b) as [raw Hraw].
  rewrite Hraw; simpl.
  rewrite sizes_app, gmb_collapse_sizes.
  assert (Hs : sizes (Py.sorted Match_leb raw) = sizes raw).
  { unfold sizes. apply sum_Permutation, fmap_Permutation, sorted_Permutation. }
  rewrite Hs.
  apply gmb_loop_bound in Hraw as (H1 & H2 & H3).
  - unfold sizes at 1 in H1. unfold sizes at 2 in H2. unfold sizes at 2 in H3.
    unfold sizes at 2 3 5 6 8 9. unfold Py.sum in *. simpl in *. lia.
  - apply Forall_cons; split; [|done]. unfold Py.len; simpl. lia.
Qed.

(** [ratio()] is a number between 0 and 1. *)
Lemma ratio_bounds (a b : list A) : (0 <= ratio a b <= 1)%Q.
Proof.
  unfold ratio, _calculate_ratio.
  destruct (matches_bound a b) as (H0 & Ha & Hb).
  fold (sizes (get_matching_blocks a b)).
  set (M := sizes (get_matching_blocks a b)) in *.
  destruct (decide (Py.len a + Py.len b = 0)) as [|Hne]; [done|].
  assert (HT : 0 < Py.len a + Py.len b) by (unfold Py.len in *; lia).
  assert (HTq : (0 < inject_Z (Py.len a + Py.len b))%Q).
  { rewrite <- (Zlt_Qlt 0). done. }
  split.
  - apply Qle_shift_div_l; [done|].
    rewrite Qmult_0_l.
    replace 0%Q with (2 * inject_Z 0)%Q by done.
    apply Qmult_le_l; [done|]. by rewrite <- Zle_Qle.
  - apply Qle_shift_div_r; [done|].
    rewrite Qmult_1_l.
    assert (Heq : (2 * inject_Z M == inject_Z (2 * M))%Q).
    { by rewrite inject_Z_mult. }
    rewrite Heq, <- Zle_Qle. lia.
Qed.

End difflib_facts.

(** ** The similarity score *)

Section similarity_facts.
Import FinderModel.

Lemma size_similarity_bounds a b : (0 <= size_similarity a b <= 1)%Q.
Proof.
  unfold size_similarity.
  destruct (real_size a) as [s1|], (real_size b) as [s2|]; try done.
  destruct (bool_decide (s1 > 0)) eqn:H1; [|done].
  destruct (bool_decide (s2 > 0)) eqn:H2; [|done].
  apply bool_decide_eq_true in H1, H2. simpl.
  assert (Hmax : (0 < inject_Z (s1 `max` s2))%Q).
  { rewrite <- (Zlt_Qlt 0). lia. }
  split.
  - apply Qle_shift_div_l; [done|]. rewrite Qmult_0_l.
    rewrite <- (Zle_Qle 0). lia.
  - apply Qle_shift_div_r; [done|]. rewrite Qmult_1_l.
    rewrite <- Zle_Qle. lia.
Qed.

Lemma size_similarity_sym a b : size_similarity a b = size_similarity b a.
Proof.
  unfold size_similarity.
  destruct (real_size a) as [s1|], (real_size b) as [s2|]; try done.
  rewrite (andb_comm (bool_decide (s1 > 0))).
  by rewrite (Z.min_comm s1 s2), (Z.max_comm s1 s2).
Qed.

Lemma file_similarity_bounds a b : (0 <= file_similarity a b <= 1)%Q.
Proof. apply ratio_bounds. Qed.

Lemma name_similarity_bounds a b : (0 <= name_similarity a b <= 1)%Q.
Proof. apply ratio_bounds. Qed.

Lemma hashes_match_sym a b : hashes_match a b = hashes_match b a.
Proof.
  unfold hashes_match.
  rewrite (andb_comm (truthy_str (folder_hash a))). f_equal.
  apply bool_decide_ext. naive_solver.
Qed.

End similarity_facts.

(** C2, as the code has it: the score of any two projects lies between 0
    and 1; it is the same in both directions for every pair on which the
    two sequence ratios (sorted file names, project names) do not depend on
    the order of their arguments. *)
Theorem similarity_bounds_and_symmetry (a b : ProjectModel) :
  (0 <= FinderModel._calculate_similarity a b <= 1)%Q /\
  ((FinderModel.file_similarity a b == FinderModel.file_similarity b a)%Q ->
   (FinderModel.name_similarity a b == FinderModel.name_similarity b a)%Q ->
   (FinderModel._calculate_similarity a b == FinderModel._calculate_similarity b a)%Q).
Proof.
  unfold FinderModel._calculate_similarity.
  fold (hashes_match a b). fold (hashes_match b a).
  rewrite (hashes_match_sym b a).
  rewrite (orb_comm (bool_decide (python_files b = []))).
  destruct (bool_decide (python_files a = []) || bool_decide (python_files b = [])).
  { split; [done|]. intros _ _. reflexivity. }
  destruct (hashes_match a b).
  { split; [done|]. intros _ _. reflexivity. }
  rewrite (andb_comm (FinderModel.is_not_None (real_size b))).
  rewrite (size_similarity_sym b a).
  pose proof (file_similarity_bounds a b) as [Hf0 Hf1].
  pose proof (name_similarity_bounds a b) as [Hn0 Hn1].
  pose proof (size_similarity_bounds a b) as [Hs0 Hs1].
  destruct (FinderModel.is_not_None (real_size a)
            && FinderModel.is_not_None (real_size b)).
  - split; [split; lra|]. intros Hf Hn. rewrite Hf, Hn. reflexivity.
  - split; [split; lra|]. intros Hf Hn. rewrite Hf, Hn. reflexivity.
Qed.

Lemma similarity_bounds_and_symmetry_witness :
  (0 <= FinderModel._calculate_similarity Examples.sized_five Examples.sized_ten <= 1)%Q /\
  (FinderModel._calculate_similarity Examples.sized_five Examples.sized_ten
   == FinderModel._calculate_similarity Examples.sized_ten Examples.sized_five)%Q.
Proof.
  destruct (similarity_bounds_and_symmetry Examples.sized_five Examples.sized_ten)
    as [Hb Hs].
  split; [exact Hb|].
  apply Hs; vm_compute; reflexivity.
Defined.

(** C2 as stated fails: the names "tide" and "diet" score 0.775 one way
    round and 0.85 the other. *)
Lemma similarity_not_symmetric :
  ~ (FinderModel._calculate_similarity Examples.tide Examples.diet
     == FinderModel._calculate_similarity Examples.diet Examples.tide)%Q.
Proof. intros Heq. vm_compute in Heq. discriminate Heq. Qed.

(** C3, as the code has it: for two projects with source files and
    without matching hashes, the weights depend only on whether both real
    sizes are computed.  If they are, the score is 0.6 f + 0.2 n + 0.2 s,
    where s is min/max when both sizes are positive and 0 otherwise; if
    one is missing, the score is 0.7 f + 0.3 n. *)
Theorem similarity_weights (a b : ProjectModel) :
  python_files a <> [] -> python_files b <> [] -> hashes_match a b = false ->
  let f := FinderModel.file_similarity a b in
  let n := FinderModel.name_similarity a b in
  (forall s1 s2, real_size a = Some s1 -> real_size b = Some s2 ->
     s1 > 0 -> s2 > 0 ->
     FinderModel._calculate_similarity a b
     = (f * 0.6 + n * 0.2
        + (inject_Z (Z.min s1 s2) / inject_Z (Z.max s1 s2)) * 0.2)%Q) /\
  (forall s1 s2, real_size a = Some s1 -> real_size b = Some s2 ->
     s1 <= 0 \/ s2 <= 0 ->
     FinderModel._calculate_similarity a b = (f * 0.6 + n * 0.2 + 0 * 0.2)%Q) /\
  (real_size a = None \/ real_size b = None ->
     FinderModel._calculate_similarity a b = (f * 0.7 + n * 0.3)%Q).
Proof.
  intros Ha Hb Hh f n. unfold FinderModel._calculate_similarity.
  fold (hashes_match a b). rewrite Hh.
  rewrite !bool_decide_eq_false_2 by done. cbn [orb].
  unfold FinderModel.size_similarity. subst f n.
  split; [|split].
  - intros s1 s2 -> -> H1 H2. cbn [FinderModel.is_not_None andb].
    by rewrite !bool_decide_eq_true_2 by done.
  - intros s1 s2 -> -> H12. cbn [FinderModel.is_not_None andb].
    destruct H12.
    + by rewrite (bool_decide_eq_false_2 (s1 > 0)) by lia.
    + rewrite (bool_decide_eq_false_2 (s2 > 0)) by lia.
      by rewrite andb_false_r.
  - intros [->| ->]; [done|].
    by destruct (real_size a).
Qed.

Lemma similarity_weights_witness :
  FinderModel._calculate_similarity Examples.sized_five Examples.sized_ten
  = (FinderModel.file_similarity Examples.sized_five Examples.sized_ten * 0.6
     + FinderModel.name_similarity Examples.sized_five Examples.sized_ten * 0.2
     + (inject_Z (Z.min 5 10) / inject_Z (Z.max 5 10)) * 0.2)%Q.
Proof.
  refine (proj1 (similarity_weights Examples.sized_five Examples.sized_ten
                   _ _ _) 5 10 _ _ _ _);
    try reflexivity; try discriminate; lia.
Defined.

(** C3 as stated fails: with both real sizes computed and one of them 0
    the score is 0.6 f + 0.2 n, here 0.8, and not 0.7 f + 0.3 n, here 1. *)
Lemma zero_size_keeps_three_weights :
  python_files Examples.sized_zero <> [] /\
  python_files Examples.sized_five <> [] /\
  hashes_match Examples.sized_zero Examples.sized_five = false /\
  real_size Examples.sized_zero = Some 0 /\
  ~ (FinderModel._calculate_similarity Examples.sized_zero Examples.sized_five
     == FinderModel.file_similarity Examples.sized_zero Examples.sized_five * 0.7
        + FinderModel.name_similarity Examples.sized_zero Examples.sized_five * 0.3)%Q.
Proof.
  split; [discriminate|]. split; [discriminate|].
  split; [vm_compute; reflexivity|]. split; [reflexivity|].
  intros Heq. vm_compute in Heq. discriminate Heq.
Qed.

(** C4, as the code has it: two projects whose source-file lists are
    both non-empty and whose hashes are equal and not empty score exactly
    1, whatever their file names, names and sizes; and a project without
    source files scores 0 with every project, whatever the hashes. *)
Theorem equal_hashes_score_one (a b : ProjectModel) :
  (forall h : string,
      folder_hash a = Some h -> folder_hash b = Some h -> h <> "" ->
      python_files a <> [] -> python_files b <> [] ->
      FinderModel._calculate_similarity a b = 1%Q) /\
  (python_files a = [] \/ python_files b = [] ->
   FinderModel._calculate_similarity a b = 0%Q).
Proof.
  unfold FinderModel._calculate_similarity. split.
  - intros h Ha Hb Hh Hpa Hpb.
    rewrite !bool_decide_eq_false_2 by done. cbn [orb].
    rewrite Ha, Hb. cbn [FinderModel.truthy_str].
    rewrite bool_decide_eq_true_2 by done.
    by destruct (String.eqb_spec h "").
  - intros [Hp|Hp]; rewrite Hp.
    + done.
    + rewrite (bool_decide_eq_true_2 ([] = [])) by done.
      by rewrite orb_true_r.
Qed.

Lemma equal_hashes_score_one_witness :
  FinderModel._calculate_similarity Examples.hashed_full Examples.hashed_other
  = 1%Q /\
  FinderModel._calculate_similarity Examples.hashed_empty Examples.hashed_full
  = 0%Q.
Proof.
  split.
  - refine (proj1 (equal_hashes_score_one Examples.hashed_full
                     Examples.hashed_other) "ab12" _ _ _ _ _);
      try reflexivity; discriminate.
  - apply (proj2 (equal_hashes_score_one Examples.hashed_empty
                    Examples.hashed_full)).
    left. reflexivity.
Defined.

(** C4 as stated fails when a source-file list is empty: the first rule
    answers 0 before the hashes are looked at. *)
Lemma equal_hashes_empty_list_scores_zero :
  path Examples.hashed_empty <> path Examples.hashed_full /\
  folder_hash Examples.hashed_empty = Some "ab12" /\
  folder_hash Examples.hashed_full = Some "ab12" /\
  FinderModel._calculate_similarity Examples.hashed_empty Examples.hashed_full <> 1%Q.
Proof.
  split; [discriminate|]. split; [reflexivity|]. split; [reflexivity|].
  intros Heq. vm_compute in Heq. discriminate Heq.
Qed.

(** ** Grouping *)

Section grouping_facts.
Import FinderModel.
Variable sim : ProjectModel -> ProjectModel -> Q.
Variable thr : Q.

Lemma fd_inner_distinct p1 rest acc :
  Forall (fun p2 => path p1 <> path p2) rest ->
  Forall distinct_pair acc.1 ->
  Forall distinct_pair (fd_inner sim thr p1 rest acc).1.
Proof.
  revert acc. induction rest as [|p2 rest IH]; intros [dups sims] Hrest Hacc;
    cbn [fd_inner]; [done|].
  apply Forall_cons in Hrest as [Hp Hrest].
  apply IH; [done|]. cbn [fst].
  destruct (Qle_bool thr (sim p1 p2)); [|done].
  apply Forall_app; split; [done|].
  by apply Forall_singleton.
Qed.

Lemma fd_outer_distinct ps acc :
  NoDup (path <$> ps) ->
  Forall distinct_pair acc.1 ->
  Forall distinct_pair (fd_outer sim thr ps acc).1.
Proof.
  revert acc. induction ps as [|p1 rest IH]; intros acc Hnd Hacc;
    cbn [fd_outer]; [done|].
  rewrite fmap_cons in Hnd. apply NoDup_cons in Hnd as [Hp1 Hnd].
  apply IH; [done|]. apply fd_inner_distinct; [|done].
  apply Forall_forall. intros p2 Hin Heq.
  apply Hp1. rewrite Heq. by apply list_elem_of_fmap_2.
Qed.

Lemma find_group_lookup groups p1 p2 n pos :
  find_group groups p1 p2 n = Some pos ->
  (n <= pos)%nat /\ is_Some (groups !! (pos - n)%nat).
Proof.
  revert n. induction groups as [|g groups IH]; intros n Hf; cbn [find_group] in Hf;
    [done|].
  destruct (_ || _).
  - injection Hf as <-. split; [lia|]. rewrite Nat.sub_diag. by eexists.
  - apply IH in Hf as [Hle [g' Hg']]. split; [lia|].
    exists g'. by replace (pos - n)%nat with (S (pos - S n)) by lia.
Qed.

Lemma add_pair_grows g d processed :
  (length (g_projects g) <= length (g_projects (add_pair g d processed).1))%nat.
Proof.
  destruct d as [[p1 p2] s]. unfold add_pair.
  destruct (negb (project_in p1 (g_projects g)));
    [destruct (negb (project_in p2 (g_projects g ++ [p1])))
    |destruct (negb (project_in p2 (g_projects g)))];
    cbn [fst g_projects]; rewrite ?length_app; cbn [length]; lia.
Qed.

Lemma add_pair_fresh d processed :
  distinct_pair d ->
  length (g_projects (add_pair (mkGroup [] []) d processed).1) = 2%nat.
Proof.
  destruct d as [[p1 p2] s]. unfold distinct_pair, add_pair; cbn [fst snd].
  intros Hne. cbn [g_projects project_in existsb negb app].
  unfold project_eq. rewrite bool_decide_eq_false_2 by done.
  done.
Qed.

Lemma gd_step_has_two st d :
  distinct_pair d -> Forall has_two st.1 -> Forall has_two (gd_step st d).1.
Proof.
  destruct st as [groups processed]. intros Hd Hg. unfold gd_step.
  destruct d as [[p1 p2] s] eqn:Ed.
  destruct (_ && _); [done|].
  destruct (find_group groups p1 p2 0) as [pos|] eqn:Hf.
  - apply find_group_lookup in Hf as [_ [g Hg']].
    rewrite Nat.sub_0_r in Hg'. rewrite Hg'.
    pose proof (add_pair_grows g (p1, p2, s) processed) as Hgrow.
    destruct (add_pair g (p1, p2, s) processed) as [g' processed'].
    cbn [fst] in *.
    apply Forall_insert; [done|].
    unfold has_two. eapply Forall_lookup_1 in Hg; [|done].
    unfold has_two in Hg. lia.
  - rewrite lookup_app_r by done. rewrite Nat.sub_diag. cbn [lookup list_lookup].
    pose proof (add_pair_fresh (p1, p2, s) processed Hd) as Hnew.
    destruct (add_pair (mkGroup [] []) (p1, p2, s) processed) as [g' processed'].
    cbn [fst] in *.
    rewrite insert_app_r_alt by done. rewrite Nat.sub_diag. cbn [insert list_insert].
    apply Forall_app; split; [done|].
    apply Forall_singleton. unfold has_two. lia.
Qed.

Lemma foldl_gd_step_has_two dups st :
  Forall distinct_pair dups -> Forall has_two st.1 ->
  Forall has_two (foldl gd_step st dups).1.
Proof.
  revert st. induction dups as [|d dups IH]; intros st Hd Hst; cbn [foldl]; [done|].
  apply Forall_cons in Hd as [Hd Hds].
  apply IH; [done|]. by apply gd_step_has_two.
Qed.

(** Among projects with pairwise different paths no group has fewer
    than two members. *)
Lemma groups_have_two ps :
  NoDup (path <$> ps) ->
  Forall has_two (group_duplicates_with sim thr ps).
Proof.
  intros Hnd. unfold group_duplicates_with, find_duplicates_with.
  pose proof (fd_outer_distinct ps ([], []) Hnd (Forall_nil_2 _)) as Hd.
  destruct (fd_outer sim thr ps ([], [])) as [dups sims]. cbn [fst] in Hd.
  destruct dups as [|d dups]; [done|].
  pose proof (foldl_gd_step_has_two (Py.sorted by_score_desc (d :: dups)) ([], ∅)) as Hf.
  destruct (foldl gd_step ([], ∅) (Py.sorted by_score_desc (d :: dups)))
    as [groups processed].
  rewrite sorted_Permutation. apply Hf; [|done].
  by rewrite sorted_Permutation.
Qed.

End grouping_facts.

Lemma Qle_bool_true_intro x y : (x <= y)%Q -> Qle_bool x y = true.
Proof. apply Qle_bool_iff. Qed.

Lemma Qle_bool_false_intro x y : (y < x)%Q -> Qle_bool x y = false.
Proof.
  intros Hlt. destruct (Qle_bool x y) eqn:E; [|done].
  apply Qle_bool_iff in E. lra.
Qed.

(** Running the grouping on projects of which only the paths and the
    scores are known: every test met on the way is decided from the
    hypotheses. *)
Ltac decide_membership :=
  rewrite ?elem_of_union, ?elem_of_singleton, ?elem_of_empty;
  intuition congruence.

Ltac decide_tests :=
  match goal with
  | |- context [Qle_bool ?x ?y] =>
      first [ rewrite (Qle_bool_true_intro x y) by lra
            | rewrite (Qle_bool_false_intro x y) by lra ]
  | |- context [bool_decide (?x = ?y)] =>
      first [ rewrite (bool_decide_eq_true_2 (x = y)) by reflexivity
            | rewrite (bool_decide_eq_false_2 (x = y)) by assumption ]
  | |- context [bool_decide (?x ∈ ?S)] =>
      first [ rewrite (bool_decide_eq_true_2 (x ∈ S)) by decide_membership
            | rewrite (bool_decide_eq_false_2 (x ∈ S)) by decide_membership ]
  end.

Ltac run_grouping :=
  unfold FinderModel.group_duplicates_with, FinderModel.find_duplicates_with,
    Py.sorted;
  repeat first
    [ progress cbn [FinderModel.fd_outer FinderModel.fd_inner app foldl
                    FinderModel.gd_step FinderModel.find_group project_in existsb
                    FinderModel.add_pair FinderModel.g_projects
                    FinderModel.g_similarities FinderModel.pair_dict_set
                    fst snd negb andb orb lookup list_lookup
                    insert list_insert length Py.insort Nat.leb]
    | progress unfold FinderModel.by_score_desc, FinderModel.by_size_desc,
        project_eq, FinderModel.pair_eq
    | decide_tests ].

Section chain.
Import FinderModel.
Variable sim : ProjectModel -> ProjectModel -> Q.
Variables A B C : ProjectModel.
Hypothesis HAB : path A <> path B.
Hypothesis HBC : path B <> path C.
Hypothesis HAC : path A <> path C.
Hypothesis Sab : (sim A B == 0.9)%Q.
Hypothesis Sba : (sim B A == 0.9)%Q.
Hypothesis Sbc : (sim B C == 0.75)%Q.
Hypothesis Scb : (sim C B == 0.75)%Q.
Hypothesis Sac : (sim A C < 0.7)%Q.
Hypothesis Sca : (sim C A < 0.7)%Q.

(** Whatever the order of the three projects in [self.projects], the
    pairs (A, B) and (B, C) end up in one group of three. *)
Lemma chain_one_group ps :
  [A; B; C] ≡ₚ ps ->
  exists g, group_duplicates_with sim 0.7 ps = [g] /\ g_projects g ≡ₚ [A; B; C].
Proof using All.
  intros Hperm. apply permutations_Permutation in Hperm.
  assert (HBA : path B <> path A) by done.
  assert (HCB : path C <> path B) by done.
  assert (HCA : path C <> path A) by done.
  cbn in Hperm.
  repeat (apply elem_of_cons in Hperm as [->|Hperm]);
    try (by apply elem_of_nil in Hperm);
    run_grouping; eexists; (split; [reflexivity|]); cbn [g_projects];
    solve_Permutation.
Qed.
End chain.

(** C5, as the code has it: for every list of projects with pairwise
    different paths each group has at least two members; and when (A, B)
    with score 0.9 and (B, C) with score 0.75 are the only pairs at or
    above the threshold 0.7, the result is one group made of A, B and C,
    in whatever order the three projects are listed. *)
Theorem grouping_chains_and_has_no_singletons :
  (forall (sim : ProjectModel -> ProjectModel -> Q) (thr : Q) (ps : list ProjectModel),
      NoDup (path <$> ps) ->
      Forall has_two (FinderModel.group_duplicates_with sim thr ps)) /\
  (forall (sim : ProjectModel -> ProjectModel -> Q) (A B C : ProjectModel)
          (ps : list ProjectModel),
      [A; B; C] ≡ₚ ps ->
      path A <> path B -> path B <> path C -> path A <> path C ->
      (sim A B == 0.9)%Q -> (sim B A == 0.9)%Q ->
      (sim B C == 0.75)%Q -> (sim C B == 0.75)%Q ->
      (sim A C < 0.7)%Q -> (sim C A < 0.7)%Q ->
      exists g, FinderModel.group_duplicates_with sim 0.7 ps = [g]
                /\ FinderModel.g_projects g ≡ₚ [A; B; C]).
Proof.
  split.
  - intros sim thr ps. apply groups_have_two.
  - intros sim A B C ps Hperm **. by apply chain_one_group.
Qed.

Lemma grouping_chains_and_has_no_singletons_witness :
  Forall has_two
    (FinderModel.group_duplicates [Examples.tide; Examples.diet; Examples.sized_five]) /\
  exists g,
    FinderModel.group_duplicates_with Examples.chain_score 0.7
      [Examples.chain_c; Examples.chain_a; Examples.chain_b] = [g]
    /\ FinderModel.g_projects g
       ≡ₚ [Examples.chain_a; Examples.chain_b; Examples.chain_c].
Proof.
  destruct grouping_chains_and_has_no_singletons as [Htwo Hchain].
  split.
  - apply Htwo. apply (bool_decide_unpack _). vm_compute. exact I.
  - apply Hchain.
    + solve_Permutation.
    + discriminate.
    + discriminate.
    + discriminate.
    + vm_compute. reflexivity.
    + vm_compute. reflexivity.
    + vm_compute. reflexivity.
    + vm_compute. reflexivity.
    + vm_compute. reflexivity.
    + vm_compute. reflexivity.
Defined.

(** C5 as stated fails for a list that holds two records of one path:
    the second record counts as already present, and the group keeps a
    single member. *)
Lemma repeated_path_gives_singleton_group :
  exists g,
    FinderModel.group_duplicates [Examples.twin; Examples.twin_again] = [g]
    /\ length (FinderModel.g_projects g) = 1%nat.
Proof. eexists. split; [vm_compute; reflexivity|reflexivity]. Qed.

(** ** The scanner *)

(** Induction over a directory tree. *)
Lemma node_ind (P : node -> Prop) :
  (forall nm st content, P (File nm st content)) ->
  (forall nm st err entries, Forall P entries -> P (Dir nm st err entries)) ->
  forall n, P n.
Proof.
  intros HF HD. fix IH 1. intros [nm st content|nm st err entries]; [apply HF|].
  apply HD. induction entries as [|e entries IHe]; constructor; [apply IH|apply IHe].
Qed.

(** How [respects] goes through the operations of the monad. *)
Section respects.
Variable R : M.state -> M.state -> Prop.
Context `{!PreOrder R}.

Lemma respects_ret {A} (a : A) : respects R (M.ret a).
Proof using All. intros s. reflexivity. Qed.

Lemma respects_raise {A} (e : exn) : respects R (@M.raise A e).
Proof using All. intros s. reflexivity. Qed.

Lemma respects_lift {A} (r : exn + A) : respects R (M.lift r).
Proof using All. destruct r; [apply respects_raise|apply respects_ret]. Qed.

Lemma respects_bind {A B} (m : M.t A) (k : A -> M.t B) :
  respects R m -> (forall a, respects R (k a)) -> respects R (M.bind m k).
Proof using All.
  intros Hm Hk s. unfold M.bind. specialize (Hm s).
  destruct (m s) as [[a|e] s']; cbn [snd] in *; [|done].
  etrans; [done|]. apply Hk.
Qed.

Lemma respects_bind_post {A B} (m : M.t A) (k : A -> M.t B) (P : A -> Prop) :
  respects R m ->
  (forall s a, (m s).1 = M.Return a -> P a) ->
  (forall a, P a -> respects R (k a)) ->
  respects R (M.bind m k).
Proof using All.
  intros Hm HP Hk s. unfold M.bind. specialize (Hm s). specialize (HP s).
  destruct (m s) as [[a|e] s']; cbn [fst snd] in *; [|done].
  etrans; [done|]. by apply Hk, HP.
Qed.

Lemma respects_try_except {A} (m : M.t A) handles (h : exn -> M.t A) :
  respects R m -> (forall e, respects R (h e)) -> respects R (M.try_except m handles h).
Proof using All.
  intros Hm Hh s. unfold M.try_except. specialize (Hm s).
  destruct (m s) as [[a|e] s']; cbn [snd] in *; [done|].
  destruct (handles e); [|done].
  etrans; [done|]. apply Hh.
Qed.

Lemma respects_get_projects : respects R M.get_projects.
Proof using All. intros s. reflexivity. Qed.

End respects.

#[local] Instance same_projects_preorder : PreOrder same_projects.
Proof.
  split; [done|]. intros s1 s2 s3 H12 H23. unfold same_projects in *. congruence.
Qed.

Lemma emit_same_projects sg : respects same_projects (M.emit sg).
Proof. done. Qed.

Lemma stop_requested_same_projects worker :
  respects same_projects (M.stop_requested worker).
Proof. intros s. unfold M.stop_requested. by destruct worker. Qed.

(** What only reports files respects every relation that such reports
    respect: the two classifier predicates and the analysis of a project. *)
Section file_reports.
Import FinderModel.
Variable R : M.state -> M.state -> Prop.
Context `{HR : !PreOrder R}.
Hypothesis file_report : forall p, respects R (M.emit (file_scanning p)).
Variable self : settings.

Lemma ipp_loop_respects directory_path items :
  respects R (ipp_loop self directory_path items).
Proof using All.
  induction items as [|item items IH]; cbn [ipp_loop]; [apply respects_ret; apply _|].
  destruct (isfile item); [|exact IH].
  destruct (Py.any _ (ignored_exts self)); [exact IH|].
  destruct (Py.any _ (python_extensions self)); [|exact IH].
  apply respects_bind; [apply _|apply file_report|].
  intros _. apply respects_ret; apply _.
Qed.

Lemma ipr_loop_respects directory_path files root_files :
  respects R (ipr_loop self directory_path files root_files).
Proof using All.
  induction root_files as [|rf root_files IH]; cbn [ipr_loop];
    [apply respects_ret; apply _|].
  destruct (lookup_entry files rf) as [item|]; [|exact IH].
  destruct (isfile item); [|exact IH].
  destruct (Py.any _ (ignored_exts self)); [exact IH|].
  apply respects_bind; [apply _|apply file_report|].
  intros _. apply respects_ret; apply _.
Qed.

Lemma is_python_project_respects directory_path d :
  respects R (is_python_project self directory_path d).
Proof using All.
  destruct d as [|nm st err entries]; cbn [is_python_project];
    [apply respects_ret; apply _|].
  apply respects_try_except; [apply _| |intros; apply respects_ret; apply _].
  apply respects_bind; [apply _|apply respects_lift; apply _|].
  intros items. apply ipp_loop_respects.
Qed.

Lemma is_project_root_respects directory_path d :
  respects R (is_project_root self directory_path d).
Proof using All.
  destruct d as [|nm st err entries]; cbn [is_project_root];
    [apply respects_ret; apply _|].
  apply respects_try_except; [apply _| |intros; apply respects_ret; apply _].
  apply respects_bind; [apply _|apply respects_lift; apply _|].
  intros items. apply ipr_loop_respects.
Qed.

Lemma flags_respects directory_path d :
  respects R
    (M.try_except
       (is_python <- is_python_project self directory_path d ;;
        is_project_root <- is_project_root self directory_path d ;;
        M.ret (Some (is_python, is_project_root)))
       is_OSError (fun _ => M.ret None)).
Proof using All.
  apply respects_try_except; [apply _| |intros; apply respects_ret; apply _].
  apply respects_bind; [apply _|apply is_python_project_respects|].
  intros ip. apply respects_bind; [apply _|apply is_project_root_respects|].
  intros ipr. apply respects_ret; apply _.
Qed.

Lemma init_respects path st : respects R (ProjectModel_.__init__ path st).
Proof using R HR file_report.
  unfold ProjectModel_.__init__.
  destruct st as [[]|]; first [apply respects_ret; apply _|apply respects_raise; apply _].
Qed.

Lemma add_stat_respects st t : respects R (ProjectModel_.add_stat st t).
Proof using R HR file_report.
  unfold ProjectModel_.add_stat. destruct st as [e|st]; [|apply respects_ret; apply _].
  destruct (is_OSError e); [apply respects_ret; apply _|apply respects_raise; apply _].
Qed.

Lemma root_files_loop_respects self_path exts items t :
  respects R (ProjectModel_.root_files_loop self_path exts file_scan_callback items t).
Proof using R HR file_report.
  revert t. induction items as [|item items IH]; intros t;
    cbn [ProjectModel_.root_files_loop]; [apply respects_ret; apply _|].
  destruct (bool_decide _); [|apply IH].
  destruct (isfile item); [|apply IH].
  destruct (ProjectModel_.ignored exts (node_name item)); [apply IH|].
  apply respects_bind; [apply _|apply file_report|]. intros _.
  apply respects_bind; [apply _|apply add_stat_respects|]. intros t'. apply IH.
Qed.

Lemma py_files_loop_respects root files t :
  respects R (ProjectModel_.py_files_loop root file_scan_callback files t).
Proof using R HR file_report.
  revert t. induction files as [|f files IH]; intros t;
    cbn [ProjectModel_.py_files_loop]; [apply respects_ret; apply _|].
  destruct (negb _); [apply IH|].
  apply respects_bind; [apply _|apply file_report|]. intros _.
  apply respects_bind; [apply _|apply add_stat_respects|]. intros t'. apply IH.
Qed.

Lemma walk_py_respects d :
  forall root t, respects R (ProjectModel_.walk_py d root file_scan_callback t).
Proof using R HR file_report.
  induction d as [nm st content|nm st err entries IH] using node_ind;
    intros root t; cbn [ProjectModel_.walk_py]; [apply respects_ret; apply _|].
  destruct err as [e|].
  { destruct (is_OSError e); [apply respects_ret; apply _|apply respects_raise; apply _]. }
  apply respects_bind; [apply _|apply py_files_loop_respects|]. clear t. intros t.
  revert t. induction entries as [|item entries IHe]; intros t;
    [apply respects_ret; apply _|].
  apply Forall_cons in IH as [Hitem IH].
  destruct item as [fnm fst fcontent|dnm dst derr dentries]; [by apply IHe|].
  apply respects_bind; [apply _|apply Hitem|]. intros t'. by apply IHe.
Qed.

Lemma analyze_project_respects fromtimestamp project d :
  respects R
    (ProjectModel_._analyze_project fromtimestamp project d file_scan_callback).
Proof using R HR file_report.
  destruct d as [nm st content|nm st err entries]; cbn [ProjectModel_._analyze_project];
    [apply respects_ret; apply _|].
  apply respects_bind; [apply _|apply respects_lift; apply _|]. intros items.
  apply respects_bind; [apply _|apply root_files_loop_respects|]. intros t.
  apply respects_bind; [apply _|apply walk_py_respects|]. intros t'.
  apply respects_bind; [apply _| |intros lm; apply respects_ret; apply _].
  destruct (Qlt_le_dec 0 _); [|apply respects_ret; apply _].
  apply respects_bind; [apply _|apply respects_lift; apply _|].
  intros dt. apply respects_ret; apply _.
Qed.

End file_reports.

Section scanner_facts.
Import FinderModel.
Variable self : settings.
Variable worker : option (nat -> bool).
Variable fromtimestamp : Q -> exn + datetime.
Variable print : string -> exn + unit.

Lemma ipp_loop_returns directory_path items s :
  (ipp_loop self directory_path items s).1 = M.Return (source_match self items).
Proof.
  induction items as [|item items IH]; cbn [ipp_loop source_match existsb]; [done|].
  destruct (isfile item); cbn [andb]; [|exact IH].
  destruct (Py.any _ (ignored_exts self)); cbn [negb andb]; [exact IH|].
  destruct (Py.any _ (python_extensions self)); cbn [orb]; [done|exact IH].
Qed.

Lemma ipr_loop_returns directory_path files root_files s :
  (ipr_loop self directory_path files root_files s).1
  = M.Return (existsb (fun root_file =>
                         match lookup_entry files root_file with
                         | Some item =>
                             isfile item
                             && negb (Py.any (fun ext =>
                                                Py.endswith (Py.lower root_file) ext)
                                        (ignored_exts self))
                         | None => false
                         end) root_files).
Proof.
  induction root_files as [|rf root_files IH]; cbn [ipr_loop existsb]; [done|].
  destruct (lookup_entry files rf) as [item|]; [|exact IH].
  destruct (isfile item); cbn [andb]; [|exact IH].
  destruct (Py.any _ (ignored_exts self)); cbn [negb orb]; [exact IH|done].
Qed.

Lemma is_python_project_returns directory_path nm st entries s :
  (is_python_project self directory_path (Dir nm st None entries) s).1
  = M.Return (source_match self entries).
Proof.
  unfold is_python_project, M.try_except, M.bind. cbn [listdir M.lift M.ret].
  pose proof (ipp_loop_returns directory_path entries s) as Hr.
  destruct (ipp_loop self directory_path entries s) as [[b|e] s']; cbn [fst] in *;
    [done|discriminate].
Qed.

Lemma is_project_root_returns directory_path nm st entries s :
  (is_project_root self directory_path (Dir nm st None entries) s).1
  = M.Return (marker_match self entries).
Proof.
  unfold is_project_root, M.try_except, M.bind. cbn [listdir M.lift M.ret].
  pose proof (ipr_loop_returns directory_path entries (project_root_files self) s)
    as Hr.
  destruct (ipr_loop self directory_path entries (project_root_files self) s)
    as [[b|e] s']; cbn [fst] in *; [done|discriminate].
Qed.

(** Below a directory that matched, nothing is added to
    [self.projects]. *)
Lemma covered_subtree_same_projects d :
  forall path parent_has_python parent_is_project_root,
    parent_has_python || parent_is_project_root = true ->
    respects same_projects
      (find_projects_recursive self worker fromtimestamp print d path false
         parent_has_python parent_is_project_root).
Proof.
  induction d as [nm st content|nm st err entries IH] using node_ind;
    intros path php ppr Hcov; cbn [find_projects_recursive].
  - apply respects_bind; [apply _|apply stop_requested_same_projects|].
    intros stop. destruct stop; [apply respects_ret; apply _|].
    apply respects_bind; [apply _|apply emit_same_projects|]. intros _.
    destruct (bool_decide _); [apply respects_ret; apply _|].
    apply respects_bind;
      [apply _|apply flags_respects; [apply _|intros; apply emit_same_projects]|].
    intros [[ip ipr]|]; [|apply respects_ret; apply _].
    rewrite Hcov. cbn [negb andb]. rewrite andb_false_r.
    apply respects_try_except; [apply _|apply respects_ret; apply _|].
    intros; apply respects_lift; apply _.
  - apply respects_bind; [apply _|apply stop_requested_same_projects|].
    intros stop. destruct stop; [apply respects_ret; apply _|].
    apply respects_bind; [apply _|apply emit_same_projects|]. intros _.
    destruct (bool_decide _); [apply respects_ret; apply _|].
    apply respects_bind;
      [apply _|apply flags_respects; [apply _|intros; apply emit_same_projects]|].
    intros [[ip ipr]|]; [|apply respects_ret; apply _].
    rewrite Hcov. cbn [negb andb]. rewrite andb_false_r.
    apply respects_try_except; [apply _| |intros; apply respects_lift; apply _].
    destruct err as [e|]; [apply respects_raise; apply _|].
    induction entries as [|item entries IHe]; [apply respects_ret; apply _|].
    apply Forall_cons in IH as [Hitem IH].
    apply respects_bind; [apply _|apply stop_requested_same_projects|].
    intros stop. destruct stop; [apply respects_ret; apply _|].
    destruct item as [fnm fst fcontent|dnm dst derr dentries]; [by apply IHe|].
    destruct (bool_decide (dnm ∈ ignore_dirs self)); [by apply IHe|].
    apply respects_bind; [apply _| |intros _; by apply IHe].
    apply Hitem. by destruct php, ppr, ip, ipr.
Qed.

(** The two flags computed for a directory that can be listed. *)
Lemma flags_value path nm st entries s :
  (M.try_except
     (is_python <- is_python_project self path (Dir nm st None entries) ;;
      is_project_root <- is_project_root self path (Dir nm st None entries) ;;
      M.ret (Some (is_python, is_project_root)))
     is_OSError (fun _ => M.ret None) s).1
  = M.Return (Some (source_match self entries, marker_match self entries)).
Proof.
  unfold M.try_except, M.bind.
  pose proof (is_python_project_returns path nm st entries s) as Hp.
  destruct (is_python_project self path (Dir nm st None entries) s) as [[ip|e] s1];
    cbn [fst] in Hp; [|discriminate].
  pose proof (is_project_root_returns path nm st entries s1) as Hr.
  destruct (is_project_root self path (Dir nm st None entries) s1) as [[ipr|e] s2];
    cbn [fst] in Hr; [|discriminate].
  cbn [M.ret fst]. congruence.
Qed.

(** The directory the caller chose is never a project; when it
    matches, its whole tree is covered. *)
Lemma matching_root_same_projects path nm st entries :
  source_match self entries = true \/ marker_match self entries = true ->
  respects same_projects
    (find_projects_recursive self worker fromtimestamp print
       (Dir nm st None entries) path true false false).
Proof.
  intros Hmatch. cbn [find_projects_recursive].
  apply respects_bind; [apply _|apply stop_requested_same_projects|].
  intros stop. destruct stop; [apply respects_ret; apply _|].
  apply respects_bind; [apply _|apply emit_same_projects|]. intros _.
  destruct (bool_decide _); [apply respects_ret; apply _|].
  apply (respects_bind_post _ _ _
           (fun flags => flags = Some (source_match self entries, marker_match self entries))).
  { apply flags_respects; [apply _|intros; apply emit_same_projects]. }
  { intros s flags Hflags. rewrite flags_value in Hflags. congruence. }
  intros flags ->. cbn [negb andb orb].
  apply respects_try_except; [apply _| |intros; apply respects_lift; apply _].
  assert (Hcov : source_match self entries || marker_match self entries = true).
  { destruct Hmatch as [-> | ->]; [done|by rewrite orb_true_r]. }
  revert Hcov. generalize (source_match self entries), (marker_match self entries).
  intros sm mm Hcov. clear Hmatch.
  induction entries as [|item entries IHe]; [apply respects_ret; apply _|].
  apply respects_bind; [apply _|apply stop_requested_same_projects|].
  intros stop. destruct stop; [apply respects_ret; apply _|].
  destruct item as [fnm fst fcontent|dnm dst derr dentries]; [exact IHe|].
  destruct (bool_decide (dnm ∈ ignore_dirs self)); [exact IHe|].
  apply respects_bind; [apply _| |intros _; exact IHe].
  by apply covered_subtree_same_projects.
Qed.


End scanner_facts.

(** The top-level [try] of [find_python_projects] around a traversal
    that leaves [self.projects] alone. *)
Lemma guarded_traversal_same_projects (m : M.t unit) (h : exn -> M.t unit)
    (s : M.state) :
  respects same_projects m ->
  (forall e, respects same_projects (h e)) ->
  (forall e s', (h e s').1 = M.Return tt) ->
  let run := (M.try_except
                (m ;;; ps <- M.get_projects ;; M.emit (search_finished (Py.len ps)))
                (fun _ => true) h ;;;
              M.get_projects) s in
  run.1 = M.Return (M.projects s) /\ M.projects run.2 = M.projects s.
Proof.
  intros Hm Hh Hret. specialize (Hm s).
  unfold M.bind, M.try_except, M.get_projects, M.emit.
  destruct (m s) as [[[]|e] s2]; cbn [fst snd M.projects] in *.
  - unfold same_projects in Hm. by rewrite Hm.
  - specialize (Hh e s2). specialize (Hret e s2).
    destruct (h e s2) as [[[]|e'] s3]; cbn [fst snd] in *; [|discriminate].
    unfold same_projects in *. split; [f_equal|]; congruence.
Qed.

(** C10: when the directory passed to [find_python_projects] itself
    holds a source file or a marker file, the scan returns the empty
    list, whatever lies below it. *)
Theorem matching_root_finds_nothing
    (self : FinderModel.settings) (worker : option (nat -> bool))
    (fromtimestamp : Q -> exn + datetime) (print : string -> exn + unit)
    (abspath : string -> string) (root_path nm : string) (st : stat_result)
    (entries : list node) (s : M.state) :
  source_match self entries = true \/ marker_match self entries = true ->
  let run := FinderModel.find_python_projects self worker fromtimestamp print
               abspath root_path (Some (Dir nm st None entries)) s in
  run.1 = M.Return [] /\ M.projects run.2 = [].
Proof.
  intros Hmatch. unfold FinderModel.find_python_projects.
  cbn [FinderModel.exists_ negb isdir].
  set (R := if Py.endswith root_path ":" || Py.endswith root_path ":\"
            then abspath root_path else root_path).
  pose proof (matching_root_same_projects self worker fromtimestamp print
      R nm st entries Hmatch) as Hroot.
  unfold M.bind at 1. cbn [M.set_projects].
  unfold M.bind at 1. cbn [M.emit M.projects M.emitted M.polls].
  set (s1 := M.mkState [] (M.emitted s ++ [search_started]) (M.polls s)).
  apply (guarded_traversal_same_projects _ _ s1 Hroot).
  - intros e. apply respects_bind; [apply _|apply emit_same_projects|].
    intros _. apply emit_same_projects.
  - intros e s'. reflexivity.
Qed.

Lemma matching_root_finds_nothing_witness :
  let run := FinderModel.find_python_projects FinderModel.default_settings None
               Examples.fromtimestamp Examples.print id
               "/R" (Some Examples.root_with_script) (M.mkState [] [] 0) in
  run.1 = M.Return [] /\ M.projects run.2 = [].
Proof.
  apply (matching_root_finds_nothing FinderModel.default_settings None
           Examples.fromtimestamp Examples.print id "/R" "R").
  left. vm_compute. reflexivity.
Defined.

(** *** A classified directory is a leaf *)

#[local] Instance files_only_preorder : PreOrder files_only.
Proof.
  split.
  - intros s. split; [done|]. exists []. by rewrite app_nil_r.
  - intros s1 s2 s3 [Hp12 (evs1 & He1 & Hf1)] [Hp23 (evs2 & He2 & Hf2)].
    split; [congruence|]. exists (evs1 ++ evs2).
    rewrite He2, He1, app_assoc. split; [done|]. by apply Forall_app.
Qed.

Lemma emit_file_files_only p : respects files_only (M.emit (file_scanning p)).
Proof.
  intros s. split; [done|]. exists [file_scanning p]. split; [done|].
  by apply Forall_singleton.
Qed.

Lemma bind_inv {A B} (m : M.t A) (k : A -> M.t B) s r s' :
  M.bind m k s = (r, s') ->
  (exists a s1, m s = (M.Return a, s1) /\ k a s1 = (r, s')) \/
  (exists e, m s = (M.Raise e, s') /\ r = M.Raise e).
Proof.
  unfold M.bind. destruct (m s) as [[a|e] s1]; intros Hk.
  - left. by exists a, s1.
  - right. exists e. by injection Hk as <- <-.
Qed.

Lemma bind_run {A B} (m : M.t A) (k : A -> M.t B) s a s1 :
  m s = (M.Return a, s1) -> M.bind m k s = k a s1.
Proof. intros Hm. unfold M.bind. by rewrite Hm. Qed.

Lemma bind_ret_l {A B} (a : A) (k : A -> M.t B) : M.bind (M.ret a) k = k a.
Proof. reflexivity. Qed.

Lemma analyze_project_path fromtimestamp project d callback s p' s' :
  ProjectModel_._analyze_project fromtimestamp project d callback s = (M.Return p', s') ->
  path p' = path project.
Proof.
  destruct d as [nm st content|nm st err entries]; cbn [ProjectModel_._analyze_project].
  - intros Hr. by injection Hr as <- _.
  - intros Hr.
    apply bind_inv in Hr as [(items & s1 & _ & Hr)|(e & _ & ?)]; [|done].
    apply bind_inv in Hr as [(t & s2 & _ & Hr)|(e & _ & ?)]; [|done].
    apply bind_inv in Hr as [(t' & s3 & _ & Hr)|(e & _ & ?)]; [|done].
    apply bind_inv in Hr as [(lm & s4 & _ & Hr)|(e & _ & ?)]; [|done].
    by injection Hr as <- _.
Qed.

Lemma no_directory_among_files evs q :
  Forall is_file_report evs -> directory_scanning q ∉ evs.
Proof.
  intros Hf Hin. eapply Forall_forall in Hf; [|done]. done.
Qed.

Lemma add_project_effect fromtimestamp print dir_path nm st err entries s :
  let s' := (FinderModel.add_project fromtimestamp print
      dir_path (Dir nm st err entries) s).2 in
  (M.projects s' = M.projects s \/
   exists p, M.projects s' = M.projects s ++ [p] /\ path p = dir_path) /\
  exists evs, M.emitted s' = M.emitted s ++ evs /\
              forall q, directory_scanning q ∉ evs.
Proof.
  unfold FinderModel.add_project. cbn [ProjectModel_.stat_of].
  pose (p0 := mkProject dir_path (os_path.basename dir_path) (st_size st)
                (LM_number (st_mtime st)) [] ∅ None None None None 0 []
                config.IGNORED_FILE_EXTENSIONS).
  change (ProjectModel_.__init__ dir_path (inr st)) with (M.ret p0).
  rewrite bind_ret_l. cbn beta.
  pose proof (analyze_project_respects files_only emit_file_files_only
                fromtimestamp p0 (Dir nm st err entries) s)
    as [Hps (evs & Hevs & Hfiles)].
  pose proof (analyze_project_path fromtimestamp p0 (Dir nm st err entries)
                FinderModel.file_scan_callback s) as Hpath.
  set (m := ProjectModel_._analyze_project fromtimestamp p0 (Dir nm st err entries)
              FinderModel.file_scan_callback) in *.
  clearbody m.
  unfold M.try_except, M.bind, M.get_projects, M.set_projects, M.emit, M.ret.
  destruct (m s) as [[p1|e] s1]; cbn [fst snd M.projects M.emitted] in *.
  - specialize (Hpath p1 s1 eq_refl).
    split.
    + right. exists p1. by rewrite Hps.
    + exists (evs ++ [project_found p1]). rewrite Hevs, app_assoc. split; [done|].
      intros q [Hin|Hin]%elem_of_app.
      * by eapply no_directory_among_files.
      * apply list_elem_of_singleton in Hin. discriminate.
  - unfold M.lift. destruct (print _); cbn [snd].
    all: split; [by left|]; exists evs; split; [done|].
    all: intros q; by apply no_directory_among_files.
Qed.

Section leaf.
Import FinderModel.
Variable self : settings.
Variable worker : option (nat -> bool).
Variable fromtimestamp : Q -> exn + datetime.
Variable print : string -> exn + unit.


End leaf.




(** An exception that escapes the traversal is caught by the top-level
    handler, which emits the error message and then a finished signal
    with the literal 0; the projects collected before the error stay in
    [self.projects] and are returned. *)
Lemma unexpected_error_run
    (self : FinderModel.settings) (worker : option (nat -> bool))
    (fromtimestamp : Q -> exn + datetime) (print : string -> exn + unit)
    (abspath : string -> string) (root_path nm : string) (st : stat_result)
    (err : option exn) (entries : list node) (s s' : M.state) (e : exn) :
  let final_root :=
    if Py.endswith root_path ":" || Py.endswith root_path ":\"
    then abspath root_path else root_path in
  FinderModel.find_projects_recursive self worker fromtimestamp print
    (Dir nm st err entries) final_root true false false
    (M.mkState [] (M.emitted s ++ [search_started]) (M.polls s))
  = (M.Raise e, s') ->
  FinderModel.find_python_projects self worker fromtimestamp print abspath
    root_path (Some (Dir nm st err entries)) s
  = (M.Return (M.projects s'),
     M.mkState (M.projects s')
       (M.emitted s'
        ++ [search_error ("Neočekávaná chyba při prohledávání: " +:+ str_exn e);
            search_finished 0])
       (M.polls s')).
Proof.
  intros final_root Hraise. unfold FinderModel.find_python_projects.
  cbn [FinderModel.exists_ negb isdir]. fold final_root.
  unfold M.bind at 1. cbn [M.set_projects].
  unfold M.bind at 1. cbn [M.emit M.projects M.emitted M.polls].
  unfold M.bind at 1. unfold M.try_except. unfold M.bind at 1.
  rewrite Hraise. cbn. by rewrite <- app_assoc.
Qed.

(** C7 fails on the code: the finished signal is declared to carry the
    number of projects found, and every other path emits the length of
    the list it leaves in [self.projects]; the top-level handler emits
    the literal 0.  On a root R where R/a is a project and the listing of
    R/b raises a [RuntimeError], the scan returns the one project found
    before the error, signals the error, and ends with a finished signal
    that carries 0, not 1. *)
Theorem error_count_is_zero_not_accumulated :
  let run := FinderModel.find_python_projects FinderModel.default_settings None
               Examples.fromtimestamp Examples.print id "/R"
               (Some Examples.broken_tree) (M.mkState [] [] 0) in
  path <$> M.projects run.2 = ["/R/a"] /\
  run.1 = M.Return (M.projects run.2) /\
  search_error "Neočekávaná chyba při prohledávání: boom" ∈ M.emitted run.2 /\
  last (M.emitted run.2) = Some (search_finished 0) /\
  search_finished (Py.len (M.projects run.2)) ∉ M.emitted run.2.
Proof.
  split; [vm_compute; reflexivity|].
  split; [vm_compute; reflexivity|].
  split.
  { vm_compute. repeat first [by apply list_elem_of_here|apply list_elem_of_further]. }
  split; [vm_compute; reflexivity|].
  intros Hin. vm_compute in Hin.
  repeat (apply elem_of_cons in Hin as [Hin|Hin]; [discriminate Hin|]).
  by apply elem_of_nil in Hin.
Qed.

(** ** Import and export *)

Lemma bind_raise {A B} (m : M.t A) (k : A -> M.t B) s e s1 :
  m s = (M.Raise e, s1) -> M.bind m k s = (M.Raise e, s1).
Proof. intros Hm. unfold M.bind. by rewrite Hm. Qed.

Section import_facts.
Import FinderModel.
Variable fromisoformat : string -> option datetime.
Variable stat : string -> exn + stat_result.

(** The loop handles the records up to the first that does not
    reconstruct; their projects are appended, one signal each. *)
Lemma load_loop_run records :
  forall s,
  exists k done,
    Forall2 (decodes_to fromisoformat stat) (take k records) done /\
    (load_loop fromisoformat stat records s).2
    = M.mkState (M.projects s ++ done)
        (M.emitted s ++ (project_found <$> done)) (M.polls s) /\
    match (load_loop fromisoformat stat records s).1 with
    | M.Return (Some _) => k = length records
    | M.Return None =>
        exists r, records !! k = Some r /\
                  ProjectModel_.from_dict fromisoformat stat r = ProjectModel_.Untyped
    | M.Raise e =>
        exists r, records !! k = Some r /\
                  ProjectModel_.from_dict fromisoformat stat r = ProjectModel_.Fails e
    end.
Proof.
  induction records as [|r records IH]; intros s; cbn [load_loop].
  - exists 0%nat, []. cbn. rewrite !app_nil_r. by destruct s.
  - destruct (ProjectModel_.from_dict fromisoformat stat r) as [p|e|] eqn:Hr.
    + rewrite (bind_run M.get_projects _ s (M.projects s) s eq_refl).
      rewrite (bind_run (M.set_projects (M.projects s ++ [p])) _ s tt
                 (M.mkState (M.projects s ++ [p]) (M.emitted s) (M.polls s)) eq_refl).
      rewrite (bind_run (M.emit (project_found p)) _
                 (M.mkState (M.projects s ++ [p]) (M.emitted s) (M.polls s)) tt
                 (M.mkState (M.projects s ++ [p])
                    (M.emitted s ++ [project_found p]) (M.polls s)) eq_refl).
      destruct (IH (M.mkState (M.projects s ++ [p])
                      (M.emitted s ++ [project_found p]) (M.polls s)))
        as (k & done & Hdone & Hstate & Hres).
      exists (S k), (p :: done). cbn [take M.projects M.emitted M.polls] in *.
      split; [by constructor|]. split.
      * rewrite Hstate. by rewrite <- !app_assoc.
      * destruct (load_loop fromisoformat stat records _).1 as [[[]|]|e];
          cbn [length lookup list_lookup]; [by f_equal|done|done].
    + exists 0%nat, []. cbn. rewrite !app_nil_r.
      split; [done|]. split; [by destruct s|]. by exists r.
    + exists 0%nat, []. cbn. rewrite !app_nil_r.
      split; [done|]. split; [by destruct s|]. by exists r.
Qed.

Lemma load_failure input_file file s :
  let run := load_from_json fromisoformat stat input_file file s in
  run.1 = M.Return (Some false) ->
  (exists msg, last (M.emitted run.2) = Some (search_error msg)) /\
  match file with
  | inl _ => M.projects run.2 = M.projects s
  | inr data =>
      match records_of data with
      | inl _ => M.projects run.2 = []
      | inr records =>
          exists k r e,
            records !! k = Some r /\
            ProjectModel_.from_dict fromisoformat stat r = ProjectModel_.Fails e /\
            Forall2 (decodes_to fromisoformat stat) (take k records) (M.projects run.2)
      end
  end.
Proof.
  unfold load_from_json, M.try_except. fold (records_of).
  destruct file as [e|data].
  - cbn. intros _. split; [|done]. eexists. by rewrite last_snoc.
  - rewrite (bind_run (M.lift (inr data)) _ s data s eq_refl).
    rewrite (bind_run (M.set_projects []) _ s tt
               (M.mkState [] (M.emitted s) (M.polls s)) eq_refl).
    fold (records_of data).
    destruct (records_of data) as [e|records].
    { cbn. intros _. split; [|done]. eexists. by rewrite last_snoc. }
    rewrite (bind_run (M.lift (inr records)) _
               (M.mkState [] (M.emitted s) (M.polls s)) records
               (M.mkState [] (M.emitted s) (M.polls s)) eq_refl).
    destruct (load_loop_run records (M.mkState [] (M.emitted s) (M.polls s)))
      as (k & done & Hdone & Hstate & Hres).
    destruct (load_loop fromisoformat stat records
                (M.mkState [] (M.emitted s) (M.polls s))) as [[[[]|]|e] s2] eqn:Hrun;
      cbn [fst snd] in Hstate, Hres.
    + rewrite (bind_run _ _ _ _ _ Hrun). cbn. discriminate.
    + rewrite (bind_run _ _ _ _ _ Hrun). cbn. discriminate.
    + rewrite (bind_raise _ _ _ _ _ Hrun). cbn. intros _.
      split; [eexists; by rewrite last_snoc|].
      destruct Hres as (r & Hr & Hfail). exists k, r, e.
      split; [done|]. split; [done|]. by rewrite Hstate.
Qed.

End import_facts.

(** C8, as the code has it: whenever [load_from_json] returns False it
    has emitted an error message.  If the file could not be read or
    parsed, the project list is as it was.  Once the document is
    parsed the list is emptied first: if the value under
    "python_projects" is missing a [get] method or cannot be iterated the
    list stays empty, and if a record fails to reconstruct the list holds
    the projects of the records before it. *)
Theorem load_failure_leaves_partial_list
    (fromisoformat : string -> option datetime)
    (stat : string -> exn + stat_result)
    (input_file : string) (file : exn + json) (s : M.state) :
  let run := FinderModel.load_from_json fromisoformat stat input_file file s in
  run.1 = M.Return (Some false) ->
  (exists msg, last (M.emitted run.2) = Some (search_error msg)) /\
  match file with
  | inl _ => M.projects run.2 = M.projects s
  | inr data =>
      match records_of data with
      | inl _ => M.projects run.2 = []
      | inr records =>
          exists k r e,
            records !! k = Some r /\
            ProjectModel_.from_dict fromisoformat stat r = ProjectModel_.Fails e /\
            Forall2 (decodes_to fromisoformat stat) (take k records) (M.projects run.2)
      end
  end.
Proof. apply load_failure. Qed.

Lemma load_failure_leaves_partial_list_witness :
  let run := FinderModel.load_from_json (fun _ => None) Examples.nothing_on_disk
               "in.json" (inl (FileNotFoundError "in.json"))
               (M.mkState [Examples.tide] [] 0) in
  (exists msg, last (M.emitted run.2) = Some (search_error msg)) /\
  M.projects run.2 = [Examples.tide].
Proof.
  apply (load_failure_leaves_partial_list (fun _ => None) Examples.nothing_on_disk
           "in.json" (inl (FileNotFoundError "in.json"))
           (M.mkState [Examples.tide] [] 0)).
  reflexivity.
Defined.

(** C8 as stated fails: the second record of the document has no
    "path"; the call returns False and the list that held one project
    now holds another, built from the first record. *)
Lemma failed_import_replaces_projects :
  let before := M.mkState [Examples.tide] [] 0 in
  let run := FinderModel.load_from_json (fun _ => None) Examples.nothing_on_disk
               "in.json" (inr Examples.half_good_document) before in
  run.1 = M.Return (Some false) /\
  path <$> M.projects before = ["/r/tide"] /\
  path <$> M.projects run.2 = ["/r/a"].
Proof. repeat split; vm_compute; reflexivity. Qed.

(** *** Export followed by import *)

Section round_trip.
Import FinderModel.
Variable isoformat : datetime -> string.
Variable fromisoformat : string -> option datetime.
Variable stat : string -> exn + stat_result.

(** [fromisoformat] reads what [isoformat] writes. *)
Hypothesis iso_accepted : forall d, is_Some (fromisoformat (isoformat d)).

Lemma as_str_list_aux_strs l :
  ProjectModel_.as_str_list_aux (JStr <$> l) = ProjectModel_.Decoded l.
Proof.
  induction l as [|x l IH]; cbn [fmap list_fmap ProjectModel_.as_str_list_aux];
    [done|].
  change (list_fmap string json JStr l) with (JStr <$> l). by rewrite IH.
Qed.

Lemma construct_path p :
  stat_tolerated stat p ->
  exists q, ProjectModel_.construct stat (JStr p) = ProjectModel_.Decoded q
            /\ path q = p /\ last_modified q = constructed_date stat p.
Proof.
  unfold stat_tolerated, ProjectModel_.construct, ProjectModel_.__init__,
    constructed_date.
  destruct (stat p) as [[]|st]; intros Hst; try done; by eexists.
Qed.

Lemma decode_last_modified_exported items lm v current :
  pydict.lookup items "last_modified" = Some v ->
  exported_date isoformat lm v ->
  exists r, ProjectModel_.decode_last_modified fromisoformat items current
            = ProjectModel_.Decoded r /\
            match lm with
            | LM_datetime d =>
                if String.eqb (isoformat d) "" then r = current
                else exists d', fromisoformat (isoformat d) = Some d' /\
                                r = LM_datetime d'
            | LM_number _ => r = current
            end.
Proof using iso_accepted.
  intros Hlk Hlm. unfold ProjectModel_.decode_last_modified. rewrite Hlk.
  destruct lm as [t|d]; cbn [exported_date] in Hlm; subst v; cbn [json_truthy];
    [by eexists|].
  destruct (String.eqb (isoformat d) ""); cbn [negb]; [by eexists|].
  destruct (iso_accepted d) as [d' Hd']. rewrite Hd'. eexists. split; [done|].
  by exists d'.
Qed.

Lemma from_dict_to_dict p r :
  ProjectModel_.to_dict isoformat p = inr r ->
  stat_tolerated stat (path p) ->
  exists q, ProjectModel_.from_dict fromisoformat stat r = ProjectModel_.Decoded q
            /\ same_record p q
            /\ restored_date isoformat fromisoformat stat p q.
Proof using iso_accepted.
  unfold ProjectModel_.to_dict. intros Hto Hstat.
  set (lm := match last_modified p with
             | LM_datetime d => inr (JStr (isoformat d))
             | LM_number t =>
                 if Qeq_bool t 0 then inr JNull
                 else inl (AttributeError "'float' object has no attribute 'isoformat'")
             end) in Hto.
  assert (Hlm : match lm with
                | inr v => exported_date isoformat (last_modified p) v
                | inl _ => True
                end).
  { subst lm. destruct (last_modified p) as [t|d]; [|done].
    by destruct (Qeq_bool t 0). }
  destruct lm as [e|lmv]; [discriminate|].
  destruct (construct_path (path p) Hstat) as (q0 & Hq0 & Hq0path & Hq0date).
  injection Hto as <-.
  destruct (real_size p) as [rs|] eqn:Hrs;
    destruct (real_file_count p) as [rfc|] eqn:Hrfc;
    destruct (folder_hash p) as [fh|] eqn:Hfh;
    cbn [app ProjectModel_.from_dict pydict.lookup String.eqb Ascii.eqb Bool.eqb];
    rewrite Hq0; cbn [ProjectModel_.dbind];
    cbn [pydict.get pydict.lookup String.eqb Ascii.eqb Bool.eqb
         ProjectModel_.as_str ProjectModel_.as_int ProjectModel_.dbind
         ProjectModel_.as_str_list ProjectModel_.as_opt_int
         ProjectModel_.as_opt_str];
    rewrite !as_str_list_aux_strs;
    (edestruct (decode_last_modified_exported) as (lmr & Hlmr & Hdate);
     [ | exact Hlm | rewrite Hlmr ]; [reflexivity|]);
    cbn [ProjectModel_.dbind];
    eexists; (split; [reflexivity|]);
    (split;
     [ unfold same_record;
       cbn [path name file_count size python_files project_files
              real_size real_file_count folder_hash];
       rewrite ?Hrs, ?Hrfc, ?Hfh; by repeat split
     | unfold restored_date; cbn [last_modified];
       rewrite Hq0date in Hdate; exact Hdate ]).
Qed.

Lemma to_dicts_records ps records :
  to_dicts isoformat ps = inr records ->
  Forall2 (fun p r => ProjectModel_.to_dict isoformat p = inr r) ps records.
Proof.
  revert records. induction ps as [|p ps IH]; intros records; cbn [to_dicts].
  - intros Hr. injection Hr as <-. constructor.
  - destruct (ProjectModel_.to_dict isoformat p) as [e|r] eqn:Hp; [done|].
    destruct (to_dicts isoformat ps) as [e|rs]; [done|].
    intros Hr. injection Hr as <-. constructor; [done|by apply IH].
Qed.

Lemma load_loop_all records qs :
  Forall2 (decodes_to fromisoformat stat) records qs ->
  forall s,
    load_loop fromisoformat stat records s
    = (M.Return (Some tt),
       M.mkState (M.projects s ++ qs) (M.emitted s ++ (project_found <$> qs))
         (M.polls s)).
Proof.
  induction 1 as [|r q records qs Hr _ IH]; intros s; cbn [load_loop].
  - cbn. rewrite !app_nil_r. by destruct s.
  - unfold decodes_to in Hr. rewrite Hr.
    rewrite (bind_run M.get_projects _ s (M.projects s) s eq_refl).
    rewrite (bind_run (M.set_projects (M.projects s ++ [q])) _ s tt
               (M.mkState (M.projects s ++ [q]) (M.emitted s) (M.polls s)) eq_refl).
    rewrite (bind_run (M.emit (project_found q)) _
               (M.mkState (M.projects s ++ [q]) (M.emitted s) (M.polls s)) tt
               (M.mkState (M.projects s ++ [q])
                  (M.emitted s ++ [project_found q]) (M.polls s)) eq_refl).
    rewrite IH. cbn [M.projects M.emitted M.polls fmap list_fmap].
    by rewrite <- !app_assoc.
Qed.

(** Whenever the export succeeds and the paths can be looked at on
    import, the import succeeds and gives back, in order, projects
    with the exported attributes. *)
Lemma export_import_round_trip output_file input_file s doc s1 s2 :
  Forall (fun p => stat_tolerated stat (path p)) (M.projects s) ->
  save_to_json isoformat output_file None s = (M.Return (true, Some doc), s1) ->
  exists s3,
    load_from_json fromisoformat stat input_file (inr doc) s2
    = (M.Return (Some true), s3)
    /\ Forall2 same_record (M.projects s) (M.projects s3)
    /\ Forall2 (restored_date isoformat fromisoformat stat)
         (M.projects s) (M.projects s3).
Proof using iso_accepted.
  intros Hstat Hsave. unfold save_to_json in Hsave.
  rewrite (bind_run M.get_projects _ s (M.projects s) s eq_refl) in Hsave.
  destruct (to_dicts isoformat (M.projects s)) as [e|records] eqn:Hrecords.
  { by rewrite (bind_raise (M.lift (inl e)) _ s e s eq_refl) in Hsave. }
  rewrite (bind_run (M.lift (inr records)) _ s records s eq_refl) in Hsave.
  injection Hsave as <- <-.
  apply to_dicts_records in Hrecords.
  assert (Hdec : exists qs, Forall2 (decodes_to fromisoformat stat) records qs
                            /\ Forall2 same_record (M.projects s) qs
                            /\ Forall2 (restored_date isoformat fromisoformat stat)
                                 (M.projects s) qs).
  { clear -Hrecords Hstat iso_accepted.
    induction Hrecords as [|p r ps records Hp _ IH].
    - exists []. split_and!; constructor.
    - apply Forall_cons in Hstat as [Hp' Hstat].
      destruct (from_dict_to_dict p r Hp Hp') as (q & Hq & Hsame & Hdate).
      destruct (IH Hstat) as (qs & Hqs & Hsames & Hdates).
      exists (q :: qs). split_and!; by constructor. }
  destruct Hdec as (qs & Hqs & Hsame & Hdates).
  eexists. split.
  - unfold load_from_json, M.try_except.
    rewrite (bind_run (M.lift (inr _)) _ s2 _ s2 eq_refl).
    rewrite (bind_run (M.set_projects []) _ s2 tt
               (M.mkState [] (M.emitted s2) (M.polls s2)) eq_refl).
    cbn [get_python_projects pydict.get pydict.lookup String.eqb Ascii.eqb
         Bool.eqb py_iter].
    rewrite (bind_run (M.lift (inr records)) _
               (M.mkState [] (M.emitted s2) (M.polls s2)) records
               (M.mkState [] (M.emitted s2) (M.polls s2)) eq_refl).
    rewrite (bind_run _ _ _ _ _ (load_loop_all records qs Hqs _)).
    cbn. reflexivity.
  - by split.
Qed.

End round_trip.

(** C9 fails on the code: the constructor stores the directory's
    [st_mtime], a number, in [last_modified], and the analysis replaces it
    by a [datetime] only when it met a file with a positive mtime.  A
    directory classified through a [.pyw] file has no such file, and
    [to_dict] then calls [isoformat] on a number: [save_to_json] raises
    (the dictionary is built before its [try]) and nothing is exported. *)
Theorem export_raises_on_numeric_last_modified (isoformat : datetime -> string) :
  let scan := FinderModel.find_python_projects FinderModel.default_settings None
                Examples.fromtimestamp Examples.print id
                "/R" (Some Examples.pyw_tree) (M.mkState [] [] 0) in
  path <$> M.projects scan.2 = ["/R/tool"] /\
  last_modified <$> M.projects scan.2 = [LM_number 7] /\
  (FinderModel.save_to_json isoformat "out.json" None scan.2).1
  = M.Raise (AttributeError "'float' object has no attribute 'isoformat'").
Proof. repeat split; vm_compute; reflexivity. Qed.

(** ** The folder hash *)

(** A pattern without wildcard matches its own text and nothing else. *)
Lemma fnmatch_literal (pat name : string) :
  Forall (fun c => c <> "*"%char /\ c <> "?"%char) (list_ascii_of_string pat) ->
  fnmatch.fnmatch name pat = String.eqb pat name.
Proof.
  unfold fnmatch.fnmatch. revert name.
  induction pat as [|c pat IH]; intros name Hlit; cbn [fnmatch.fnmatchcase].
  - by destruct name.
  - cbn [list_ascii_of_string] in Hlit. apply Forall_cons in Hlit as [[Hs Hq] Hlit].
    destruct (Ascii.eqb_spec c "*") as [|_]; [done|].
    destruct (Ascii.eqb_spec c "?") as [|_]; [done|].
    destruct name as [|c' name]; cbn [String.eqb]; [done|].
    destruct (Ascii.eqb c c'); [by apply IH|done].
Qed.

Section hash_facts.
Variable sha256 : list byte -> list byte.

Lemma unhex_hex_byte (b : byte) :
  unhex_byte (ProjectModel_.hexdigit (Byte.to_N b / 16))
             (ProjectModel_.hexdigit (Byte.to_N b mod 16)) = Some b.
Proof. destruct b; vm_compute; reflexivity. Qed.

(** [hexdigest] determines the digest. *)
Lemma hex_inj (d1 d2 : list byte) :
  ProjectModel_.hex d1 = ProjectModel_.hex d2 -> d1 = d2.
Proof.
  revert d2. induction d1 as [|b1 d1 IH]; intros [|b2 d2]; cbn [ProjectModel_.hex];
    try done.
  intros Heq. injection Heq as H1 H2 H3.
  f_equal; [|by apply IH].
  pose proof (unhex_hex_byte b1) as E1. pose proof (unhex_hex_byte b2) as E2.
  rewrite H1, H2 in E1. congruence.
Qed.

End hash_facts.

(** C1 fails on the code: the hasher tests a file name against the
    ignored extensions with [fnmatch], and a pattern such as [.jpg] has no
    wildcard, so it matches the name [.jpg] only.  [photo.jpg], which the
    classifier's [endswith] test ignores, is hashed: appending a byte to
    it changes what the folder digest is computed from, and so the
    digest, unless SHA-256 collides on the two inputs. *)
Theorem ignored_extension_file_is_hashed (sha256 : list byte -> list byte) :
  let p := Examples.album_project in
  let before := Examples.album ["a"%byte] in
  let after := Examples.album ["a"%byte; "b"%byte] in
  ProjectModel_.ignored (ignored_file_extensions p) "photo.jpg" = true /\
  ProjectModel_.hash_ignored (ignored_file_extensions p) "photo.jpg" = false /\
  ProjectModel_.folder_hasher_input sha256 p before
  <> ProjectModel_.folder_hasher_input sha256 p after /\
  (digest_of sha256 p before <> digest_of sha256 p after
   \/ exists x y, x <> y /\ sha256 x = sha256 y).
Proof.
  intros p before after.
  split; [vm_compute; reflexivity|]. split; [vm_compute; reflexivity|].
  assert (Hin : ProjectModel_.folder_hasher_input sha256 p before
                <> ProjectModel_.folder_hasher_input sha256 p after).
  { intros Heq. vm_compute in Heq. discriminate Heq. }
  split; [exact Hin|].
  destruct (ProjectModel_.folder_hasher_input sha256 p before) as [e1|fed1] eqn:E1;
    [vm_compute in E1; discriminate E1|].
  destruct (ProjectModel_.folder_hasher_input sha256 p after) as [e2|fed2] eqn:E2;
    [vm_compute in E2; discriminate E2|].
  assert (D1 : digest_of sha256 p before = Some (ProjectModel_.hex (sha256 fed1))).
  { unfold digest_of, ProjectModel_.calculate_folder_hash, before, Examples.album.
    fold (Examples.album ["a"%byte]). fold before. by rewrite E1. }
  assert (D2 : digest_of sha256 p after = Some (ProjectModel_.hex (sha256 fed2))).
  { unfold digest_of, ProjectModel_.calculate_folder_hash, after, Examples.album.
    fold (Examples.album ["a"%byte; "b"%byte]). fold after. by rewrite E2. }
  rewrite D1, D2.
  destruct (decide (ProjectModel_.hex (sha256 fed1) = ProjectModel_.hex (sha256 fed2)))
    as [Heq|Hne].
  - right. exists fed1, fed2. split; [congruence|]. by apply hex_inj.
  - left. congruence.
Qed.

(** ** Projects with the same hash *)

Section identical_facts.
Import FinderModel.

Lemma hash_groups_add_keys hg h p k :
  k ∈ (hash_groups_add hg h p).*1 <-> k = h \/ k ∈ hg.*1.
Proof.
  induction hg as [|[h' g] hg IH]; cbn [hash_groups_add].
  - cbn. rewrite list_elem_of_singleton. rewrite elem_of_nil. tauto.
  - case_bool_decide as Hh; cbn [fmap list_fmap fst].
    + rewrite !elem_of_cons. subst h'. tauto.
    + rewrite !elem_of_cons. fold (fmap (M:=list) (@fst (option string) (list ProjectModel))).
      rewrite IH. tauto.
Qed.

Lemma hash_groups_add_NoDup hg h p :
  NoDup hg.*1 -> NoDup (hash_groups_add hg h p).*1.
Proof.
  induction hg as [|[h' g] hg IH]; cbn [hash_groups_add]; intros Hnd.
  - cbn. apply NoDup_singleton.
  - apply NoDup_cons in Hnd as [Hh' Hnd].
    case_bool_decide as Hh; cbn [fmap list_fmap fst].
    + by apply NoDup_cons.
    + apply NoDup_cons. split; [|by apply IH].
      fold (fmap (M:=list) (@fst (option string) (list ProjectModel))).
      rewrite hash_groups_add_keys. intros [->|Hin]; done.
Qed.

Lemma hash_groups_add_elem hg h p k g' :
  NoDup hg.*1 ->
  (k, g') ∈ hash_groups_add hg h p <->
  (k <> h /\ (k, g') ∈ hg) \/
  (k = h /\ ((exists g, (h, g) ∈ hg /\ g' = g ++ [p]) \/ ((h ∉ hg.*1) /\ g' = [p]))).
Proof.
  induction hg as [|[h' g] hg IH]; cbn [hash_groups_add]; intros Hnd.
  - split.
    + intros [= -> ->]%list_elem_of_singleton. right. split; [done|]. right.
      split; [apply not_elem_of_nil|done].
    + intros [[_ Hin]|[-> [(g & Hin & _)|[_ ->]]]].
      * by apply elem_of_nil in Hin.
      * by apply elem_of_nil in Hin.
      * by apply list_elem_of_singleton.
  - change ((h', g) :: hg).*1 with (h' :: hg.*1) in *.
    apply NoDup_cons in Hnd as [Hh' Hnd]. specialize (IH Hnd).
    assert (Hfst : forall k g, (k, g) ∈ hg -> k ∈ hg.*1).
    { intros k0 g0 Hin. by apply (list_elem_of_fmap_2 fst) in Hin. }
    case_bool_decide as Hh.
    + subst h'. split.
      * intros [[= -> ->]|Hin]%elem_of_cons.
        -- right. split; [done|]. left. exists g. split; [by left|done].
        -- left. split; [|by right]. intros ->. by apply Hh', (Hfst _ g').
      * intros [[Hne Hin]|[-> Hcase]].
        -- apply elem_of_cons in Hin as [[= ? ?]|Hin]; [done|by right].
        -- destruct Hcase as [(g0 & Hin & ->)|[Hnin _]].
           ++ apply elem_of_cons in Hin as [[= <-]|Hin]; [by left|].
              by apply Hfst in Hin.
           ++ exfalso. apply Hnin. by left.
    + split.
      * intros [[= -> ->]|Hin]%elem_of_cons.
        { left. split; [done|by left]. }
        apply IH in Hin as [[Hne Hin]|[-> Hcase]].
        -- left. split; [done|by right].
        -- right. split; [done|]. destruct Hcase as [(g0 & Hin & ->)|[Hnin ->]].
           ++ left. exists g0. split; [by right|done].
           ++ right. split; [|done]. rewrite elem_of_cons. intros [?|?]; done.
      * intros Hcase. apply elem_of_cons.
        destruct Hcase as [[Hne Hin]|[-> Hcase]].
        -- apply elem_of_cons in Hin as [[= -> ->]|Hin]; [by left|].
           right. apply IH. left. done.
        -- right. apply IH. right. split; [done|].
           destruct Hcase as [(g0 & Hin & ->)|[Hnin ->]].
           ++ apply elem_of_cons in Hin as [[= ? ?]|Hin]; [done|].
              left. by exists g0.
           ++ right. split; [|done]. intros Hin. apply Hnin. by right.
Qed.

Lemma with_hash_snoc k l p :
  with_hash k (l ++ [p])
  = with_hash k l ++ (if bool_decide (folder_hash p = k) then [p] else []).
Proof.
  unfold with_hash. rewrite filter_app. f_equal.
  rewrite filter_cons, filter_nil. case_bool_decide as Hk.
  - reflexivity.
  - reflexivity.
Qed.

Lemma filed_step l hg p :
  filed l hg -> filed (l ++ [p]) (hash_groups_add hg (folder_hash p) p).
Proof.
  intros (Hnd & Hgroups & Hkeys). split; [by apply hash_groups_add_NoDup|]. split.
  - intros k g Hin. apply hash_groups_add_elem in Hin; [|done].
    rewrite with_hash_snoc.
    destruct Hin as [[Hne Hin]|[-> [(g0 & Hin & ->)|[Hnin ->]]]].
    + destruct (Hgroups k g Hin) as [-> Hnil].
      rewrite bool_decide_false; [|done]. by rewrite app_nil_r.
    + destruct (Hgroups _ g0 Hin) as [-> Hnil].
      rewrite bool_decide_true; [|done]. split; [done|]. by intros [? ?]%app_eq_nil.
    + rewrite bool_decide_true; [|done]. split; [|done].
      assert (Hnone : with_hash (folder_hash p) l = []); [|by rewrite Hnone].
      destruct (with_hash (folder_hash p) l) as [|q qs] eqn:Hq; [done|].
      assert (Hin : q ∈ with_hash (folder_hash p) l) by (rewrite Hq; by left).
      apply list_elem_of_filter in Hin as [Hqh Hql]. apply bool_decide_unpack in Hqh.
      exfalso. apply Hnin. rewrite <- Hqh. by apply Hkeys.
  - intros q [Hin|Hin]%elem_of_app; apply hash_groups_add_keys.
    + right. by apply Hkeys.
    + apply list_elem_of_singleton in Hin as ->. by left.
Qed.

Lemma filed_foldl l' :
  forall l hg,
    filed l hg ->
    filed (l ++ l')
      (foldl (fun hash_groups project =>
                hash_groups_add hash_groups (folder_hash project) project) hg l').
Proof.
  induction l' as [|p l' IH]; intros l hg Hf; cbn [foldl].
  - by rewrite app_nil_r.
  - replace (l ++ p :: l') with ((l ++ [p]) ++ l') by (by rewrite <- app_assoc).
    apply IH. by apply filed_step.
Qed.

Lemma with_hash_truthy h ps :
  h <> "" ->
  with_hash (Some h) (filter (fun p => truthy_str (folder_hash p)) ps)
  = with_hash (Some h) ps.
Proof.
  intros Hh. unfold with_hash. induction ps as [|p ps IH]; [done|].
  rewrite !filter_cons. destruct (decide (bool_decide (folder_hash p = Some h))) as [Hp|Hp].
  - assert (Ht : truthy_str (folder_hash p)).
    { apply bool_decide_unpack in Hp. rewrite Hp. cbn.
      apply negb_prop_intro. intros Heq%Is_true_true%String.eqb_eq. done. }
    rewrite decide_True by done. rewrite filter_cons, decide_True by done.
    by rewrite IH.
  - destruct (decide (truthy_str (folder_hash p))); [|done].
    by rewrite filter_cons, decide_False.
Qed.

Lemma identical_groups ps g :
  g ∈ find_identical_by_hash ps <->
  exists h, h <> "" /\ g = with_hash (Some h) ps /\ (2 <= length g)%nat.
Proof.
  unfold find_identical_by_hash.
  set (fl := filter (fun p => truthy_str (folder_hash p)) ps).
  pose proof (filed_foldl fl [] []) as Hf. cbn [app] in Hf.
  destruct Hf as (Hnd & Hgroups & Hkeys).
  { split; [constructor|]. split; [intros k g0 Hin; by apply elem_of_nil in Hin|].
    intros p Hin. by apply elem_of_nil in Hin. }
  set (hg := foldl (fun hash_groups project =>
                      hash_groups_add hash_groups (folder_hash project) project) [] fl) in *.
  assert (Hmain :
    g ∈ filter (fun group => bool_decide (Py.len group > 1)) hg.*2 <->
    exists h, h <> "" /\ g = with_hash (Some h) ps /\ (2 <= length g)%nat).
  { rewrite list_elem_of_filter. split.
    - intros [Hlen Hin]. apply bool_decide_unpack in Hlen. unfold Py.len in Hlen.
      apply list_elem_of_fmap in Hin as ([k g0] & -> & Hin). cbn [snd] in *.
      destruct (Hgroups k g0 Hin) as [Hg0 Hne].
      destruct g0 as [|q qs] eqn:Hq; [done|].
      assert (Hqin : q ∈ with_hash k fl) by (rewrite <- Hg0; by left).
      apply list_elem_of_filter in Hqin as [Hqh Hqfl]. apply bool_decide_unpack in Hqh.
      apply list_elem_of_filter in Hqfl as [Hqt _].
      rewrite Hqh in Hqt. destruct k as [h|]; [|done].
      assert (Hh : h <> "").
      { intros ->. done. }
      exists h. split; [done|]. rewrite <- (with_hash_truthy h ps Hh). fold fl.
      split; [done|]. cbn [length] in *. lia.
    - intros (h & Hh & -> & Hlen). rewrite <- (with_hash_truthy h ps Hh) in *. fold fl in Hlen |- *.
      split; [apply bool_decide_pack; unfold Py.len; lia|].
      destruct (with_hash (Some h) fl) as [|q qs] eqn:Hq; [cbn in Hlen; lia|].
      assert (Hqin : q ∈ with_hash (Some h) fl) by (rewrite Hq; by left).
      apply list_elem_of_filter in Hqin as [Hqh Hqfl]. apply bool_decide_unpack in Hqh.
      apply Hkeys in Hqfl. rewrite Hqh in Hqfl.
      apply list_elem_of_fmap in Hqfl as ([k g0] & Hk & Hin). cbn [fst] in Hk. subst k.
      destruct (Hgroups _ g0 Hin) as [Hg0 _].
      apply list_elem_of_fmap. exists (Some h, g0). split; [|done]. cbn [snd]. congruence. }
  destruct fl as [|q fl'] eqn:Hfl; [|exact Hmain].
  rewrite <- Hmain. subst hg. cbn. done.
Qed.

End identical_facts.

(** ** The pairs and the groups *)

Section duplicates_facts.
Import FinderModel.
Variable sim : ProjectModel -> ProjectModel -> Q.
Variable thr : Q.

Lemma fd_inner_pairs p1 rest acc :
  (fd_inner sim thr p1 rest acc).1 = acc.1 ++ pairs_with sim thr p1 rest.
Proof.
  revert acc. induction rest as [|p2 rest IH]; intros [dups sims]; cbn [fd_inner].
  - unfold pairs_with. cbn. by rewrite app_nil_r.
  - rewrite IH. cbn [fst]. unfold pairs_with. rewrite filter_cons.
    destruct (Qle_bool thr (sim p1 p2)) eqn:Hs; cbn [decide_rel]; simpl.
    + by rewrite <- app_assoc.
    + done.
Qed.

Lemma fd_outer_pairs ps acc :
  (fd_outer sim thr ps acc).1 = acc.1 ++ pairs_above sim thr ps.
Proof.
  revert acc. induction ps as [|p1 rest IH]; intros acc; cbn [fd_outer pairs_above].
  - by rewrite app_nil_r.
  - rewrite IH, fd_inner_pairs. by rewrite <- app_assoc.
Qed.

Lemma pairs_above_elem ps p q s :
  (p, q, s) ∈ pairs_above sim thr ps <->
  exists i j, (i < j)%nat /\ ps !! i = Some p /\ ps !! j = Some q /\
              s = sim p q /\ Qle_bool thr s = true.
Proof.
  induction ps as [|p1 rest IH]; cbn [pairs_above].
  - split; [by intros ?%elem_of_nil|]. by intros (i & j & _ & ? & _).
  - rewrite elem_of_app, IH. unfold pairs_with. split.
    + intros [Hin|(i & j & Hij & Hi & Hj & Hs & Hle)].
      * apply list_elem_of_fmap in Hin as (p2 & [= -> -> ->] & Hin).
        apply list_elem_of_filter in Hin as [Hs Hin].
        apply list_elem_of_lookup in Hin as [j Hj].
        exists 0%nat, (S j). split; [lia|]. split; [done|]. split; [done|].
        split; [done|]. by apply Is_true_true.
      * exists (S i), (S j). split; [lia|]. done.
    + intros (i & j & Hij & Hi & Hj & -> & Hs).
      destruct i as [|i].
      * injection Hi as ->. left. destruct j as [|j]; [lia|]. cbn in Hj.
        apply list_elem_of_fmap. exists q. split; [done|].
        apply list_elem_of_filter. split; [by apply Is_true_true|].
        by eapply list_elem_of_lookup_2.
      * right. destruct j as [|j]; [lia|]. exists i, j. split; [lia|]. done.
Qed.

Lemma find_duplicates_with_elem ps p q s :
  (p, q, s) ∈ (find_duplicates_with sim thr ps).1 <->
  exists i j, (i < j)%nat /\ ps !! i = Some p /\ ps !! j = Some q /\
              s = sim p q /\ Qle_bool thr s = true.
Proof.
  unfold find_duplicates_with. rewrite fd_outer_pairs. cbn [fst app].
  apply pairs_above_elem.
Qed.

End duplicates_facts.

Section disjoint_facts.
Import FinderModel.

Lemma project_in_paths p l :
  project_in p l = true <-> path p ∈ path <$> l.
Proof.
  unfold project_in. rewrite existsb_exists, list_elem_of_fmap. split.
  - intros (q & Hin & Heq). apply bool_decide_eq_true in Heq.
    exists q. split; [done|]. by apply list_elem_of_In.
  - intros (q & Heq & Hin). exists q. split; [by apply list_elem_of_In|].
    by apply bool_decide_eq_true.
Qed.

Lemma project_in_false p l :
  project_in p l = false <-> path p ∉ path <$> l.
Proof.
  rewrite <- project_in_paths. by destruct (project_in p l).
Qed.

Lemma find_group_Some groups p1 p2 n pos :
  find_group groups p1 p2 n = Some pos ->
  (n <= pos)%nat /\
  exists g, groups !! (pos - n)%nat = Some g /\
            (project_in p1 (g_projects g) = true \/ project_in p2 (g_projects g) = true).
Proof.
  revert n. induction groups as [|g groups IH]; intros n Hf; cbn [find_group] in Hf;
    [done|].
  destruct (project_in p1 (g_projects g) || project_in p2 (g_projects g)) eqn:Hg.
  - injection Hf as <-. split; [lia|]. rewrite Nat.sub_diag. exists g.
    split; [done|]. by apply orb_true_iff.
  - apply IH in Hf as [Hle (g' & Hg' & Hin)]. split; [lia|].
    exists g'. split; [|done]. by replace (pos - n)%nat with (S (pos - S n)) by lia.
Qed.

Lemma find_group_None groups p1 p2 n :
  find_group groups p1 p2 n = None ->
  (path p1 ∉ path <$> members groups) /\ (path p2 ∉ path <$> members groups).
Proof.
  revert n. induction groups as [|g groups IH]; intros n Hf; cbn [find_group] in Hf.
  - unfold members. cbn. split; apply not_elem_of_nil.
  - destruct (project_in p1 (g_projects g) || project_in p2 (g_projects g)) eqn:Hg;
      [done|].
    apply orb_false_iff in Hg as [H1 H2].
    apply project_in_false in H1, H2. apply IH in Hf as [I1 I2].
    unfold members in *. rewrite bind_cons, fmap_app, !elem_of_app. tauto.
Qed.

Lemma members_insert groups pos g g' added :
  groups !! pos = Some g ->
  g_projects g' = g_projects g ++ added ->
  members (<[pos := g']> groups) ≡ₚ members groups ++ added.
Proof.
  intros Hg Hg'. unfold members.
  rewrite <- (take_drop_middle groups pos g Hg) at 2.
  rewrite insert_take_drop by (by eapply lookup_lt_Some).
  rewrite !bind_app, !bind_cons, Hg'.
  rewrite <- !app_assoc. f_equiv. f_equiv. apply Permutation_app_comm.
Qed.

Lemma add_pair_projects g d processed :
  g_projects (add_pair g d processed).1 = g_projects g ++ appended g d.
Proof.
  destruct d as [[p1 p2] s]. unfold add_pair, appended.
  destruct (project_in p1 (g_projects g)); cbn [negb];
    [rewrite app_nil_r|];
    destruct (project_in p2 _); cbn [negb fst g_projects app];
    rewrite ?app_nil_r, <- ?app_assoc; done.
Qed.

Lemma add_pair_processed g d processed x :
  x ∈ (add_pair g d processed).2 <-> x ∈ processed \/ x ∈ path <$> appended g d.
Proof.
  destruct d as [[p1 p2] s]. unfold add_pair, appended.
  destruct (project_in p1 (g_projects g)); cbn [negb];
    [rewrite app_nil_r|];
    destruct (project_in p2 _); cbn [negb snd app fmap list_fmap];
    rewrite ?elem_of_union, ?elem_of_singleton, ?elem_of_cons, ?elem_of_nil; tauto.
Qed.

Lemma appended_fresh g p1 p2 s a :
  a ∈ appended g (p1, p2, s) ->
  (a = p1 \/ a = p2) /\ path a ∉ path <$> g_projects g.
Proof.
  unfold appended.
  destruct (project_in p1 (g_projects g)) eqn:H1; cbn [app].
  - rewrite app_nil_r. destruct (project_in p2 (g_projects g)) eqn:H2.
    + by intros ?%elem_of_nil.
    + intros ->%list_elem_of_singleton. split; [by right|]. by apply project_in_false.
  - destruct (project_in p2 (g_projects g ++ [p1])) eqn:H2.
    + intros ->%list_elem_of_singleton. split; [by left|]. by apply project_in_false.
    + intros [->|[->|?%elem_of_nil]%elem_of_cons]%elem_of_cons; [| |done].
      * split; [by left|]. by apply project_in_false.
      * split; [by right|]. apply project_in_false in H2.
        rewrite fmap_app, elem_of_app in H2. tauto.
Qed.

Lemma appended_NoDup g d : NoDup (path <$> appended g d).
Proof.
  destruct d as [[p1 p2] s]. unfold appended.
  destruct (project_in p1 (g_projects g)) eqn:H1; cbn [app].
  - rewrite app_nil_r. destruct (project_in p2 (g_projects g)); cbn.
    + constructor.
    + apply NoDup_singleton.
  - destruct (project_in p2 (g_projects g ++ [p1])) eqn:H2; cbn.
    + apply NoDup_singleton.
    + apply project_in_false in H2. rewrite fmap_app, elem_of_app in H2.
      apply NoDup_cons. split; [|apply NoDup_singleton].
      rewrite list_elem_of_singleton. intros Heq. apply H2. right.
      rewrite <- Heq. cbn. by left.
Qed.

Lemma gd_step_partitioned st d :
  partitioned st -> partitioned (gd_step st d).
Proof.
  destruct st as [groups processed]. intros [Hnd Hproc]. cbn [fst snd] in *.
  unfold gd_step. destruct d as [[p1 p2] s] eqn:Ed.
  destruct (bool_decide (path p1 ∈ processed) && bool_decide (path p2 ∈ processed))
    eqn:Hboth; [done|].
  assert (Hnot : ~ (path p1 ∈ path <$> members groups
                    /\ path p2 ∈ path <$> members groups)).
  { intros [I1 I2]. apply Hproc in I1, I2.
    by rewrite !bool_decide_eq_true_2 in Hboth. }
  assert (Hstep : forall groups0 pos g,
            groups0 !! pos = Some g ->
            members groups0 = members groups ->
            (forall a, a ∈ appended g (p1, p2, s) -> path a ∉ path <$> members groups) ->
            partitioned
              (let '(g', processed') := add_pair g (p1, p2, s) processed in
               (<[pos := g']> groups0, processed'))).
  { intros groups0 pos g Hg Hmem Hfresh.
    pose proof (add_pair_projects g (p1, p2, s) processed) as Hprojects.
    pose proof (add_pair_processed g (p1, p2, s) processed) as Hprocessed.
    destruct (add_pair g (p1, p2, s) processed) as [g' processed'].
    cbn [fst snd] in *.
    pose proof (members_insert groups0 pos g g' _ Hg Hprojects) as Hperm.
    rewrite Hmem in Hperm.
    split; cbn [fst snd].
    - rewrite Hperm, fmap_app. apply NoDup_app. split; [done|]. split.
      + intros x Hx Hx'. apply list_elem_of_fmap in Hx' as (a & -> & Ha).
        by apply (Hfresh a Ha).
      + apply appended_NoDup.
    - intros x. rewrite Hprocessed, Hperm, fmap_app, elem_of_app, Hproc. done. }
  destruct (find_group groups p1 p2 0) as [pos|] eqn:Hf.
  - apply find_group_Some in Hf as [_ (g & Hg & Hin)]. rewrite Nat.sub_0_r in Hg.
    rewrite Hg. apply (Hstep groups pos g Hg eq_refl).
    intros a Ha. apply appended_fresh in Ha as [Ha Hfresh].
    assert (Hsub : forall x, x ∈ path <$> g_projects g -> x ∈ path <$> members groups).
    { intros x Hx. apply list_elem_of_fmap in Hx as (b & -> & Hb).
      apply list_elem_of_fmap_2. unfold members. apply list_elem_of_bind.
      exists g. split; [done|]. by eapply list_elem_of_lookup_2. }
    intros Hmem. apply Hnot.
    destruct Hin as [Hin|Hin]; apply project_in_paths in Hin;
      destruct Ha as [->| ->]; try done; split; auto.
  - pose proof (find_group_None _ _ _ _ Hf) as [N1 N2].
    rewrite lookup_app_r by done. rewrite Nat.sub_diag. cbn [lookup list_lookup].
    apply (Hstep (groups ++ [mkGroup [] []]) (length groups) (mkGroup [] [])).
    + rewrite lookup_app_r by done. by rewrite Nat.sub_diag.
    + unfold members. rewrite bind_app, bind_singleton. cbn. by rewrite app_nil_r.
    + intros a [[->| ->] _]%appended_fresh; done.
Qed.

Lemma foldl_gd_step_partitioned dups st :
  partitioned st -> partitioned (foldl gd_step st dups).
Proof.
  revert st. induction dups as [|d dups IH]; intros st Hst; cbn [foldl]; [done|].
  by apply IH, gd_step_partitioned.
Qed.

Lemma members_Permutation groups groups' :
  groups ≡ₚ groups' -> members groups ≡ₚ members groups'.
Proof. intros Hp. unfold members. by rewrite Hp. Qed.

Lemma groups_disjoint sim thr ps :
  NoDup (path <$> members (group_duplicates_with sim thr ps)).
Proof.
  unfold group_duplicates_with.
  destruct (find_duplicates_with sim thr ps) as [dups sims].
  destruct dups as [|d dups]; [constructor|].
  pose proof (foldl_gd_step_partitioned (Py.sorted by_score_desc (d :: dups)) ([], ∅))
    as [Hnd _].
  { split; [constructor|]. intros x. cbn. rewrite elem_of_empty, elem_of_nil. done. }
  destruct (foldl gd_step ([], ∅) (Py.sorted by_score_desc (d :: dups)))
    as [groups processed]. cbn [fst] in Hnd.
  by rewrite (members_Permutation _ _ (sorted_Permutation by_size_desc groups)).
Qed.

End disjoint_facts.

Section linked_facts.
Import FinderModel.

Lemma pair_dict_get_set d k v k' :
  pair_dict_get (pair_dict_set d k v) k'
  = if pair_eq k' k then Some v else pair_dict_get d k'.
Proof.
  induction d as [|[k0 v0] d IH]; cbn [pair_dict_set pair_dict_get]; [done|].
  destruct (pair_eq k k0) eqn:Hk; cbn [pair_dict_get].
  - destruct (pair_eq k' k0) eqn:Hk0, (pair_eq k' k) eqn:Hk'; try done;
      exfalso; revert Hk Hk0 Hk'; unfold pair_eq, project_eq;
      repeat case_bool_decide; cbn; congruence.
  - rewrite IH.
    destruct (pair_eq k' k0) eqn:Hk0, (pair_eq k' k) eqn:Hk'; try done.
    exfalso; revert Hk Hk0 Hk'; unfold pair_eq, project_eq;
      repeat case_bool_decide; cbn; congruence.
Qed.

Lemma add_pair_similarities g p1 p2 s processed :
  g_similarities (add_pair g (p1, p2, s) processed).1
  = pair_dict_set (pair_dict_set (g_similarities g) (p1, p2) s) (p2, p1) s.
Proof.
  unfold add_pair.
  destruct (negb (project_in p1 (g_projects g)));
    destruct (negb (project_in p2 _)); done.
Qed.

Lemma add_pair_contains g p1 p2 s processed :
  path p1 ∈ path <$> g_projects (add_pair g (p1, p2, s) processed).1 /\
  path p2 ∈ path <$> g_projects (add_pair g (p1, p2, s) processed).1.
Proof.
  rewrite add_pair_projects. unfold appended.
  destruct (project_in p1 (g_projects g)) eqn:H1.
  - rewrite app_nil_l, app_nil_r. apply project_in_paths in H1.
    destruct (project_in p2 (g_projects g)) eqn:H2.
    + apply project_in_paths in H2. by rewrite app_nil_r.
    + rewrite fmap_app, !elem_of_app. split; [by left|].
      right. cbn. by left.
  - destruct (project_in p2 (g_projects g ++ [p1])) eqn:H2.
    + apply project_in_paths in H2. rewrite app_nil_r.
      split; [|done]. rewrite fmap_app, elem_of_app. right. cbn. by left.
    + rewrite !fmap_app, !elem_of_app. cbn. rewrite !elem_of_cons. tauto.
Qed.

Lemma add_pair_linked thr g p1 p2 s processed :
  path p1 <> path p2 -> Qle_bool thr s = true ->
  linked thr g -> linked thr (add_pair g (p1, p2, s) processed).1.
Proof.
  intros Hne Hs Hg p Hp.
  pose proof (add_pair_contains g p1 p2 s processed) as [C1 C2].
  rewrite add_pair_similarities.
  rewrite add_pair_projects in Hp, C1, C2 |- *.
  apply elem_of_app in Hp as [Hp|Hp].
  - destruct (Hg p Hp) as (q & s0 & Hq & Hqp & Hget & Hs0).
    exists q. rewrite !pair_dict_get_set, Hget.
    destruct (pair_eq (p, q) (p2, p1)); [|destruct (pair_eq (p, q) (p1, p2))];
      eexists; (split; [apply elem_of_app; by left|]); (split; [done|]); done.
  - apply appended_fresh in Hp as [[->| ->] _].
    + apply list_elem_of_fmap in C2 as (q & Hqp & Hq).
      exists q, s. split; [done|]. split; [congruence|].
      rewrite !pair_dict_get_set. unfold pair_eq, project_eq. cbn [fst snd].
      rewrite (bool_decide_eq_false_2 (path p1 = path p2)) by done.
      rewrite (bool_decide_eq_true_2 (path p1 = path p1)) by done.
      rewrite (bool_decide_eq_true_2 (path q = path p2)) by done. done.
    + apply list_elem_of_fmap in C1 as (q & Hqp & Hq).
      exists q, s. split; [done|]. split; [congruence|].
      rewrite !pair_dict_get_set. unfold pair_eq, project_eq. cbn [fst snd].
      rewrite (bool_decide_eq_true_2 (path p2 = path p2)) by done.
      rewrite (bool_decide_eq_true_2 (path q = path p1)) by done. done.
Qed.

Lemma gd_step_linked thr st d :
  distinct_pair d -> Qle_bool thr d.2 = true ->
  Forall (linked thr) st.1 -> Forall (linked thr) (gd_step st d).1.
Proof.
  destruct st as [groups processed]. destruct d as [[p1 p2] s].
  unfold distinct_pair. cbn [fst snd]. intros Hd Hs Hg. unfold gd_step.
  destruct (_ && _); [done|].
  destruct (find_group groups p1 p2 0) as [pos|] eqn:Hf.
  - apply find_group_Some in Hf as [_ (g & Hg' & _)].
    rewrite Nat.sub_0_r in Hg'. rewrite Hg'.
    pose proof (add_pair_linked thr g p1 p2 s processed Hd Hs) as Hl.
    destruct (add_pair g (p1, p2, s) processed) as [g' processed'].
    cbn [fst] in *. apply Forall_insert; [done|].
    apply Hl. by eapply Forall_lookup_1 in Hg.
  - rewrite lookup_app_r by done. rewrite Nat.sub_diag. cbn [lookup list_lookup].
    pose proof (add_pair_linked thr (mkGroup [] []) p1 p2 s processed Hd Hs) as Hl.
    destruct (add_pair (mkGroup [] []) (p1, p2, s) processed) as [g' processed'].
    cbn [fst] in *.
    rewrite insert_app_r_alt by done. rewrite Nat.sub_diag. cbn [insert list_insert].
    apply Forall_app; split; [done|]. apply Forall_singleton. apply Hl.
    intros p Hp. by apply elem_of_nil in Hp.
Qed.

Lemma foldl_gd_step_linked thr dups st :
  Forall distinct_pair dups -> Forall (fun d => Qle_bool thr d.2 = true) dups ->
  Forall (linked thr) st.1 -> Forall (linked thr) (foldl gd_step st dups).1.
Proof.
  revert st. induction dups as [|d dups IH]; intros st Hd Hs Hst; cbn [foldl]; [done|].
  apply Forall_cons in Hd as [Hd Hds]. apply Forall_cons in Hs as [Hs Hss].
  apply IH; [done|done|]. by apply gd_step_linked.
Qed.

Lemma groups_linked sim thr ps :
  NoDup (path <$> ps) ->
  Forall (linked thr) (group_duplicates_with sim thr ps).
Proof.
  intros Hnd. unfold group_duplicates_with.
  pose proof (fd_outer_distinct sim thr ps ([], []) Hnd (Forall_nil_2 _)) as Hd.
  assert (Hs : Forall (fun d => Qle_bool thr d.2 = true)
                 (find_duplicates_with sim thr ps).1).
  { apply Forall_forall. intros [[p q] s] Hin.
    apply find_duplicates_with_elem in Hin as (i & j & _ & _ & _ & _ & Hs). done. }
  unfold find_duplicates_with in *.
  destruct (fd_outer sim thr ps ([], [])) as [dups sims]. cbn [fst] in Hd, Hs.
  destruct dups as [|d dups]; [done|].
  pose proof (foldl_gd_step_linked thr (Py.sorted by_score_desc (d :: dups)) ([], ∅))
    as Hf.
  destruct (foldl gd_step ([], ∅) (Py.sorted by_score_desc (d :: dups)))
    as [groups processed].
  rewrite sorted_Permutation. apply Hf; [| |done]; by rewrite sorted_Permutation.
Qed.

End linked_facts.

(** [sorted] puts a list in order when [le] compares any two elements. *)
Lemma insort_Sorted {A} (le : A -> A -> bool) (R : A -> A -> Prop) (x : A)
    (l : list A) :
  (forall a b, le a b = true -> R a b) ->
  (forall a b, le a b = false -> R b a) ->
  Sorted R l -> Sorted R (Py.insort le x l).
Proof.
  intros Hle Hgt. induction l as [|y l IH]; intros Hl; cbn [Py.insort].
  - by repeat constructor.
  - apply Sorted_inv in Hl as [Hl Hy].
    destruct (le y x) eqn:Hyx.
    + constructor; [by apply IH|].
      destruct l as [|z l]; cbn [Py.insort]; [constructor; by apply Hle|].
      apply HdRel_inv in Hy. destruct (le z x); constructor; [done|by apply Hle].
    + constructor; [by constructor|]. constructor. by apply Hgt.
Qed.

Lemma sorted_Sorted {A} (le : A -> A -> bool) (R : A -> A -> Prop) (l : list A) :
  (forall a b, le a b = true -> R a b) ->
  (forall a b, le a b = false -> R b a) ->
  Sorted R (Py.sorted le l).
Proof.
  intros Hle Hgt. unfold Py.sorted.
  assert (Hgen : forall acc, Sorted R acc ->
            Sorted R (foldl (fun acc x => Py.insort le x acc) acc l)).
  { induction l as [|x l IH]; intros acc Hacc; cbn [foldl]; [done|].
    apply IH. by apply insort_Sorted. }
  apply Hgen. constructor.
Qed.

Lemma groups_by_size sim thr ps :
  Sorted (fun g1 g2 =>
            (length (FinderModel.g_projects g2) <= length (FinderModel.g_projects g1))%nat)
    (FinderModel.group_duplicates_with sim thr ps).
Proof.
  unfold FinderModel.group_duplicates_with.
  destruct (FinderModel.find_duplicates_with sim thr ps) as [dups sims].
  destruct dups as [|d dups]; [constructor|].
  destruct (foldl FinderModel.gd_step ([], ∅) _) as [groups processed].
  apply sorted_Sorted.
  - intros g1 g2. unfold FinderModel.by_size_desc. by intros ?%Nat.leb_le.
  - intros g1 g2. unfold FinderModel.by_size_desc.
    intros ?%Nat.leb_gt. lia.
Qed.

(** X1: the pairs [find_duplicates] reports.  A triple is in the
    result exactly when its projects stand at two positions of
    [self.projects], the first before the second, its score is the
    similarity of the two and the score is at least
    [SIMILARITY_THRESHOLD]: every such pair of positions is reported, the
    earlier project first, and no position is paired with itself. *)
Theorem reported_pairs_reach_the_threshold
    (ps : list ProjectModel) (p q : ProjectModel) (s : Q) :
  (p, q, s) ∈ (FinderModel.find_duplicates ps).1 <->
  exists i j, (i < j)%nat /\ ps !! i = Some p /\ ps !! j = Some q /\
              s = FinderModel._calculate_similarity p q /\
              (config.SIMILARITY_THRESHOLD <= s)%Q.
Proof.
  unfold FinderModel.find_duplicates. rewrite find_duplicates_with_elem.
  split; intros (i & j & Hij & Hi & Hj & Hs & Hthr); exists i, j;
    (split_and!; try done); by apply Qle_bool_iff.
Qed.

(** X2: no project is in two groups, nor twice in one: the paths of
    the members of all the groups [group_duplicates] returns are pairwise
    different, whatever the scoring function, the threshold and the list
    of projects are. *)
Theorem no_project_is_in_two_groups
    (sim : ProjectModel -> ProjectModel -> Q) (thr : Q) (ps : list ProjectModel) :
  NoDup (path <$> members (FinderModel.group_duplicates_with sim thr ps)).
Proof. apply groups_disjoint. Qed.

(** X3: every member of a group is there for a reason.  When the
    projects have pairwise different paths, each member of each group has
    another member of the same group with which its score, as the group's
    own table [similarities] records it, is at least the threshold. *)
Theorem group_members_are_linked
    (sim : ProjectModel -> ProjectModel -> Q) (thr : Q) (ps : list ProjectModel) :
  NoDup (path <$> ps) ->
  Forall (linked thr) (FinderModel.group_duplicates_with sim thr ps).
Proof. apply groups_linked. Qed.

Lemma group_members_are_linked_witness :
  Forall (linked 0.7)
    (FinderModel.group_duplicates_with Examples.chain_score 0.7
       [Examples.chain_c; Examples.chain_a; Examples.chain_b]).
Proof.
  apply (group_members_are_linked Examples.chain_score 0.7
           [Examples.chain_c; Examples.chain_a; Examples.chain_b]).
  apply (bool_decide_unpack _). vm_compute. exact I.
Defined.

(** X4: the groups come largest first: in the list
    [group_duplicates] returns no group has more members than the one
    before it. *)
Theorem groups_come_largest_first
    (sim : ProjectModel -> ProjectModel -> Q) (thr : Q) (ps : list ProjectModel) :
  Sorted (fun g1 g2 => (length (FinderModel.g_projects g2)
                        <= length (FinderModel.g_projects g1))%nat)
    (FinderModel.group_duplicates_with sim thr ps).
Proof. apply groups_by_size. Qed.

Lemma same_hash_scores_one (a b : ProjectModel) (h : string) :
  folder_hash a = Some h -> folder_hash b = Some h -> h <> "" ->
  python_files a <> [] -> python_files b <> [] ->
  FinderModel._calculate_similarity a b = 1%Q.
Proof.
  intros Ha Hb Hh Hpa Hpb. unfold FinderModel._calculate_similarity.
  rewrite !bool_decide_eq_false_2 by done. cbn [orb].
  rewrite Ha, Hb. cbn [FinderModel.truthy_str].
  rewrite bool_decide_eq_true_2 by done.
  by destruct (String.eqb_spec h "").
Qed.

(** X5: the groups of [find_identical_by_hash].  A list of projects
    is one of the groups exactly when it consists of all the projects
    that carry one and the same non-empty folder hash, in the order of
    [self.projects], and there are at least two of them.  Projects
    without a hash are in no group. *)
Theorem identical_groups_share_a_hash
    (ps : list ProjectModel) (g : list ProjectModel) :
  g ∈ FinderModel.find_identical_by_hash ps <->
  exists h, h <> "" /\ g = with_hash (Some h) ps /\ (2 <= length g)%nat.
Proof. apply identical_groups. Qed.

(** X6: what [find_identical_by_hash] groups, [find_duplicates]
    reports.  Two members of a group of identical projects that both
    have Python files form a pair of [find_duplicates] with score 1, the
    one that comes first in [self.projects] first. *)
Theorem identical_projects_are_reported_duplicates
    (ps g : list ProjectModel) (p q : ProjectModel) (i j : nat) :
  g ∈ FinderModel.find_identical_by_hash ps ->
  p ∈ g -> q ∈ g ->
  ps !! i = Some p -> ps !! j = Some q -> (i < j)%nat ->
  python_files p <> [] -> python_files q <> [] ->
  (p, q, 1%Q) ∈ (FinderModel.find_duplicates ps).1.
Proof.
  intros (h & Hh & -> & _)%identical_groups Hp Hq Hi Hj Hij Hpf Hqf.
  apply list_elem_of_filter in Hp as [Hp%bool_decide_unpack _].
  apply list_elem_of_filter in Hq as [Hq%bool_decide_unpack _].
  unfold FinderModel.find_duplicates. apply find_duplicates_with_elem.
  exists i, j. split_and!; try done.
  by rewrite (same_hash_scores_one p q h).
Qed.

Lemma identical_projects_are_reported_duplicates_witness :
  (Examples.hashed_full, Examples.hashed_other, 1%Q)
  ∈ (FinderModel.find_duplicates
       [Examples.hashed_empty; Examples.hashed_full; Examples.hashed_other]).1.
Proof.
  apply (identical_projects_are_reported_duplicates
           [Examples.hashed_empty; Examples.hashed_full; Examples.hashed_other]
           [Examples.hashed_empty; Examples.hashed_full; Examples.hashed_other]
           Examples.hashed_full Examples.hashed_other 1 2).
  - vm_compute. constructor.
  - apply elem_of_cons. right. apply elem_of_cons. by left.
  - apply elem_of_cons. right. apply elem_of_cons. right. apply elem_of_cons. by left.
  - reflexivity.
  - reflexivity.
  - lia.
  - discriminate.
  - discriminate.
Defined.

(** ** Scores and file names *)

Section disjoint_sequences.
Context {A : Type} `{Countable A}.
Import difflib.

Lemma b2j_foldl_keys (l : list (Z * A)) : forall (b2j : gmap A (list Z)) x,
  is_Some (foldl b2j_setdefault_append b2j l !! x) ->
  is_Some (b2j !! x) \/ x ∈ l.*2.
Proof.
  induction l as [|[i y] l IH]; intros b2j x; cbn [foldl]; [by left|].
  intros [Hin|Hin]%IH.
  - unfold b2j_setdefault_append in Hin. cbn [fst snd] in Hin.
    destruct (decide (y = x)) as [->|Hne].
    + right. cbn. by left.
    + rewrite lookup_insert_ne in Hin by done. by left.
  - right. cbn. by right.
Qed.

Lemma enumerate_elements (b : list A) : (enumerate b).*2 = b.
Proof.
  unfold enumerate. rewrite fmap_imap.
  rewrite (imap_ext _ (const id)) by done. by rewrite imap_const, list_fmap_id.
Qed.

Lemma chain_b_keys (b : list A) x : is_Some (__chain_b b !! x) -> x ∈ b.
Proof.
  unfold __chain_b. intros Hin.
  assert (Hfold : is_Some (foldl b2j_setdefault_append ∅ (enumerate b) !! x)).
  { destruct (decide (200 <= Py.len b)); [|done].
    destruct Hin as [js Hjs]. apply map_lookup_filter_Some in Hjs as [Hjs _].
    by exists js. }
  apply b2j_foldl_keys in Hfold as [Hempty|Hin'].
  - rewrite lookup_empty in Hempty. by destruct Hempty.
  - by rewrite enumerate_elements in Hin'.
Qed.

Lemma getitem_elem_of (l : list A) i x : Py.getitem l i = Some x -> x ∈ l.
Proof.
  unfold Py.getitem. destruct (decide (0 <= i)); [|done].
  apply list_elem_of_lookup_2.
Qed.

(** Windows of two sequences without a common element hold no match. *)
Lemma flm_outer_disjoint (a b : list A) blo bhi rng :
  (forall x, x ∈ a -> x ∉ b) ->
  forall j2len best,
    flm_outer a (__chain_b b) blo bhi rng j2len best = best.
Proof.
  intros Hdis. induction rng as [|i rng IH]; intros j2len best; cbn [flm_outer];
    [done|].
  assert (Hjs : match Py.getitem a i with
                | Some x => default [] (__chain_b b !! x)
                | None => []
                end = []).
  { destruct (Py.getitem a i) as [x|] eqn:Hx; [|done].
    destruct (__chain_b b !! x) as [js|] eqn:Hjs; [|done].
    exfalso. apply (Hdis x); [by eapply getitem_elem_of|].
    apply chain_b_keys. by exists js. }
  rewrite Hjs. cbn [flm_inner]. apply IH.
Qed.

Lemma find_longest_match_disjoint (a b : list A) alo ahi blo bhi :
  (forall x, x ∈ a -> x ∉ b) ->
  find_longest_match a b (__chain_b b) alo ahi blo bhi = mkMatch alo blo 0.
Proof.
  intros Hdis. unfold find_longest_match. cbv zeta.
  rewrite flm_outer_disjoint by done.
  cbn [m_a m_b m_size]. rewrite Z.sub_diag. change (Z.to_nat 0) with 0%nat.
  cbn [flm_extend_left m_a m_b m_size].
  destruct (Z.to_nat (ahi - (alo + 0))) as [|fuel]; [reflexivity|].
  cbn [flm_extend_right m_a m_b m_size].
  enough (elt_eqb (Py.getitem a (alo + 0)) (Py.getitem b (blo + 0)) = false) as ->
    by by rewrite andb_false_r.
  unfold elt_eqb.
  destruct (Py.getitem a (alo + 0)) as [x|] eqn:Hx; [|done].
  destruct (Py.getitem b (blo + 0)) as [y|] eqn:Hy; [|done].
  apply bool_decide_eq_false. intros ->.
  apply getitem_elem_of in Hx, Hy. by apply (Hdis y).
Qed.

Lemma raw_matching_blocks_disjoint (a b : list A) :
  (forall x, x ∈ a -> x ∉ b) -> raw_matching_blocks a b = Some [].
Proof.
  intros Hdis. unfold raw_matching_blocks, gmb_fuel. cbn [gmb_loop]. cbv zeta.
  rewrite find_longest_match_disjoint by done. cbn [m_a m_b m_size].
  destruct (decide (0 = 0)); [|done]. by destruct (2 * length a)%nat.
Qed.

Lemma ratio_disjoint (a b : list A) :
  (forall x, x ∈ a -> x ∉ b) -> a <> [] -> (ratio a b == 0)%Q.
Proof.
  intros Hdis Ha. unfold ratio, get_matching_blocks.
  rewrite raw_matching_blocks_disjoint by done.
  cbn. unfold _calculate_ratio.
  rewrite decide_False; [reflexivity|].
  unfold Py.len. destruct a; [done|]. cbn [length]. lia.
Qed.

End disjoint_sequences.

Lemma elem_of_sorted {A} (le : A -> A -> bool) (l : list A) x :
  x ∈ Py.sorted le l <-> x ∈ l.
Proof. by rewrite sorted_Permutation. Qed.

Lemma sorted_nil_inv {A} (le : A -> A -> bool) (l : list A) :
  Py.sorted le l = [] -> l = [].
Proof.
  intros Hs. apply Permutation_nil_r. rewrite <- Hs. by rewrite sorted_Permutation.
Qed.

Section score_facts.
Import FinderModel.

(** The score of two projects that fall through to the weighted sum. *)
Lemma similarity_weighted p q :
  python_files p <> [] -> python_files q <> [] -> hashes_match p q = false ->
  _calculate_similarity p q
  = if is_not_None (real_size p) && is_not_None (real_size q)
    then (file_similarity p q * 0.6 + name_similarity p q * 0.2
          + size_similarity p q * 0.2)%Q
    else (file_similarity p q * 0.7 + name_similarity p q * 0.3)%Q.
Proof.
  intros Hp Hq Hh. unfold _calculate_similarity.
  rewrite !bool_decide_eq_false_2 by done. cbn [orb].
  unfold hashes_match in Hh. by rewrite Hh.
Qed.

Lemma similarity_without_files p q :
  python_files p = [] \/ python_files q = [] -> _calculate_similarity p q = 0%Q.
Proof.
  intros Hempty. unfold _calculate_similarity.
  destruct Hempty as [-> | ->]; [done|]. by rewrite orb_true_r.
Qed.

End score_facts.

(** X7: projects that reach the threshold share file names.  Every
    pair [find_duplicates] reports consists of two projects with Python
    files, and either their folder hashes match or the ratio of their
    sorted lists of base names is at least 1/2. *)
Theorem duplicates_share_file_names
    (ps : list ProjectModel) (p q : ProjectModel) (s : Q) :
  (p, q, s) ∈ (FinderModel.find_duplicates ps).1 ->
  python_files p <> [] /\ python_files q <> [] /\
  (hashes_match p q = true \/ (1 # 2 <= FinderModel.file_similarity p q)%Q).
Proof.
  unfold FinderModel.find_duplicates.
  intros (i & j & _ & _ & _ & -> & Hs)%find_duplicates_with_elem.
  apply Qle_bool_iff in Hs. unfold config.SIMILARITY_THRESHOLD in Hs.
  destruct (decide (python_files p = [])) as [Hp|Hp].
  { rewrite similarity_without_files in Hs by (by left). by vm_compute in Hs. }
  destruct (decide (python_files q = [])) as [Hq|Hq].
  { rewrite similarity_without_files in Hs by (by right). by vm_compute in Hs. }
  split; [done|]. split; [done|].
  destruct (hashes_match p q) eqn:Hh; [by left|]. right.
  rewrite similarity_weighted in Hs by done.
  pose proof (name_similarity_bounds p q) as [_ Hn].
  pose proof (size_similarity_bounds p q) as [_ Hz].
  destruct (_ && _); lra.
Qed.

Lemma duplicates_share_file_names_witness :
  python_files Examples.sized_five <> [] /\ python_files Examples.sized_ten <> [] /\
  (hashes_match Examples.sized_five Examples.sized_ten = true \/
   (1 # 2 <= FinderModel.file_similarity Examples.sized_five Examples.sized_ten)%Q).
Proof.
  apply (duplicates_share_file_names [Examples.sized_five; Examples.sized_ten] _ _
           (FinderModel._calculate_similarity Examples.sized_five Examples.sized_ten)).
  vm_compute. constructor.
Defined.

(** X8: projects without a common file name are never duplicates.  If
    no base name of a Python file of one project is a base name of a
    Python file of the other, and the folder hashes do not match, the
    score is at most 0.4, below the threshold, and [find_duplicates]
    does not report the pair. *)
Theorem no_shared_file_name_is_no_duplicate (p q : ProjectModel) :
  (forall f, f ∈ os_path.basename <$> python_files p ->
             f ∉ os_path.basename <$> python_files q) ->
  hashes_match p q = false ->
  (FinderModel._calculate_similarity p q <= 0.4)%Q /\
  forall ps s, (p, q, s) ∉ (FinderModel.find_duplicates ps).1.
Proof.
  intros Hdis Hh.
  assert (Hscore : (FinderModel._calculate_similarity p q <= 0.4)%Q).
  { destruct (decide (python_files p = [])) as [Hp|Hp].
    { rewrite similarity_without_files by (by left). done. }
    destruct (decide (python_files q = [])) as [Hq|Hq].
    { rewrite similarity_without_files by (by right). done. }
    rewrite similarity_weighted by done.
    assert (Hf : (FinderModel.file_similarity p q == 0)%Q).
    { unfold FinderModel.file_similarity. apply ratio_disjoint.
      - unfold FinderModel.sorted_basenames. intros x Hx%elem_of_sorted.
        rewrite elem_of_sorted. by apply Hdis.
      - unfold FinderModel.sorted_basenames. intros Hnil%sorted_nil_inv.
        apply fmap_nil_inv in Hnil. done. }
    pose proof (name_similarity_bounds p q) as [_ Hn].
    pose proof (size_similarity_bounds p q) as [_ Hz].
    destruct (_ && _); lra. }
  split; [done|].
  intros ps s. unfold FinderModel.find_duplicates.
  intros (i & j & _ & _ & _ & -> & Hs)%find_duplicates_with_elem.
  apply Qle_bool_iff in Hs. unfold config.SIMILARITY_THRESHOLD in Hs. lra.
Qed.

Lemma no_shared_file_name_is_no_duplicate_witness :
  (FinderModel._calculate_similarity Examples.chain_a Examples.tide <= 0.4)%Q /\
  forall ps s, (Examples.chain_a, Examples.tide, s) ∉ (FinderModel.find_duplicates ps).1.
Proof.
  apply (no_shared_file_name_is_no_duplicate Examples.chain_a Examples.tide).
  - intros f Hf Hq. vm_compute in Hf, Hq.
    apply list_elem_of_singleton in Hf as ->.
    apply list_elem_of_singleton in Hq. discriminate Hq.
  - reflexivity.
Defined.

(** ** The traversal *)

(** ** Runs of the scanner, continued *)

Section scan_invariant.
Import FinderModel.
Variable self : settings.
Variable worker : option (nat -> bool).
Variable fromtimestamp : Q -> exn + datetime.
Variable print : string -> exn + unit.
Variable R : M.state -> M.state -> Prop.
Context `{HR : !PreOrder R}.
(** What is known of a directory that is visited, and of its path. *)
Variable P : node -> string -> Prop.
Hypothesis stop_ok : respects R (M.stop_requested worker).
Hypothesis file_ok : forall p, respects R (M.emit (file_scanning p)).
Hypothesis dir_ok :
  forall d p, P d p -> respects R (M.emit (directory_scanning p)).
Hypothesis add_ok :
  forall d p, P d p -> (Z.of_nat (String.length p) <= 255) ->
              respects R (add_project fromtimestamp print p d).
Hypothesis child_ok :
  forall nm st entries p child,
    P (Dir nm st None entries) p -> child ∈ entries -> isdir child = true ->
    node_name child ∉ ignore_dirs self ->
    P child (os_path.join p (node_name child)).

Lemma find_projects_recursive_respects d :
  forall path is_root_dir parent_has_python parent_is_project_root,
    P d path ->
    respects R
      (find_projects_recursive self worker fromtimestamp print d path is_root_dir
         parent_has_python parent_is_project_root).
Proof using All.
  induction d as [nm st content|nm st err entries IH] using node_ind;
    intros path ird php ppr HP; cbn [find_projects_recursive].
  - apply respects_bind; [apply _|apply stop_ok|].
    intros stop. destruct stop; [apply respects_ret; apply _|].
    apply respects_bind; [apply _|by eapply dir_ok|]. intros _.
    case_bool_decide as Hlen; [apply respects_ret; apply _|].
    apply respects_bind; [apply _|apply flags_respects; [apply _|apply file_ok]|].
    intros [[ip ipr]|]; [|apply respects_ret; apply _].
    destruct (negb ird && (ip || ipr) && negb (php || ppr)).
    + apply (add_ok _ _ HP). lia.
    + apply respects_try_except; [apply _|apply respects_ret; apply _|].
      intros; apply respects_lift; apply _.
  - apply respects_bind; [apply _|apply stop_ok|].
    intros stop. destruct stop; [apply respects_ret; apply _|].
    apply respects_bind; [apply _|by eapply dir_ok|]. intros _.
    case_bool_decide as Hlen; [apply respects_ret; apply _|].
    apply respects_bind; [apply _|apply flags_respects; [apply _|apply file_ok]|].
    intros [[ip ipr]|]; [|apply respects_ret; apply _].
    destruct (negb ird && (ip || ipr) && negb (php || ppr)).
    { apply (add_ok _ _ HP). lia. }
    apply respects_try_except; [apply _| |intros; apply respects_lift; apply _].
    destruct err as [e|]; [apply respects_raise; apply _|].
    assert (Hchildren : Forall (fun child =>
              isdir child = true -> node_name child ∉ ignore_dirs self ->
              P child (os_path.join path (node_name child))) entries).
    { apply Forall_forall. intros child Hin. by apply (child_ok nm st entries). }
    clear HP.
    induction entries as [|item entries IHe]; [apply respects_ret; apply _|].
    apply Forall_cons in IH as [Hitem IH].
    apply Forall_cons in Hchildren as [Hchild Hchildren].
    apply respects_bind; [apply _|apply stop_ok|].
    intros stop. destruct stop; [apply respects_ret; apply _|].
    destruct item as [fnm fst fcontent|dnm dst derr dentries]; [by apply IHe|].
    case_bool_decide as Hign; [by apply IHe|].
    apply respects_bind; [apply _| |intros _; by apply IHe].
    apply Hitem. by apply Hchild.
Qed.

End scan_invariant.

#[local] Instance adds_preorder Q : PreOrder (adds Q).
Proof.
  split.
  - intros s. exists []. by rewrite app_nil_r.
  - intros s1 s2 s3 (a1 & H1 & F1) (a2 & H2 & F2). exists (a1 ++ a2).
    rewrite H2, H1, app_assoc. split; [done|]. by apply Forall_app.
Qed.

#[local] Instance emits_preorder Q : PreOrder (emits Q).
Proof.
  split.
  - intros s. exists []. by rewrite app_nil_r.
  - intros s1 s2 s3 (a1 & H1 & F1) (a2 & H2 & F2). exists (a1 ++ a2).
    rewrite H2, H1, app_assoc. split; [done|]. by apply Forall_app.
Qed.

#[local] Instance announces_preorder : PreOrder announces.
Proof.
  split.
  - intros s. exists []. by rewrite !app_nil_r.
  - intros s1 s2 s3 (a1 & H1 & F1) (a2 & H2 & F2). exists (a1 ++ a2).
    by rewrite H2, H1, F2, F1, !app_assoc.
Qed.

Lemma stop_requested_run worker s :
  exists b s', M.stop_requested worker s = (M.Return b, s') /\
               M.projects s' = M.projects s /\ M.emitted s' = M.emitted s.
Proof. unfold M.stop_requested. destruct worker; by eexists _, _. Qed.

(** The [try] block that records a project respects what the reports
    of files and the recording of a project at that path respect. *)
Lemma add_project_respects (R : M.state -> M.state -> Prop) `{!PreOrder R}
    fromtimestamp print p d :
  (forall q, respects R (M.emit (file_scanning q))) ->
  (forall project s,
      path project = p ->
      R s (M.mkState (M.projects s ++ [project])
             (M.emitted s ++ [project_found project]) (M.polls s))) ->
  respects R (FinderModel.add_project fromtimestamp print p d).
Proof.
  intros Hfile Hadd. unfold FinderModel.add_project.
  apply respects_try_except; [apply _| |intros; apply respects_lift; apply _].
  apply (respects_bind_post _ _ _ (fun project => path project = p)).
  { apply init_respects; [apply _|done]. }
  { intros s project. unfold ProjectModel_.__init__.
    destruct (ProjectModel_.stat_of d) as [[]|st]; cbn; intros [= <-]; done. }
  intros p0 Hp0.
  apply (respects_bind_post _ _ _ (fun project => path project = p)).
  { apply analyze_project_respects; [apply _|done]. }
  { intros s project Hrun.
    destruct (ProjectModel_._analyze_project fromtimestamp p0 d
                FinderModel.file_scan_callback s)
      as [r s'] eqn:Hr. cbn [fst] in Hrun. subst r.
    apply analyze_project_path in Hr. congruence. }
  intros project Hproject s. cbn. by apply Hadd.
Qed.

Section scan_run.
Import FinderModel.
Variable self : settings.
Variable worker : option (nat -> bool).
Variable fromtimestamp : Q -> exn + datetime.
Variable print : string -> exn + unit.
Variable abspath : string -> string.

(** The run of a search below a directory, in terms of the run of the
    traversal. *)
Lemma find_python_projects_run root_path nm st err entries s :
  find_python_projects self worker fromtimestamp print abspath root_path
    (Some (Dir nm st err entries)) s
  = match
      find_projects_recursive self worker fromtimestamp print (Dir nm st err entries)
        (searched_root abspath root_path) true false false
        (M.mkState [] (M.emitted s ++ [search_started]) (M.polls s))
    with
    | (M.Return _, s2) =>
        (M.Return (M.projects s2),
         M.mkState (M.projects s2)
           (M.emitted s2 ++ [search_finished (Py.len (M.projects s2))])
           (M.polls s2))
    | (M.Raise e, s2) =>
        (M.Return (M.projects s2),
         M.mkState (M.projects s2)
           (M.emitted s2
            ++ [search_error ("Neočekávaná chyba při prohledávání: " +:+ str_exn e);
                search_finished 0])
           (M.polls s2))
    end.
Proof.
  unfold find_python_projects. cbn [exists_ negb isdir].
  fold (searched_root abspath root_path).
  unfold M.bind at 1. cbn [M.set_projects].
  unfold M.bind at 1. cbn [M.emit M.projects M.emitted M.polls].
  unfold M.bind at 1. unfold M.try_except. unfold M.bind at 1.
  destruct (find_projects_recursive _ _ _ _ _ _ _ _ _ _) as [[[]|e] s2].
  - cbn. done.
  - cbn. by rewrite <- app_assoc.
Qed.

(** The run of a search whose root is missing or is not a directory. *)
Lemma find_python_projects_no_directory root_path root s :
  match root with Some (Dir _ _ _ _) => False | _ => True end ->
  exists msg,
    find_python_projects self worker fromtimestamp print abspath root_path root s
    = (M.Return [],
       M.mkState [] (M.emitted s ++ [search_started; search_error msg; search_finished 0])
         (M.polls s)).
Proof.
  intros Hroot. unfold find_python_projects.
  destruct root as [[nm [e|st] content|]|]; [| |done|];
    eexists; cbn; by rewrite <- !app_assoc.
Qed.

End scan_run.

(** *** Computations that cannot raise *)

Lemma returns_ret {A} (a : A) : returns (M.ret a).
Proof. intros s. by exists a. Qed.

Lemma returns_bind {A B} (m : M.t A) (k : A -> M.t B) :
  returns m -> (forall a, returns (k a)) -> returns (M.bind m k).
Proof.
  intros Hm Hk s. unfold M.bind. destruct (Hm s) as [a Ha].
  destruct (m s) as [[a'|e] s']; cbn [fst] in Ha; [|done].
  apply Hk.
Qed.

Lemma returns_bind_post {A B} (m : M.t A) (k : A -> M.t B) (P : A -> Prop) :
  returns m ->
  (forall s a s', m s = (M.Return a, s') -> P a) ->
  (forall a, P a -> returns (k a)) ->
  returns (M.bind m k).
Proof.
  intros Hm HP Hk s. unfold M.bind. destruct (Hm s) as [a Ha].
  specialize (HP s).
  destruct (m s) as [[a'|e] s']; cbn [fst] in Ha; [|done].
  apply Hk. by eapply HP.
Qed.

Lemma returns_try_except {A} (m : M.t A) handles (h : exn -> M.t A) :
  (forall s e, (m s).1 = M.Raise e -> handles e = true) ->
  (forall e, returns (h e)) ->
  returns (M.try_except m handles h).
Proof.
  intros Hm Hh s. unfold M.try_except. specialize (Hm s).
  destruct (m s) as [[a|e] s']; cbn [fst] in *; [by exists a|].
  rewrite (Hm e eq_refl). apply Hh.
Qed.

Lemma returns_emit sg : returns (M.emit sg).
Proof. intros s. by exists tt. Qed.

Lemma returns_stop_requested worker : returns (M.stop_requested worker).
Proof. intros s. unfold M.stop_requested. destruct worker; by eexists. Qed.

Section benign.
Import FinderModel.
Variable self : settings.
Variable worker : option (nat -> bool).
Variable fromtimestamp : Q -> exn + datetime.
Variable print : string -> exn + unit.
(** The standard output takes every text. *)
Hypothesis print_ok : forall msg, print msg = inr tt.

Lemma ipp_loop_no_raise directory_path items : returns (ipp_loop self directory_path items).
Proof. intros s. eexists. apply ipp_loop_returns. Qed.

Lemma ipr_loop_no_raise directory_path files root_files :
  returns (ipr_loop self directory_path files root_files).
Proof. intros s. eexists. apply ipr_loop_returns. Qed.

Lemma lift_listdir_raises err entries s e :
  (M.lift (listdir err entries) s).1 = M.Raise e -> err = Some e.
Proof. destruct err as [e'|]; cbn; [by intros [= ->]|done]. Qed.

Lemma is_python_project_no_raise directory_path d :
  Forall (fun e => is_OSError e = true)
    (match d with Dir _ _ (Some e) _ => [e] | _ => [] end) ->
  returns (is_python_project self directory_path d).
Proof.
  intros Herr. destruct d as [|nm st err entries]; cbn [is_python_project];
    [apply returns_ret|].
  apply returns_try_except; [|intros; apply returns_ret].
  intros s e Hraise. unfold M.bind in Hraise.
  destruct (M.lift (listdir err entries) s) as [[items|e'] s'] eqn:Hl.
  - destruct (ipp_loop_no_raise directory_path items s') as [b Hb].
    rewrite Hraise in Hb. done.
  - cbn [fst] in Hraise. injection Hraise as ->.
    assert (err = Some e) as -> by (apply (lift_listdir_raises _ entries s); by rewrite Hl).
    cbn in Herr. by apply Forall_inv in Herr.
Qed.

Lemma is_project_root_no_raise directory_path d :
  Forall (fun e => is_OSError e = true)
    (match d with Dir _ _ (Some e) _ => [e] | _ => [] end) ->
  returns (is_project_root self directory_path d).
Proof.
  intros Herr. destruct d as [|nm st err entries]; cbn [is_project_root];
    [apply returns_ret|].
  apply returns_try_except; [|intros; apply returns_ret].
  intros s e Hraise. unfold M.bind in Hraise.
  destruct (M.lift (listdir err entries) s) as [[items|e'] s'] eqn:Hl.
  - destruct (ipr_loop_no_raise directory_path items (project_root_files self) s')
      as [b Hb].
    rewrite Hraise in Hb. done.
  - cbn [fst] in Hraise. injection Hraise as ->.
    assert (err = Some e) as -> by (apply (lift_listdir_raises _ entries s); by rewrite Hl).
    cbn in Herr. by apply Forall_inv in Herr.
Qed.

Lemma print_returns msg : returns (M.lift (print msg)).
Proof using print_ok. rewrite print_ok. apply returns_ret. Qed.

Lemma add_project_no_raise p d : returns (add_project fromtimestamp print p d).
Proof using print_ok.
  unfold add_project. apply returns_try_except; [done|].
  intros; apply print_returns.
Qed.

Lemma flags_no_raise path d :
  Forall (fun e => is_OSError e = true)
    (match d with Dir _ _ (Some e) _ => [e] | _ => [] end) ->
  returns
    (M.try_except
       (is_python <- is_python_project self path d ;;
        is_project_root <- is_project_root self path d ;;
        M.ret (Some (is_python, is_project_root)))
       is_OSError (fun _ => M.ret None)).
Proof.
  intros Herr. apply returns_try_except; [|intros; apply returns_ret].
  intros s e Hraise. exfalso.
  assert (Hret : returns
            (is_python <- is_python_project self path d ;;
             is_project_root <- is_project_root self path d ;;
             M.ret (Some (is_python, is_project_root)))).
  { apply returns_bind; [by apply is_python_project_no_raise|]. intros ip.
    apply returns_bind; [by apply is_project_root_no_raise|]. intros ipr.
    apply returns_ret. }
  destruct (Hret s) as [a Ha]. rewrite Ha in Hraise. done.
Qed.

(** When every listing that fails in the tree fails with an [OSError],
    the traversal returns. *)
Lemma find_projects_recursive_returns d :
  Forall (fun e => is_OSError e = true) (listing_errors d) ->
  forall path is_root_dir parent_has_python parent_is_project_root,
    returns (find_projects_recursive self worker fromtimestamp print d path
               is_root_dir parent_has_python parent_is_project_root).
Proof using print_ok.
  induction d as [nm st content|nm st err entries IH] using node_ind;
    intros Herr path ird php ppr; cbn [find_projects_recursive].
  - apply returns_bind; [apply returns_stop_requested|].
    intros stop. destruct stop; [apply returns_ret|].
    apply returns_bind; [apply returns_emit|]. intros _.
    case_bool_decide; [apply returns_ret|].
    apply returns_bind; [by apply flags_no_raise|].
    intros [[ip ipr]|]; [|apply returns_ret].
    destruct (negb ird && (ip || ipr) && negb (php || ppr));
      [apply add_project_no_raise|].
    apply returns_try_except; [|intros; apply print_returns]. done.
  - cbn [listing_errors] in Herr. apply Forall_app in Herr as [Herr Hbelow].
    apply returns_bind; [apply returns_stop_requested|].
    intros stop. destruct stop; [apply returns_ret|].
    apply returns_bind; [apply returns_emit|]. intros _.
    case_bool_decide; [apply returns_ret|].
    assert (Hhere : Forall (fun e => is_OSError e = true)
              (match Dir nm st err entries with
               | Dir _ _ (Some e) _ => [e] | _ => [] end)).
    { by destruct err. }
    apply returns_bind; [by apply flags_no_raise|].
    intros [[ip ipr]|]; [|apply returns_ret].
    destruct (negb ird && (ip || ipr) && negb (php || ppr));
      [apply add_project_no_raise|].
    destruct err as [e|].
    { apply returns_try_except; [|intros; apply print_returns].
      intros s e' [= <-]. by apply Forall_inv in Herr. }
    apply returns_try_except; [|intros; apply print_returns].
    intros s e Hraise. exfalso. revert s Hraise. clear Herr Hhere.
    induction entries as [|item entries IHe]; intros s Hraise; [done|].
    apply Forall_cons in IH as [Hitem IH].
    apply Forall_app in Hbelow as [Hbitem Hbelow].
    specialize (IHe IH Hbelow).
    revert Hraise. unfold M.bind at 1.
    destruct (returns_stop_requested worker s) as [stop Hstop].
    destruct (M.stop_requested worker s) as [[stop'|?] s1]; [|done].
    destruct stop'; [done|].
    destruct item as [fnm fst fcontent|dnm dst derr dentries]; [apply IHe|].
    case_bool_decide; [apply IHe|].
    unfold M.bind at 1.
    destruct (Hitem Hbitem (os_path.join path dnm) false (php || ip) (ppr || ipr) s1)
      as [[] Hret].
    destruct (find_projects_recursive self worker fromtimestamp print
      (Dir dnm dst derr dentries) _ _ _ _ s1) as [[[]|?] s2]; [|done].
    apply IHe.
Qed.

End benign.

(** *** Paths *)

Lemma string_app_nil_l (b : string) : "" +:+ b = b.
Proof. reflexivity. Qed.

Lemma string_app_cons (x : ascii) (a b : string) :
  String x a +:+ b = String x (a +:+ b).
Proof. reflexivity. Qed.

Lemma string_app_assoc (a b c : string) : (a +:+ b) +:+ c = a +:+ b +:+ c.
Proof.
  induction a as [|x a IH]; [done|]. rewrite !string_app_cons. by rewrite IH.
Qed.

Lemma string_app_length (a b : string) :
  String.length (a +:+ b) = (String.length a + String.length b)%nat.
Proof.
  induction a as [|x a IH]; [done|]. rewrite string_app_cons. cbn [String.length].
  by rewrite IH.
Qed.

Lemma join_under a p : under a (os_path.join a p).
Proof.
  unfold os_path.join, under. destruct (_ || _); by eexists.
Qed.

Lemma under_trans a b c : under a b -> under b c -> under a c.
Proof.
  intros [r1 ->] [r2 ->]. exists (r1 +:+ r2). apply string_app_assoc.
Qed.

Lemma basename_aux_no_sep nm acc :
  no_sep nm -> os_path.basename_aux nm acc = acc.
Proof.
  unfold no_sep. induction nm as [|c nm IH]; cbn; [done|].
  intros [Hc Hnm]%Forall_cons.
  destruct (Ascii.eqb_spec c "/"); [done|]. by apply IH.
Qed.

Lemma basename_aux_sep x nm acc :
  no_sep nm -> os_path.basename_aux (x +:+ "/" +:+ nm) acc = nm.
Proof.
  intros Hnm. revert acc. induction x as [|c x IH]; intros acc.
  - rewrite string_app_nil_l, string_app_cons, string_app_nil_l.
    cbn [os_path.basename_aux]. rewrite Ascii.eqb_refl.
    by apply basename_aux_no_sep.
  - rewrite string_app_cons. cbn [os_path.basename_aux].
    destruct (Ascii.eqb c "/"); apply IH.
Qed.

Lemma endswith_sep_inv a :
  Py.endswith a os_path.sep = true -> exists x, a = x +:+ "/".
Proof.
  unfold Py.endswith, os_path.sep. cbn [String.length].
  intros [Hlen Hsub]%andb_true_iff. apply Nat.leb_le in Hlen.
  apply String.eqb_eq in Hsub.
  induction a as [|c a IH]; cbn [String.length] in *; [lia|].
  destruct a as [|c' a].
  - cbn in Hsub. injection Hsub as ->. by exists "".
  - cbn [String.length] in *.
    replace (S (S (String.length a)) - 1)%nat with (S (S (String.length a) - 1)) in Hsub
      by lia.
    change (substring (S (S (String.length a) - 1)) 1 (String c (String c' a)))
      with (substring (S (String.length a) - 1) 1 (String c' a)) in Hsub.
    destruct IH as [x Hx]; [lia|done|]. exists (String c x).
    rewrite string_app_cons. by rewrite Hx.
Qed.

Lemma basename_join a nm :
  no_sep nm -> os_path.basename (os_path.join a nm) = nm.
Proof.
  intros Hnm. unfold os_path.basename, os_path.join.
  destruct (String.eqb_spec a "") as [->|Ha]; cbn [orb].
  - by apply basename_aux_no_sep.
  - destruct (Py.endswith a os_path.sep) eqn:He.
    + apply endswith_sep_inv in He as [x ->].
      rewrite string_app_assoc. by apply basename_aux_sep.
    + unfold os_path.sep. by apply basename_aux_sep.
Qed.

(** *** The search as a whole *)

Lemma emit_emits (Q : signal -> Prop) sg : Q sg -> respects (emits Q) (M.emit sg).
Proof.
  intros HQ s. exists [sg]. split; [done|]. by apply Forall_singleton.
Qed.

Lemma stop_requested_emits Q worker : respects (emits Q) (M.stop_requested worker).
Proof.
  intros s. destruct (stop_requested_run worker s) as (b & s' & -> & _ & He).
  exists []. cbn [snd]. by rewrite He, app_nil_r.
Qed.

Lemma find_projects_recursive_progress self worker fromtimestamp print
    d path ird php ppr :
  respects (emits is_progress)
    (FinderModel.find_projects_recursive self worker fromtimestamp print
        d path ird php ppr).
Proof.
  apply (find_projects_recursive_respects self worker fromtimestamp print
           (emits is_progress) (fun _ _ => True)); try done.
  - apply stop_requested_emits.
  - intros p. by apply emit_emits.
  - intros _ p _. by apply emit_emits.
  - intros d' p _ _. apply add_project_respects; [apply _| |].
    + intros q. by apply emit_emits.
    + intros project s _. exists [project_found project]. split; [done|].
      by apply Forall_singleton.
Qed.

(** X9: [find_python_projects] never raises, whatever the root, the
    tree below it and the worker's flag are: it returns a list, and the
    list it returns is the one it leaves in [self.projects]. *)
Theorem scan_returns_its_list
    (self : FinderModel.settings) (worker : option (nat -> bool))
    (fromtimestamp : Q -> exn + datetime) (print : string -> exn + unit)
    (abspath : string -> string) (root_path : string) (root : option node)
    (s : M.state) :
  exists ps s',
    FinderModel.find_python_projects self worker fromtimestamp print
        abspath root_path root s
    = (M.Return ps, s') /\ M.projects s' = ps.
Proof.
  destruct root as [[nm st content|nm st err entries]|].
  - destruct (find_python_projects_no_directory self worker fromtimestamp print
                abspath root_path
                (Some (File nm st content)) s I) as [msg ->]. by eexists _, _.
  - rewrite find_python_projects_run.
    destruct (FinderModel.find_projects_recursive _ _ _ _ _ _ _ _ _ _) as [[[]|e] s2];
      by eexists _, _.
  - destruct (find_python_projects_no_directory self worker fromtimestamp print
                abspath root_path None s I) as [msg ->]. by eexists _, _.
Qed.

(** X10: the signals of a search.  Every search emits [search_started]
    first and [search_finished] last, once each; in between come only
    reports of directories, files and projects, followed by at most one
    [search_error].  Without an error the count of [search_finished] is
    the number of projects in [self.projects]; after an error it is 0. *)
Theorem scan_signal_protocol
    (self : FinderModel.settings) (worker : option (nat -> bool))
    (fromtimestamp : Q -> exn + datetime) (print : string -> exn + unit)
    (abspath : string -> string) (root_path : string) (root : option node)
    (s : M.state) :
  let run := FinderModel.find_python_projects self worker fromtimestamp print
      abspath root_path root s in
  exists evs tail,
    M.emitted run.2 = M.emitted s ++ [search_started] ++ evs ++ tail /\
    Forall is_progress evs /\
    (tail = [search_finished (Py.len (M.projects run.2))] \/
     exists msg, tail = [search_error msg; search_finished 0]).
Proof.
  assert (Hno : forall root',
            match root' with Some (Dir _ _ _ _) => False | _ => True end ->
            let run := FinderModel.find_python_projects self worker fromtimestamp print
                         abspath root_path root' s in
            exists evs tail,
              M.emitted run.2 = M.emitted s ++ [search_started] ++ evs ++ tail /\
              Forall is_progress evs /\
              (tail = [search_finished (Py.len (M.projects run.2))] \/
               exists msg, tail = [search_error msg; search_finished 0])).
  { intros root' Hroot.
    destruct (find_python_projects_no_directory self worker fromtimestamp print
                abspath root_path root' s Hroot) as [msg ->].
    exists [], [search_error msg; search_finished 0]. cbn [snd M.emitted].
    split; [done|]. split; [done|]. right. by exists msg. }
  destruct root as [[nm st content|nm st err entries]|]; [by apply Hno| |by apply Hno].
  cbn zeta. rewrite find_python_projects_run.
  pose proof (find_projects_recursive_progress self worker fromtimestamp print
                (Dir nm st err entries)
                (searched_root abspath root_path) true false false
                (M.mkState [] (M.emitted s ++ [search_started]) (M.polls s)))
    as (evs & Hevs & Hprog).
  destruct (FinderModel.find_projects_recursive _ _ _ _ _ _ _ _ _ _) as [[[]|e] s2];
    cbn [snd M.emitted M.projects] in *.
  - exists evs, [search_finished (Py.len (M.projects s2))].
    rewrite Hevs, <- !app_assoc. split; [done|]. split; [done|]. by left.
  - exists evs, [search_error ("Neočekávaná chyba při prohledávání: " +:+ str_exn e);
                 search_finished 0].
    rewrite Hevs, <- !app_assoc. split; [done|]. split; [done|]. right. by eexists.
Qed.

Lemma found_app evs1 evs2 : found (evs1 ++ evs2) = found evs1 ++ found evs2.
Proof. unfold found. apply omap_app. Qed.

Lemma emit_announces sg :
  (forall p, sg <> project_found p) -> respects announces (M.emit sg).
Proof.
  intros Hsg s. exists []. cbn [snd M.emit M.projects M.emitted].
  rewrite found_app, !app_nil_r. split; [done|].
  destruct sg; cbn; try by rewrite app_nil_r. by destruct (Hsg p).
Qed.

Lemma stop_requested_announces worker : respects announces (M.stop_requested worker).
Proof.
  intros s. destruct (stop_requested_run worker s) as (b & s' & -> & Hp & He).
  exists []. cbn [snd]. by rewrite He, Hp, !app_nil_r.
Qed.

Lemma find_projects_recursive_announces self worker fromtimestamp print
    d path ird php ppr :
  respects announces
    (FinderModel.find_projects_recursive self worker fromtimestamp print
        d path ird php ppr).
Proof.
  apply (find_projects_recursive_respects self worker fromtimestamp print announces
           (fun _ _ => True)); try done.
  - apply stop_requested_announces.
  - intros p. by apply emit_announces.
  - intros _ p _. by apply emit_announces.
  - intros d' p _ _. apply add_project_respects; [apply _| |].
    + intros q. by apply emit_announces.
    + intros project s _. exists [project]. cbn [M.projects M.emitted].
      by rewrite found_app.
Qed.

(** X11: the projects a search announces with [project_found] are the
    projects it leaves in [self.projects], one signal each, in the same
    order. *)
Theorem found_projects_are_announced
    (self : FinderModel.settings) (worker : option (nat -> bool))
    (fromtimestamp : Q -> exn + datetime) (print : string -> exn + unit)
    (abspath : string -> string) (root_path : string) (root : option node)
    (s : M.state) :
  let run := FinderModel.find_python_projects self worker fromtimestamp print
      abspath root_path root s in
  found (M.emitted run.2) = found (M.emitted s) ++ M.projects run.2.
Proof.
  assert (Hno : forall root',
            match root' with Some (Dir _ _ _ _) => False | _ => True end ->
            let run := FinderModel.find_python_projects self worker fromtimestamp print
                         abspath root_path root' s in
            found (M.emitted run.2) = found (M.emitted s) ++ M.projects run.2).
  { intros root' Hroot.
    destruct (find_python_projects_no_directory self worker fromtimestamp print
                abspath root_path root' s Hroot) as [msg ->].
    cbn [snd M.emitted M.projects]. rewrite found_app. cbn. done. }
  destruct root as [[nm st content|nm st err entries]|]; [by apply Hno| |by apply Hno].
  cbn zeta. rewrite find_python_projects_run.
  pose proof (find_projects_recursive_announces self worker fromtimestamp print
                (Dir nm st err entries)
                (searched_root abspath root_path) true false false
                (M.mkState [] (M.emitted s ++ [search_started]) (M.polls s)))
    as (added & Hadded & Hfound).
  destruct (FinderModel.find_projects_recursive _ _ _ _ _ _ _ _ _ _) as [[[]|e] s2];
    cbn [snd M.emitted M.projects app] in *;
    rewrite found_app, Hfound, found_app, Hadded; cbn; by rewrite !app_nil_r.
Qed.

Lemma stop_requested_adds Q worker : respects (adds Q) (M.stop_requested worker).
Proof.
  intros s. destruct (stop_requested_run worker s) as (b & s' & -> & Hp & _).
  exists []. cbn [snd]. by rewrite Hp, app_nil_r.
Qed.

Lemma emit_adds Q sg : respects (adds Q) (M.emit sg).
Proof. intros s. exists []. cbn. by rewrite app_nil_r. Qed.

(** X12: every project a search finds lies below the path that is
    searched, and its path has at most 255 characters: a longer path is
    announced and then left alone. *)
Theorem found_projects_lie_below_root
    (self : FinderModel.settings) (worker : option (nat -> bool))
    (fromtimestamp : Q -> exn + datetime) (print : string -> exn + unit)
    (abspath : string -> string) (root_path : string) (root : option node)
    (s : M.state) :
  let run := FinderModel.find_python_projects self worker fromtimestamp print
      abspath root_path root s in
  Forall (fun p => under (searched_root abspath root_path) (path p) /\
                   (String.length (path p) <= 255)%nat)
    (M.projects run.2).
Proof.
  destruct root as [[nm st content|nm st err entries]|].
  - destruct (find_python_projects_no_directory self worker fromtimestamp print
                abspath root_path (Some (File nm st content)) s I) as [msg Hrun].
    cbn zeta. by rewrite Hrun.
  - cbn zeta. rewrite find_python_projects_run.
    set (Q := fun p => under (searched_root abspath root_path) (path p) /\
                       (String.length (path p) <= 255)%nat).
    assert (Hrec : respects (adds Q)
              (FinderModel.find_projects_recursive self worker fromtimestamp print
                 (Dir nm st err entries)
                 (searched_root abspath root_path) true false false)).
    { apply (find_projects_recursive_respects self worker fromtimestamp print (adds Q)
               (fun _ p => under (searched_root abspath root_path) p)).
      - apply stop_requested_adds.
      - intros p. apply emit_adds.
      - intros _ p _. apply emit_adds.
      - intros d' p Hp Hlen. apply add_project_respects; [apply _| |].
        + intros q. apply emit_adds.
        + intros project s0 Hpath. exists [project]. split; [done|].
          apply Forall_singleton. unfold Q. rewrite Hpath. split; [done|]. lia.
      - intros nm' st' entries' p child Hp _ _ _.
        eapply under_trans; [done|]. apply join_under.
      - exists "". clear. induction (searched_root abspath root_path) as [|c r IH];
          [done|]. rewrite string_app_cons. by rewrite <- IH. }
    destruct (Hrec (M.mkState [] (M.emitted s ++ [search_started]) (M.polls s)))
      as (added & Hadded & HQ).
    destruct (FinderModel.find_projects_recursive _ _ _ _ _ _ _ _ _ _) as [[[]|e] s2];
      cbn [snd M.projects app] in *; by rewrite Hadded.
  - destruct (find_python_projects_no_directory self worker fromtimestamp print
                abspath root_path None s I) as [msg Hrun].
    cbn zeta. by rewrite Hrun.
Qed.

Lemma dir_names_entries nm st err entries child :
  Forall no_sep (dir_names (Dir nm st err entries)) ->
  child ∈ entries -> Forall no_sep (dir_names child).
Proof.
  cbn [dir_names]. intros [_ Hbelow]%Forall_cons Hin.
  induction entries as [|x entries IH]; [by apply elem_of_nil in Hin|].
  apply Forall_app in Hbelow as [Hx Hbelow].
  apply elem_of_cons in Hin as [->|Hin]; [done|by apply IH].
Qed.

(** X13: a directory whose name is in [ignore_dirs] is never entered.
    When no name in the tree contains a separator, every directory the
    search announces, other than the root it was given, has a last
    component outside [ignore_dirs]. *)
Theorem ignored_directories_are_not_entered
    (self : FinderModel.settings) (worker : option (nat -> bool))
    (fromtimestamp : Q -> exn + datetime) (print : string -> exn + unit)
    (abspath : string -> string) (root_path : string) (root : node)
    (s : M.state) :
  Forall no_sep (dir_names root) ->
  let run := FinderModel.find_python_projects self worker fromtimestamp print
               abspath root_path (Some root) s in
  exists evs,
    M.emitted run.2 = M.emitted s ++ evs /\
    forall q, q ∈ visited evs ->
      q = searched_root abspath root_path \/
      os_path.basename q ∉ FinderModel.ignore_dirs self.
Proof.
  intros Hnames.
  set (Q := fun q => q = searched_root abspath root_path \/
                     os_path.basename q ∉ FinderModel.ignore_dirs self).
  assert (Hvis : forall evs, Forall (announces_only Q) evs ->
                             forall q, q ∈ visited evs -> Q q).
  { intros evs Hevs q Hq. unfold visited in Hq.
    apply list_elem_of_omap in Hq as (sg & Hsg & Heq).
    eapply Forall_forall in Hevs; [|done].
    destruct sg; try done. injection Heq as ->. done. }
  destruct root as [nm st content|nm st err entries].
  - destruct (find_python_projects_no_directory self worker fromtimestamp print
                abspath root_path (Some (File nm st content)) s I) as [msg Hrun].
    cbn zeta. rewrite Hrun. eexists. split; [done|].
    intros q Hq. cbn in Hq. by apply elem_of_nil in Hq.
  - cbn zeta. rewrite find_python_projects_run.
    assert (Hrec : respects (emits (announces_only Q))
              (FinderModel.find_projects_recursive self worker fromtimestamp print
                 (Dir nm st err entries)
                 (searched_root abspath root_path) true false false)).
    { apply (find_projects_recursive_respects self worker fromtimestamp print
               (emits (announces_only Q))
               (fun d p => Q p /\ Forall no_sep (dir_names d))).
      - apply stop_requested_emits.
      - intros p. by apply emit_emits.
      - intros d p [Hp _]. by apply emit_emits.
      - intros d' p _ _. apply add_project_respects; [apply _| |].
        + intros q. by apply emit_emits.
        + intros project s0 _. exists [project_found project]. split; [done|].
          by apply Forall_singleton.
      - intros nm' st' entries' p child [_ Hn] Hin Hdir Hign.
        pose proof (dir_names_entries _ _ _ _ _ Hn Hin) as Hchild.
        split; [|done]. right.
        destruct child as [|cnm cst cerr centries]; [done|].
        cbn [dir_names] in Hchild. apply Forall_cons in Hchild as [Hcnm _].
        cbn [node_name] in *. by rewrite basename_join.
      - split; [by left|done]. }
    destruct (Hrec (M.mkState [] (M.emitted s ++ [search_started]) (M.polls s)))
      as (evs & Hevs & HQ).
    destruct (FinderModel.find_projects_recursive _ _ _ _ _ _ _ _ _ _) as [[[]|e] s2];
      cbn [snd M.emitted] in *; rewrite Hevs, <- !app_assoc;
      (eexists; split; [done|]); apply Hvis;
      (apply Forall_app; split; [by apply Forall_singleton|]);
      (apply Forall_app; split; [done|]); by repeat constructor.
Qed.

Lemma ignored_directories_are_not_entered_witness :
  let run := FinderModel.find_python_projects FinderModel.default_settings None
               Examples.fromtimestamp Examples.print id
               "/R" (Some Examples.tree_with_venv) (M.mkState [] [] 0) in
  exists evs,
    M.emitted run.2 = M.emitted (M.mkState [] [] 0) ++ evs /\
    forall q, q ∈ visited evs ->
      q = searched_root id "/R" \/
      os_path.basename q ∉ FinderModel.ignore_dirs FinderModel.default_settings.
Proof.
  apply (ignored_directories_are_not_entered FinderModel.default_settings None
           Examples.fromtimestamp Examples.print id
           "/R" Examples.tree_with_venv (M.mkState [] [] 0)).
  unfold no_sep. cbn.
  repeat first [apply Forall_nil_2 | apply Forall_cons_2 | discriminate].
Defined.

(** X14: when every directory listing that fails in the tree fails with
    an [OSError], and the standard output takes the messages the scanner
    prints about the directories it leaves out, the search meets no
    unexpected error: it emits no [search_error], and its
    [search_finished] signal carries the number of projects it returns,
    also when the worker stops it half-way. *)
Theorem benign_scan_reports_its_count
    (self : FinderModel.settings) (worker : option (nat -> bool))
    (fromtimestamp : Q -> exn + datetime) (print : string -> exn + unit)
    (abspath : string -> string) (root_path nm : string) (st : stat_result)
    (err : option exn) (entries : list node) (s : M.state) :
  Forall (fun e => is_OSError e = true)
    (listing_errors (Dir nm st err entries)) ->
  (forall msg, print msg = inr tt) ->
  let run := FinderModel.find_python_projects self worker fromtimestamp print
               abspath root_path (Some (Dir nm st err entries)) s in
  exists ps evs,
    run.1 = M.Return ps /\
    M.emitted run.2
    = M.emitted s ++ [search_started] ++ evs ++ [search_finished (Py.len ps)] /\
    Forall is_progress evs.
Proof.
  intros Hbenign Hprint. cbn zeta. rewrite find_python_projects_run.
  pose proof (find_projects_recursive_progress self worker fromtimestamp print
                (Dir nm st err entries)
                (searched_root abspath root_path) true false false
                (M.mkState [] (M.emitted s ++ [search_started]) (M.polls s)))
    as (evs & Hevs & Hprog).
  destruct (find_projects_recursive_returns self worker fromtimestamp print
              Hprint _ Hbenign
              (searched_root abspath root_path) true false false
              (M.mkState [] (M.emitted s ++ [search_started]) (M.polls s)))
    as [[] Hret].
  destruct (FinderModel.find_projects_recursive _ _ _ _ _ _ _ _ _ _) as [[[]|e] s2];
    [|done].
  cbn [fst snd M.emitted] in *. exists (M.projects s2), evs.
  rewrite Hevs, <- !app_assoc. done.
Qed.

Lemma benign_scan_reports_its_count_witness :
  let run := FinderModel.find_python_projects FinderModel.default_settings None
               Examples.fromtimestamp Examples.print id
               "/R" (Some Examples.locked_tree) (M.mkState [] [] 0) in
  exists ps evs,
    run.1 = M.Return ps /\
    M.emitted run.2
    = M.emitted (M.mkState [] [] 0) ++ [search_started] ++ evs
      ++ [search_finished (Py.len ps)] /\
    Forall is_progress evs.
Proof.
  apply (benign_scan_reports_its_count FinderModel.default_settings None
           Examples.fromtimestamp Examples.print id "/R" "R"
           (mkStat 4096 7) None
           [Examples.a_dir "a" [Examples.a_file "a.py"];
            Dir "b" (mkStat 4096 7) (Some (PermissionError "denied")) []]
           (M.mkState [] [] 0)).
  - cbn. repeat constructor.
  - done.
Defined.

(** ** The analysis of a project *)

(** ** Suffixes *)

Lemma substring_0_length (b : string) : substring 0 (String.length b) b = b.
Proof. induction b as [|c b IH]; cbn; [done|]. by rewrite IH. Qed.

Lemma substring_app_skip (a b : string) m :
  substring (String.length a) m (a +:+ b) = substring 0 m b.
Proof. induction a as [|c a IH]; [done|]. rewrite string_app_cons. cbn. exact IH. Qed.

Lemma substring_split (s : string) n :
  (n <= String.length s)%nat ->
  s = substring 0 n s +:+ substring n (String.length s - n) s.
Proof.
  revert n. induction s as [|c s IH]; intros n Hn; cbn [String.length] in *.
  - by destruct n.
  - destruct n as [|n].
    + cbn [substring]. rewrite string_app_nil_l, Nat.sub_0_r.
      change (String c s = substring 0 (String.length (String c s)) (String c s)).
      by rewrite substring_0_length.
    + cbn [substring]. rewrite string_app_cons.
      replace (S (String.length s) - S n)%nat with (String.length s - n)%nat by lia.
      f_equal. apply IH. lia.
Qed.

(** [s.endswith(suffix)] holds exactly of the strings that end with
    the suffix. *)
Lemma endswith_spec (s suffix : string) :
  Py.endswith s suffix = true <-> exists front, s = front +:+ suffix.
Proof.
  unfold Py.endswith. rewrite andb_true_iff, Nat.leb_le, String.eqb_eq. split.
  - intros [Hlen Hsub].
    exists (substring 0 (String.length s - String.length suffix) s).
    rewrite (substring_split s (String.length s - String.length suffix)) at 1 by lia.
    f_equal. rewrite <- Hsub at 3. f_equal. lia.
  - intros [front ->]. rewrite string_app_length. split; [lia|].
    replace (String.length front + String.length suffix - String.length suffix)%nat
      with (String.length front) by lia.
    by rewrite substring_app_skip, substring_0_length.
Qed.

Lemma endswith_app (a b suffix : string) :
  Py.endswith b suffix = true -> Py.endswith (a +:+ b) suffix = true.
Proof.
  rewrite !endswith_spec. intros [front ->]. exists (a +:+ front).
  by rewrite string_app_assoc.
Qed.

Lemma endswith_join a p suffix :
  Py.endswith p suffix = true -> Py.endswith (os_path.join a p) suffix = true.
Proof.
  intros Hp. unfold os_path.join. destruct (_ || _); [by apply endswith_app|].
  apply endswith_app. by apply endswith_app.
Qed.

(** ** The analysis of a project *)

Section analysis_facts.
Import ProjectModel_.

Lemma add_stat_run st t s t' s' :
  add_stat st t s = (M.Return t', s') ->
  s' = s /\ t_project_files t' = t_project_files t /\
  t_python_files t' = t_python_files t /\
  (last_mod_time t <= last_mod_time t')%Q /\
  (forall stt, st = inr stt -> (st_mtime stt <= last_mod_time t')%Q).
Proof.
  unfold add_stat. destruct st as [e|stt].
  - destruct (is_OSError e); [|done]. intros [= <- <-].
    split_and!; try done. apply Qle_refl.
  - intros [= <- <-]. cbn.
    destruct (Qlt_le_dec (last_mod_time t) (st_mtime stt)) as [Hlt|Hle].
    + split_and!; try done; [by apply Qlt_le_weak|].
      intros ? [= <-]. apply Qle_refl.
    + split_and!; try done; [apply Qle_refl|]. by intros ? [= <-].
Qed.

Lemma root_files_loop_run self_path exts items :
  forall t s t' s',
    root_files_loop self_path exts FinderModel.file_scan_callback items t s
    = (M.Return t', s') ->
    exists new,
      t_project_files t' = t_project_files t ++ new /\
      t_python_files t' = t_python_files t /\
      M.emitted s' = M.emitted s ++ (file_scanning <$> new) /\
      M.projects s' = M.projects s /\
      (last_mod_time t <= last_mod_time t')%Q.
Proof.
  induction items as [|item items IH]; intros t s t' s'; cbn [root_files_loop].
  - intros [= <- <-]. exists []. rewrite !app_nil_r. split_and!; try done.
    apply Qle_refl.
  - case_bool_decide; [|by apply IH].
    destruct (isfile item); [|by apply IH].
    destruct (ignored exts (node_name item)); [by apply IH|].
    intros Hrun.
    apply bind_inv in Hrun as [([] & s1 & Hcb & Hrun)|(e & Hcb & _)]; [|done].
    injection Hcb as <-.
    apply bind_inv in Hrun as [(t1 & s2 & Hst & Hrun)|(e & _ & ?)]; [|done].
    apply add_stat_run in Hst as (-> & Hpf & Hpy & Hlm & _).
    cbn [t_project_files t_python_files last_mod_time] in *.
    apply IH in Hrun as (new & Hpf' & Hpy' & Hem & Hpr & Hlm').
    exists (os_path.join self_path (node_name item) :: new).
    rewrite Hpf', Hpf, Hpy', Hpy, Hem, Hpr. cbn [M.emitted M.projects].
    rewrite <- !app_assoc. split_and!; try done. by eapply Qle_trans.
Qed.

Lemma py_files_loop_run root files :
  forall t s t' s',
    py_files_loop root FinderModel.file_scan_callback files t s = (M.Return t', s') ->
    exists new,
      t_python_files t' = t_python_files t ++ new /\
      t_project_files t' = t_project_files t /\
      M.emitted s' = M.emitted s ++ (file_scanning <$> new) /\
      M.projects s' = M.projects s /\
      Forall (fun f => Py.endswith f ".py" = true /\ under root f) new /\
      (last_mod_time t <= last_mod_time t')%Q /\
      (forall f stf, f ∈ files -> Py.endswith (node_name f) ".py" = true ->
                     stat_of f = inr stf -> (st_mtime stf <= last_mod_time t')%Q).
Proof.
  induction files as [|f files IH]; intros t s t' s'; cbn [py_files_loop].
  - intros [= <- <-]. exists []. rewrite !app_nil_r. split_and!; try done.
    + apply Qle_refl.
    + intros f stf Hin. by apply elem_of_nil in Hin.
  - destruct (Py.endswith (node_name f) ".py") eqn:Hpy; cbn [negb].
    + intros Hrun.
      apply bind_inv in Hrun as [([] & s1 & Hcb & Hrun)|(e & Hcb & _)]; [|done].
      injection Hcb as <-.
      apply bind_inv in Hrun as [(t1 & s2 & Hst & Hrun)|(e & _ & ?)]; [|done].
      apply add_stat_run in Hst as (-> & Hpf & Hpyf & Hlm & Hmt).
      cbn [t_project_files t_python_files last_mod_time] in *.
      apply IH in Hrun as (new & Hpy' & Hpf' & Hem & Hpr & Hall & Hlm' & Hfiles).
      exists (os_path.join root (node_name f) :: new).
      rewrite Hpy', Hpyf, Hpf', Hpf, Hem, Hpr. cbn [M.emitted M.projects].
      rewrite <- !app_assoc. split_and!; try done.
      * apply Forall_cons. split; [|done]. split; [by apply endswith_join|].
        apply join_under.
      * by eapply Qle_trans.
      * intros f' stf [->|Hin]%elem_of_cons Hend Hstat; [|by eapply Hfiles].
        eapply Qle_trans; [by apply Hmt|done].
    + intros Hrun.
      apply IH in Hrun as (new & Hpy' & Hpf' & Hem & Hpr & Hall & Hlm' & Hfiles).
      exists new. split_and!; try done.
      intros f' stf [->|Hin]%elem_of_cons Hend Hstat; [congruence|by eapply Hfiles].
Qed.

Lemma walk_py_run d :
  forall root t s t' s',
    walk_py d root FinderModel.file_scan_callback t s = (M.Return t', s') ->
    exists new,
      t_python_files t' = t_python_files t ++ new /\
      t_project_files t' = t_project_files t /\
      M.emitted s' = M.emitted s ++ (file_scanning <$> new) /\
      M.projects s' = M.projects s /\
      Forall (fun f => Py.endswith f ".py" = true /\ under root f) new /\
      (last_mod_time t <= last_mod_time t')%Q /\
      (forall f stf, f ∈ top_files d -> Py.endswith (node_name f) ".py" = true ->
                     stat_of f = inr stf -> (st_mtime stf <= last_mod_time t')%Q).
Proof.
  induction d as [nm st content|nm st err entries IH] using node_ind;
    intros root t s t' s'; cbn [walk_py top_files].
  - intros [= <- <-]. exists []. rewrite !app_nil_r. split_and!; try done.
    + apply Qle_refl.
    + intros f stf Hin. by apply elem_of_nil in Hin.
  - destruct err as [e|].
    { destruct (is_OSError e); [|done]. intros [= <- <-]. exists [].
      rewrite !app_nil_r. split_and!; try done; [apply Qle_refl|].
      intros f stf Hin. by apply elem_of_nil in Hin. }
    intros Hrun.
    apply bind_inv in Hrun as [(t1 & s1 & Hfiles & Hrun)|(e & _ & ?)]; [|done].
    apply py_files_loop_run in Hfiles
      as (new1 & Hpy1 & Hpf1 & Hem1 & Hpr1 & Hall1 & Hlm1 & Htop).
    assert (Hsub : exists new,
              t_python_files t' = t_python_files t1 ++ new /\
              t_project_files t' = t_project_files t1 /\
              M.emitted s' = M.emitted s1 ++ (file_scanning <$> new) /\
              M.projects s' = M.projects s1 /\
              Forall (fun f => Py.endswith f ".py" = true /\ under root f) new /\
              (last_mod_time t1 <= last_mod_time t')%Q).
    { clear Hpy1 Hpf1 Hem1 Hpr1 Hall1 Hlm1 Htop. revert t1 s1 Hrun.
      induction entries as [|item entries IHe]; intros t1 s1 Hrun.
      - injection Hrun as <- <-. exists []. rewrite !app_nil_r.
        split_and!; try done. apply Qle_refl.
      - apply Forall_cons in IH as [Hitem IH].
        destruct item as [fnm fst fcontent|dnm dst derr dentries]; [by apply IHe|].
        apply bind_inv in Hrun as [(t2 & s2 & Hchild & Hrun)|(e & _ & ?)]; [|done].
        apply Hitem in Hchild as (new2 & Hpy2 & Hpf2 & Hem2 & Hpr2 & Hall2 & Hlm2 & _).
        apply IHe in Hrun as (new3 & Hpy3 & Hpf3 & Hem3 & Hpr3 & Hall3 & Hlm3);
          [|done].
        exists (new2 ++ new3).
        rewrite Hpy3, Hpy2, Hpf3, Hpf2, Hem3, Hem2, Hpr3, Hpr2, fmap_app.
        rewrite <- !app_assoc. split_and!; try done; [|by eapply Qle_trans].
        apply Forall_app. split; [|done].
        eapply Forall_impl; [done|]. intros f [Hend Hunder]. split; [done|].
        eapply under_trans; [|done]. apply join_under. }
    destruct Hsub as (new2 & Hpy2 & Hpf2 & Hem2 & Hpr2 & Hall2 & Hlm2).
    exists (new1 ++ new2).
    rewrite Hpy2, Hpy1, Hpf2, Hpf1, Hem2, Hem1, Hpr2, Hpr1, fmap_app.
    rewrite <- !app_assoc. split_and!; try done.
    + by apply Forall_app.
    + by eapply Qle_trans.
    + intros f stf Hin Hend Hstat. eapply Qle_trans; [by eapply Htop|done].
Qed.

(** The latest modification time the loops keep is the one they
    started from or that of a file of the tree. *)
Lemma add_stat_mod_time st t s t' s' :
  add_stat st t s = (M.Return t', s') ->
  last_mod_time t' = last_mod_time t \/
  exists stt, st = inr stt /\ last_mod_time t' = st_mtime stt.
Proof.
  unfold add_stat. destruct st as [e|stt].
  - destruct (is_OSError e); [|done]. intros [= <- <-]. by left.
  - intros [= <- <-]. cbn.
    destruct (Qlt_le_dec _ _); [right; by exists stt|by left].
Qed.

Lemma mtimes_entry nm st err entries child x :
  child ∈ entries -> x ∈ mtimes child -> x ∈ mtimes (Dir nm st err entries).
Proof.
  cbn [mtimes]. intros Hin Hx.
  induction entries as [|y entries IH]; [by apply elem_of_nil in Hin|].
  apply elem_of_app. apply elem_of_cons in Hin as [<-|Hin]; [by left|].
  right. by apply IH.
Qed.

Lemma mtimes_stat_of f stt :
  isdir f = false -> stat_of f = inr stt -> st_mtime stt ∈ mtimes f.
Proof.
  destruct f as [nm st content|]; [|done]. cbn. intros _ ->.
  apply list_elem_of_here.
Qed.

Lemma root_files_loop_mod_time self_path exts callback items :
  forall t s t' s',
    root_files_loop self_path exts callback items t s = (M.Return t', s') ->
    last_mod_time t' = last_mod_time t \/
    exists item, item ∈ items /\ last_mod_time t' ∈ mtimes item.
Proof.
  induction items as [|item items IH]; intros t s t' s'; cbn [root_files_loop].
  - intros [= <- <-]. by left.
  - assert (Hrest : forall t0 s0,
              root_files_loop self_path exts callback items t0 s0 = (M.Return t', s') ->
              last_mod_time t' = last_mod_time t0 \/
              exists x, x ∈ item :: items /\ last_mod_time t' ∈ mtimes x).
    { intros t0 s0 Hrun. apply IH in Hrun as [Heq|(x & Hx & Hin)]; [by left|].
      right. exists x. split; [by apply list_elem_of_further|done]. }
    case_bool_decide; [|by apply Hrest].
    destruct (isfile item) eqn:Hfile; [|by apply Hrest].
    destruct (ignored exts (node_name item)); [by apply Hrest|].
    intros Hrun.
    apply bind_inv in Hrun as [([] & s1 & Hcb & Hrun)|(e & Hcb & ?)]; [|done].
    apply bind_inv in Hrun as [(t1 & s2 & Hst & Hrun)|(e & _ & ?)]; [|done].
    apply add_stat_mod_time in Hst as [Hst|(stt & Hstat & Hst)];
      cbn [last_mod_time] in Hst;
      apply Hrest in Hrun as [Heq|Hin]; try (by right).
    + left. congruence.
    + right. exists item. split; [apply list_elem_of_here|].
      rewrite Heq, Hst. apply mtimes_stat_of; [by destruct item as [? []|]|done].
Qed.

Lemma py_files_loop_mod_time root callback files :
  Forall (fun f => isdir f = false) files ->
  forall t s t' s',
    py_files_loop root callback files t s = (M.Return t', s') ->
    last_mod_time t' = last_mod_time t \/
    exists f, f ∈ files /\ last_mod_time t' ∈ mtimes f.
Proof.
  induction files as [|f files IH]; intros Hfiles t s t' s'; cbn [py_files_loop].
  - intros [= <- <-]. by left.
  - apply Forall_cons in Hfiles as [Hf Hfiles].
    assert (Hrest : forall t0 s0,
              py_files_loop root callback files t0 s0 = (M.Return t', s') ->
              last_mod_time t' = last_mod_time t0 \/
              exists x, x ∈ f :: files /\ last_mod_time t' ∈ mtimes x).
    { intros t0 s0 Hrun. apply IH in Hrun as [Heq|(x & Hx & Hin)]; [by left| |done].
      right. exists x. split; [by apply list_elem_of_further|done]. }
    destruct (negb _); [by apply Hrest|].
    intros Hrun.
    apply bind_inv in Hrun as [([] & s1 & Hcb & Hrun)|(e & Hcb & ?)]; [|done].
    apply bind_inv in Hrun as [(t1 & s2 & Hst & Hrun)|(e & _ & ?)]; [|done].
    apply add_stat_mod_time in Hst as [Hst|(stt & Hstat & Hst)];
      cbn [last_mod_time] in Hst;
      apply Hrest in Hrun as [Heq|Hin]; try (by right).
    + left. congruence.
    + right. exists f. split; [apply list_elem_of_here|].
      rewrite Heq, Hst. by apply mtimes_stat_of.
Qed.

Lemma walk_py_mod_time d :
  forall root callback t s t' s',
    walk_py d root callback t s = (M.Return t', s') ->
    last_mod_time t' = last_mod_time t \/ last_mod_time t' ∈ mtimes d.
Proof.
  induction d as [nm st content|nm st err entries IH] using node_ind;
    intros root callback t s t' s'; cbn [walk_py].
  - intros [= <- <-]. by left.
  - destruct err as [e|].
    { destruct (is_OSError e); [|done]. intros [= <- <-]. by left. }
    intros Hrun.
    apply bind_inv in Hrun as [(t1 & s1 & Hfiles & Hrun)|(e & _ & ?)]; [|done].
    apply py_files_loop_mod_time in Hfiles as Hone.
    2:{ apply Forall_forall. intros f [Hf _]%list_elem_of_filter.
        by destruct (isdir f). }
    assert (Hsub : last_mod_time t' = last_mod_time t1 \/
                   exists x, x ∈ entries /\ last_mod_time t' ∈ mtimes x).
    { clear Hfiles Hone. revert t1 s1 Hrun.
      induction entries as [|item entries IHe]; intros t1 s1 Hrun.
      - injection Hrun as <- <-. by left.
      - apply Forall_cons in IH as [Hitem IH].
        assert (Hrest : forall t0 s0,
                  (fix subdirs (items : list node) (t : totals) : M.t totals :=
                     match items with
                     | [] => M.ret t
                     | item :: items' =>
                         match item with
                         | Dir nm _ _ _ =>
                             t <- walk_py item (os_path.join root nm) callback t ;;
                             subdirs items' t
                         | File _ _ _ => subdirs items' t
                         end
                     end) entries t0 s0 = (M.Return t', s') ->
                  last_mod_time t' = last_mod_time t0 \/
                  exists x, x ∈ item :: entries /\ last_mod_time t' ∈ mtimes x).
        { intros t0 s0 Hrun0. apply (IHe IH) in Hrun0 as [Heq|(x & Hx & Hin)];
            [by left|].
          right. exists x. split; [by apply list_elem_of_further|done]. }
        destruct item as [fnm fst fcontent|dnm dst derr dentries];
          [exact (Hrest _ _ Hrun)|].
        apply bind_inv in Hrun as [(t2 & s2 & Hchild & Hrun)|(e & _ & ?)]; [|done].
        apply Hitem in Hchild as [Hc|Hc];
          apply Hrest in Hrun as [Heq|Hin]; try (by right).
        + left. congruence.
        + right. exists (Dir dnm dst derr dentries).
          split; [apply list_elem_of_here|]. by rewrite Heq. }
    destruct Hsub as [Heq|(x & Hx & Hin)].
    + destruct Hone as [Heq1|(f & [_ Hf]%list_elem_of_filter & Hin)].
      * left. congruence.
      * right. rewrite Heq. by eapply mtimes_entry.
    + right. by eapply mtimes_entry.
Qed.

(** What [_analyze_project] leaves in the project and in the signals
    when it returns. *)
Lemma analyze_project_run fromtimestamp self nm st err entries s p' s' :
  _analyze_project fromtimestamp self (Dir nm st err entries)
    FinderModel.file_scan_callback s
  = (M.Return p', s') ->
  exists t,
    M.projects s' = M.projects s /\
    M.emitted s'
    = M.emitted s ++ (file_scanning <$> (t_project_files t ++ t_python_files t)) /\
    Forall (fun f => Py.endswith f ".py" = true /\ under (path self) f)
      (t_python_files t) /\
    (forall f stf, f ∈ top_files (Dir nm st err entries) ->
                   Py.endswith (node_name f) ".py" = true ->
                   stat_of f = inr stf -> (st_mtime stf <= last_mod_time t)%Q) /\
    exists lm,
      (if Qlt_le_dec 0 (last_mod_time t)
       then exists dt, fromtimestamp (last_mod_time t) = inr dt /\
                       lm = LM_datetime dt
       else lm = last_modified self) /\
      p' = mkProject (path self) (name self) (total_size t) lm
             (t_project_files t) (features self)
             (real_size self) (real_file_count self) (folder_hash self)
             (last_file_modified self)
             (Py.len (t_python_files t)) (t_python_files t)
             (ignored_file_extensions self).
Proof.
  cbn [_analyze_project]. intros Hrun.
  apply bind_inv in Hrun as [(items & s1 & Hitems & Hrun)|(e & _ & ?)]; [|done].
  assert (s1 = s) as ->.
  { destruct err; cbn in Hitems; [done|]. by injection Hitems as _ <-. }
  apply bind_inv in Hrun as [(t1 & s2 & Hroot & Hrun)|(e & _ & ?)]; [|done].
  apply bind_inv in Hrun as [(t2 & s3 & Hwalk & Hrun)|(e & _ & ?)]; [|done].
  apply bind_inv in Hrun as [(lm & s4 & Hlm & Hrun)|(e & _ & ?)]; [|done].
  injection Hrun as <- <-.
  assert (s4 = s3 /\
          if Qlt_le_dec 0 (last_mod_time t2)
          then exists dt, fromtimestamp (last_mod_time t2) = inr dt /\
                          lm = LM_datetime dt
          else lm = last_modified self) as [-> Hdate].
  { destruct (Qlt_le_dec 0 (last_mod_time t2)).
    - unfold M.bind, M.lift in Hlm.
      destruct (fromtimestamp (last_mod_time t2)) as [e|dt]; [done|].
      injection Hlm as <- <-. split; [done|]. by exists dt.
    - by injection Hlm as <- <-. }
  apply root_files_loop_run in Hroot as (new1 & Hpf1 & Hpy1 & Hem1 & Hpr1 & _).
  apply walk_py_run in Hwalk as (new2 & Hpy2 & Hpf2 & Hem2 & Hpr2 & Hall2 & _ & Htop).
  cbn [t_project_files t_python_files app] in *.
  exists t2. split_and!; try done.
  - congruence.
  - rewrite Hem2, Hem1, Hpf2, Hpf1, Hpy2, Hpy1. cbn [app]. by rewrite fmap_app, app_assoc.
  - by rewrite Hpy2, Hpy1.
  - by exists lm.
Qed.

(** After the two loops the latest modification time is 0 or that of a
    file of the tree. *)
Lemma analysis_mod_time self_path exts callback nm st entries t0 s0 t1 s1 t2 s2 :
  last_mod_time t0 = 0%Q ->
  root_files_loop self_path exts callback entries t0 s0 = (M.Return t1, s1) ->
  walk_py (Dir nm st None entries) self_path callback t1 s1 = (M.Return t2, s2) ->
  last_mod_time t2 = 0%Q \/ last_mod_time t2 ∈ mtimes (Dir nm st None entries).
Proof.
  intros H0 Hroot Hwalk.
  apply root_files_loop_mod_time in Hroot as Hone.
  apply walk_py_mod_time in Hwalk as [Heq|Hin]; [|by right].
  destruct Hone as [Heq1|(x & Hx & Hin)].
  - left. congruence.
  - right. rewrite Heq. by eapply mtimes_entry.
Qed.

End analysis_facts.

Section analysis_returns.
Import ProjectModel_.

Lemma failures_entries nm st err entries child :
  Forall (fun e => is_OSError e = true) (failures (Dir nm st err entries)) ->
  child ∈ entries -> Forall (fun e => is_OSError e = true) (failures child).
Proof.
  cbn [failures]. intros [_ Hbelow]%Forall_app Hin.
  induction entries as [|x entries IH]; [by apply elem_of_nil in Hin|].
  apply Forall_app in Hbelow as [Hx Hbelow].
  apply elem_of_cons in Hin as [->|Hin]; [done|by apply IH].
Qed.

Lemma failures_stat_of d e :
  Forall (fun e => is_OSError e = true) (failures d) ->
  stat_of d = inl e -> is_OSError e = true.
Proof.
  destruct d as [nm st content|nm st err entries]; cbn [stat_of failures]; [|done].
  intros Hf ->. by apply Forall_inv in Hf.
Qed.

Lemma add_stat_returns st t :
  (forall e, st = inl e -> is_OSError e = true) -> returns (add_stat st t).
Proof.
  intros Hst s. unfold add_stat. destruct st as [e|stt]; [|by eexists].
  rewrite (Hst e eq_refl). by eexists.
Qed.

Lemma root_files_loop_returns self_path exts items :
  Forall (fun item => Forall (fun e => is_OSError e = true) (failures item)) items ->
  forall t, returns (root_files_loop self_path exts FinderModel.file_scan_callback items t).
Proof.
  induction items as [|item items IH]; intros Hok t; cbn [root_files_loop].
  - apply returns_ret.
  - apply Forall_cons in Hok as [Hitem Hok].
    case_bool_decide; [|by apply IH].
    destruct (isfile item); [|by apply IH].
    destruct (ignored exts (node_name item)); [by apply IH|].
    apply returns_bind; [apply returns_emit|]. intros _.
    apply returns_bind; [|intros t'; by apply IH].
    apply add_stat_returns. intros e. by apply failures_stat_of.
Qed.

Lemma py_files_loop_returns root files :
  Forall (fun item => Forall (fun e => is_OSError e = true) (failures item)) files ->
  forall t, returns (py_files_loop root FinderModel.file_scan_callback files t).
Proof.
  induction files as [|f files IH]; intros Hok t; cbn [py_files_loop].
  - apply returns_ret.
  - apply Forall_cons in Hok as [Hf Hok].
    destruct (negb _); [by apply IH|].
    apply returns_bind; [apply returns_emit|]. intros _.
    apply returns_bind; [|intros t'; by apply IH].
    apply add_stat_returns. intros e. by apply failures_stat_of.
Qed.

Lemma walk_py_returns d :
  Forall (fun e => is_OSError e = true) (failures d) ->
  forall root t, returns (walk_py d root FinderModel.file_scan_callback t).
Proof.
  induction d as [nm st content|nm st err entries IH] using node_ind;
    intros Hok root t; cbn [walk_py].
  - apply returns_ret.
  - assert (Hall : Forall (fun item => Forall (fun e => is_OSError e = true)
                                         (failures item)) entries).
    { apply Forall_forall. intros child Hin. by eapply failures_entries. }
    destruct err as [e|].
    { cbn [failures] in Hok. apply Forall_app in Hok as [He _].
      apply Forall_inv in He. rewrite He. apply returns_ret. }
    apply returns_bind.
    { apply py_files_loop_returns. apply Forall_forall. intros f Hf.
      apply list_elem_of_filter in Hf as [_ Hf].
      by eapply Forall_forall in Hall. }
    clear Hok. intros t1. revert t1.
    induction entries as [|item entries IHe]; intros t1; [apply returns_ret|].
    apply Forall_cons in IH as [Hitem IH]. apply Forall_cons in Hall as [Hi Hall].
    destruct item as [fnm fst fcontent|dnm dst derr dentries]; [by apply IHe|].
    apply returns_bind; [by apply Hitem|]. intros t2. by apply IHe.
Qed.

Lemma analyze_project_returns fromtimestamp self nm st entries :
  Forall (fun e => is_OSError e = true) (failures (Dir nm st None entries)) ->
  Forall (dated fromtimestamp) (mtimes (Dir nm st None entries)) ->
  returns (_analyze_project fromtimestamp self (Dir nm st None entries)
             FinderModel.file_scan_callback).
Proof.
  intros Hok Hdated. cbn [_analyze_project listdir M.lift]. rewrite bind_ret_l.
  assert (Hall : Forall (fun item => Forall (fun e => is_OSError e = true)
                                       (failures item)) entries).
  { apply Forall_forall. intros child Hin. by eapply failures_entries. }
  intros s. unfold M.bind at 1.
  destruct (root_files_loop_returns (path self) (ignored_file_extensions self)
              entries Hall (mkTotals 0 0 [] []) s) as [t1 Hroot].
  destruct (root_files_loop _ _ _ _ _ s) as [r1 s1] eqn:Hrun1.
  cbn [fst] in Hroot. subst r1.
  unfold M.bind at 1.
  destruct (walk_py_returns (Dir nm st None entries) Hok (path self) t1 s1)
    as [t2 Hwalk].
  destruct (walk_py _ _ _ _ s1) as [r2 s2] eqn:Hrun2.
  cbn [fst] in Hwalk. subst r2.
  assert (Hlm : last_mod_time t2 = 0%Q \/
                last_mod_time t2 ∈ mtimes (Dir nm st None entries)).
  { eapply analysis_mod_time; [|exact Hrun1|exact Hrun2]. done. }
  unfold M.bind at 1.
  destruct (Qlt_le_dec 0 (last_mod_time t2)) as [Hpos|_]; [|by eexists].
  destruct Hlm as [H0|Hin]; [rewrite H0 in Hpos; by apply Qlt_irrefl in Hpos|].
  eapply Forall_forall in Hdated as [dt Hdt]; [|exact Hin].
  unfold M.bind, M.lift. rewrite Hdt. by eexists.
Qed.

End analysis_returns.

(** X15: when the directory of a project can be listed, nothing below
    it fails with anything but an [OSError], and [datetime.fromtimestamp]
    accepts the modification times of the files below it,
    [_analyze_project] returns, and the files it reports through its
    callback are the files it records: one report for each entry of
    [project_files], then one for each entry of [python_files], in the
    order of the lists; [self.projects] is not touched. *)
Theorem analysis_reports_recorded_files
    (fromtimestamp : Q -> exn + datetime)
    (self : ProjectModel) (nm : string) (st : stat_result)
    (entries : list node) (s : M.state) :
  Forall (fun e => is_OSError e = true) (failures (Dir nm st None entries)) ->
  Forall (dated fromtimestamp) (mtimes (Dir nm st None entries)) ->
  exists p' s',
    ProjectModel_._analyze_project fromtimestamp self (Dir nm st None entries)
      FinderModel.file_scan_callback s = (M.Return p', s') /\
    M.projects s' = M.projects s /\
    M.emitted s'
    = M.emitted s ++ (file_scanning <$> (project_files p' ++ python_files p')).
Proof.
  intros Hok Hdated.
  destruct (analyze_project_returns fromtimestamp self nm st entries Hok Hdated s)
    as [p' Hp'].
  destruct (ProjectModel_._analyze_project _ _ _ _ s) as [r s'] eqn:Hrun.
  cbn [fst] in Hp'. subst r. exists p', s'. split; [done|].
  apply analyze_project_run in Hrun as (t & Hpr & Hem & _ & _ & lm & _ & ->).
  done.
Qed.

Lemma analysis_reports_recorded_files_witness :
  exists p' s',
    ProjectModel_._analyze_project Examples.fromtimestamp Examples.album_project
      (Examples.album []) FinderModel.file_scan_callback (M.mkState [] [] 0)
    = (M.Return p', s') /\
    M.projects s' = [] /\
    M.emitted s' = [] ++ (file_scanning <$> (project_files p' ++ python_files p')).
Proof.
  apply (analysis_reports_recorded_files Examples.fromtimestamp
           Examples.album_project "proj" (mkStat 4096 7) _ (M.mkState [] [] 0)).
  - cbn. constructor.
  - cbn. repeat constructor; by eexists.
Defined.

(** X16: what the analysis records as Python files.  Under the same
    conditions every entry of [python_files] ends in [.py] and lies
    below the project's path, and [file_count] is their number; the path
    and the name of the project stay. *)
Theorem analysis_records_py_files
    (fromtimestamp : Q -> exn + datetime)
    (self : ProjectModel) (nm : string) (st : stat_result)
    (entries : list node) (s : M.state) :
  Forall (fun e => is_OSError e = true) (failures (Dir nm st None entries)) ->
  Forall (dated fromtimestamp) (mtimes (Dir nm st None entries)) ->
  exists p' s',
    ProjectModel_._analyze_project fromtimestamp self (Dir nm st None entries)
      FinderModel.file_scan_callback s = (M.Return p', s') /\
    Forall (fun f => Py.endswith f ".py" = true /\ under (path self) f)
      (python_files p') /\
    file_count p' = Py.len (python_files p') /\
    path p' = path self /\ name p' = name self.
Proof.
  intros Hok Hdated.
  destruct (analyze_project_returns fromtimestamp self nm st entries Hok Hdated s)
    as [p' Hp'].
  destruct (ProjectModel_._analyze_project _ _ _ _ s) as [r s'] eqn:Hrun.
  cbn [fst] in Hp'. subst r. exists p', s'. split; [done|].
  apply analyze_project_run in Hrun as (t & _ & _ & Hall & _ & lm & _ & ->).
  done.
Qed.

Lemma analysis_records_py_files_witness :
  exists p' s',
    ProjectModel_._analyze_project Examples.fromtimestamp Examples.album_project
      (Examples.album []) FinderModel.file_scan_callback (M.mkState [] [] 0)
    = (M.Return p', s') /\
    Forall (fun f => Py.endswith f ".py" = true /\ under "/r/proj" f)
      (python_files p') /\
    file_count p' = Py.len (python_files p') /\
    path p' = "/r/proj" /\ name p' = "proj".
Proof.
  apply (analysis_records_py_files Examples.fromtimestamp
           Examples.album_project "proj" (mkStat 4096 7) _ (M.mkState [] [] 0)).
  - cbn. constructor.
  - cbn. repeat constructor; by eexists.
Defined.

(** X17: a project whose directory holds, at its top, a readable [.py]
    file with a positive modification time is left with a [datetime] in
    [last_modified] by its analysis, when nothing below the directory
    fails with anything but an [OSError] and [datetime.fromtimestamp]
    accepts the modification times of the files below it; [to_dict] and
    [get_formatted_last_modified] then succeed on it. *)
Theorem analysed_project_has_a_date
    (fromtimestamp : Q -> exn + datetime)
    (isoformat : datetime -> string) (strftime : datetime -> string -> string)
    (self : ProjectModel) (nm : string) (st : stat_result)
    (entries : list node) (s : M.state)
    (f : string) (stf : stat_result) (content : exn + list byte) :
  Forall (fun e => is_OSError e = true) (failures (Dir nm st None entries)) ->
  Forall (dated fromtimestamp) (mtimes (Dir nm st None entries)) ->
  File f (inr stf) content ∈ entries ->
  Py.endswith f ".py" = true ->
  (0 < st_mtime stf)%Q ->
  exists p' s',
    ProjectModel_._analyze_project fromtimestamp self (Dir nm st None entries)
      FinderModel.file_scan_callback s = (M.Return p', s') /\
    (exists dt, last_modified p' = LM_datetime dt) /\
    (exists r, ProjectModel_.to_dict isoformat p' = inr r) /\
    (exists txt, ProjectModel_.get_formatted_last_modified strftime p' = inr txt).
Proof.
  intros Hok Hdated Hin Hend Hpos.
  destruct (analyze_project_returns fromtimestamp self nm st entries Hok Hdated s)
    as [p' Hp'].
  destruct (ProjectModel_._analyze_project _ _ _ _ s) as [r s'] eqn:Hrun.
  cbn [fst] in Hp'. subst r. exists p', s'. split; [done|].
  apply analyze_project_run in Hrun as (t & _ & _ & _ & Htop & lm & Hdate & ->).
  assert (Hlm : (0 < ProjectModel_.last_mod_time t)%Q).
  { eapply Qlt_le_trans; [exact Hpos|].
    apply (Htop (File f (inr stf) content)); [|done|done].
    cbn [top_files]. apply list_elem_of_filter. split; [done|exact Hin]. }
  unfold ProjectModel_.to_dict, ProjectModel_.get_formatted_last_modified.
  cbn [last_modified].
  destruct (Qlt_le_dec 0 (ProjectModel_.last_mod_time t)) as [_|Hle].
  - destruct Hdate as (dt & _ & ->). split; [by eexists|]. split; by eexists.
  - exfalso. by apply (Qlt_not_le _ _ Hlm).
Qed.

Lemma analysed_project_has_a_date_witness :
  exists p' s',
    ProjectModel_._analyze_project Examples.fromtimestamp Examples.album_project
      (Examples.album []) FinderModel.file_scan_callback (M.mkState [] [] 0)
    = (M.Return p', s') /\
    (exists dt, last_modified p' = LM_datetime dt) /\
    (exists r, ProjectModel_.to_dict (fun _ => "2024-01-01T00:00:00") p' = inr r) /\
    (exists txt, ProjectModel_.get_formatted_last_modified
                   (fun _ _ => "01.01.2024 00:00") p' = inr txt).
Proof.
  apply (analysed_project_has_a_date Examples.fromtimestamp
           (fun _ => "2024-01-01T00:00:00")
           (fun _ _ => "01.01.2024 00:00") Examples.album_project "proj"
           (mkStat 4096 7) _ (M.mkState [] [] 0) "run.py" (mkStat 0 50) (inr [])).
  - cbn. constructor.
  - cbn. repeat constructor; by eexists.
  - cbn. apply elem_of_cons. right. apply elem_of_cons. by left.
  - reflexivity.
  - reflexivity.
Defined.

(** ** Sizes and dates of a folder *)

(** ** The folder's files *)

Section folder_facts.
Import ProjectModel_.

Lemma sizes_loop_run files : forall total total',
  sizes_loop files total = inr total' ->
  total' = total + Py.sum (readable_size <$> files).
Proof.
  induction files as [|f files IH]; intros total total'; cbn [sizes_loop].
  - intros [= <-]. cbn. lia.
  - rewrite fmap_cons.
    change (Py.sum (readable_size f :: (readable_size <$> files)))
      with (readable_size f + Py.sum (readable_size <$> files)).
    unfold add_size, readable_size at 1.
    destruct (stat_of f) as [e|st].
    + destruct (is_OSError e); [|done]. intros Hrun%IH. lia.
    + intros Hrun%IH. lia.
Qed.

Lemma sizes_loop_raise files : forall total e,
  sizes_loop files total = inl e -> is_OSError e = false.
Proof.
  induction files as [|f files IH]; intros total e; cbn [sizes_loop]; [done|].
  unfold add_size. destruct (stat_of f) as [e'|st].
  - destruct (is_OSError e') eqn:He; [by apply IH|]. by intros [= <-].
  - by apply IH.
Qed.

Lemma walk_sizes_run d : forall total total',
  walk_sizes d total = inr total' ->
  total' = total + Py.sum (readable_size <$> sized_files d).
Proof.
  induction d as [nm st content|nm st err entries IH] using node_ind;
    intros total total'; cbn [walk_sizes sized_files].
  - intros [= <-]. cbn. lia.
  - destruct err as [e|].
    { destruct (is_OSError e); [|done]. intros [= <-]. cbn. lia. }
    destruct (sizes_loop _ total) as [e|total1] eqn:Hfiles; [done|].
    apply sizes_loop_run in Hfiles. rewrite fmap_app, sum_app. intros Hrun.
    enough (total' = total1 + Py.sum (readable_size <$>
              (fix go (l : list node) : list node :=
                 match l with
                 | [] => []
                 | item :: l' =>
                     match item with
                     | Dir _ _ _ _ => sized_files item ++ go l'
                     | File _ _ _ => go l'
                     end
                 end) entries)) by lia.
    clear Hfiles. revert total1 Hrun.
    induction entries as [|item entries IHe]; intros total1 Hrun.
    + injection Hrun as <-. cbn. lia.
    + apply Forall_cons in IH as [Hitem IH].
      destruct item as [fnm fst fcontent|dnm dst derr dentries]; [by apply IHe|].
      destruct (walk_sizes (Dir dnm dst derr dentries) total1) as [e|total2] eqn:Hc;
        [done|].
      apply Hitem in Hc. apply IHe in Hrun; [|done].
      rewrite fmap_app, sum_app. lia.
Qed.

Lemma walk_sizes_raise d : forall total e,
  walk_sizes d total = inl e -> is_OSError e = false.
Proof.
  induction d as [nm st content|nm st err entries IH] using node_ind;
    intros total e; cbn [walk_sizes]; [done|].
  destruct err as [e'|].
  { destruct (is_OSError e') eqn:He; [done|]. by intros [= <-]. }
  destruct (sizes_loop _ total) as [e'|total1] eqn:Hfiles.
  { intros [= <-]. by eapply sizes_loop_raise. }
  clear Hfiles. revert total1.
  induction entries as [|item entries IHe]; intros total1 Hrun; [done|].
  apply Forall_cons in IH as [Hitem IH].
  destruct item as [fnm fst fcontent|dnm dst derr dentries]; [by eapply IHe|].
  destruct (walk_sizes (Dir dnm dst derr dentries) total1) as [e'|total2] eqn:Hc.
  - injection Hrun as <-. by eapply Hitem.
  - by eapply IHe.
Qed.

End folder_facts.

Section date_facts.
Import ProjectModel_.

Lemma latest_of_nil t : latest_of [] t t.
Proof.
  split; [apply Qle_refl|]. split; [|by left].
  intros f st Hin. by apply elem_of_nil in Hin.
Qed.

Lemma latest_of_app l1 l2 t0 t1 t2 :
  latest_of l1 t0 t1 -> latest_of l2 t1 t2 -> latest_of (l1 ++ l2) t0 t2.
Proof.
  intros (Hle1 & Hb1 & Ha1) (Hle2 & Hb2 & Ha2). split; [by eapply Qle_trans|]. split.
  - intros f st [Hin|Hin]%elem_of_app Hst; [|by eapply Hb2].
    eapply Qle_trans; [by eapply Hb1|done].
  - destruct Ha2 as [->|(f & st & Hin & Hst & ->)].
    + destruct Ha1 as [->|(f & st & Hin & Hst & ->)]; [by left|].
      right. exists f, st. split; [|done]. apply elem_of_app. by left.
    + right. exists f, st. split; [|done]. apply elem_of_app. by right.
Qed.

Lemma newer_run f t t' : newer f t = inr t' -> latest_of [f] t t'.
Proof.
  unfold newer, latest_of. destruct (stat_of f) as [e|st] eqn:Hst.
  - destruct (is_OSError e); [|done]. intros [= <-].
    split; [apply Qle_refl|]. split; [|by left].
    intros f' st' ->%list_elem_of_singleton. by rewrite Hst.
  - intros [= <-]. destruct (Qlt_le_dec t (st_mtime st)) as [Hlt|Hle].
    + split; [by apply Qlt_le_weak|]. split.
      * intros f' st' ->%list_elem_of_singleton. rewrite Hst. intros [= <-].
        apply Qle_refl.
      * right. exists f, st. split; [by apply list_elem_of_singleton|done].
    + split; [apply Qle_refl|]. split; [|by left].
      intros f' st' ->%list_elem_of_singleton. rewrite Hst. by intros [= <-].
Qed.

Lemma newer_raise f t e : newer f t = inl e -> is_OSError e = false.
Proof.
  unfold newer. destruct (stat_of f) as [e'|st]; [|done].
  destruct (is_OSError e') eqn:He; [done|]. by intros [= <-].
Qed.

Lemma mtimes_loop_run files : forall t t',
  mtimes_loop files t = inr t' -> latest_of files t t'.
Proof.
  induction files as [|f files IH]; intros t t'; cbn [mtimes_loop].
  - intros [= <-]. apply latest_of_nil.
  - destruct (newer f t) as [e|t1] eqn:Hf; [done|]. intros Hrun.
    apply (latest_of_app [f] files t t1 t'); [by apply newer_run|by apply IH].
Qed.

Lemma mtimes_loop_raise files : forall t e,
  mtimes_loop files t = inl e -> is_OSError e = false.
Proof.
  induction files as [|f files IH]; intros t e; cbn [mtimes_loop]; [done|].
  destruct (newer f t) as [e'|t1] eqn:Hf; [|by apply IH].
  intros [= <-]. by eapply newer_raise.
Qed.

Lemma walk_mtimes_run d : forall t t',
  walk_mtimes d t = inr t' -> latest_of (dated_files d) t t'.
Proof.
  induction d as [nm st content|nm st err entries IH] using node_ind;
    intros t t'; cbn [walk_mtimes dated_files].
  - intros [= <-]. apply latest_of_nil.
  - destruct err as [e|].
    { destruct (is_OSError e); [|done]. intros [= <-]. apply latest_of_nil. }
    destruct (mtimes_loop _ t) as [e|t1] eqn:Hfiles; [done|].
    apply mtimes_loop_run in Hfiles. intros Hrun.
    eapply latest_of_app; [exact Hfiles|]. clear Hfiles. revert t1 Hrun.
    induction entries as [|item entries IHe]; intros t1 Hrun.
    + injection Hrun as <-. apply latest_of_nil.
    + apply Forall_cons in IH as [Hitem IH].
      destruct item as [fnm fst fcontent|dnm dst derr dentries]; [by apply IHe|].
      case_bool_decide; [by apply IHe|].
      destruct (walk_mtimes (Dir dnm dst derr dentries) t1) as [e|t2] eqn:Hc; [done|].
      eapply latest_of_app; [by apply Hitem|by apply IHe].
Qed.

Lemma walk_mtimes_raise d : forall t e,
  walk_mtimes d t = inl e -> is_OSError e = false.
Proof.
  induction d as [nm st content|nm st err entries IH] using node_ind;
    intros t e; cbn [walk_mtimes]; [done|].
  destruct err as [e'|].
  { destruct (is_OSError e') eqn:He; [done|]. by intros [= <-]. }
  destruct (mtimes_loop _ t) as [e'|t1] eqn:Hfiles.
  { intros [= <-]. by eapply mtimes_loop_raise. }
  clear Hfiles. revert t1.
  induction entries as [|item entries IHe]; intros t1 Hrun; [done|].
  apply Forall_cons in IH as [Hitem IH].
  destruct item as [fnm fst fcontent|dnm dst derr dentries]; [by eapply IHe|].
  case_bool_decide; [by eapply IHe|].
  destruct (walk_mtimes (Dir dnm dst derr dentries) t1) as [e'|t2] eqn:Hc.
  - injection Hrun as <-. by eapply Hitem.
  - by eapply IHe.
Qed.

End date_facts.

Section folder_failures.
Import ProjectModel_.

Lemma failures_child nm st err entries child e :
  child ∈ entries -> e ∈ failures child -> e ∈ failures (Dir nm st err entries).
Proof.
  intros Hin He. cbn [failures]. apply elem_of_app. right.
  induction entries as [|x entries IH]; [by apply elem_of_nil in Hin|].
  apply elem_of_app. apply elem_of_cons in Hin as [->|Hin]; [by left|right; by apply IH].
Qed.

Lemma failures_stat f e : stat_of f = inl e -> e ∈ failures f.
Proof.
  destruct f as [nm st content|nm st err entries]; cbn [stat_of failures]; [|done].
  intros ->. by left.
Qed.

Lemma sizes_loop_raise_in files : forall total e,
  sizes_loop files total = inl e -> exists f, f ∈ files /\ e ∈ failures f.
Proof.
  induction files as [|f files IH]; intros total e; cbn [sizes_loop]; [done|].
  unfold add_size. destruct (stat_of f) as [e'|st] eqn:Hst.
  - destruct (is_OSError e').
    + intros (f' & Hin & He)%IH. exists f'. split; [by right|done].
    + intros [= <-]. exists f. split; [by left|by apply failures_stat].
  - intros (f' & Hin & He)%IH. exists f'. split; [by right|done].
Qed.

Lemma walk_sizes_raise_in d : forall total e,
  walk_sizes d total = inl e -> e ∈ failures d.
Proof.
  induction d as [nm st content|nm st err entries IH] using node_ind;
    intros total e; cbn [walk_sizes]; [done|].
  destruct err as [e'|].
  { destruct (is_OSError e'); [done|]. intros [= <-]. cbn [failures]. by left. }
  destruct (sizes_loop _ total) as [e'|total1] eqn:Hfiles.
  { intros [= <-]. apply sizes_loop_raise_in in Hfiles as (f & Hin & He).
    apply list_elem_of_filter in Hin as [_ Hin]. by eapply failures_child. }
  clear Hfiles. intros Hrun.
  enough (exists child, child ∈ entries /\ e ∈ failures child) as (child & Hin & He)
    by (by eapply failures_child).
  revert total1 Hrun.
  induction entries as [|item entries IHe]; intros total1 Hrun; [done|].
  apply Forall_cons in IH as [Hitem IH].
  destruct item as [fnm fst fcontent|dnm dst derr dentries].
  - destruct (IHe IH _ Hrun) as (child & Hin & He). exists child. split; [by right|done].
  - destruct (walk_sizes (Dir dnm dst derr dentries) total1) as [e'|total2] eqn:Hc.
    + injection Hrun as <-. eexists. split; [by left|]. by eapply Hitem.
    + destruct (IHe IH _ Hrun) as (child & Hin & He). exists child.
      split; [by right|done].
Qed.

Lemma mtimes_loop_raise_in files : forall latest e,
  mtimes_loop files latest = inl e -> exists f, f ∈ files /\ e ∈ failures f.
Proof.
  induction files as [|f files IH]; intros latest e; cbn [mtimes_loop]; [done|].
  unfold newer. destruct (stat_of f) as [e'|st] eqn:Hst.
  - destruct (is_OSError e').
    + intros (f' & Hin & He)%IH. exists f'. split; [by right|done].
    + intros [= <-]. exists f. split; [by left|by apply failures_stat].
  - intros (f' & Hin & He)%IH. exists f'. split; [by right|done].
Qed.

Lemma walk_mtimes_raise_in d : forall latest e,
  walk_mtimes d latest = inl e -> e ∈ failures d.
Proof.
  induction d as [nm st content|nm st err entries IH] using node_ind;
    intros latest e; cbn [walk_mtimes]; [done|].
  destruct err as [e'|].
  { destruct (is_OSError e'); [done|]. intros [= <-]. cbn [failures]. by left. }
  destruct (mtimes_loop _ latest) as [e'|latest1] eqn:Hfiles.
  { intros [= <-]. apply mtimes_loop_raise_in in Hfiles as (f & Hin & He).
    apply list_elem_of_filter in Hin as [_ Hin]. by eapply failures_child. }
  clear Hfiles. intros Hrun.
  enough (exists child, child ∈ entries /\ e ∈ failures child) as (child & Hin & He)
    by (by eapply failures_child).
  revert latest1 Hrun.
  induction entries as [|item entries IHe]; intros latest1 Hrun; [done|].
  apply Forall_cons in IH as [Hitem IH].
  destruct item as [fnm fst fcontent|dnm dst derr dentries].
  - destruct (IHe IH _ Hrun) as (child & Hin & He). exists child. split; [by right|done].
  - case_bool_decide.
    { destruct (IHe IH _ Hrun) as (child & Hin & He). exists child.
      split; [by right|done]. }
    destruct (walk_mtimes (Dir dnm dst derr dentries) latest1) as [e'|latest2] eqn:Hc.
    + injection Hrun as <-. eexists. split; [by left|]. by eapply Hitem.
    + destruct (IHe IH _ Hrun) as (child & Hin & He). exists child.
      split; [by right|done].
Qed.

End folder_failures.


(** X18: [get_folder_size] adds up the sizes of all files of the tree
    that can be looked at, whatever their extension and whatever the
    name of the directory they are in; a file that cannot be looked at
    counts for nothing.  The call fails only with a failure of the tree
    that is not an [OSError]. *)
Theorem folder_size_is_the_sum_of_file_sizes (self : ProjectModel) (d : node) :
  match ProjectModel_.get_folder_size self (Some d) with
  | inr total_size => total_size = Py.sum (readable_size <$> sized_files d)
  | inl e => e ∈ failures d /\ is_OSError e = false
  end.
Proof.
  unfold ProjectModel_.get_folder_size.
  destruct (ProjectModel_.walk_sizes d 0) as [e|total] eqn:Hwalk.
  - pose proof (walk_sizes_raise _ _ _ Hwalk) as Hos. rewrite Hos.
    split; [by eapply walk_sizes_raise_in|done].
  - apply walk_sizes_run in Hwalk. lia.
Qed.

(** X19: the first call of [get_last_file_modified] returns the latest
    modification time among the files of the tree that can be looked at
    and are not below a directory named in [IGNORED_DIRS], or 0 when
    none of them has a positive time, and stores it in the project.  The
    call fails only with a failure of the tree that is not an
    [OSError]. *)
Theorem last_file_modified_is_the_latest (self : ProjectModel) (d : node) :
  last_file_modified self = None ->
  match ProjectModel_.get_last_file_modified self (Some d) with
  | inr (t, self') =>
      (0 <= t)%Q /\
      (forall f st, f ∈ dated_files d -> ProjectModel_.stat_of f = inr st ->
                    (st_mtime st <= t)%Q) /\
      (t = 0%Q \/
       exists f st, f ∈ dated_files d /\ ProjectModel_.stat_of f = inr st /\
                    t = st_mtime st) /\
      last_file_modified self' = Some t
  | inl e => e ∈ failures d /\ is_OSError e = false
  end.
Proof.
  intros Hnone. unfold ProjectModel_.get_last_file_modified. rewrite Hnone.
  destruct (ProjectModel_.walk_mtimes d 0) as [e|t1] eqn:Hwalk.
  - pose proof (walk_mtimes_raise _ _ _ Hwalk) as Hos. rewrite Hos.
    split; [by eapply walk_mtimes_raise_in|done].
  - apply walk_mtimes_run in Hwalk as (Hle & Hbound & Hmet). done.
Qed.

Lemma last_file_modified_is_the_latest_witness :
  match ProjectModel_.get_last_file_modified Examples.album_project
          (Some (Examples.album [])) with
  | inr (t, self') =>
      (0 <= t)%Q /\
      (forall f st, f ∈ dated_files (Examples.album []) ->
                    ProjectModel_.stat_of f = inr st -> (st_mtime st <= t)%Q) /\
      (t = 0%Q \/
       exists f st, f ∈ dated_files (Examples.album []) /\
                    ProjectModel_.stat_of f = inr st /\ t = st_mtime st) /\
      last_file_modified self' = Some t
  | inl e => e ∈ failures (Examples.album []) /\ is_OSError e = false
  end.
Proof.
  apply (last_file_modified_is_the_latest Examples.album_project (Examples.album [])).
  reflexivity.
Defined.

(** X20: [get_last_file_modified] looks at the disk once.  Whatever a
    call returned is returned by every later call on the project it left,
    whatever the directory has become. *)
Theorem last_file_modified_is_cached
    (self self' : ProjectModel) (d d' : option node) (t : Q) :
  ProjectModel_.get_last_file_modified self d = inr (t, self') ->
  ProjectModel_.get_last_file_modified self' d' = inr (t, self').
Proof.
  unfold ProjectModel_.get_last_file_modified at 1.
  destruct (last_file_modified self) as [t0|] eqn:Hself.
  - intros [= <- <-]. unfold ProjectModel_.get_last_file_modified. by rewrite Hself.
  - destruct (match d with Some d0 => _ | None => _ end) as [e|t1].
    + destruct (is_OSError e); [|done]. by intros [= <- <-].
    + by intros [= <- <-].
Qed.

Lemma last_file_modified_is_cached_witness :
  ProjectModel_.get_last_file_modified
    (ProjectModel_.set_last_file_modified Examples.album_project 100) None
  = inr (100%Q, ProjectModel_.set_last_file_modified Examples.album_project 100).
Proof.
  apply (last_file_modified_is_cached Examples.album_project _
           (Some (Examples.album [])) None 100).
  reflexivity.
Defined.

(** ** The folder hash and the place of the project *)

(** ** Suffixes *)

(** ** The folder hash does not depend on the location *)

Lemma string_app_nil_r (a : string) : a +:+ "" = a.
Proof. induction a as [|c a IH]; [done|]. rewrite string_app_cons. by rewrite IH. Qed.

Lemma join_with_sep r x : os_path.join r x = with_sep r +:+ x.
Proof.
  unfold with_sep, os_path.join. destruct (_ || _).
  - by rewrite string_app_nil_r.
  - by rewrite string_app_nil_r, string_app_assoc.
Qed.

Lemma endswith_cons c s suffix :
  (String.length suffix <= String.length s)%nat ->
  Py.endswith (String c s) suffix = Py.endswith s suffix.
Proof.
  intros Hlen. unfold Py.endswith. cbn [String.length].
  rewrite (proj2 (Nat.leb_le _ _) Hlen).
  rewrite (proj2 (Nat.leb_le _ (S _)) (Nat.le_trans _ _ _ Hlen (Nat.le_succ_diag_r _))).
  replace (S (String.length s) - String.length suffix)%nat
    with (S (String.length s - String.length suffix)) by lia.
  done.
Qed.

Lemma endswith_sep_app a x :
  x <> "" -> Py.endswith (a +:+ x) os_path.sep = Py.endswith x os_path.sep.
Proof.
  intros Hx. induction a as [|c a IH]; [done|].
  rewrite string_app_cons, endswith_cons; [done|].
  rewrite string_app_length. destruct x; [done|]. cbn. lia.
Qed.

Lemma with_sep_join r x : with_sep (os_path.join r x) = with_sep r +:+ with_sep x.
Proof.
  rewrite join_with_sep. destruct (String.eqb_spec x "") as [->|Hx].
  - rewrite string_app_nil_r.
    assert (Hw : with_sep (with_sep r) = with_sep r +:+ "").
    { unfold with_sep at 1, os_path.join.
      enough (String.eqb (with_sep r) "" || Py.endswith (with_sep r) os_path.sep = true)
        as -> by done.
      unfold with_sep, os_path.join.
      destruct (String.eqb_spec r "") as [->|Hr]; [done|]. cbn [orb].
      destruct (Py.endswith r os_path.sep) eqn:He.
      - rewrite string_app_nil_r, He. apply orb_true_r.
      - apply orb_true_iff. right. apply endswith_spec. exists r.
        by rewrite string_app_nil_r. }
    rewrite Hw. done.
  - generalize (with_sep r). intros w. unfold with_sep, os_path.join.
    rewrite (endswith_sep_app _ x Hx).
    assert (String.eqb (w +:+ x) "" = false) as ->.
    { apply String.eqb_neq. intros Heq. apply Hx.
      destruct w; [done|]. by rewrite string_app_cons in Heq. }
    apply String.eqb_neq in Hx. rewrite Hx. cbn [orb].
    destruct (Py.endswith x os_path.sep); by rewrite !string_app_assoc.
Qed.

Lemma prefix_all_app front l1 l2 :
  prefix_all front (l1 ++ l2) = prefix_all front l1 ++ prefix_all front l2.
Proof. unfold prefix_all. apply fmap_app. Qed.

Lemma prefix_all_compose a b l :
  prefix_all (a +:+ b) l = prefix_all a (prefix_all b l).
Proof.
  unfold prefix_all. rewrite <- list_fmap_compose. apply list_fmap_ext.
  intros i [p f] _. cbn. by rewrite string_app_assoc.
Qed.

Lemma prefix_all_nil_front l : prefix_all "" l = l.
Proof.
  unfold prefix_all. rewrite <- (list_fmap_id l) at 2. apply list_fmap_ext.
  by intros i [p f] _.
Qed.

Section location_facts.
Import ProjectModel_.
Variable sha256 : list byte -> list byte.

(** The listing of a tree under a root is the listing under the empty
    path with the root in front of every path. *)
Lemma collect_files_prefix exts d :
  forall r,
    collect_files exts d r
    = match collect_files exts d "" with
      | inl e => inl e
      | inr l => inr (prefix_all (with_sep r) l)
      end.
Proof.
  induction d as [nm st content|nm st err entries IH] using node_ind;
    intros r; cbn [collect_files]; [done|].
  destruct err as [e|]; [by destruct (is_OSError e)|].
  set (files := filter (fun n => negb (isdir n) && negb (hash_ignored exts (node_name n)))
                  entries).
  assert (Hhere : (fun f => (os_path.join r (node_name f), f)) <$> files
                  = prefix_all (with_sep r)
                      ((fun f => (os_path.join "" (node_name f), f)) <$> files)).
  { unfold prefix_all. rewrite <- list_fmap_compose. apply list_fmap_ext.
    intros i f _. cbn. by rewrite join_with_sep. }
  rewrite Hhere. clear Hhere.
  set (here := (fun f => (os_path.join "" (node_name f), f)) <$> files).
  enough (Hsub :
    (fix subdirs (items : list node) : exn + list (string * node) :=
       match items with
       | [] => inr []
       | item :: items' =>
           match item with
           | Dir nm0 _ _ _ =>
               match collect_files exts item (os_path.join r nm0) with
               | inl e => inl e
               | inr l =>
                   match subdirs items' with
                   | inl e => inl e
                   | inr l' => inr (l ++ l')
                   end
               end
           | File _ _ _ => subdirs items'
           end
       end) entries
    = match
        (fix subdirs (items : list node) : exn + list (string * node) :=
           match items with
           | [] => inr []
           | item :: items' =>
               match item with
               | Dir nm0 _ _ _ =>
                   match collect_files exts item (os_path.join "" nm0) with
                   | inl e => inl e
                   | inr l =>
                       match subdirs items' with
                       | inl e => inl e
                       | inr l' => inr (l ++ l')
                       end
                   end
               | File _ _ _ => subdirs items'
               end
           end) entries
      with
      | inl e => inl e
      | inr l => inr (prefix_all (with_sep r) l)
      end).
  { rewrite Hsub.
    lazymatch goal with
    | |- context [match ?X with
                  | inl e => inl e
                  | inr l => inr (prefix_all _ l)
                  end] => destruct X as [e|below]
    end; [done|].
    by rewrite prefix_all_app. }
  clear files here. induction entries as [|item entries IHe]; [done|].
  apply Forall_cons in IH as [Hitem IH]. specialize (IHe IH).
  destruct item as [fnm fst fcontent|dnm dst derr dentries]; [exact IHe|].
  rewrite (Hitem (os_path.join r dnm)), (Hitem (os_path.join "" dnm)).
  destruct (collect_files exts (Dir dnm dst derr dentries) "") as [e|l]; [done|].
  rewrite IHe.
  lazymatch goal with
  | |- context [match ?X with
                | inl e => inl e
                | inr l => inr (prefix_all _ l)
                end] => destruct X as [e|l']
  end; [done|].
  rewrite prefix_all_app, with_sep_join, prefix_all_compose.
  by change (os_path.join "" dnm) with dnm.
Qed.

End location_facts.

Lemma insort_fmap {A B} (g : A -> B) (le : A -> A -> bool) (le' : B -> B -> bool)
    (x : A) (l : list A) :
  (forall a b, le' (g a) (g b) = le a b) ->
  Py.insort le' (g x) (g <$> l) = g <$> Py.insort le x l.
Proof.
  intros Hle. induction l as [|y l IH]; [done|].
  cbn [fmap list_fmap Py.insort]. rewrite Hle.
  destruct (le y x); [|done]. cbn [fmap list_fmap]. f_equal. exact IH.
Qed.

Lemma sorted_fmap {A B} (g : A -> B) (le : A -> A -> bool) (le' : B -> B -> bool)
    (l : list A) :
  (forall a b, le' (g a) (g b) = le a b) ->
  Py.sorted le' (g <$> l) = g <$> Py.sorted le l.
Proof.
  intros Hle. unfold Py.sorted.
  change (@nil B) with (g <$> @nil A). generalize (@nil A).
  induction l as [|x l IH]; intros acc; [done|].
  cbn [fmap list_fmap foldl]. rewrite (insort_fmap g le le' x acc Hle). apply IH.
Qed.

Lemma leb_app_front (front x y : string) :
  String.leb (front +:+ x) (front +:+ y) = String.leb x y.
Proof.
  unfold String.leb. induction front as [|c front IH]; [done|].
  rewrite !string_app_cons. cbn [String.compare].
  assert (Ascii.compare c c = Eq) as -> by (unfold Ascii.compare; apply N.compare_refl).
  exact IH.
Qed.

Section location_hash.
Import ProjectModel_.
Variable sha256 : list byte -> list byte.

Lemma sorted_prefix_all front l :
  Py.sorted by_path (prefix_all front l) = prefix_all front (Py.sorted by_path l).
Proof.
  unfold prefix_all. apply sorted_fmap. intros [p f] [q g]. unfold by_path. cbn.
  apply leb_app_front.
Qed.

Lemma relpath_with_sep self_path rel :
  relpath (with_sep self_path +:+ rel) self_path = rel.
Proof.
  unfold relpath. fold (with_sep self_path).
  rewrite string_app_length.
  replace (String.length (with_sep self_path) + String.length rel
           - String.length (with_sep self_path))%nat with (String.length rel) by lia.
  by rewrite substring_app_skip, substring_0_length.
Qed.

Lemma relpath_empty rel : relpath rel "" = rel.
Proof.
  unfold relpath. change (String.length (os_path.join "" "")) with 0%nat.
  by rewrite Nat.sub_0_r, substring_0_length.
Qed.

Lemma hash_all_prefix self_path1 self_path2 l :
  forall folder_hasher,
    hash_all sha256 self_path1 folder_hasher (prefix_all (with_sep self_path1) l)
    = hash_all sha256 self_path2 folder_hasher (prefix_all (with_sep self_path2) l).
Proof.
  induction l as [|[rel f] l IH]; intros folder_hasher; [done|].
  cbn [prefix_all fmap list_fmap hash_all fst snd].
  assert (Hone : forall sp,
            hash_one sha256 sp folder_hasher (with_sep sp +:+ rel, f)
            = hash_one sha256 "" folder_hasher (rel, f)).
  { intros sp. unfold hash_one. cbv zeta.
    by rewrite relpath_with_sep, relpath_empty. }
  rewrite (Hone self_path1), (Hone self_path2). destruct (hash_one sha256 "" folder_hasher (rel, f)); [done|].
  apply IH.
Qed.

Lemma folder_hasher_input_location self1 self2 d :
  ignored_file_extensions self1 = ignored_file_extensions self2 ->
  folder_hasher_input sha256 self1 d = folder_hasher_input sha256 self2 d.
Proof.
  intros Hexts. unfold folder_hasher_input.
  rewrite (collect_files_prefix _ d (path self1)).
  rewrite (collect_files_prefix _ d (path self2)). rewrite Hexts.
  destruct (collect_files (ignored_file_extensions self2) d "") as [e|l]; [done|].
  rewrite !sorted_prefix_all. apply hash_all_prefix.
Qed.

End location_hash.

(** X21: the folder hash does not depend on where the project is.  Two
    projects with the same ignored extensions whose directories have
    the same content get the same digest from [calculate_folder_hash],
    whatever their paths and the names of the two directories: the hash
    is computed from paths relative to the project. *)
Theorem folder_hash_ignores_location
    (sha256 : list byte -> list byte) (self1 self2 : ProjectModel)
    (nm1 nm2 : string) (st1 st2 : stat_result) (err : option exn)
    (entries : list node) :
  ignored_file_extensions self1 = ignored_file_extensions self2 ->
  match ProjectModel_.calculate_folder_hash sha256 self1
          (Some (Dir nm1 st1 err entries)),
        ProjectModel_.calculate_folder_hash sha256 self2
          (Some (Dir nm2 st2 err entries)) with
  | inr (h1, _), inr (h2, _) => h1 = h2
  | inl e1, inl e2 => e1 = e2
  | _, _ => False
  end.
Proof.
  intros Hexts. unfold ProjectModel_.calculate_folder_hash.
  assert (Hin : ProjectModel_.folder_hasher_input sha256 self1 (Dir nm1 st1 err entries)
                = ProjectModel_.folder_hasher_input sha256 self2
                    (Dir nm2 st2 err entries)).
  { rewrite (folder_hasher_input_location sha256 self1 self2 _ Hexts).
    unfold ProjectModel_.folder_hasher_input. done. }
  rewrite Hin.
  by destruct (ProjectModel_.folder_hasher_input sha256 self2 (Dir nm2 st2 err entries)).
Qed.

Lemma folder_hash_ignores_location_witness :
  match ProjectModel_.calculate_folder_hash (fun _ => []) Examples.album_project
          (Some (Examples.album [])),
        ProjectModel_.calculate_folder_hash (fun _ => [])
          (Examples.project "/s/copy" "copy" [] None None)
          (Some (Dir "copy" (mkStat 0 9) None
                   [File "photo.jpg" (inr (mkStat 0 100)) (inr []);
                    File "run.py" (inr (mkStat 0 50)) (inr [])])) with
  | inr (h1, _), inr (h2, _) => h1 = h2
  | inl e1, inl e2 => e1 = e2
  | _, _ => False
  end.
Proof.
  apply (folder_hash_ignores_location (fun _ => []) Examples.album_project
           (Examples.project "/s/copy" "copy" [] None None) "proj" "copy"
           (mkStat 4096 7) (mkStat 0 9) None).
  reflexivity.
Defined.

(** ** Export and import, the good case *)

Section persistence_facts.
Import FinderModel.
Variable isoformat : datetime -> string.
Variable fromisoformat : string -> option datetime.
Variable stat : string -> exn + stat_result.

Lemma to_dict_exportable p :
  exportable p -> exists r, ProjectModel_.to_dict isoformat p = inr r.
Proof.
  unfold exportable, ProjectModel_.to_dict.
  destruct (last_modified p) as [t|d].
  - intros ->. eexists. reflexivity.
  - intros _. eexists. reflexivity.
Qed.

Lemma to_dicts_exportable ps :
  Forall exportable ps -> exists records, to_dicts isoformat ps = inr records.
Proof.
  induction 1 as [|p ps Hp _ [records IH]]; cbn [to_dicts]; [by eexists|].
  destruct (to_dict_exportable p Hp) as [r ->]. rewrite IH. by eexists.
Qed.

Lemma save_to_json_exportable output_file s :
  Forall exportable (M.projects s) ->
  exists doc, save_to_json isoformat output_file None s = (M.Return (true, Some doc), s).
Proof.
  intros [records Hr]%to_dicts_exportable. unfold save_to_json.
  rewrite (bind_run M.get_projects _ s (M.projects s) s eq_refl). rewrite Hr.
  rewrite (bind_run (M.lift (inr records)) _ s records s eq_refl). by eexists.
Qed.

Lemma load_success input_file file s s' :
  load_from_json fromisoformat stat input_file file s = (M.Return (Some true), s') <->
  exists data records qs,
    file = inr data /\ records_of data = inr records /\
    Forall2 (decodes_to fromisoformat stat) records qs /\
    s' = M.mkState qs
           (M.emitted s ++ (project_found <$> qs) ++ [search_finished (Py.len qs)])
           (M.polls s).
Proof.
  unfold load_from_json, M.try_except. fold (records_of).
  destruct file as [e|data].
  { cbn. split; [done|]. by intros (? & ? & ? & ? & _). }
  rewrite (bind_run (M.lift (inr data)) _ s data s eq_refl).
  rewrite (bind_run (M.set_projects []) _ s tt
             (M.mkState [] (M.emitted s) (M.polls s)) eq_refl).
  fold (records_of data).
  destruct (records_of data) as [e|records] eqn:Hrec.
  { cbn. split; [done|]. intros (? & ? & ? & [= <-] & ? & _). congruence. }
  rewrite (bind_run (M.lift (inr records)) _
             (M.mkState [] (M.emitted s) (M.polls s)) records
             (M.mkState [] (M.emitted s) (M.polls s)) eq_refl).
  split.
  - destruct (load_loop_run fromisoformat stat records
                (M.mkState [] (M.emitted s) (M.polls s)))
      as (k & done & Hdone & Hstate & Hres).
    destruct (load_loop fromisoformat stat records
                (M.mkState [] (M.emitted s) (M.polls s))) as [[[[]|]|e] s2] eqn:Hrun;
      cbn [fst snd] in Hstate, Hres.
    + rewrite (bind_run _ _ _ _ _ Hrun). subst s2 k. rewrite firstn_all in Hdone.
      cbn. intros [= <-]. exists data, records, done.
      split_and!; try done. by rewrite <- app_assoc.
    + rewrite (bind_run _ _ _ _ _ Hrun). cbn. discriminate.
    + rewrite (bind_raise _ _ _ _ _ Hrun). cbn. discriminate.
  - intros (d' & r' & qs & [= <-] & Hr' & Hqs & ->).
    rewrite Hrec in Hr'. injection Hr' as <-.
    rewrite (bind_run _ _ _ _ _ (load_loop_all fromisoformat stat records qs Hqs _)).
    cbn. by rewrite <- app_assoc.
Qed.

End persistence_facts.

(** X22: when [load_from_json] returns True.  It does so exactly
    when the file was read and parsed, the value under "python_projects"
    can be iterated and every record reconstructs; the project list then
    holds the projects of the records and nothing of what it held
    before, and the signals emitted are one [project_found] for each of
    them, in order, followed by [search_finished] with their number. *)
Theorem import_success_replaces_the_list
    (fromisoformat : string -> option datetime)
    (stat : string -> exn + stat_result)
    (input_file : string) (file : exn + json) (s s' : M.state) :
  FinderModel.load_from_json fromisoformat stat input_file file s
  = (M.Return (Some true), s') <->
  exists data records qs,
    file = inr data /\ records_of data = inr records /\
    Forall2 (decodes_to fromisoformat stat) records qs /\
    s' = M.mkState qs
           (M.emitted s ++ (project_found <$> qs) ++ [search_finished (Py.len qs)])
           (M.polls s).
Proof. apply load_success. Qed.

(** X23: export followed by import.  When every project of the list has
    a [datetime] or nothing in [last_modified], the file can be written
    and [fromisoformat] reads what [isoformat] writes, [save_to_json]
    returns True and leaves the list as it is; and when the paths can be
    looked at on import, [load_from_json] on the document written returns
    True and rebuilds the projects in order.  Path, name, file count,
    size, the two file lists, real size, real file count and folder hash
    come back as they were.  [last_modified] does not always: a
    [datetime] comes back as the one [fromisoformat] reads from its
    text, and a project exported with null (or with an empty text)
    comes back with the [st_mtime] its constructor reads from the disk
    at import (0 when the path cannot be looked at). *)
Theorem export_then_import_restores_the_records
    (isoformat : datetime -> string) (fromisoformat : string -> option datetime)
    (stat : string -> exn + stat_result)
    (output_file input_file : string) (s s2 : M.state) :
  (forall d, is_Some (fromisoformat (isoformat d))) ->
  Forall exportable (M.projects s) ->
  Forall (fun p => stat_tolerated stat (path p)) (M.projects s) ->
  exists doc s3,
    FinderModel.save_to_json isoformat output_file None s
    = (M.Return (true, Some doc), s) /\
    FinderModel.load_from_json fromisoformat stat input_file (inr doc) s2
    = (M.Return (Some true), s3) /\
    Forall2 same_record (M.projects s) (M.projects s3) /\
    Forall2 (restored_date isoformat fromisoformat stat)
      (M.projects s) (M.projects s3).
Proof.
  intros Hiso Hexp Hstat.
  destruct (save_to_json_exportable isoformat output_file s Hexp) as [doc Hsave].
  destruct (export_import_round_trip isoformat fromisoformat stat Hiso output_file
              input_file s doc s s2 Hstat Hsave) as (s3 & Hload & Hsame & Hdates).
  by exists doc, s3.
Qed.

Lemma export_then_import_restores_the_records_witness :
  exists doc s3,
    FinderModel.save_to_json (fun _ => "2024-01-01T00:00:00") "out.json" None
      (M.mkState [Examples.dated_tide; Examples.hashed_other] [] 0)
    = (M.Return (true, Some doc),
       M.mkState [Examples.dated_tide; Examples.hashed_other] [] 0) /\
    FinderModel.load_from_json (fun _ => Some (mkDatetime 0))
      Examples.everything_on_disk "out.json" (inr doc)
      (M.mkState [Examples.diet] [] 0)
    = (M.Return (Some true), s3) /\
    Forall2 same_record [Examples.dated_tide; Examples.hashed_other]
      (M.projects s3) /\
    Forall2 (restored_date (fun _ => "2024-01-01T00:00:00")
               (fun _ => Some (mkDatetime 0)) Examples.everything_on_disk)
      [Examples.dated_tide; Examples.hashed_other] (M.projects s3).
Proof.
  apply (export_then_import_restores_the_records (fun _ => "2024-01-01T00:00:00")
           (fun _ => Some (mkDatetime 0)) Examples.everything_on_disk
           "out.json" "out.json"
           (M.mkState [Examples.dated_tide; Examples.hashed_other] [] 0)
           (M.mkState [Examples.diet] [] 0)).
  - intros d. by eexists.
  - cbn. repeat constructor.
  - cbn. repeat constructor.
Defined.

(** ** The projects of the groups *)

Section cover_facts.
Import FinderModel.

Lemma appended_covers g p1 p2 s :
  path p1 ∈ path <$> (g_projects g ++ appended g (p1, p2, s)) /\
  path p2 ∈ path <$> (g_projects g ++ appended g (p1, p2, s)).
Proof.
  unfold appended.
  destruct (project_in p1 (g_projects g)) eqn:H1;
    [apply project_in_paths in H1|];
    destruct (project_in p2 _) eqn:H2;
    try apply project_in_paths in H2;
    rewrite ?fmap_app, ?elem_of_app in *; cbn [app fmap list_fmap] in *;
    rewrite ?elem_of_app, ?elem_of_cons, ?elem_of_nil in *; tauto.
Qed.

Lemma group_members_paths groups pos g x :
  groups !! pos = Some g -> x ∈ path <$> g_projects g -> x ∈ path <$> members groups.
Proof.
  intros Hg (b & -> & Hb)%list_elem_of_fmap.
  apply list_elem_of_fmap_2. unfold members. apply list_elem_of_bind.
  exists g. split; [done|]. by eapply list_elem_of_lookup_2.
Qed.

(** A round of the grouping loop puts the two projects of the pair in
    a group, if they are in none, and nothing else. *)
Lemma gd_step_members st d x :
  partitioned st ->
  x ∈ path <$> members (gd_step st d).1 <->
  x ∈ path <$> members st.1 \/ x = path d.1.1 \/ x = path d.1.2.
Proof.
  destruct st as [groups processed]. intros [Hnd Hproc]. cbn [fst snd] in *.
  unfold gd_step. destruct d as [[p1 p2] s]. cbn [fst snd].
  destruct (bool_decide (path p1 ∈ processed) && bool_decide (path p2 ∈ processed))
    eqn:Hboth.
  { apply andb_true_iff in Hboth as [I1%bool_decide_eq_true I2%bool_decide_eq_true].
    apply Hproc in I1, I2. cbn [fst]. split; [by left|].
    intros [?|[->| ->]]; done. }
  assert (Hstep : forall groups0 pos g,
            groups0 !! pos = Some g ->
            members groups0 = members groups ->
            x ∈ path <$> members
                  (let '(g', processed') := add_pair g (p1, p2, s) processed in
                   (<[pos := g']> groups0, processed')).1 <->
            x ∈ path <$> members groups \/ x = path p1 \/ x = path p2).
  { intros groups0 pos g Hg Hmem.
    pose proof (add_pair_projects g (p1, p2, s) processed) as Hprojects.
    destruct (add_pair g (p1, p2, s) processed) as [g' processed'].
    cbn [fst snd] in *.
    pose proof (members_insert groups0 pos g g' _ Hg Hprojects) as Hperm.
    rewrite Hmem in Hperm. rewrite Hperm, fmap_app, elem_of_app.
    destruct (appended_covers g p1 p2 s) as [C1 C2].
    rewrite fmap_app, elem_of_app in C1, C2.
    assert (Hsub : forall y, y ∈ path <$> g_projects g -> y ∈ path <$> members groups).
    { intros y Hy. rewrite <- Hmem. by eapply group_members_paths. }
    split.
    - intros [?|(a & -> & Ha)%list_elem_of_fmap]; [by left|].
      apply appended_fresh in Ha as [[->| ->] _]; auto.
    - intros [?|[->| ->]]; [by left| |].
      + destruct C1 as [?|?]; [left; by apply Hsub|by right].
      + destruct C2 as [?|?]; [left; by apply Hsub|by right]. }
  destruct (find_group groups p1 p2 0) as [pos|] eqn:Hf.
  - apply find_group_Some in Hf as [_ (g & Hg & Hin)]. rewrite Nat.sub_0_r in Hg.
    rewrite Hg. by apply (Hstep groups pos g Hg).
  - rewrite lookup_app_r by done. rewrite Nat.sub_diag. cbn [lookup list_lookup].
    apply (Hstep (groups ++ [mkGroup [] []]) (length groups) (mkGroup [] [])).
    + rewrite lookup_app_r by done. by rewrite Nat.sub_diag.
    + unfold members. rewrite bind_app, bind_singleton. cbn. by rewrite app_nil_r.
Qed.

Lemma foldl_gd_step_members dups x :
  forall st,
    partitioned st ->
    x ∈ path <$> members (foldl gd_step st dups).1 <->
    x ∈ path <$> members st.1 \/
    exists d, d ∈ dups /\ (x = path d.1.1 \/ x = path d.1.2).
Proof.
  induction dups as [|d dups IH]; intros st Hst; cbn [foldl].
  - split; [by left|]. intros [?|(d & Hd%elem_of_nil & _)]; done.
  - rewrite IH by (by apply gd_step_partitioned). rewrite gd_step_members by done.
    split.
    + intros [[?|Hd]|(d' & Hd' & Hx)]; [by left| |].
      * right. exists d. split; [by left|done].
      * right. exists d'. split; [by right|done].
    + intros [?|(d' & [->|Hd']%elem_of_cons & Hx)]; [by left; left| |].
      * left. by right.
      * right. by exists d'.
Qed.

End cover_facts.

(** X24: the groups hold the projects of the reported pairs, and no
    others.  A project is a member of one of the groups of
    [group_duplicates] exactly when it is one of the two projects of a
    pair that [find_duplicates] reports. *)
Theorem grouped_projects_are_the_paired_ones
    (sim : ProjectModel -> ProjectModel -> Q) (thr : Q) (ps : list ProjectModel)
    (x : string) :
  x ∈ path <$> members (FinderModel.group_duplicates_with sim thr ps) <->
  exists p q s,
    (p, q, s) ∈ (FinderModel.find_duplicates_with sim thr ps).1 /\
    (x = path p \/ x = path q).
Proof.
  unfold FinderModel.group_duplicates_with.
  destruct (FinderModel.find_duplicates_with sim thr ps) as [dups sims]. cbn [fst].
  destruct dups as [|d dups].
  { unfold members. cbn. rewrite elem_of_nil. split; [done|].
    intros (p & q & s & Hin%elem_of_nil & _). done. }
  pose proof (foldl_gd_step_members
                (Py.sorted FinderModel.by_score_desc (d :: dups)) x ([], ∅)) as Hm.
  destruct (foldl FinderModel.gd_step ([], ∅) _) as [groups processed].
  cbn [fst] in Hm.
  rewrite (members_Permutation _ _ (sorted_Permutation FinderModel.by_size_desc groups)).
  rewrite Hm.
  2:{ split; [constructor|]. intros y. cbn. rewrite elem_of_empty, elem_of_nil. done. }
  unfold members. cbn [mbind list_bind fmap list_fmap]. rewrite elem_of_nil.
  split.
  - intros [[]|([[p q] s] & Hd & Hx)]. exists p, q, s.
    split; [|done]. by rewrite sorted_Permutation in Hd.
  - intros (p & q & s & Hd & Hx). right. exists (p, q, s).
    split; [|done]. by rewrite sorted_Permutation.
Qed.

(** ** The tests of a directory and the order of its listing *)

Section classification_facts.
Import FinderModel.
Variable self : settings.

Lemma after_nil s : after s [] = s.
Proof. unfold after. rewrite app_nil_r. by destruct s. Qed.

Lemma ipp_loop_first directory_path items s :
  ipp_loop self directory_path items s
  = match List.find (source_file self) items with
    | Some f =>
        (M.Return true,
         after s [file_scanning (os_path.join directory_path (node_name f))])
    | None => (M.Return false, s)
    end.
Proof.
  induction items as [|item items IH]; cbn [ipp_loop List.find]; [done|].
  unfold source_file at 1.
  destruct (isfile item); cbn [andb]; [|exact IH].
  destruct (Py.any _ (ignored_exts self)); cbn [negb andb]; [exact IH|].
  destruct (Py.any _ (python_extensions self)); [done|exact IH].
Qed.

Lemma ipr_loop_first directory_path files root_files s :
  ipr_loop self directory_path files root_files s
  = match List.find (marker_file self files) root_files with
    | Some root_file =>
        (M.Return true,
         after s [file_scanning (os_path.join directory_path root_file)])
    | None => (M.Return false, s)
    end.
Proof.
  induction root_files as [|rf root_files IH]; cbn [ipr_loop List.find]; [done|].
  unfold marker_file at 1.
  destruct (lookup_entry files rf) as [item|]; [|exact IH].
  destruct (isfile item); cbn [andb]; [|exact IH].
  destruct (Py.any _ (ignored_exts self)); cbn [negb]; [exact IH|done].
Qed.

Lemma find_is_Some_perm {A} (f : A -> bool) (l l' : list A) :
  l ≡ₚ l' -> is_Some (List.find f l) -> is_Some (List.find f l').
Proof.
  intros Hperm [x Hx]. apply find_some in Hx as [Hin Hfx].
  apply list_elem_of_In in Hin. rewrite Hperm in Hin. apply list_elem_of_In in Hin.
  destruct (List.find f l') as [y|] eqn:Hy; [done|].
  by rewrite (find_none _ _ Hy x Hin) in Hfx.
Qed.

Lemma lookup_entry_perm (entries entries' : list node) nm :
  NoDup (node_name <$> entries) -> entries ≡ₚ entries' ->
  lookup_entry entries nm = lookup_entry entries' nm.
Proof.
  intros Hnd Hperm. unfold lookup_entry.
  assert (Hone : forall l x, NoDup (node_name <$> l) ->
             List.find (fun n => String.eqb (node_name n) nm) l = Some x ->
             forall y, y ∈ l -> node_name y = nm -> y = x).
  { intros l x Hl Hx y Hy Hnm. apply find_some in Hx as [Hin Hfx].
    apply list_elem_of_In in Hin. apply String.eqb_eq in Hfx.
    apply list_elem_of_lookup in Hin as [i Hi]. apply list_elem_of_lookup in Hy as [j Hj].
    assert (i = j) as ->; [|congruence].
    eapply NoDup_lookup; [done| |]; rewrite list_lookup_fmap.
    - by rewrite Hi.
    - rewrite Hj. cbn. congruence. }
  destruct (List.find _ entries) as [x|] eqn:Hx, (List.find _ entries') as [y|] eqn:Hy.
  - f_equal. symmetry. apply (Hone entries x Hnd Hx).
    + apply find_some in Hy as [Hin _]. apply list_elem_of_In in Hin. by rewrite Hperm.
    + apply find_some in Hy as [_ Hfy]. by apply String.eqb_eq.
  - destruct (find_is_Some_perm _ _ _ Hperm (mk_is_Some _ _ Hx)) as [? ?]. congruence.
  - symmetry in Hperm.
    destruct (find_is_Some_perm _ _ _ Hperm (mk_is_Some _ _ Hy)) as [? ?]. congruence.
  - done.
Qed.

Lemma find_ext {A} (f g : A -> bool) (l : list A) :
  (forall x, f x = g x) -> List.find f l = List.find g l.
Proof.
  intros Hfg. induction l as [|x l IH]; cbn [List.find]; [done|].
  by rewrite Hfg, IH.
Qed.

End classification_facts.

(** X25: the two tests of a directory do not depend on the order in
    which [os.listdir] hands out the entries.  For two listings of the
    same entries [is_python_project] gives the same answer; it announces
    the first source file of the listing it was given, and no other file.
    When no two entries have the same name, [is_project_root] gives the
    same answer and announces the same file: the one under the first
    matching name in the order of [project_root_files]. *)
Theorem classification_ignores_listing_order
    (self : FinderModel.settings) (directory_path nm : string) (st : stat_result)
    (entries entries' : list node) (s : M.state) :
  entries ≡ₚ entries' ->
  NoDup (node_name <$> entries) ->
  let python d := FinderModel.is_python_project self directory_path d s in
  let root d := FinderModel.is_project_root self directory_path d s in
  (python (Dir nm st None entries)).1 = (python (Dir nm st None entries')).1 /\
  root (Dir nm st None entries) = root (Dir nm st None entries') /\
  python (Dir nm st None entries)
  = match List.find (source_file self) entries with
    | Some f =>
        (M.Return true,
         after s [file_scanning (os_path.join directory_path (node_name f))])
    | None => (M.Return false, s)
    end /\
  root (Dir nm st None entries)
  = match List.find (marker_file self entries)
            (FinderModel.project_root_files self) with
    | Some root_file =>
        (M.Return true,
         after s [file_scanning (os_path.join directory_path root_file)])
    | None => (M.Return false, s)
    end.
Proof.
  intros Hperm Hnd. cbn zeta.
  assert (Hpy : forall l,
            FinderModel.is_python_project self directory_path (Dir nm st None l) s
            = match List.find (source_file self) l with
              | Some f =>
                  (M.Return true,
                   after s [file_scanning (os_path.join directory_path
                                             (node_name f))])
              | None => (M.Return false, s)
              end).
  { intros l. unfold FinderModel.is_python_project, M.try_except.
    cbn [listdir M.lift]. rewrite bind_ret_l, ipp_loop_first.
    by destruct (List.find _ _). }
  assert (Hroot : forall l,
            FinderModel.is_project_root self directory_path (Dir nm st None l) s
            = match List.find (marker_file self l)
                      (FinderModel.project_root_files self) with
              | Some root_file =>
                  (M.Return true,
                   after s [file_scanning (os_path.join directory_path root_file)])
              | None => (M.Return false, s)
              end).
  { intros l. unfold FinderModel.is_project_root, M.try_except.
    cbn [listdir M.lift]. rewrite bind_ret_l, ipr_loop_first.
    by destruct (List.find _ _). }
  split_and!; [|rewrite !Hroot|apply Hpy|apply Hroot].
  - rewrite !Hpy.
    destruct (List.find (source_file self) entries) as [f|] eqn:Hf,
             (List.find (source_file self) entries') as [f'|] eqn:Hf'; try done.
    + destruct (find_is_Some_perm _ _ _ Hperm (mk_is_Some _ _ Hf)) as [? ?].
      congruence.
    + symmetry in Hperm.
      destruct (find_is_Some_perm _ _ _ Hperm (mk_is_Some _ _ Hf')) as [? ?].
      congruence.
  - rewrite (find_ext (marker_file self entries) (marker_file self entries')); [done|].
    intros rf. unfold marker_file. by rewrite (lookup_entry_perm entries entries').
Qed.

Lemma classification_ignores_listing_order_witness :
  let entries := [Examples.a_file "setup.py"; Examples.a_file "README.md"] in
  let entries' := [Examples.a_file "README.md"; Examples.a_file "setup.py"] in
  let s := M.mkState [] [] 0 in
  let python d := FinderModel.is_python_project FinderModel.default_settings "/R" d s in
  let root d := FinderModel.is_project_root FinderModel.default_settings "/R" d s in
  (python (Examples.a_dir "R" entries)).1 = (python (Examples.a_dir "R" entries')).1 /\
  root (Examples.a_dir "R" entries) = root (Examples.a_dir "R" entries') /\
  python (Examples.a_dir "R" entries)
  = match List.find (source_file FinderModel.default_settings) entries with
    | Some f =>
        (M.Return true, after s [file_scanning (os_path.join "/R" (node_name f))])
    | None => (M.Return false, s)
    end /\
  root (Examples.a_dir "R" entries)
  = match List.find (marker_file FinderModel.default_settings entries)
            (FinderModel.project_root_files FinderModel.default_settings) with
    | Some root_file =>
        (M.Return true, after s [file_scanning (os_path.join "/R" root_file)])
    | None => (M.Return false, s)
    end.
Proof.
  apply (classification_ignores_listing_order FinderModel.default_settings "/R" "R"
           (mkStat 4096 7)
           [Examples.a_file "setup.py"; Examples.a_file "README.md"]
           [Examples.a_file "README.md"; Examples.a_file "setup.py"]
           (M.mkState [] [] 0)).
  - apply perm_swap.
  - apply (bool_decide_unpack _). vm_compute. exact I.
Defined.

(** ** The paths of the projects a search finds *)

Section distinct_paths.
Import FinderModel.
Variable self : settings.
Variable worker : option (nat -> bool).
Variable fromtimestamp : Q -> exn + datetime.
Variable print : string -> exn + unit.

Lemma well_named_entries nm st err entries child :
  well_named (Dir nm st err entries) -> child ∈ entries -> well_named child.
Proof.
  cbn [well_named]. intros (_ & _ & Hgo) Hin.
  induction entries as [|x entries IH]; [by apply elem_of_nil in Hin|].
  destruct Hgo as [Hx Hgo].
  apply elem_of_cons in Hin as [->|Hin]; [done|by apply IH].
Qed.

Lemma apart_nil : apart [].
Proof. intros i j q1 q2 Hi. by rewrite lookup_nil in Hi. Qed.

Lemma apart_singleton q : apart [q].
Proof.
  intros i j q1 q2 Hi Hj Hij. apply list_lookup_singleton_Some in Hi as [-> _].
  apply list_lookup_singleton_Some in Hj as [-> _]. done.
Qed.

Lemma apart_app l1 l2 :
  apart l1 -> apart l2 ->
  (forall q1 q2, q1 ∈ l1 -> q2 ∈ l2 -> ~ zone q1 q2 /\ ~ zone q2 q1) ->
  apart (l1 ++ l2).
Proof.
  intros H1 H2 H12 i j q1 q2 Hi Hj Hij.
  apply lookup_app_Some in Hi as [Hi|[Hi1 Hi]];
    apply lookup_app_Some in Hj as [Hj|[Hj1 Hj]].
  - by apply (H1 i j).
  - apply (H12 q1 q2); by eapply list_elem_of_lookup_2.
  - apply (H12 q2 q1); by eapply list_elem_of_lookup_2.
  - apply (H2 (i - length l1)%nat (j - length l1)%nat); [done|done|lia].
Qed.

Lemma apart_NoDup l : apart l -> NoDup l.
Proof.
  intros Hl. apply NoDup_alt. intros i j q Hi Hj.
  destruct (decide (i = j)) as [|Hne]; [done|]. exfalso.
  apply (Hl i j q q Hi Hj Hne). by left.
Qed.

Lemma grows_same Z s s' : same_projects s s' -> grows Z s s'.
Proof.
  intros Hs. exists []. rewrite app_nil_r. split; [done|].
  split; [apply apart_nil|constructor].
Qed.

Lemma same_grows Z s s1 s' : same_projects s s1 -> grows Z s1 s' -> grows Z s s'.
Proof.
  unfold same_projects. intros Hs (added & Hp & Hnd & HZ). exists added.
  by rewrite Hp, Hs.
Qed.

Lemma grows_mono (Z Z' : string -> Prop) s s' :
  (forall q, Z q -> Z' q) -> grows Z s s' -> grows Z' s s'.
Proof.
  intros HZ (added & Hp & Hnd & Hall). exists added. split_and!; try done.
  eapply Forall_impl; [done|]. intros p. apply HZ.
Qed.

Lemma grows_seq (Z1 Z2 : string -> Prop) s s1 s2 :
  (forall q1 q2, Z1 q1 -> Z2 q2 -> ~ zone q1 q2 /\ ~ zone q2 q1) ->
  grows Z1 s s1 -> grows Z2 s1 s2 -> grows (fun q => Z1 q \/ Z2 q) s s2.
Proof.
  intros Hdis (a1 & Hp1 & Hnd1 & H1) (a2 & Hp2 & Hnd2 & H2).
  exists (a1 ++ a2). rewrite Hp2, Hp1, <- app_assoc. split; [done|]. split.
  - rewrite fmap_app. apply apart_app; [done|done|].
    intros q1 q2 (p1 & -> & Hin1)%list_elem_of_fmap (p2 & -> & Hin2)%list_elem_of_fmap.
    apply Hdis.
    + by eapply Forall_forall in H1.
    + by eapply Forall_forall in H2.
  - apply Forall_app. split; (eapply Forall_impl; [done|]); intros p Hp; [by left|by right].
Qed.

Lemma grows_bind_same {A B} Z (m : M.t A) (k : A -> M.t B) :
  respects same_projects m -> (forall a, respects (grows Z) (k a)) ->
  respects (grows Z) (M.bind m k).
Proof.
  intros Hm Hk s. unfold M.bind. specialize (Hm s).
  destruct (m s) as [[a|e] s1]; cbn [snd] in *.
  - eapply same_grows; [done|]. apply Hk.
  - by apply grows_same.
Qed.

Lemma grows_ret {A} Z (a : A) : respects (grows Z) (M.ret a).
Proof. intros s. by apply grows_same. Qed.

Lemma grows_try_lift {A} Z (m : M.t A) handles (h : exn -> exn + A) :
  respects (grows Z) m ->
  respects (grows Z) (M.try_except m handles (fun e => M.lift (h e))).
Proof.
  intros Hm s. unfold M.try_except, M.lift. specialize (Hm s).
  destruct (m s) as [[x|e] s1]; [done|].
  destruct (handles e); [|done]. by destruct (h e).
Qed.

Lemma string_app_inv_head (a x y : string) : a +:+ x = a +:+ y -> x = y.
Proof.
  induction a as [|c a IH]; [done|]. rewrite !string_app_cons. intros [= Heq]. by apply IH.
Qed.

Lemma no_sep_cons c s : no_sep (String c s) <-> c <> "/"%char /\ no_sep s.
Proof. unfold no_sep. cbn [list_ascii_of_string]. by rewrite Forall_cons. Qed.

Lemma first_component_unique (a b r1 r2 : string) :
  no_sep a -> no_sep b -> a +:+ String "/" r1 = b +:+ String "/" r2 -> a = b.
Proof.
  revert b. induction a as [|c a IH]; intros [|c' b] Ha Hb;
    rewrite ?string_app_nil_l, ?string_app_cons.
  - done.
  - intros [= <- _]. apply no_sep_cons in Hb as [Hc _]. done.
  - intros [= -> _]. apply no_sep_cons in Ha as [Hc _]. done.
  - intros [= <- Heq]. apply no_sep_cons in Ha as [_ Ha].
    apply no_sep_cons in Hb as [_ Hb]. f_equal. by apply IH.
Qed.

Lemma no_sep_not_component (a b r : string) :
  no_sep a -> a <> b +:+ String "/" r.
Proof.
  revert a. induction b as [|c b IH]; intros a Ha;
    rewrite ?string_app_nil_l, ?string_app_cons.
  - intros ->. apply no_sep_cons in Ha as [Hc _]. done.
  - destruct a as [|c' a]; [done|]. intros [= -> Heq].
    apply no_sep_cons in Ha as [_ Ha]. by eapply IH.
Qed.

Lemma with_sep_name nm : nm <> "" -> no_sep nm -> with_sep nm = nm +:+ "/".
Proof.
  intros Hne Hnm. unfold with_sep, os_path.join.
  destruct (String.eqb_spec nm "") as [?|_]; [done|]. cbn [orb].
  destruct (Py.endswith nm os_path.sep) eqn:He.
  - apply endswith_sep_inv in He as [x ->]. exfalso.
    by apply (no_sep_not_component (x +:+ "/") x "" Hnm).
  - by rewrite string_app_nil_r.
Qed.

(** The paths at or below a child: the parent's path with a separator,
    then the name of the child, then nothing or a separator and more. *)
Lemma zone_child p nm q :
  nm <> "" -> no_sep nm ->
  zone (os_path.join p nm) q ->
  q = with_sep p +:+ nm \/ exists rest, q = with_sep p +:+ (nm +:+ String "/" rest).
Proof.
  intros Hne Hnm [->|[rest ->]].
  - left. apply join_with_sep.
  - right. exists rest. rewrite with_sep_join, (with_sep_name nm) by done.
    rewrite !string_app_assoc. done.
Qed.

Lemma zone_child_parent p nm q :
  nm <> "" -> no_sep nm -> zone (os_path.join p nm) q -> zone p q.
Proof.
  intros Hne Hnm Hz. apply zone_child in Hz; [|done..].
  destruct Hz as [->|[rest ->]]; right; by eexists.
Qed.

Lemma zones_apart p nm1 nm2 q :
  nm1 <> "" -> no_sep nm1 -> nm2 <> "" -> no_sep nm2 -> nm1 <> nm2 ->
  zone (os_path.join p nm1) q -> zone (os_path.join p nm2) q -> False.
Proof.
  intros Hne1 Hnm1 Hne2 Hnm2 Hneq H1%zone_child H2%zone_child; try done.
  destruct H1 as [->|[r1 ->]], H2 as [H2|[r2 H2]];
    apply string_app_inv_head in H2.
  - done.
  - by apply no_sep_not_component in H2.
  - symmetry in H2. by apply no_sep_not_component in H2.
  - by apply first_component_unique in H2.
Qed.

Lemma with_sep_app a r : exists r', with_sep (a +:+ r) = a +:+ r'.
Proof.
  unfold with_sep, os_path.join. destruct (_ || _).
  - exists r. by rewrite string_app_nil_r.
  - exists (r +:+ "/"). by rewrite string_app_nil_r, string_app_assoc.
Qed.

Lemma zone_trans a b c : zone a b -> zone b c -> zone a c.
Proof.
  intros [->|[r1 ->]] Hbc; [done|]. destruct Hbc as [->|[r2 ->]].
  - right. by eexists.
  - destruct (with_sep_app (with_sep a) r1) as [r' ->].
    right. exists (r' +:+ r2). by rewrite string_app_assoc.
Qed.

Lemma zones_far p nm1 nm2 q1 q2 :
  nm1 <> "" -> no_sep nm1 -> nm2 <> "" -> no_sep nm2 -> nm1 <> nm2 ->
  zone (os_path.join p nm1) q1 -> zone (os_path.join p nm2) q2 ->
  ~ zone q1 q2 /\ ~ zone q2 q1.
Proof.
  intros Hne1 Hnm1 Hne2 Hnm2 Hneq H1 H2. split; intros Hz.
  - apply (zones_apart p nm1 nm2 q2); try done. by eapply zone_trans.
  - apply (zones_apart p nm1 nm2 q1); try done. by eapply zone_trans.
Qed.

Lemma add_project_grows p nm st err entries :
  respects (grows (zone p)) (add_project fromtimestamp print p (Dir nm st err entries)).
Proof.
  intros s. destruct (add_project_effect fromtimestamp print
      p nm st err entries s) as [[Hs|(q & Hq & Hp)] _].
  - by apply grows_same.
  - exists [q]. split; [done|]. split; [apply apart_singleton|].
    apply Forall_singleton. by left.
Qed.

Lemma file_visit_same_projects nm st content path ird php ppr :
  respects same_projects
    (find_projects_recursive self worker fromtimestamp print
        (File nm st content) path ird php ppr).
Proof.
  cbn [find_projects_recursive].
  apply respects_bind; [apply _|apply stop_requested_same_projects|].
  intros stop. destruct stop; [apply respects_ret; apply _|].
  apply respects_bind; [apply _|apply emit_same_projects|]. intros _.
  case_bool_decide; [apply respects_ret; apply _|].
  apply (respects_bind_post _ _ _ (fun flags => flags = Some (false, false))).
  - apply flags_respects; [apply _|]. intros q. apply emit_same_projects.
  - intros s a. cbn. by intros [= <-].
  - intros ? ->. cbn [orb andb negb]. rewrite andb_false_r. cbn [andb].
    apply respects_try_except; [apply _|apply respects_ret; apply _|].
    intros; apply respects_lift; apply _.
Qed.

Lemma find_projects_recursive_grows d :
  forall path ird php ppr,
    well_named d ->
    respects (grows (zone path))
      (find_projects_recursive self worker fromtimestamp print d path ird php ppr).
Proof.
  induction d as [nm st content|nm st err entries IH] using node_ind;
    intros path ird php ppr Hwn.
  { intros s. apply grows_same. apply file_visit_same_projects. }
  cbn [find_projects_recursive].
  apply grows_bind_same; [apply stop_requested_same_projects|].
  intros stop. destruct stop; [apply grows_ret|].
  apply grows_bind_same; [apply emit_same_projects|]. intros _.
  case_bool_decide as Hlen; [apply grows_ret|].
  apply grows_bind_same.
  { apply flags_respects; [apply _|]. intros q. apply emit_same_projects. }
  intros [[ip ipr]|]; [|apply grows_ret].
  destruct (negb ird && (ip || ipr) && negb (php || ppr)).
  { apply add_project_grows. }
  apply (grows_try_lift _ _ _ (fun e => print _)).
  destruct err as [e|]; [intros s; by apply grows_same|].
  assert (Hnames : Forall (fun child => node_name child <> "" /\ no_sep (node_name child))
                     entries) by apply Hwn.
  assert (Hnd : NoDup (node_name <$> entries)) by apply Hwn.
  assert (Hsub : Forall well_named entries).
  { apply Forall_forall. intros child Hin. by eapply well_named_entries. }
  clear Hwn.
  enough (Hloop : respects (grows (child_zones path entries))
            ((fix children (items : list node) : M.t unit :=
                match items with
                | [] => M.ret tt
                | item :: items' =>
                    M.bind (M.stop_requested worker) (fun stop =>
                    if stop then M.ret tt else
                    match item with
                    | File _ _ _ => children items'
                    | Dir nm _ _ _ =>
                        if bool_decide (nm ∈ ignore_dirs self)
                        then children items'
                        else
                          M.bind
                            (find_projects_recursive self worker fromtimestamp print
                               item (os_path.join path nm) false
                               (php || ip) (ppr || ipr))
                            (fun _ => children items')
                    end)
                end) entries)).
  { intros s. eapply grows_mono; [|apply Hloop].
    intros q (child & Hin & Hq). eapply Forall_forall in Hnames as [Hne Hns]; [|done].
    by eapply zone_child_parent. }
  induction entries as [|item entries IHe]; [apply grows_ret|].
  apply Forall_cons in IH as [Hitem IH].
  apply Forall_cons in Hnames as [[Hne Hns] Hnames].
  apply Forall_cons in Hsub as [Hwn Hsub].
  rewrite fmap_cons in Hnd. apply NoDup_cons in Hnd as [Hfresh Hnd].
  assert (Hrest : respects (grows (child_zones path (item :: entries)))
            ((fix children (items : list node) : M.t unit :=
                match items with
                | [] => M.ret tt
                | item :: items' =>
                    M.bind (M.stop_requested worker) (fun stop =>
                    if stop then M.ret tt else
                    match item with
                    | File _ _ _ => children items'
                    | Dir nm _ _ _ =>
                        if bool_decide (nm ∈ ignore_dirs self)
                        then children items'
                        else
                          M.bind
                            (find_projects_recursive self worker fromtimestamp print
                               item (os_path.join path nm) false
                               (php || ip) (ppr || ipr))
                            (fun _ => children items')
                    end)
                end) entries)).
  { intros s. eapply grows_mono; [|by apply IHe].
    intros q (child & Hin & Hq). exists child. split; [by right|done]. }
  apply grows_bind_same; [apply stop_requested_same_projects|].
  intros stop. destruct stop; [apply grows_ret|].
  destruct item as [fnm fst fcontent|dnm dst derr dentries]; [exact Hrest|].
  case_bool_decide as Hign; [exact Hrest|].
  intros s. unfold M.bind at 1.
  pose proof (Hitem (os_path.join path dnm) false (php || ip) (ppr || ipr) Hwn s) as H1.
  destruct (find_projects_recursive self worker fromtimestamp print
    (Dir dnm dst derr dentries) _ _ _ _ s) as [[[]|e] s1]; cbn [snd] in H1 |- *.
  - eapply grows_mono; [|eapply (grows_seq _ _ s s1); [|exact H1|by apply IHe]].
    + intros q [Hq|(child & Hin & Hq)].
      * exists (Dir dnm dst derr dentries). split; [by left|done].
      * exists child. split; [by right|done].
    + intros q1 q2 Hq (child & Hin & Hq'). cbn [node_name] in *.
      eapply Forall_forall in Hnames as [Hne' Hns']; [|done].
      eapply (zones_far path dnm (node_name child) q1 q2); try done.
      intros ->. apply Hfresh. by apply list_elem_of_fmap_2.
  - eapply grows_mono; [|exact H1].
    intros q Hq. exists (Dir dnm dst derr dentries). split; [by left|done].
Qed.

End distinct_paths.

(** The projects a search leaves lie apart, when the names in the tree
    are as a file system has them. *)
Lemma scan_projects_apart
    (self : FinderModel.settings) (worker : option (nat -> bool))
    (fromtimestamp : Q -> exn + datetime) (print : string -> exn + unit)
    (abspath : string -> string) (root_path : string) (root : node)
    (s : M.state) :
  well_named root ->
  apart (path <$> M.projects
           (FinderModel.find_python_projects self worker fromtimestamp print
              abspath root_path (Some root) s).2).
Proof.
  intros Hwn. destruct root as [nm st content|nm st err entries].
  - destruct (find_python_projects_no_directory self worker fromtimestamp print
                abspath root_path
                (Some (File nm st content)) s I) as [msg ->]. apply apart_nil.
  - rewrite find_python_projects_run.
    pose proof (find_projects_recursive_grows self worker fromtimestamp print
                  (Dir nm st err entries)
                  (searched_root abspath root_path) true false false Hwn
                  (M.mkState [] (M.emitted s ++ [search_started]) (M.polls s)))
      as (added & Hp & Hadded & _).
    destruct (FinderModel.find_projects_recursive _ _ _ _ _ _ _ _ _ _) as [[[]|e] s2];
      cbn [snd M.projects app] in *; by rewrite Hp.
Qed.

(** X26: a search finds no directory twice.  When the names in the
    tree are as a file system has them (not empty, without a separator,
    different within one directory), the projects [find_python_projects]
    returns have pairwise different paths; so [group_duplicates] on the
    result of a search never forms a group of one, and every member of a
    group has a partner in the group's own table. *)
Theorem scan_finds_no_directory_twice
    (self : FinderModel.settings) (worker : option (nat -> bool))
    (fromtimestamp : Q -> exn + datetime) (print : string -> exn + unit)
    (abspath : string -> string) (root_path : string) (root : node)
    (s : M.state) :
  well_named root ->
  let run := FinderModel.find_python_projects self worker fromtimestamp print
               abspath root_path (Some root) s in
  NoDup (path <$> M.projects run.2) /\
  forall sim thr,
    Forall has_two (FinderModel.group_duplicates_with sim thr (M.projects run.2)) /\
    Forall (linked thr) (FinderModel.group_duplicates_with sim thr (M.projects run.2)).
Proof.
  intros Hwn. cbn zeta.
  pose proof (apart_NoDup _ (scan_projects_apart self worker fromtimestamp print
    abspath root_path root s Hwn)) as Hnd.
  split; [done|]. intros sim thr. split.
  - by apply groups_have_two.
  - by apply groups_linked.
Qed.

Lemma scan_finds_no_directory_twice_witness :
  let run := FinderModel.find_python_projects FinderModel.default_settings None
               Examples.fromtimestamp Examples.print id
               "/R" (Some Examples.two_projects_tree) (M.mkState [] [] 0) in
  NoDup (path <$> M.projects run.2) /\
  forall sim thr,
    Forall has_two (FinderModel.group_duplicates_with sim thr (M.projects run.2)) /\
    Forall (linked thr) (FinderModel.group_duplicates_with sim thr (M.projects run.2)).
Proof.
  apply (scan_finds_no_directory_twice FinderModel.default_settings None
           Examples.fromtimestamp Examples.print id "/R"
           Examples.two_projects_tree (M.mkState [] [] 0)).
  cbn. unfold no_sep. cbn.
  repeat first [ split | apply Forall_nil_2 | apply Forall_cons_2 | discriminate
               | apply NoDup_nil_2 | apply NoDup_cons_2 | exact I
               | (rewrite !elem_of_cons, elem_of_nil; intros [?|[]]; discriminate)
               | (apply not_elem_of_nil) ].
Defined.

(** X27: no project of a search lies inside another.  Under the same
    condition on the names, no path among the projects
    [find_python_projects] returns is a path below another of them: a
    directory that became a project is not searched further, so the
    first directory on a path that qualifies is the project. *)
Theorem found_projects_are_not_nested
    (self : FinderModel.settings) (worker : option (nat -> bool))
    (fromtimestamp : Q -> exn + datetime) (print : string -> exn + unit)
    (abspath : string -> string) (root_path : string) (root : node)
    (s : M.state) (p q : ProjectModel) (i j : nat) :
  well_named root ->
  let run := FinderModel.find_python_projects self worker fromtimestamp print
               abspath root_path (Some root) s in
  M.projects run.2 !! i = Some p -> M.projects run.2 !! j = Some q -> i <> j ->
  path q <> path p /\
  forall rest, path q <> os_path.join (path p) "" +:+ rest.
Proof.
  intros Hwn. cbn zeta. intros Hi Hj Hij.
  pose proof (scan_projects_apart self worker fromtimestamp print
                abspath root_path root s Hwn i j (path p) (path q)) as Hapart.
  rewrite !list_lookup_fmap, Hi, Hj in Hapart. specialize (Hapart eq_refl eq_refl Hij).
  split.
  - intros Heq. apply Hapart. by left.
  - intros rest Heq. apply Hapart. right. by exists rest.
Qed.

Lemma found_projects_are_not_nested_witness :
  let run := FinderModel.find_python_projects FinderModel.default_settings None
               Examples.fromtimestamp Examples.print id
               "/R" (Some Examples.two_projects_tree) (M.mkState [] [] 0) in
  exists p q,
    M.projects run.2 !! 0%nat = Some p /\ M.projects run.2 !! 1%nat = Some q /\
    path p = "/R/a" /\ path q = "/R/b" /\
    path q <> path p /\
    forall rest, path q <> os_path.join (path p) "" +:+ rest.
Proof.
  cbn zeta. eexists _, _.
  split; [vm_compute; reflexivity|]. split; [vm_compute; reflexivity|].
  split; [reflexivity|]. split; [reflexivity|].
  apply (found_projects_are_not_nested FinderModel.default_settings None
           Examples.fromtimestamp Examples.print id "/R"
           Examples.two_projects_tree (M.mkState [] [] 0) _ _ 0 1).
  - cbn. unfold no_sep. cbn.
    repeat first [ split | apply Forall_nil_2 | apply Forall_cons_2 | discriminate
                 | apply NoDup_nil_2 | apply NoDup_cons_2 | exact I
                 | (rewrite !elem_of_cons, elem_of_nil; intros [?|[]]; discriminate)
                 | (apply not_elem_of_nil) ].
  - vm_compute. reflexivity.
  - vm_compute. reflexivity.
  - lia.
Defined.

(** ** What of a file enters the folder hash *)

Section walk_facts.
Import ProjectModel_.
Variable sha256 : list byte -> list byte.

(** The walk of [calculate_folder_hash] over a directory that can be
    listed: its files, then what the walks of its sub-directories give,
    in the order of the listing. *)
Lemma collect_files_unfold exts nm st entries root :
  collect_files exts (Dir nm st None entries) root
  = match gather ((fun item => collect_files exts item
                                 (os_path.join root (node_name item)))
                  <$> filter (fun n => isdir n) entries) with
    | inl e => inl e
    | inr below =>
        inr (((fun f => (os_path.join root (node_name f), f)) <$>
              filter (fun n => negb (isdir n)
                               && negb (hash_ignored exts (node_name n))) entries)
             ++ below)
    end.
Proof.
  cbn [collect_files].
  match goal with
  | |- match ?X with _ => _ end = match ?Y with _ => _ end =>
      enough (X = Y) as -> by done
  end.
  induction entries as [|item entries IH]; [done|].
  rewrite filter_cons.
  destruct item as [fnm fst fcontent|dnm dst derr dentries]; cbn [isdir].
  - rewrite decide_False by (by intros []). exact IH.
  - rewrite decide_True by done. cbn [fmap list_fmap gather node_name].
    destruct (collect_files exts (Dir dnm dst derr dentries) _) as [e|l]; [done|].
    by rewrite IH.
Qed.

Lemma gather_fmap {A B} (g : A -> B) (rs : list (exn + list A)) :
  gather ((fun r : exn + list A =>
             match r return exn + list B with
             | inl e => inl e
             | inr l => inr (g <$> l)
             end) <$> rs)
  = match gather rs return exn + list B with
    | inl e => inl e
    | inr l => inr (g <$> l)
    end.
Proof.
  induction rs as [|[e|l] rs IH]; cbn [fmap list_fmap gather]; [done|done|].
  rewrite IH. destruct (gather rs); [done|]. by rewrite fmap_app.
Qed.

Lemma sample_entries nm st err entries :
  sample (Dir nm st err entries) = Dir nm st err (sample <$> entries).
Proof.
  reflexivity.
Qed.

Lemma sample_name d : node_name (sample d) = node_name d.
Proof. by destruct d. Qed.

Lemma sample_isdir d : isdir (sample d) = isdir d.
Proof. by destruct d. Qed.

Lemma filter_fmap_sample (P : node -> bool) (l : list node) :
  (forall d, P (sample d) = P d) ->
  filter (fun n => P n) (sample <$> l) = sample <$> filter (fun n => P n) l.
Proof.
  intros HP. induction l as [|x l IH]; [done|].
  rewrite fmap_cons, !filter_cons, HP.
  destruct (decide (P x)); [|done]. by rewrite fmap_cons, IH.
Qed.

Lemma collect_files_sample exts d :
  forall root,
    collect_files exts (sample d) root
    = match collect_files exts d root with
      | inl e => inl e
      | inr l => inr (sample_entry <$> l)
      end.
Proof.
  induction d as [nm st content|nm st err entries IH] using node_ind; intros root.
  { done. }
  rewrite sample_entries. destruct err as [e|].
  { cbn [collect_files]. by destruct (is_OSError e). }
  rewrite !collect_files_unfold.
  rewrite (filter_fmap_sample isdir) by apply sample_isdir.
  rewrite (filter_fmap_sample
             (fun n => negb (isdir n) && negb (hash_ignored exts (node_name n))))
    by (intros d; by rewrite sample_isdir, sample_name).
  rewrite <- !list_fmap_compose.
  assert (Hrs : (fun item => collect_files exts item (os_path.join root (node_name item)))
                ∘ sample <$> filter (fun n => isdir n) entries
                = (fun r => match r with
                            | inl e => inl e
                            | inr l => inr (sample_entry <$> l)
                            end)
                  <$> ((fun item => collect_files exts item
                                      (os_path.join root (node_name item)))
                       <$> filter (fun n => isdir n) entries)).
  { rewrite <- list_fmap_compose. apply list_fmap_ext. intros i item Hi. cbn.
    apply list_elem_of_lookup_2, list_elem_of_filter in Hi as [_ Hin].
    rewrite sample_name. by eapply Forall_forall in IH. }
  rewrite Hrs, gather_fmap.
  destruct (gather _) as [e|below]; [done|].
  rewrite fmap_app, <- list_fmap_compose. f_equal. f_equal.
  apply list_fmap_ext. intros i f _. cbn. by rewrite sample_name.
Qed.

Lemma take_drop_sample {A} (n : nat) (data : list A) :
  (n <= length data)%nat ->
  let s := take n data ++ drop (length data - n) data in
  take n s = take n data /\ drop (length s - n) s = drop (length data - n) data /\
  (n <= length s)%nat.
Proof.
  intros Hn s. subst s.
  assert (Hlen : length (take n data) = n) by (rewrite length_take; lia).
  split_and!.
  - rewrite take_app_le by lia. rewrite take_take. f_equal. lia.
  - rewrite length_app, Hlen, length_drop.
    replace (n + (length data - (length data - n)) - n)%nat
      with (length (take n data)) by lia.
    by rewrite drop_app_length.
  - rewrite length_app, Hlen. lia.
Qed.

Lemma hash_one_sample self_path folder_hasher x :
  hash_one sha256 self_path folder_hasher (sample_entry x)
  = hash_one sha256 self_path folder_hasher x.
Proof.
  destruct x as [p [nm st content|nm st err entries]]; unfold sample_entry; cbn [fst snd].
  2:{ rewrite sample_entries. done. }
  cbn [sample]. unfold hash_one. cbv zeta. cbn [stat_of].
  destruct st as [e|stats]; [done|]. cbn [sample_content].
  destruct content as [e|data]; [done|].
  case_bool_decide as Hsmall; [done|].
  case_bool_decide as Hshort.
  - rewrite bool_decide_eq_true_2; [done|]. unfold Py.len, MiB in *. cbn. lia.
  - assert (Hn : (Z.to_nat MiB <= length data)%nat) by (unfold Py.len in Hshort; lia).
    destruct (take_drop_sample (Z.to_nat MiB) data Hn) as (Ht & Hd & Hl).
    cbv zeta in Ht, Hd, Hl.
    rewrite bool_decide_eq_false_2 by (unfold Py.len; lia).
    by rewrite Ht, Hd.
Qed.

Lemma hash_all_sample self_path l :
  forall folder_hasher,
    hash_all sha256 self_path folder_hasher (sample_entry <$> l)
    = hash_all sha256 self_path folder_hasher l.
Proof.
  induction l as [|x l IH]; intros folder_hasher; [done|].
  cbn [fmap list_fmap hash_all]. rewrite hash_one_sample.
  destruct (hash_one sha256 self_path folder_hasher x); [done|]. apply IH.
Qed.

Lemma folder_hasher_input_sample self d :
  folder_hasher_input sha256 self (sample d) = folder_hasher_input sha256 self d.
Proof.
  unfold folder_hasher_input. rewrite collect_files_sample.
  destruct (collect_files _ d _) as [e|l]; [done|].
  rewrite (sorted_fmap sample_entry by_path by_path) by done.
  apply hash_all_sample.
Qed.

End walk_facts.

(** X28: of a file recorded as 10 MiB or larger only the first and
    the last MiB enter the folder hash.  Two directories that differ
    only in what lies between the first and the last MiB of such files
    get the same result from [calculate_folder_hash]: the same digest,
    stored in the same way, or the same error. *)
Theorem large_files_are_hashed_by_their_ends
    (sha256 : list byte -> list byte) (self : ProjectModel)
    (nm : string) (st : stat_result) (err : option exn)
    (entries1 entries2 : list node) :
  sample <$> entries1 = sample <$> entries2 ->
  ProjectModel_.calculate_folder_hash sha256 self (Some (Dir nm st err entries1))
  = ProjectModel_.calculate_folder_hash sha256 self (Some (Dir nm st err entries2)).
Proof.
  intros Heq. unfold ProjectModel_.calculate_folder_hash.
  rewrite <- (folder_hasher_input_sample sha256 self (Dir nm st err entries1)).
  rewrite <- (folder_hasher_input_sample sha256 self (Dir nm st err entries2)).
  by rewrite !sample_entries, Heq.
Qed.

Lemma large_files_are_hashed_by_their_ends_witness :
  ProjectModel_.calculate_folder_hash (fun _ => []) Examples.album_project
    (Some (Dir "proj" (mkStat 4096 7) None
             [File "disk.img" (inr (mkStat (11 * 1024 * 1024) 5)) (inr [x61; x62])]))
  = ProjectModel_.calculate_folder_hash (fun _ => []) Examples.album_project
      (Some (Dir "proj" (mkStat 4096 7) None
               [File "disk.img" (inr (mkStat (11 * 1024 * 1024) 5)) (inr [x63])])).
Proof.
  apply (large_files_are_hashed_by_their_ends (fun _ => []) Examples.album_project
           "proj" (mkStat 4096 7) None
           [File "disk.img" (inr (mkStat (11 * 1024 * 1024) 5)) (inr [x61; x62])]
           [File "disk.img" (inr (mkStat (11 * 1024 * 1024) 5)) (inr [x63])]).
  reflexivity.
Defined.

(** ** The folder hash and the order of the listings *)

Section listing_order.
Import ProjectModel_.
Variable sha256 : list byte -> list byte.

Lemma leb_trans (a b c : string) :
  String.leb a b = true -> String.leb b c = true -> String.leb a c = true.
Proof.
  unfold String.leb.
  enough (Hcmp : forall a b c, String.compare a b <> Gt -> String.compare b c <> Gt ->
                               String.compare a c <> Gt).
  { intros Hab Hbc. specialize (Hcmp a b c).
    destruct (String.compare a b), (String.compare b c), (String.compare a c);
      try done; exfalso; by apply Hcmp. }
  clear a b c. induction a as [|x a IH]; intros [|y b] [|z c]; cbn [String.compare];
    try done.
  unfold Ascii.compare.
  destruct (N.compare_spec (N_of_ascii x) (N_of_ascii y)) as [Hxy|Hxy|Hxy];
    destruct (N.compare_spec (N_of_ascii y) (N_of_ascii z)) as [Hyz|Hyz|Hyz];
    destruct (N.compare_spec (N_of_ascii x) (N_of_ascii z)) as [Hxz|Hxz|Hxz];
    try done; try lia.
  apply IH.
Qed.

Lemma by_path_sorted (l : list (string * node)) :
  Sorted (fun x y => String.leb x.1 y.1 = true) (Py.sorted by_path l).
Proof.
  apply sorted_Sorted.
  - done.
  - intros a b Hab. unfold by_path in Hab.
    destruct (String.leb_total a.1 b.1) as [H|H]; [congruence|done].
Qed.

Lemma sorted_by_path_perm (l l' : list (string * node)) :
  l ≡ₚ l' -> NoDup l.*1 -> Py.sorted by_path l = Py.sorted by_path l'.
Proof.
  intros Hperm Hnd.
  assert (Htrans : Transitive (fun x y : string * node => String.leb x.1 y.1 = true)).
  { intros x y z. apply leb_trans. }
  apply (Sorted_unique_strong (fun x y => String.leb x.1 y.1 = true)).
  - intros x y Hx Hy Hxy Hyx.
    rewrite sorted_Permutation in Hx. rewrite sorted_Permutation, <- Hperm in Hy.
    pose proof (String.leb_antisym _ _ Hxy Hyx) as Heq.
    apply list_elem_of_lookup in Hx as [i Hi]. apply list_elem_of_lookup in Hy as [j Hj].
    assert (i = j) as ->; [|congruence].
    eapply NoDup_lookup; [done| |]; rewrite list_lookup_fmap.
    + by rewrite Hi.
    + rewrite Hj. cbn. congruence.
  - apply by_path_sorted.
  - apply by_path_sorted.
  - by rewrite !sorted_Permutation.
Qed.

Lemma agree_refl r : agree r r.
Proof. destruct r; cbn; reflexivity. Qed.

Lemma agree_trans r1 r2 r3 : agree r1 r2 -> agree r2 r3 -> agree r1 r3.
Proof.
  destruct r1, r2, r3; cbn; try done. intros H12 H23. by rewrite H12.
Qed.

Lemma gather_agree rs rs' :
  Forall2 agree rs rs' -> agree (gather rs) (gather rs').
Proof.
  induction 1 as [|r r' rs rs' Hr _ IH]; cbn [gather]; [apply agree_refl|].
  destruct r as [e|l], r' as [e'|l']; cbn in Hr; try done.
  destruct (gather rs), (gather rs'); cbn in IH |- *; try done.
  by rewrite Hr, IH.
Qed.

Lemma gather_Permutation (rs rs' : list (exn + list (string * node))) :
  rs ≡ₚ rs' -> agree (gather rs) (gather rs').
Proof.
  induction 1 as [|r rs rs' _ IH|r1 r2 rs|rs1 rs2 rs3 _ IH1 _ IH2].
  - apply agree_refl.
  - cbn [gather]. destruct r as [e|l]; [done|].
    destruct (gather rs), (gather rs'); cbn in IH |- *; try done. by rewrite IH.
  - cbn [gather]. destruct r1 as [e1|l1], r2 as [e2|l2]; cbn; try done;
      destruct (gather rs); cbn; try done.
    rewrite !app_assoc. f_equiv. apply Permutation_app_comm.
  - by eapply agree_trans.
Qed.

Lemma reordered_files (P : node -> bool) entries l :
  Forall2 reordered entries l ->
  (forall d, isdir d = true -> P d = false) ->
  filter (fun n => P n) entries = filter (fun n => P n) l.
Proof.
  intros Hre HP. induction Hre as [|x y entries l Hxy _ IH]; [done|].
  rewrite !filter_cons, IH. destruct Hxy as [nm st content|nm st err es l0 es' _ _].
  - done.
  - rewrite !decide_False; [done| |]; rewrite HP by done; by intros [].
Qed.

Lemma reordered_name d d' : reordered d d' -> node_name d' = node_name d.
Proof. by destruct 1. Qed.

Lemma reordered_isdir d d' : reordered d d' -> isdir d' = isdir d.
Proof. by destruct 1. Qed.

Lemma collect_files_reordered exts d :
  forall d' root,
    reordered d d' -> agree (collect_files exts d root) (collect_files exts d' root).
Proof.
  induction d as [nm st content|nm st err entries IH] using node_ind;
    intros d' root Hre; inversion Hre as [|? ? ? ? l entries' Hl Hperm]; subst.
  { apply agree_refl. }
  destruct err as [e|]; [apply agree_refl|].
  rewrite !collect_files_unfold.
  set (P := fun n => negb (isdir n) && negb (hash_ignored exts (node_name n))).
  assert (Hhere : (fun f => (os_path.join root (node_name f), f)) <$>
                    filter (fun n => P n) entries
                  ≡ₚ (fun f => (os_path.join root (node_name f), f)) <$>
                    filter (fun n => P n) entries').
  { rewrite (reordered_files P entries l Hl).
    - by rewrite Hperm.
    - intros d Hd. unfold P. by rewrite Hd. }
  assert (Hbelow : agree
            (gather ((fun item => collect_files exts item
                                    (os_path.join root (node_name item)))
                     <$> filter (fun n => isdir n) entries))
            (gather ((fun item => collect_files exts item
                                    (os_path.join root (node_name item)))
                     <$> filter (fun n => isdir n) entries'))).
  { eapply agree_trans; [|apply gather_Permutation; by rewrite <- Hperm].
    apply gather_agree. clear Hperm Hhere Hre.
    induction Hl as [|x y entries l Hxy _ IHl]; [constructor|].
    apply Forall_cons in IH as [Hx IH]. rewrite !filter_cons.
    rewrite (reordered_isdir x y Hxy).
    destruct (decide (isdir x)); [|by apply IHl].
    rewrite !fmap_cons. constructor; [|by apply IHl].
    rewrite (reordered_name x y Hxy). by apply Hx. }
  destruct (gather _) as [e|below], (gather _) as [e'|below']; cbn in Hbelow |- *;
    try done.
  apply Permutation_app; [exact Hhere|exact Hbelow].
Qed.

Lemma prefix_all_keys front l :
  (prefix_all front l).*1 = (fun q => front +:+ q) <$> l.*1.
Proof. unfold prefix_all. rewrite <- !list_fmap_compose. done. Qed.

Lemma NoDup_prefix front (l : list string) :
  NoDup l -> NoDup ((fun q => front +:+ q) <$> l).
Proof.
  intros Hnd. apply NoDup_fmap_2; [|done]. intros x y. apply string_app_inv_head.
Qed.

Lemma with_sep_empty : with_sep "" = "".
Proof. done. Qed.

(** The relative paths a walk collects differ from one another. *)
Lemma collect_files_NoDup exts d :
  well_named d ->
  forall l, collect_files exts d "" = inr l -> NoDup l.*1.
Proof.
  induction d as [nm st content|nm st err entries IH] using node_ind; intros Hwn l.
  { intros [= <-]. constructor. }
  destruct err as [e|].
  { cbn [collect_files]. destruct (is_OSError e); [|done]. intros [= <-]. constructor. }
  rewrite collect_files_unfold.
  destruct (gather _) as [e|below] eqn:Hg; [done|]. intros [= <-].
  assert (Hnames : Forall (fun child => node_name child <> "" /\ no_sep (node_name child))
                     entries) by apply Hwn.
  assert (Hnd : NoDup (node_name <$> entries)) by apply Hwn.
  assert (Hsub : Forall well_named entries).
  { apply Forall_forall. intros child Hin. by eapply well_named_entries. }
  clear Hwn.
  assert (Hbelow : NoDup below.*1 /\
            Forall (fun q => exists child, child ∈ entries /\ isdir child = true /\
                                           headed (node_name child) q) below.*1).
  { clear -IH Hnames Hnd Hsub Hg. revert below Hg.
    induction entries as [|item entries IHe]; intros below.
    { intros [= <-]. split; constructor. }
    apply Forall_cons in IH as [Hitem IH].
    apply Forall_cons in Hnames as [[Hne Hns] Hnames].
    apply Forall_cons in Hsub as [Hwn Hsub].
    rewrite fmap_cons in Hnd. apply NoDup_cons in Hnd as [Hfresh Hnd].
    rewrite filter_cons. destruct (decide (isdir item)) as [Hdir|Hdir].
    2:{ intros Hg. destruct (IHe IH Hnames Hnd Hsub below Hg) as [H1 H2].
        split; [done|]. eapply Forall_impl; [done|].
        intros q (child & Hin & Hq). exists child. split; [by right|done]. }
    rewrite fmap_cons. cbn [gather].
    rewrite collect_files_prefix.
    destruct (collect_files exts item "") as [e|l0] eqn:Hl0; [done|].
    destruct (gather _) as [e|below'] eqn:Hg'; [done|]. intros [= <-].
    destruct (IHe IH Hnames Hnd Hsub below' eq_refl) as [H1 H2].
    assert (Hhead : Forall (headed (node_name item))
                      (prefix_all (with_sep (os_path.join "" (node_name item))) l0).*1).
    { rewrite prefix_all_keys. apply Forall_fmap, Forall_forall. intros q _. cbn.
      change (os_path.join "" (node_name item)) with (node_name item).
      rewrite with_sep_name by done. rewrite string_app_assoc. by eexists. }
    rewrite fmap_app. split.
    - apply NoDup_app. split_and!.
      + rewrite prefix_all_keys. apply NoDup_prefix. by apply Hitem.
      + intros q Hq Hq'.
        destruct (proj1 (Forall_forall _ _) Hhead q Hq) as [r1 ->].
        destruct (proj1 (Forall_forall _ _) H2 _ Hq') as (child & Hin & _ & [r2 Hr2]).
        apply first_component_unique in Hr2; [|done|].
        * apply Hfresh. rewrite Hr2. by apply list_elem_of_fmap_2.
        * eapply Forall_forall in Hnames; [|done]. apply Hnames.
      + done.
    - apply Forall_app. split.
      + eapply Forall_impl; [done|]. intros q Hq. exists item.
        split; [by left|]. split; [by apply Is_true_true|done].
      + eapply Forall_impl; [done|].
        intros q (child & Hin & Hq). exists child. split; [by right|done]. }
  destruct Hbelow as [Hnd' Hheads]. rewrite fmap_app. apply NoDup_app. split_and!.
  - rewrite <- list_fmap_compose.
    apply (NoDup_fmap_2_strong _ (filter _ entries)).
    + intros x y Hx%list_elem_of_filter Hy%list_elem_of_filter Heq. cbn in Heq.
      rewrite !string_app_nil_l in Heq.
      destruct Hx as [_ Hx], Hy as [_ Hy].
      apply list_elem_of_lookup in Hx as [i Hi]. apply list_elem_of_lookup in Hy as [j Hj].
      assert (i = j) as ->; [|congruence].
      eapply NoDup_lookup; [exact Hnd| |]; rewrite list_lookup_fmap.
      * by rewrite Hi.
      * rewrite Hj. cbn. congruence.
    + apply NoDup_filter. eapply NoDup_fmap_1. exact Hnd.
  - intros q Hq Hq'. rewrite <- list_fmap_compose in Hq.
    apply list_elem_of_fmap in Hq as (f & -> & Hf%list_elem_of_filter). cbn in Hq'.
    destruct Hf as [_ Hf].
    destruct (proj1 (Forall_forall _ _) Hheads _ Hq') as (child & _ & _ & [rel Hrel]).
    change (os_path.join "" (node_name f)) with (node_name f) in Hrel.
    eapply Forall_forall in Hnames as [_ Hns]; [|exact Hf].
    by apply no_sep_not_component in Hrel.
  - done.
Qed.

Lemma folder_hasher_input_reordered self d d' :
  well_named d -> reordered d d' ->
  match folder_hasher_input sha256 self d, folder_hasher_input sha256 self d' with
  | inr fed, inr fed' => fed = fed'
  | inl e, inl e' => True
  | _, _ => False
  end.
Proof.
  intros Hwn Hre. unfold folder_hasher_input.
  pose proof (collect_files_reordered (ignored_file_extensions self) d d' (path self) Hre)
    as Hagree.
  pose proof (collect_files_NoDup (ignored_file_extensions self) d Hwn) as Hnd.
  rewrite (collect_files_prefix _ d (path self)) in Hagree |- *.
  destruct (collect_files _ d "") as [e|l0].
  { by destruct (collect_files _ d' _). }
  destruct (collect_files _ d' _) as [e'|l']; [done|]. cbn in Hagree.
  rewrite <- (sorted_by_path_perm _ _ Hagree).
  - by destruct (hash_all _ _ _ _).
  - rewrite prefix_all_keys. apply NoDup_prefix. by apply Hnd.
Qed.

End listing_order.

(** X29: the folder hash does not depend on the order in which the
    directories are listed.  When the names in the tree are as a file
    system has them, [calculate_folder_hash] gives the same result on the
    tree and on the tree with the entries of any of its directories in
    another order; it fails on the one exactly when it fails on the
    other. *)
Theorem folder_hash_ignores_listing_order
    (sha256 : list byte -> list byte) (self : ProjectModel) (d d' : node) :
  well_named d -> reordered d d' ->
  match ProjectModel_.calculate_folder_hash sha256 self (Some d),
        ProjectModel_.calculate_folder_hash sha256 self (Some d') with
  | inr r, inr r' => r = r'
  | inl _, inl _ => True
  | _, _ => False
  end.
Proof.
  intros Hwn Hre.
  pose proof (folder_hasher_input_reordered sha256 self d d' Hwn Hre) as Hin.
  destruct Hre as [nm st content|nm st err entries l entries' Hl Hperm]; [done|].
  unfold ProjectModel_.calculate_folder_hash.
  destruct (ProjectModel_.folder_hasher_input sha256 self (Dir nm st err entries)),
           (ProjectModel_.folder_hasher_input sha256 self (Dir nm st err entries'));
    try done.
  by rewrite Hin.
Qed.

Lemma folder_hash_ignores_listing_order_witness :
  match ProjectModel_.calculate_folder_hash (fun _ => []) Examples.album_project
          (Some (Examples.album [])),
        ProjectModel_.calculate_folder_hash (fun _ => []) Examples.album_project
          (Some (Dir "proj" (mkStat 4096 7) None
                   [File "run.py" (inr (mkStat 0 50)) (inr []);
                    File "photo.jpg" (inr (mkStat 0 100)) (inr [])])) with
  | inr r, inr r' => r = r'
  | inl _, inl _ => True
  | _, _ => False
  end.
Proof.
  apply (folder_hash_ignores_listing_order (fun _ => []) Examples.album_project
           (Examples.album [])
           (Dir "proj" (mkStat 4096 7) None
              [File "run.py" (inr (mkStat 0 50)) (inr []);
               File "photo.jpg" (inr (mkStat 0 100)) (inr [])])).
  - cbn. unfold no_sep. cbn.
    repeat first [ split | apply Forall_nil_2 | apply Forall_cons_2 | discriminate
                 | apply NoDup_nil_2 | apply NoDup_cons_2 | exact I
                 | (rewrite !elem_of_cons, elem_of_nil; intros [?|[]]; discriminate)
                 | (apply not_elem_of_nil) ].
  - apply (reordered_dir "proj" (mkStat 4096 7) None _
             [File "photo.jpg" (inr (mkStat 0 100)) (inr []);
              File "run.py" (inr (mkStat 0 50)) (inr [])]).
    + repeat constructor.
    + apply perm_swap.
Defined.

(** ** Sequences and projects that are the same *)

Section identical_sequences.
Context {A : Type} `{Countable A}.
Import difflib.

Lemma getitem_app_l (l k : list A) i :
  i < Py.len l -> Py.getitem (l ++ k) i = Py.getitem l i.
Proof.
  unfold Py.getitem, Py.len. intros Hi. destruct (decide (0 <= i)); [|done].
  apply lookup_app_l. lia.
Qed.

Lemma getitem_Some_lt (l : list A) i x :
  Py.getitem l i = Some x -> 0 <= i < Py.len l.
Proof.
  unfold Py.getitem, Py.len. destruct (decide (0 <= i)); [|done].
  intros Hl%lookup_lt_Some. lia.
Qed.

Lemma getitem_snoc (l : list A) y : Py.getitem (l ++ [y]) (Py.len l) = Some y.
Proof.
  unfold Py.getitem, Py.len. rewrite decide_True by lia.
  rewrite Nat2Z.id. by apply list_lookup_middle.
Qed.

Lemma getitem_snoc_inv (l : list A) y i x :
  Py.getitem (l ++ [y]) i = Some x ->
  Py.getitem l i = Some x \/ (i = Py.len l /\ x = y).
Proof.
  intros Hi. destruct (decide (i < Py.len l)) as [Hlt|Hge].
  - left. by rewrite getitem_app_l in Hi.
  - right. pose proof (getitem_Some_lt _ _ _ Hi) as [H0 Hlen].
    unfold Py.len in *. rewrite length_app in Hlen. cbn in Hlen.
    assert (i = Z.of_nat (length l)) as -> by lia.
    split; [done|]. fold (Py.len l) in Hi. rewrite getitem_snoc in Hi. congruence.
Qed.

Lemma enumerate_snoc (l : list A) y :
  enumerate (l ++ [y]) = enumerate l ++ [(Py.len l, y)].
Proof.
  unfold enumerate, Py.len. rewrite imap_app. cbn. by rewrite Nat.add_0_r.
Qed.

(** The dictionary built from all of [a], before popular elements are
    dropped. *)
Lemma b2j_foldl_indexes (a : list A) :
  indexes a (foldl b2j_setdefault_append ∅ (enumerate a)) /\
  forall x, foldl b2j_setdefault_append ∅ (enumerate a) !! x = None -> x ∉ a.
Proof.
  induction a as [|y a IH] using rev_ind.
  - split; [|intros x _; apply not_elem_of_nil].
    intros x js Hx. cbn in Hx. by rewrite lookup_empty in Hx.
  - destruct IH as [Hidx Hnone]. rewrite enumerate_snoc, foldl_app. cbn [foldl].
    set (m := foldl b2j_setdefault_append ∅ (enumerate a)) in *.
    unfold b2j_setdefault_append. cbn [fst snd].
    assert (Hold : forall x,
              (forall j, j ∈ default [] (m !! x) <-> Py.getitem a j = Some x)
              /\ StronglySorted Z.lt (default [] (m !! x))).
    { intros x. destruct (m !! x) as [js|] eqn:Hm; [by apply Hidx|]. cbn.
      split; [|constructor].
      intros j. split; [by intros ?%elem_of_nil|].
      intros Hj%getitem_elem_of. by apply Hnone in Hm. }
    split.
    + intros x js Hx. destruct (decide (y = x)) as [->|Hne].
      * rewrite lookup_insert_eq in Hx. injection Hx as <-.
        destruct (Hold x) as [Hmem Hsorted]. split.
        -- intros j. rewrite elem_of_app, list_elem_of_singleton, Hmem. split.
           ++ intros [Hj| ->]; [|apply getitem_snoc].
              rewrite getitem_app_l; [done|]. apply getitem_Some_lt in Hj; lia.
           ++ intros [Hj|[-> _]]%getitem_snoc_inv; [by left|by right].
        -- apply StronglySorted_app. split_and!; [|done|by repeat constructor].
           intros j1 j2 Hj1%Hmem%getitem_Some_lt ->%list_elem_of_singleton. lia.
      * rewrite lookup_insert_ne in Hx by done.
        destruct (Hidx x js Hx) as [Hmem Hsorted]. split; [|done].
        intros j. rewrite Hmem. split.
        -- intros Hj. rewrite getitem_app_l; [done|]. apply getitem_Some_lt in Hj; lia.
        -- intros [Hj|[_ ->]]%getitem_snoc_inv; done.
    + intros x Hx. destruct (decide (y = x)) as [->|Hne].
      * by rewrite lookup_insert_eq in Hx.
      * rewrite lookup_insert_ne in Hx by done. apply Hnone in Hx.
        rewrite elem_of_app, list_elem_of_singleton. intros [?|?]; done.
Qed.

Lemma chain_b_indexes (a : list A) : indexes a (__chain_b a).
Proof.
  destruct (b2j_foldl_indexes a) as [Hidx _]. unfold __chain_b.
  destruct (decide (200 <= Py.len a)); [|done].
  intros x js Hx. apply map_lookup_filter_Some in Hx as [Hx _]. by apply Hidx.
Qed.

(** Below 200 elements nothing is dropped from [b2j]: every position
    of [a] is listed under its element, and only positions are. *)
Lemma chain_b_positions (a : list A) i x :
  Py.len a < 200 -> Py.getitem a i = Some x ->
  exists js, __chain_b a !! x = Some js /\ i ∈ js /\
             forall j, j ∈ js -> 0 <= j < Py.len a.
Proof.
  intros Hlen Hi. destruct (b2j_foldl_indexes a) as [Hidx Hnone].
  unfold __chain_b. rewrite decide_False by lia. cbv zeta.
  destruct (foldl b2j_setdefault_append ∅ (enumerate a) !! x) as [js|] eqn:Hx.
  - exists js. destruct (Hidx x js Hx) as [Hmem _]. split; [done|].
    split; [by apply Hmem|]. intros j Hj%Hmem. by eapply getitem_Some_lt.
  - exfalso. apply (Hnone x Hx). by eapply getitem_elem_of.
Qed.

(** The inner loop stores in [newj2len] what [j2len] gives for the cell
    to the upper left, plus one, and never lowers the best size. *)
Lemma flm_inner_keeps i blo bhi j2len js j0 :
  forall newj2len best,
    newj2len !! j0 = Some (default 0 (j2len !! (j0 - 1)) + 1) ->
    (flm_inner i blo bhi j2len js newj2len best).1 !! j0
    = Some (default 0 (j2len !! (j0 - 1)) + 1).
Proof.
  induction js as [|j js IH]; intros newj2len best Hj0; cbn [flm_inner]; [done|].
  destruct (decide (j < blo)); [by apply IH|].
  destruct (decide (j >= bhi)); [done|].
  cbv zeta. apply IH. destruct (decide (j = j0)) as [->|Hne].
  - by rewrite lookup_insert_eq.
  - by rewrite lookup_insert_ne.
Qed.

Lemma flm_inner_size_mono i blo bhi j2len js :
  forall newj2len best,
    m_size best <= m_size (flm_inner i blo bhi j2len js newj2len best).2.
Proof.
  induction js as [|j js IH]; intros newj2len best; cbn [flm_inner]; [done|].
  destruct (decide (j < blo)); [by apply IH|].
  destruct (decide (j >= bhi)); [done|].
  cbv zeta. etrans; [|apply IH]. destruct (decide (_ > m_size best)); cbn; lia.
Qed.

Lemma flm_inner_cell i blo bhi j2len js j0 :
  (forall j, j ∈ js -> j < bhi) -> j0 ∈ js -> blo <= j0 ->
  forall newj2len best,
    let r := flm_inner i blo bhi j2len js newj2len best in
    r.1 !! j0 = Some (default 0 (j2len !! (j0 - 1)) + 1) /\
    default 0 (j2len !! (j0 - 1)) + 1 <= m_size r.2.
Proof.
  intros Hjs Hin Hlo. induction js as [|j js IH]; [by apply elem_of_nil in Hin|].
  intros newj2len best. cbn [flm_inner].
  assert (Hj : j < bhi) by (apply Hjs; by left).
  assert (Hrest : forall j', j' ∈ js -> j' < bhi) by (intros j' Hj'; apply Hjs; by right).
  destruct (decide (j = j0)) as [->|Hne].
  - rewrite decide_False by lia. rewrite decide_False by lia. cbv zeta. split.
    + apply flm_inner_keeps. by rewrite lookup_insert_eq.
    + etrans; [|apply flm_inner_size_mono].
      destruct (decide (_ > m_size best)); cbn; lia.
  - apply elem_of_cons in Hin as [?|Hin]; [done|].
    destruct (decide (j < blo)); [by apply IH|].
    rewrite decide_False by lia. by apply IH.
Qed.

(** Matching [a] with itself: the cell on the diagonal of row [i]
    holds [i + 1], so the best size is at least the number of rows
    done. *)
Lemma flm_outer_diagonal (a : list A) (m : nat) :
  Py.len a < 200 ->
  forall i j2len best,
    0 <= i -> i + Z.of_nat m = Py.len a ->
    default 0 (j2len !! (i - 1)) = i -> i <= m_size best ->
    Py.len a
    <= m_size (flm_outer a (__chain_b a) 0 (Py.len a) (seqZ i (Z.of_nat m)) j2len best).
Proof.
  intros Hlen. induction m as [|m IH]; intros i j2len best Hi Him Hdiag Hbest.
  - change (seqZ i (Z.of_nat 0)) with (@nil Z). cbn [flm_outer]. lia.
  - rewrite seqZ_cons by lia. cbn [flm_outer].
    assert (Hget : exists x, Py.getitem a i = Some x).
    { unfold Py.getitem, Py.len in *. rewrite decide_True by lia.
      apply lookup_lt_is_Some. lia. }
    destruct Hget as [x Hx]. rewrite Hx.
    destruct (chain_b_positions a i x Hlen Hx) as (js & Hjs & Hin & Hbound).
    rewrite Hjs. change (default [] (Some js)) with js.
    pose proof (flm_inner_cell i 0 (Py.len a) j2len js i
                  (fun j Hj => proj2 (Hbound j Hj)) Hin Hi ∅ best) as [Hcell Hsize].
    cbv zeta in Hcell, Hsize.
    destruct (flm_inner i 0 (Py.len a) j2len js ∅ best) as [newj2len best'].
    cbn [fst snd] in Hcell, Hsize.
    replace (Z.pred (Z.of_nat (S m))) with (Z.of_nat m) by lia.
    replace (Z.succ i) with (i + 1) by lia.
    apply IH; [lia|lia| |lia].
    replace (i + 1 - 1) with i by lia. rewrite Hcell. cbn. lia.
Qed.

Lemma find_longest_match_self (a : list A) :
  Py.len a < 200 ->
  find_longest_match a a (__chain_b a) 0 (Py.len a) 0 (Py.len a)
  = mkMatch 0 0 (Py.len a).
Proof.
  intros Hlen. unfold find_longest_match.
  set (n := Py.len a).
  assert (Hn : 0 <= n) by (unfold n, Py.len; lia).
  set (best := flm_outer a (__chain_b a) 0 n (Py.range 0 n) ∅ (mkMatch 0 0 0)).
  assert (Hbest : best = mkMatch 0 0 n).
  { assert (Hin : within 0 n 0 n best).
    { unfold best, Py.range.
      replace (n - 0) with (Z.of_nat (Z.to_nat n)) by lia.
      apply flm_outer_within; [lia|lia| |].
      - intros j k. by rewrite lookup_empty.
      - unfold within; cbn. lia. }
    assert (Hsize : n <= m_size best).
    { unfold best, Py.range.
      replace (n - 0) with (Z.of_nat (Z.to_nat n)) by lia.
      apply flm_outer_diagonal; [done|lia|lia| |cbn; lia].
      by rewrite lookup_empty. }
    destruct best as [i j k]. unfold within in Hin. cbn in *. f_equal; lia. }
  cbv zeta. fold best. rewrite Hbest. cbn [m_a m_b m_size].
  replace (Z.to_nat (0 - 0)) with 0%nat by lia. cbn [flm_extend_left].
  cbn [m_a m_b m_size].
  replace (Z.to_nat (n - (0 + n))) with 0%nat by lia. done.
Qed.

Lemma ratio_self (a : list A) : Py.len a < 200 -> (ratio a a == 1)%Q.
Proof.
  intros Hlen.
  assert (Hraw : raw_matching_blocks a a
                 = Some (if decide (Py.len a = 0) then [] else [mkMatch 0 0 (Py.len a)])).
  { unfold raw_matching_blocks, gmb_fuel. cbn [gmb_loop].
    rewrite (find_longest_match_self a Hlen). cbv zeta. cbn [m_a m_b m_size].
    destruct (decide (Py.len a = 0)); [by destruct (2 * length a)%nat|].
    rewrite (bool_decide_eq_false_2 (0 < 0)) by lia. cbn [andb].
    rewrite (bool_decide_eq_false_2 (0 + Py.len a < Py.len a)) by lia. cbn [andb].
    by destruct (2 * length a)%nat. }
  unfold ratio, get_matching_blocks. rewrite Hraw. cbv zeta.
  unfold _calculate_ratio.
  destruct (decide (Py.len a = 0)) as [H0|H0].
  { rewrite decide_True by lia. reflexivity. }
  rewrite decide_False by lia.
  change (Py.sorted Match_leb (default [] (Some [mkMatch 0 0 (Py.len a)])))
    with [mkMatch 0 0 (Py.len a)].
  cbn [gmb_collapse m_a m_b m_size].
  rewrite (bool_decide_eq_true_2 (0 + 0 = 0)) by lia. cbn [andb].
  rewrite decide_False by (cbn; lia).
  cbn [app fmap list_fmap m_size Py.sum foldr].
  replace (0 + Py.len a + (0 + 0)) with (Py.len a) by lia.
  rewrite inject_Z_plus.
  assert (Hq : ~ (inject_Z (Py.len a) == 0)%Q).
  { intros Heq. unfold Qeq in Heq. cbn in Heq. lia. }
  field. intros Heq. apply Hq. lra.
Qed.

End identical_sequences.

Lemma sorted_leb_perm (l l' : list string) :
  l ≡ₚ l' -> Py.sorted String.leb l = Py.sorted String.leb l'.
Proof.
  intros Hperm.
  assert (Htrans : Transitive (fun x y : string => String.leb x y = true)).
  { intros x y z. apply leb_trans. }
  assert (Hanti : AntiSymm eq (fun x y : string => String.leb x y = true)).
  { intros x y. apply String.leb_antisym. }
  apply (Sorted_unique (fun x y => String.leb x y = true)).
  - apply sorted_Sorted; [done|]. intros a b Hab.
    destruct (String.leb_total a b) as [Hle|Hle]; [congruence|done].
  - apply sorted_Sorted; [done|]. intros a b Hab.
    destruct (String.leb_total a b) as [Hle|Hle]; [congruence|done].
  - by rewrite !sorted_Permutation.
Qed.

Lemma len_list_ascii (s : string) :
  Py.len (list_ascii_of_string s) = Z.of_nat (String.length s).
Proof.
  unfold Py.len. f_equal. induction s as [|c s IH]; [done|]. cbn. by rewrite IH.
Qed.

(** X30: projects that look the same score 1.  Two projects with Python
    files whose file names are the same up to order (fewer than 200 of
    them), whose names are equal (and shorter than 200 characters) and
    whose real sizes, when both are known, are equal and positive, have
    similarity 1, whatever their folder hashes are; so [find_duplicates]
    reports them when both are in the list. *)
Theorem same_looking_projects_score_one (p q : ProjectModel) :
  python_files p <> [] ->
  os_path.basename <$> python_files p ≡ₚ os_path.basename <$> python_files q ->
  Py.len (python_files p) < 200 ->
  name p = name q -> (String.length (name p) < 200)%nat ->
  (forall s1 s2, real_size p = Some s1 -> real_size q = Some s2 -> s1 = s2 /\ 0 < s1) ->
  (FinderModel._calculate_similarity p q == 1)%Q /\
  forall ps i j,
    ps !! i = Some p -> ps !! j = Some q -> (i < j)%nat ->
    (p, q, FinderModel._calculate_similarity p q) ∈ (FinderModel.find_duplicates ps).1.
Proof.
  intros Hp Hperm Hlen Hname Hnlen Hsize.
  assert (Hq : python_files q <> []).
  { intros Hq. rewrite Hq in Hperm. apply Permutation_nil_r in Hperm.
    by apply fmap_nil_inv in Hperm. }
  assert (Hscore : (FinderModel._calculate_similarity p q == 1)%Q).
  { unfold FinderModel._calculate_similarity.
    rewrite !bool_decide_eq_false_2 by done. cbn [orb].
    destruct (_ && _ && _); [reflexivity|]. cbv zeta.
    assert (Hf : (FinderModel.file_similarity p q == 1)%Q).
    { unfold FinderModel.file_similarity, FinderModel.sorted_basenames.
      rewrite <- (sorted_leb_perm _ _ Hperm). apply ratio_self.
      unfold Py.len in *. rewrite sorted_Permutation, length_fmap. done. }
    assert (Hn : (FinderModel.name_similarity p q == 1)%Q).
    { unfold FinderModel.name_similarity, difflib.ratio_str. rewrite <- Hname.
      apply ratio_self. rewrite len_list_ascii. lia. }
    destruct (real_size p) as [s1|] eqn:H1, (real_size q) as [s2|] eqn:H2;
      cbn [FinderModel.is_not_None andb]; try lra.
    destruct (Hsize s1 s2 eq_refl eq_refl) as [<- Hpos].
    assert (Hz : (FinderModel.size_similarity p q == 1)%Q).
    { unfold FinderModel.size_similarity. rewrite H1, H2.
      rewrite !bool_decide_eq_true_2 by lia. cbn [andb]. cbv zeta.
      rewrite Z.min_id, Z.max_id.
      assert (Hs : ~ (inject_Z s1 == 0)%Q).
      { intros Heq. unfold Qeq in Heq. cbn in Heq. lia. }
      field. done. }
    lra. }
  split; [done|]. intros ps i j Hi Hj Hij.
  unfold FinderModel.find_duplicates. apply find_duplicates_with_elem.
  exists i, j. split_and!; try done.
  apply Qle_bool_iff. rewrite Hscore. done.
Qed.

Lemma same_looking_projects_score_one_witness :
  (FinderModel._calculate_similarity Examples.sized_five
     (Examples.project "/r/four/app" "app" ["/r/four/app/a.py"] (Some 5%Z) None) == 1)%Q /\
  forall ps i j,
    ps !! i = Some Examples.sized_five ->
    ps !! j = Some (Examples.project "/r/four/app" "app" ["/r/four/app/a.py"]
                      (Some 5%Z) None) ->
    (i < j)%nat ->
    (Examples.sized_five,
     Examples.project "/r/four/app" "app" ["/r/four/app/a.py"] (Some 5%Z) None,
     FinderModel._calculate_similarity Examples.sized_five
       (Examples.project "/r/four/app" "app" ["/r/four/app/a.py"] (Some 5%Z) None))
    ∈ (FinderModel.find_duplicates ps).1.
Proof.
  apply (same_looking_projects_score_one Examples.sized_five
           (Examples.project "/r/four/app" "app" ["/r/four/app/a.py"] (Some 5%Z) None)).
  - discriminate.
  - vm_compute. reflexivity.
  - vm_compute. reflexivity.
  - reflexivity.
  - vm_compute. lia.
  - intros s1 s2 [= <-] [= <-]. split; [done|lia].
Defined.
